(* ===== verification/_CoqProject ===== *)
-Q . S2P
Prelude.v
Text.v
Errors.v
Cursor.v
Wire.v
Tags.v
Header.v
FixedTags.v
Encoding.v
Versions.v
Path.v
Cert.v
Srep.v
Request.v
Response.v
Fuzz.v
Merkle.v
Crypto.v
Keys.v
Longterm.v
Storage.v
Files.v
KeysCli.v
KeysMain.v
Krs.v
Backends.v
Floats.v
Metrics.v
Aggregator.v
Snapshot.v
Watcher.v
Responses.v
Validation.v
Measurement.v
Requests.v
EndToEnd.v
TestUtils.v
Args.v
Worker.v
Checked.v
Authentic.v
Tally.v
Server.v
System.v
Threads.v
Client.v
Transport.v
LoadGen.v
ServerList.v
Reporting.v
ReportServer.v
ReportApp.v
RawFrame.v
Cli.v
Integration.v
