(* ===== verification/Prelude.v ===== *)
(** * Roughenough: a verification development

    Roughenough is a Roughtime client and server: a client sends a nonce in a
    1024-byte frame, the server signs the time together with the root of a Merkle
    tree over a batch of requests, and the client checks the chain from the
    server's long-term key to its own request.  This file is the root of the
    development and its prelude; the parts, in the order they build on each other:

    - The wire format (src/crates/roughenough-protocol).  [Errors], [Cursor]
      (cursor.rs: every reader and writer as a step of a cursor, with the program
      logic [writes]/[reads]/[parses]), [Wire] (wire.rs: the traits, framing, and
      the contracts [LawfulWrite], [LawfulRead], [Canonical] that the encoders and
      parsers owe), [Tags], [Header], [FixedTags], [Versions], [Path], [Cert],
      [Srep], and the messages [Request] and [Response].  The field types discharge
      the contracts; the messages' theorems are proved against them.
    - The Merkle tree: [Merkle] (roughenough-merkle).
    - Keys: [Crypto] (the crypto library's interface, clocksource.rs, crypto.rs of
      roughenough-common), [Keys] (seed.rs, memory.rs, onlinekey.rs, identity.rs
      and the server's keysource.rs, against the class [SeedBackend]), [Krs] and
      [Backends] (the kernel keyring, the SSH agent and PKCS#11 as instances of
      that class), [Longterm] and [Storage] (envelopes and the cloud services),
      [KeysCli] and [KeysMain] (the handlers of bin/keys.rs, and its main with the
      files that it opens), [Encoding] and [Text] (encoding.rs and strings).
    - The server (roughenough-server): [Metrics], [Aggregator] and [Snapshot]
      (metrics/), [Responses] (responses.rs), [Requests] (requests.rs, network.rs),
      [Args], [Worker] (worker.rs) and [Server] (main.rs).  A worker owns a network
      handler and a request handler, which owns the response handler, which owns the
      tree and the online key; what workers publish goes to the aggregator, which
      writes its reports to files.  [System] runs the threads of a server together: a
      step is a turn of a worker, a snapshot taken off the channel, or a turn of the
      collector, in any order.  [Threads] gives the threads their lives: the binding of
      sockets, the flag that Ctrl-C clears, and [main], which joins them.  [Tally]
      counts what a worker's loops do, and [Checked] runs a worker in a build with
      overflow checks.
    - The client (roughenough-client): [Validation], [Measurement], [Client]
      (client.rs, sequence.rs), [Transport] (transport.rs), [ServerList], [Reporting],
      [RawFrame] and [Cli] (main.rs); and [ReportServer] and [ReportApp]
      (roughenough-reporting-server), to which the client's reports go.  [EndToEnd] joins the server and the client at the bytes
      they exchange, and [Authentic] at what a server's workers have ever signed.
    - Programs around them: [Watcher] (examples/metrics_watcher.rs, which reads the
      collector's files), [LoadGen] (load_gen.rs of roughenough-integration, threads
      that share atomic counters), [TestUtils] (test_utils.rs of the server, the
      contexts in which the client is tested), [Integration] (the end-to-end tests of
      roughenough-integration/src/main.rs, which start servers and clients as
      processes), and [Fuzz], the fuzz target of responses.
    - Generic: [Floats] (the [f64] of the rates, as binary64 of SpecFloat) and
      [Files] (a file system as a map of paths, whose operations return every state
      that they pass through).

    ** Conventions

    Fallible code returns [res E A]: a value, an [Err], or [Panic] (an index out of
    range, an [expect], a checked overflow).  Code that mutates [self] takes and
    returns the record; code that uses the world is in the state monad [io].
    [u64], [u32] and [u8] values are [Z] and their arithmetic is that of the build
    [Profile]: with overflow checks it panics, without it wraps.  [usize] is
    64 bits: sizes and indices are [nat], and a conversion of 32-bit values to
    [usize] loses nothing.  An array [[u8; N]] is a list of bytes whose length is
    its type's [wf].  The definitions are executable, and the witnesses, one per
    property with hypotheses, evaluate them with [toy] instances of the parameters.

    ** What the theorems show

    Properties carry a number [C<n>] in their doc comment.

    - Liveness and termination: from its start with a seed in memory, in a keyring or
      in an SSH agent, given in the arguments or sealed under a key of a KMS that
      answers, the server's workers answer every acceptable datagram and stay within
      the life of their keys: the client of a request of the server's version gets a
      response that validates, and a client of the other version, whose requests the
      server accepts as well, one that it refuses
      ([Server.server_serves], [Worker.worker_serves]), as long as the socket is
      drained in time; without that a delegation expires
      ([Worker.overloaded_worker_expires]).  These are of the release profile; a
      worker of a build with overflow checks serves too, as long as no batch size
      occurs more than 255 times between two publications of its metrics
      ([Checked.checked_worker_serves]), and panics at the next
      ([Checked.checked_pass_decides]).  One iteration always ends
      ([Worker.iteration_total]); after Ctrl-C all threads do, in a bounded number of
      steps ([Threads.server_stops]), and a server without sockets does not end before
      ([Threads.unbound_server_stays]).  Submission with backoff
      ([Reporting.submit_schedule]) and the parsers end on all inputs.
    - Refinement and composition: every reply to a batch validates at the client
      that sent its request exactly while the online key is current, if the client is
      of the server's version, and is refused otherwise
      ([EndToEnd.served_batch_validates]), so that the client
      measures the server's clock ([Client.query_measures_server_time]); a query is
      decided by its transport ([Client.query_raw_total]); the reporting
      server is a history of accepted reports ([ReportApp.reports_kept]); sequences
      are chained ([Client.sequence_run_chained]), and the time of several servers
      comes from such a chain of servers of the list ([Cli.multiple_servers_time]); the keyring backend, a thread
      with messages, refines the seed backend ([Krs.krs_backend_refines]).
    - Safety of the client: a time that a client accepts is one that the server
      signed for a batch with the client's request, whatever the network does
      ([Authentic.accepted_time_authentic]).  What the validator accepts is decided
      exactly ([Validation.validate_draft14_decides], and draft 08), a path that
      verifies leads to a leaf ([Merkle.merkle_path_sound]), and a response with
      consistent offsets is authentic; one without them can be forged.
    - The threads together: whatever their interleaving nothing panics, and the
      counters of the workers, the channel and the collector add up to what was
      received and sent ([System.threads_account]).  The collector accounts for every
      snapshot ([Aggregator.collector_accounts]), its files are whole at every moment
      ([Snapshot.metrics_files_whole]), its rates are not those of the period
      ([Aggregator.report_rates_cumulative]), and a program that watches them shows
      whole reports, each once ([Watcher.watcher_shows_reports]).  The load
      generator's reports show what was counted less what its reset lost, and all the
      errors since the start ([LoadGen.load_test_accounts]).
    - The tests: the draft-08 context, which has its own copy of the response loop,
      sends what the server sends ([TestUtils.draft08_context_refines]); the pairs
      that the contexts make validate exactly within the delegation
      ([TestUtils.interaction_pair_validates]); the end-to-end tests kill and wait for
      every server they start, and run clients only against servers that were found
      running ([Integration.servers_cleaned_up]), and their causality tests find the
      server whose clock is late ([Integration.causality_tests_decide]).
    - Round trips and totality of frames, requests and responses; a seed is sealed
      when the KMS accepts and opens when it answers, to that seed and no other
      ([Storage.kms_store_load]), also through the tool and its files
      ([KeysMain.sealed_file_opens], [KeysMain.cli_never_overwrites]).
    - Invariants and bounds of batches, server lists and reports; the error
      behaviours found on the way.

    ** Fuel and bounds

    Loops that the code runs until a condition holds take fuel, and the theorems show
    that it is enough.  [Worker.drain_fuel] ([None] when it runs out): each
    batch but the last takes a datagram off the socket, so the number of datagrams
    and one more is enough.  [Merkle.root_loop] ([Panic] when it runs out): a level halves the nodes, so the
    number of leaves is enough.  [Encoding]'s dump and [Text]'s UTF-8 reader consume
    at least a byte per turn and get the length.  [Reporting.submit_loop] makes at
    most one attempt more than the retries it is given.  A batch has at most 64
    requests ([Args.args_ok]), so that paths stay far below their 32 nodes.

    ** Parameters

    Code outside the repository is a class, and what is relied on is a class of
    laws, each with an instance or a concrete input in a witness: SHA-512 and
    Ed25519 ([CryptoLaws]: output lengths, and signatures that verify; no
    strength is assumed: the soundness of paths ends in "or two of the strings hashed
    collide", that of a response in the signature check having succeeded, and in
    [Authentic] an unforgeable signature is the hypothesis that what verifies in this
    response, under a key of the server, is in the log of what it signed), the text
    codecs ([DataEncodingLaws]), JSON ([JsonLaws]), the cloud services
    ([CloudLaws]: the random source, the cipher and the checksum do their work; every
    call of a KMS may fail, and name any key, but what it encrypted decrypts to the
    same plaintext if it answers: [Storage.kms_accepts] and [Storage.kms_answers] say
    when its answers are as the sources demand), kernel keyrings ([KeyRingsLaws]), the
    SSH agent and PKCS#11 devices ([SshAgentLaws], [Pkcs11Laws]), the server's sockets
    ([Threads.SocketOps], without laws), the processes and files of the tests and the
    sockets of the load generator ([Integration.Host], [LoadGen.LoadHost], without
    laws), the HTTP agent
    ([ReportNet]), server list files ([ListIoLaws]), the random source of the command
    line ([CliLaws]) and UDP sockets ([NetLaws]).  A client's transport returns no more
    bytes than its buffer holds ([Client.transport_ok], proved of UDP in
    [Transport.udp_transport_ok]).  The clocks that the server reads are hypotheses of
    its theorems ([Worker.prompt], [Server.start_ok]).

    ** Not modelled

    Logging, [Debug] and [Display] text, and error messages that only carry text.
    A system clock set before 1970, at which clocksource.rs panics: clocks are
    numbers of 64 bits without a sign.
    Sockets and mio's polling: an operation is given the outcomes
    of the calls it makes, in order.  Threads share nothing but the metrics channel
    and the flag that stops them; within a turn of a loop they are not interleaved.
    The load generator's threads are, at every atomic operation, in the order of the
    program: what relaxed operations may reorder beyond that is not.  A panic ends
    its thread, as in the profiles that unwind (release-min-size aborts).  The time
    that waiting for a child process takes, which has no end if the child cannot be
    killed.  clap's parser of arguments (its ranges are in
    [Args]), axum's routing, the JSON text of reports, server lists and metrics, the
    dates in file names.  The text of the
    client's console dump, except for the reader of frames behind it.  The stub of the keyring backend
    for systems other than Linux.  The unit tests, of which the integration crate's
    lib.rs consists (they check on examples what the theorems state for all inputs),
    the benchmarks, and the two other fuzz targets, which do not compile: they call
    functions that the protocol crate does not have. *)
From Stdlib Require Export ZArith Lia.
From coqutil Require Export Byte Word.LittleEndianList.
From stdpp Require Export base list numbers strings options.

Abbreviation bytes := (list Init.Byte.byte).

#[export] Instance byte_eq_dec : EqDecision Init.Byte.byte := Byte.byte_eq_dec.

(** ** Outcomes of Rust code: a value, an [Err], or a panic. *)

Inductive res (E A : Type) : Type :=
| Ok (a : A)
| Err (e : E)
| Panic.
Arguments Ok {E A} a.
Arguments Err {E A} e.
Arguments Panic {E A}.

#[export] Instance res_ret {E : Type} : MRet (res E) := fun A a => Ok a.
#[export] Instance res_bind {E : Type} : MBind (res E) :=
  fun A B f m => match m with Ok a => f a | Err e => Err e | Panic => Panic end.

(** [map_err f m] is the conversion of the error type made by [?] or [map_err]. *)
Definition map_err {E F A : Type} (f : E -> F) (m : res E A) : res F A :=
  match m with Ok a => Ok a | Err e => Err (f e) | Panic => Panic end.

(** [expect m] is [m.expect(..)] or [m.unwrap()]: an error becomes a panic. *)
Definition expect {E F A : Type} (m : res E A) : res F A :=
  match m with Ok a => Ok a | Err _ => Panic | Panic => Panic end.

(** ** Code with effects: it changes a state [W] and can fail. *)

Definition io (W E A : Type) : Type := W -> res E A * W.

#[export] Instance io_ret {W E : Type} : MRet (io W E) := fun _ a w => (Ok a, w).
#[export] Instance io_bind {W E : Type} : MBind (io W E) := fun _ _ k m w =>
  match m w with
  | (Ok a, w') => k a w'
  | (Err e, w') => (Err e, w')
  | (Panic, w') => (Panic, w')
  end.
Definition lift {W E A} (m : res E A) : io W E A := fun w => (m, w).
Definition throw {W E A} (e : E) : io W E A := fun w => (Err e, w).
(** [expect] of a computation with effects *)
Definition expect_io {W E F A} (m : io W E A) : io W F A := fun w => let (r, w') := m w in (expect r, w').

(** Two different strings with one hash. *)
Definition collides {A B : Type} (h : A -> B) (x y : A) : Prop := x <> y /\ h x = h y.

(** ** Machine integers

    Lengths and indices ([usize]) are [nat]; [u32] and [u64] values are [Z]
    with the ranges below. *)

Definition is_u32 (z : Z) : Prop := (0 <= z < 2 ^ 32)%Z.
Definition is_u64 (z : Z) : Prop := (0 <= z < 2 ^ 64)%Z.

(** [n as u32] for a [usize]. *)
Definition as_u32 (n : nat) : Z := (Z.of_nat n mod 2 ^ 32)%Z.

(** [a + b] on [u32] in the release profile (no overflow checks). *)
Definition u32_add (a b : Z) : Z := ((a + b) mod 2 ^ 32)%Z.

Definition u64_max : Z := (2 ^ 64 - 1)%Z.

(** [a.saturating_add(b)] on [u64]. *)
Definition u64_saturating_add (a b : Z) : Z := Z.min (a + b) u64_max.

(** ** Byte order *)

(** [v.to_le_bytes()] for a value of [n] bytes. *)
Definition to_le_bytes (n : nat) (v : Z) : bytes := le_split n v.
(** [v.to_be_bytes()]. *)
Definition to_be_bytes (n : nat) (v : Z) : bytes := rev (le_split n v).
(** [uN::from_le_bytes(bs)]. *)
Definition from_le_bytes (bs : bytes) : Z := le_combine bs.
(** [uN::from_be_bytes(bs)]. *)
Definition from_be_bytes (bs : bytes) : Z := le_combine (rev bs).

(** [[0u8; n]] *)
Definition zeroes (n : nat) : bytes := replicate n Byte.x00.

(** [b"..."] *)
Definition b_lit (s : string) : bytes := String.list_byte_of_string s.
Arguments b_lit s%_string.

#[global] Arguments Nat.ltb : simpl never.
Arguments to_le_bytes : simpl never.
Arguments to_be_bytes : simpl never.
Arguments from_le_bytes : simpl never.
Arguments from_be_bytes : simpl never.
Arguments zeroes : simpl never.

Lemma length_to_le_bytes n v : length (to_le_bytes n v) = n.
Proof. apply length_le_split. Qed.

Lemma length_to_be_bytes n v : length (to_be_bytes n v) = n.
Proof. unfold to_be_bytes. rewrite length_rev. apply length_le_split. Qed.

Lemma length_zeroes n : length (zeroes n) = n.
Proof. apply length_replicate. Qed.

Lemma from_to_le_bytes_mod n v :
  from_le_bytes (to_le_bytes n v) = (v mod 2 ^ (Z.of_nat n * 8))%Z.
Proof. apply le_combine_split. Qed.

Lemma from_to_le_bytes_u32 v : is_u32 v -> from_le_bytes (to_le_bytes 4 v) = v.
Proof.
  intros Hv. rewrite from_to_le_bytes_mod.
  change (2 ^ (Z.of_nat 4 * 8))%Z with (2 ^ 32)%Z. by apply Z.mod_small.
Qed.

Lemma from_to_le_bytes_u64 v : is_u64 v -> from_le_bytes (to_le_bytes 8 v) = v.
Proof.
  intros Hv. rewrite from_to_le_bytes_mod.
  change (2 ^ (Z.of_nat 8 * 8))%Z with (2 ^ 64)%Z. by apply Z.mod_small.
Qed.

Lemma from_to_be_bytes n v : from_be_bytes (to_be_bytes n v) = from_le_bytes (to_le_bytes n v).
Proof. unfold from_be_bytes, to_be_bytes. by rewrite rev_involutive. Qed.

Lemma to_from_le_bytes n bs : length bs = n -> to_le_bytes n (from_le_bytes bs) = bs.
Proof. intros <-. apply split_le_combine. Qed.

Lemma to_from_be_bytes n bs : length bs = n -> to_be_bytes n (from_be_bytes bs) = bs.
Proof.
  intros Hn. unfold to_be_bytes, from_be_bytes.
  rewrite <-(length_rev bs) in Hn. subst n.
  by rewrite split_le_combine, rev_involutive.
Qed.

Lemma from_le_bytes_u32 bs : length bs = 4 -> is_u32 (from_le_bytes bs).
Proof.
  intros Hn. pose proof (le_combine_bound bs) as Hb. rewrite Hn in Hb.
  exact Hb.
Qed.

Lemma from_be_bytes_u32 bs : length bs = 4 -> is_u32 (from_be_bytes bs).
Proof. intros Hn. apply (from_le_bytes_u32 (rev bs)). by rewrite length_rev. Qed.

Lemma from_le_bytes_u64 bs : length bs = 8 -> is_u64 (from_le_bytes bs).
Proof.
  intros Hn. pose proof (le_combine_bound bs) as Hb. rewrite Hn in Hb.
  exact Hb.
Qed.

Lemma as_u32_small n : (Z.of_nat n < 2 ^ 32)%Z -> as_u32 n = Z.of_nat n.
Proof. intros H. apply Z.mod_small. lia. Qed.

Lemma u32_add_small a b :
  (0 <= a)%Z -> (0 <= b)%Z -> (a + b < 2 ^ 32)%Z -> u32_add a b = (a + b)%Z.
Proof. intros. apply Z.mod_small. lia. Qed.

(** ** [size_of] of a [repr(C)] struct: each field is placed at the next multiple
    of its alignment, and the size is rounded up to the largest alignment. *)
Definition align_up (off align : nat) : nat := (off + align - 1) / align * align.
Fixpoint repr_c_end (off : nat) (fields : list (nat * nat)) : nat :=
  match fields with
  | [] => off
  | (size, align) :: fs => repr_c_end (align_up off align + size) fs
  end.
Definition repr_c_size (fields : list (nat * nat)) : nat :=
  align_up (repr_c_end 0 fields) (foldr Nat.max 1 (map snd fields)).

(** [a - b] on an unsigned integer with overflow checks: underflow panics. *)
Definition usize_sub {E} (a b : nat) : res E nat := if b <=? a then Ok (a - b) else Panic.
Definition u32_sub {E} (a b : Z) : res E Z := if (b <=? a)%Z then Ok (a - b)%Z else Panic.

(** Profile of the build: Cargo's dev profile has overflow checks and debug
    assertions, the release profile has neither. *)
Class Profile := debug_build : bool.

(** [debug_assert!(b)] *)
Definition debug_assert `{!Profile} {E} (b : bool) : res E unit :=
  if debug_build && negb b then Panic else Ok tt.

(** [a + b], [a - b] on [u64] and [a + b] on [u8] in the profile. *)
Definition u64_add `{!Profile} {E} (a b : Z) : res E Z :=
  if (a + b <=? u64_max)%Z then Ok (a + b)%Z
  else if debug_build then Panic else Ok ((a + b) mod 2 ^ 64)%Z.
Definition u64_sub `{!Profile} {E} (a b : Z) : res E Z :=
  if (b <=? a)%Z then Ok (a - b)%Z
  else if debug_build then Panic else Ok ((a - b) mod 2 ^ 64)%Z.
Definition u8_add `{!Profile} {E} (a b : Z) : res E Z :=
  if (a + b <=? 255)%Z then Ok (a + b)%Z
  else if debug_build then Panic else Ok ((a + b) mod 256)%Z.

(** [a * b] on [u64], and [a + b] on [u32] in the profile. *)
Definition u64_mul `{!Profile} {E} (a b : Z) : res E Z :=
  if (a * b <=? u64_max)%Z then Ok (a * b)%Z
  else if debug_build then Panic else Ok ((a * b) mod 2 ^ 64)%Z.
Definition u32_plus `{!Profile} {E} (a b : Z) : res E Z :=
  if (a + b <=? 2 ^ 32 - 1)%Z then Ok (a + b)%Z
  else if debug_build then Panic else Ok ((a + b) mod 2 ^ 32)%Z.

(** Without overflow checks they always return. *)
Lemma u64_add_ok `{!Profile} {E} a b : debug_build = false \/ (a + b <= u64_max)%Z ->
  exists c, u64_add (E := E) a b = Ok c /\ ((a + b <= u64_max)%Z -> c = (a + b)%Z).
Proof.
  intros Hd. unfold u64_add. destruct (Z.leb_spec (a + b) u64_max); [by eexists|].
  destruct Hd as [->|]; [|lia]. eexists. split; [done|lia].
Qed.
Lemma u64_sub_ok `{!Profile} {E} a b : debug_build = false \/ (b <= a)%Z ->
  exists c, u64_sub (E := E) a b = Ok c /\ ((b <= a)%Z -> c = (a - b)%Z).
Proof.
  intros Hd. unfold u64_sub. destruct (Z.leb_spec b a); [by eexists|].
  destruct Hd as [->|]; [|lia]. eexists. split; [done|lia].
Qed.

Lemma sum_list_with_insert {A} (f : A -> nat) x y (l : list A) : forall i, l !! i = Some x ->
  sum_list_with f (<[i := y]> l) + f x = sum_list_with f l + f y.
Proof.
  induction l as [|a l IH]; intros [|i] Hi; [done..| |].
  - injection Hi as ->. cbn. lia.
  - specialize (IH i Hi). change (<[S i := y]> (a :: l)) with (a :: <[i := y]> l). cbn [sum_list_with]. lia.
Qed.

Lemma filter_all {A} (P : A -> Prop) `{!forall x, Decision (P x)} (l : list A) : Forall P l -> filter P l = l.
Proof. induction 1 as [|x l Hx _ IH]; [done|]. by rewrite filter_cons_True, IH. Qed.
Lemma filter_none {A} (P : A -> Prop) `{!forall x, Decision (P x)} (l : list A) :
  Forall (fun x => ~ P x) l -> filter P l = [].
Proof. induction 1 as [|x l Hx _ IH]; [done|]. by rewrite filter_cons_False. Qed.

(** [xs[i]]: panics out of range. *)
Definition index {E A} (xs : list A) (i : nat) : res E A :=
  match xs !! i with Some x => Ok x | None => Panic end.

(** [small bs]: the length of [bs] is a [u32]. *)
Definition small (bs : bytes) : Prop := (Z.of_nat (length bs) < 2 ^ 32)%Z.

(** ** Automation shared by the development *)

Create HintDb roughtime.

Create Rewrite HintDb wire_length.
#[export] Hint Rewrite length_to_le_bytes length_to_be_bytes length_zeroes : wire_length.
#[export] Hint Rewrite @length_app @length_nil @length_cons @length_replicate @length_rev : wire_length.

(** [len] computes the length of an encoding and closes the arithmetic. *)
Ltac len := autorewrite with wire_length in *; simpl in *; try lia.

#[export] Hint Resolve from_le_bytes_u32 from_be_bytes_u32 from_le_bytes_u64 : roughtime.

(** ** [std::net] addresses *)

Inductive IpAddr : Type := Ipv4 (ip : Z) | Ipv6 (ip : Z).

Inductive SocketAddr : Type :=
| V4 (ip port : Z)
| V6 (ip port flowinfo scope_id : Z).

(** [SocketAddr::new(ip, port)] *)
Definition SocketAddr_new (addr : IpAddr) (port : Z) : SocketAddr :=
  match addr with Ipv4 ip => V4 ip port | Ipv6 ip => V6 ip port 0 0 end.
