(* ===== verification/Text.v ===== *)
(** * Strings

    The operations of Rust's [str] that the program uses, on strings as sequences
    of bytes: prefixes, splitting, decimal numbers and lossy UTF-8. *)
From Stdlib Require Import Ascii.
From S2P Require Import Prelude.

Local Open Scope string_scope.
#[global] Arguments Ascii.eqb : simpl never.

(** [s.as_bytes()] *)
Definition str_bytes (s : string) : bytes := String.list_byte_of_string s.

Definition of_bytes (bs : bytes) : string := String.string_of_list_byte bs.

Lemma str_bytes_of_bytes bs : str_bytes (of_bytes bs) = bs.
Proof. apply String.list_byte_of_string_of_list_byte. Qed.
Lemma of_bytes_str_bytes s : of_bytes (str_bytes s) = s.
Proof. apply String.string_of_list_byte_of_string. Qed.
Lemma append_cons c s t : String c s +:+ t = String c (s +:+ t).
Proof. reflexivity. Qed.
Lemma str_bytes_app s t : str_bytes (s +:+ t) = (str_bytes s ++ str_bytes t)%list.
Proof.
  induction s as [|c s IH]; [done|].
  change (str_bytes (String c s +:+ t)) with (byte_of_ascii c :: str_bytes (s +:+ t)). by rewrite IH.
Qed.

Definition is_empty (s : string) : bool := match s with EmptyString => true | _ => false end.

(** [s.strip_prefix(p)] and [s.starts_with(p)] *)
Fixpoint strip_prefix (p s : string) : option string :=
  match p, s with
  | EmptyString, _ => Some s
  | String a p', String b s' => if Ascii.eqb a b then strip_prefix p' s' else None
  | _, _ => None
  end.
Definition starts_with (p s : string) : bool := match strip_prefix p s with Some _ => true | None => false end.

Lemma strip_prefix_app p s : strip_prefix p (p +:+ s) = Some s.
Proof.
  induction p as [|c p IH]; [by destruct s|]. rewrite append_cons. cbn. by rewrite Ascii.eqb_refl.
Qed.

Lemma strip_prefix_Some p : forall s r, strip_prefix p s = Some r <-> s = p +:+ r.
Proof.
  induction p as [|a p IH]; intros s r; cbn.
  - change ("" +:+ r) with r. destruct s; split; congruence.
  - rewrite append_cons. destruct s as [|b s]; [split; [done|intros [=]]|].
    destruct (Ascii.eqb_spec a b) as [->|Hn]; [|split; [done|congruence]].
    rewrite IH. split; congruence.
Qed.

Lemma starts_with_app p s : starts_with p (p +:+ s) = true.
Proof. unfold starts_with. by rewrite strip_prefix_app. Qed.

(** [s.split(c)]: one piece more than there are separators. *)
Fixpoint split_on (c : ascii) (s : string) : list string :=
  match s with
  | EmptyString => [EmptyString]
  | String a s' =>
      if Ascii.eqb a c then EmptyString :: split_on c s'
      else match split_on c s' with
           | piece :: pieces => String a piece :: pieces
           | [] => [String a EmptyString]
           end
  end.

(** [s.splitn(2, c)] *)
Fixpoint split_once (c : ascii) (s : string) : option (string * string) :=
  match s with
  | EmptyString => None
  | String a s' =>
      if Ascii.eqb a c then Some (EmptyString, s')
      else match split_once c s' with Some (l, r) => Some (String a l, r) | None => None end
  end.
Definition splitn2 (c : ascii) (s : string) : list string :=
  match split_once c s with Some (l, r) => [l; r] | None => [s] end.

Lemma split_on_once c s :
  split_on c s = match split_once c s with Some (l, r) => l :: split_on c r | None => [s] end.
Proof.
  induction s as [|a s IH]; cbn; [done|]. destruct (Ascii.eqb a c); [done|].
  rewrite IH. by destruct (split_once c s) as [[l r]|].
Qed.

Lemma split_once_eq c s l r : split_once c s = Some (l, r) -> s = l +:+ String c r.
Proof.
  revert l r. induction s as [|a s IH]; intros l r; cbn; [done|].
  destruct (Ascii.eqb_spec a c) as [->|Hn]; [by intros [= <- <-]|].
  destruct (split_once c s) as [[l' r']|]; [|done]. intros [= <- <-]. rewrite append_cons. f_equal. by apply IH.
Qed.

(** [s.parse::<uN>()] for the maximum [max]: an optional [+], then at least one
    digit, and no overflow on the way. *)
Definition digit_value (c : ascii) : option Z :=
  let n := nat_of_ascii c in
  if (48 <=? n)%nat && (n <=? 57)%nat then Some (Z.of_nat n - 48)%Z else None.
Fixpoint parse_digits (max acc : Z) (s : string) : option Z :=
  match s with
  | EmptyString => Some acc
  | String c s' =>
      d ← digit_value c;
      let acc' := (acc * 10 + d)%Z in
      if (acc' <=? max)%Z then parse_digits max acc' s' else None
  end.
Definition parse_uint (max : Z) (s : string) : option Z :=
  match s with
  | EmptyString => None
  | String "+" EmptyString => None
  | String "+" s' => parse_digits max 0 s'
  | _ => parse_digits max 0 s
  end.
Definition parse_u16 : string -> option Z := parse_uint 65535.

Lemma digit_value_nonneg c d : digit_value c = Some d -> (0 <= d <= 9)%Z.
Proof.
  unfold digit_value. destruct (Nat.leb_spec 48 (nat_of_ascii c)); [|done].
  destruct (Nat.leb_spec (nat_of_ascii c) 57); [|done]. intros [= <-]. lia.
Qed.

Lemma parse_digits_range max s : forall acc n, (0 <= acc <= max)%Z -> parse_digits max acc s = Some n -> (0 <= n <= max)%Z.
Proof.
  induction s as [|c s IH]; intros acc n Hacc; cbn; [by intros [= <-]|].
  destruct (digit_value c) as [d|] eqn:Hd; [|done]. cbn. pose proof (digit_value_nonneg _ _ Hd).
  destruct (Z.leb_spec (acc * 10 + d) max); [|done]. apply IH. lia.
Qed.

Lemma parse_u16_range s n : parse_u16 s = Some n -> (0 <= n < 65536)%Z.
Proof.
  assert (forall t m, parse_digits 65535 0 t = Some m -> (0 <= m < 65536)%Z) as Hd.
  { intros t m H%parse_digits_range; lia. }
  unfold parse_u16, parse_uint. intros H. repeat case_match; (done || by eapply Hd).
Qed.

(** [String::from_utf8_lossy]: each maximal part of an ill-formed sequence becomes
    U+FFFD. *)
Definition in_range (lo hi : Z) (b : Init.Byte.byte) : bool := (lo <=? byte.unsigned b)%Z && (byte.unsigned b <=? hi)%Z.
Definition continuation : Init.Byte.byte -> bool := in_range 0x80 0xbf.
Definition replacement : bytes := [Byte.xef; Byte.xbf; Byte.xbd].

(** The second byte that may follow the first one of a sequence of three or four. *)
Definition second_of_three (a : Init.Byte.byte) : Init.Byte.byte -> bool :=
  let n := byte.unsigned a in
  if (n =? 0xe0)%Z then in_range 0xa0 0xbf else if (n =? 0xed)%Z then in_range 0x80 0x9f else continuation.
Definition second_of_four (a : Init.Byte.byte) : Init.Byte.byte -> bool :=
  let n := byte.unsigned a in
  if (n =? 0xf0)%Z then in_range 0x90 0xbf else if (n =? 0xf4)%Z then in_range 0x80 0x8f else continuation.

(** The length of the next chunk, and whether it is well-formed. *)
Definition utf8_chunk (bs : bytes) : nat * bool :=
  match bs with
  | [] => (0, true)
  | a :: r =>
      if in_range 0 0x7f a then (1, true)
      else if in_range 0xc2 0xdf a then
        match r with b :: _ => if continuation b then (2, true) else (1, false) | [] => (1, false) end
      else if in_range 0xe0 0xef a then
        match r with
        | b :: r' =>
            if second_of_three a b then
              match r' with c :: _ => if continuation c then (3, true) else (2, false) | [] => (2, false) end
            else (1, false)
        | [] => (1, false)
        end
      else if in_range 0xf0 0xf4 a then
        match r with
        | b :: r' =>
            if second_of_four a b then
              match r' with
              | c :: r'' =>
                  if continuation c then
                    match r'' with d :: _ => if continuation d then (4, true) else (3, false) | [] => (3, false) end
                  else (2, false)
              | [] => (2, false)
              end
            else (1, false)
        | [] => (1, false)
        end
      else (1, false)
  end.
Fixpoint utf8_lossy (fuel : nat) (bs : bytes) : bytes :=
  match fuel, bs with
  | S fuel', _ :: _ =>
      let (n, ok) := utf8_chunk bs in
      ((if ok then take n bs else replacement) ++ utf8_lossy fuel' (drop n bs))%list
  | _, _ => []
  end.
(** [String::from_utf8] accepts [bs]. *)
Fixpoint utf8_scan (fuel : nat) (bs : bytes) : bool :=
  match fuel, bs with
  | S fuel', _ :: _ => let (n, ok) := utf8_chunk bs in ok && utf8_scan fuel' (drop n bs)
  | _, _ => true
  end.
Definition utf8_valid (bs : bytes) : bool := utf8_scan (length bs) bs.

Definition from_utf8_lossy (bs : bytes) : string := of_bytes (utf8_lossy (length bs) bs).

Lemma from_utf8_lossy_ascii bs : Forall (fun b => in_range 0 0x7f b = true) bs -> from_utf8_lossy bs = of_bytes bs.
Proof.
  unfold from_utf8_lossy. intros H. f_equal. induction H as [|b bs Hb _ IH]; [done|]. cbn [length utf8_lossy].
  unfold utf8_chunk. rewrite Hb. change (drop 1 (b :: bs)) with (drop 0 bs). rewrite drop_0, IH. reflexivity.
Qed.
