(* ===== verification/Errors.v ===== *)
(** * Errors of the protocol crate (crates/roughenough-protocol/src/error.rs)

    [usize] payloads are [nat], [u32]/[u64] payloads are [Z].  The
    [std::io::Error] wrapped by [IoError] is never built by the protocol crate,
    so the constructor carries only its message. *)
From S2P Require Import Prelude.

Inductive Error : Type :=
| BadRequestSize (n : nat)
| BufferTooSmall (needed available : nat)
| InvalidTag (v : Z)
| InvalidVersion (v : Z)
| InvalidMessageType (v : Z)
| MismatchedNumTags (expected got : Z)
| InvalidRequestNumTags (actual : Z) (expected : string)
| UnexpectedMagic (v : Z)
| UnexpectedFraming (n : nat)
| UnexpectedTags
| UnorderedTag (idx v : Z)
| UnexpectedOffsets
| UnorderedOffset (idx v : Z)
| UnalignedOffset (idx v : Z)
| OutOfBoundsOffset (idx v : Z)
| UnorderedVersion (idx v : Z)
| NoSupportedVersions
| InvalidPathLength (n : Z)
| WrongTagSize (expected got : nat)
| IoError (msg : string).

#[export] Instance Error_eq_dec : EqDecision Error.
Proof. solve_decision. Defined.
