(* ===== verification/Cursor.v ===== *)
(** * ParseCursor (crates/roughenough-protocol/src/cursor.rs)

    A cursor is a mutable byte slice and a position.  An operation on
    [&mut ParseCursor] is a function from the cursor to its outcome and the
    cursor it leaves, also when it fails.  A slice index out of range is the
    [Panic] outcome.

    The second half is the program logic of the development: [writes] (a
    serializer overwrites the next bytes with a given encoding), [reads] (a
    parser accepts a given encoding) and [parses] (a parser run on arbitrary
    bytes never panics, and what it accepts is related to the bytes it
    consumed), each with its composition rule. *)
From S2P Require Import Prelude Errors.

Record ParseCursor := mkCursor { data : bytes; position : nat }.

(** Code that uses a [&mut ParseCursor] and returns a [Result<A, Error>]. *)
Definition CM (A : Type) : Type := ParseCursor -> res Error A * ParseCursor.

#[export] Instance CM_ret : MRet CM := fun A a c => (Ok a, c).
#[export] Instance CM_bind : MBind CM := fun A B f m c =>
  match m c with
  | (Ok a, c') => f a c'
  | (Err e, c') => (Err e, c')
  | (Panic, c') => (Panic, c')
  end.

(** [return Err(e)] *)
Definition fail {A} (e : Error) : CM A := fun c => (Err e, c).
Definition panic {A} : CM A := fun c => (Panic, c).
(** [if b { return Err(e) }] *)
Definition guard_err (b : bool) (e : Error) : CM unit :=
  if b then fail e else mret tt.
(** A pure outcome inside cursor code. *)
Definition lift_res {A} (r : res Error A) : CM A := fun c => (r, c).

(** ** Queries *)

Definition new (d : bytes) : ParseCursor := mkCursor d 0.
Definition remaining (c : ParseCursor) : nat := length (data c) - position c.
Definition has_remaining (c : ParseCursor) : bool := position c <? length (data c).
Definition capacity (c : ParseCursor) : nat := length (data c).

(** [cursor.remaining()], [cursor.capacity()] and [cursor.position()] used inside cursor code. *)
Definition get_remaining : CM nat := fun c => (Ok (remaining c), c).
Definition get_capacity : CM nat := fun c => (Ok (capacity c), c).
Definition get_position : CM nat := fun c => (Ok (position c), c).

(** [&self.data[lo..hi]]: panics unless [lo <= hi <= len]. *)
Definition slice (lo hi : nat) : CM bytes := fun c =>
  if (lo <=? hi) && (hi <=? length (data c))
  then (Ok (take (hi - lo) (drop lo (data c))), c)
  else (Panic, c).

(** [self.data[lo..hi].copy_from_slice(src)] with [hi = lo + src.len()]. *)
Definition overwrite (lo : nat) (src : bytes) : CM unit := fun c =>
  if lo + length src <=? length (data c)
  then (Ok tt, mkCursor (take lo (data c) ++ src ++ drop (lo + length src) (data c)) (position c))
  else (Panic, c).

(** [self.position += n] *)
Definition bump (n : nat) : CM unit := fun c => (Ok tt, mkCursor (data c) (position c + n)).

(** [if self.remaining() < n { return Err(BufferTooSmall(n, self.remaining())) }] *)
Definition need (n : nat) : CM unit :=
  r ← get_remaining; guard_err (r <? n) (BufferTooSmall n r).

(** ** Reads *)

(** [get_fixed::<N>()] *)
Definition get_fixed (n : nat) : CM bytes :=
  p ← get_position;
  bs ← slice p (p + n);
  _ ← bump n;
  mret bs.

Definition try_get_fixed (n : nat) : CM bytes := _ ← need n; get_fixed n.

Definition get_u32_le : CM Z := bs ← get_fixed 4; mret (from_le_bytes bs).
Definition try_get_u32_le : CM Z := _ ← need 4; get_u32_le.
Definition get_u32 : CM Z := bs ← get_fixed 4; mret (from_be_bytes bs).
Definition try_get_u32 : CM Z := _ ← need 4; get_u32.
Definition get_u64_le : CM Z := bs ← get_fixed 8; mret (from_le_bytes bs).
Definition try_get_u64_le : CM Z := _ ← need 8; get_u64_le.
Definition get_u64 : CM Z := bs ← get_fixed 8; mret (from_be_bytes bs).
Definition try_get_u64 : CM Z := _ ← need 8; get_u64.

(** [copy_to_slice(dst)]: the result is the new content of [dst], of which only
    the length matters. *)
Definition copy_to_slice (dst_len : nat) : CM bytes := get_fixed dst_len.
Definition try_copy_to_slice (dst_len : nat) : CM bytes := _ ← need dst_len; copy_to_slice dst_len.

(** [&self.data[self.position..]] *)
Definition peek : CM bytes := fun c => slice (position c) (length (data c)) c.

(** ** Writes *)

Definition put_slice (src : bytes) : CM unit :=
  p ← get_position;
  _ ← overwrite p src;
  bump (length src).
Definition try_put_slice (src : bytes) : CM unit := _ ← need (length src); put_slice src.
Definition put_fixed (src : bytes) : CM unit := put_slice src.
Definition try_put_fixed (src : bytes) : CM unit := _ ← need (length src); put_fixed src.
Definition put_u32_le (v : Z) : CM unit := put_slice (to_le_bytes 4 v).
Definition try_put_u32_le (v : Z) : CM unit := _ ← need 4; put_u32_le v.
Definition put_u64_le (v : Z) : CM unit := put_slice (to_le_bytes 8 v).
Definition put_u64 (v : Z) : CM unit := put_slice (to_be_bytes 8 v).
Definition try_put_u64_le (v : Z) : CM unit := _ ← need 8; put_u64_le v.
Definition try_put_u64 (v : Z) : CM unit := _ ← need 8; put_u64 v.

(** ** Position *)

Definition advance (n : nat) : CM unit := _ ← need n; bump n.
Definition reset : CM unit := fun c => (Ok tt, mkCursor (data c) 0).
Definition set_position (p : nat) : CM unit := fun c => (Ok tt, mkCursor (data c) p).

(** * Program logic *)

(** [at_cursor pre rest]: the cursor that has consumed [pre] of [pre ++ rest]. *)
Definition at_cursor (pre rest : bytes) : ParseCursor := mkCursor (pre ++ rest) (length pre).

Definition writes (m : CM unit) (bs : bytes) : Prop :=
  forall pre old suf, length old = length bs ->
    m (at_cursor pre (old ++ suf)) = (Ok tt, at_cursor (pre ++ bs) suf).

Definition reads {A} (m : CM A) (bs suf : bytes) (a : A) : Prop :=
  forall pre, m (at_cursor pre (bs ++ suf)) = (Ok a, at_cursor (pre ++ bs) suf).

Definition parses {A} (m : CM A) (R : A -> bytes -> Prop) : Prop :=
  forall pre rest,
    match m (at_cursor pre rest) with
    | (Ok a, c') => exists bs suf, rest = bs ++ suf /\ c' = at_cursor (pre ++ bs) suf /\ R a bs
    | (Err _, c') => data c' = pre ++ rest
    | (Panic, _) => False
    end.

(** ** Structural rules *)

Lemma writes_ret : writes (mret tt) [].
Proof. intros pre [|] suf ?; [|done]. cbn. by rewrite app_nil_r. Qed.

Lemma writes_bind (m : CM unit) (k : unit -> CM unit) b1 b2 :
  writes m b1 -> writes (k tt) b2 -> writes (m ≫= k) (b1 ++ b2).
Proof.
  intros Hm Hk pre old suf Hlen. rewrite length_app in Hlen.
  rewrite <-(take_drop (length b1) old), <-app_assoc.
  unfold mbind, CM_bind. rewrite Hm by (rewrite length_take; lia).
  rewrite Hk by (rewrite length_drop; lia). by rewrite !app_assoc.
Qed.

Lemma reads_ret {A} (a : A) suf : reads (mret a) [] suf a.
Proof. intros pre. cbn. by rewrite app_nil_r. Qed.

Lemma reads_bind {A B} (m : CM A) (k : A -> CM B) b1 b2 suf a b :
  reads m b1 (b2 ++ suf) a -> reads (k a) b2 suf b -> reads (m ≫= k) (b1 ++ b2) suf b.
Proof.
  intros Hm Hk pre. rewrite <-app_assoc. unfold mbind, CM_bind.
  by rewrite Hm, Hk, app_assoc.
Qed.

(** The prefix [m] consumes nothing. *)
Lemma reads_bind_nil {A B} (m : CM A) (k : A -> CM B) bs suf a b :
  reads m [] (bs ++ suf) a -> reads (k a) bs suf b -> reads (m ≫= k) bs suf b.
Proof. apply (reads_bind m k [] bs). Qed.

Lemma parses_ret {A} (a : A) (R : A -> bytes -> Prop) : R a [] -> parses (mret a) R.
Proof.
  intros HR pre rest. cbn. exists [], rest. by rewrite app_nil_r.
Qed.

Lemma parses_fail {A} e (R : A -> bytes -> Prop) : parses (fail e) R.
Proof. intros pre rest. done. Qed.

Lemma parses_bind {A B} (m : CM A) (k : A -> CM B) R1 (R : B -> bytes -> Prop) :
  parses m R1 ->
  (forall a b1, R1 a b1 -> parses (k a) (fun b b2 => R b (b1 ++ b2))) ->
  parses (m ≫= k) R.
Proof.
  intros Hm Hk pre rest. unfold mbind, CM_bind. specialize (Hm pre rest).
  destruct (m (at_cursor pre rest)) as [[a|e|] c]; [|done|done].
  destruct Hm as (b1 & suf & -> & -> & HR).
  specialize (Hk a b1 HR (pre ++ b1) suf).
  destruct (k a _) as [[b|e|] c]; [| |done].
  - destruct Hk as (b2 & suf' & -> & -> & HR2). exists (b1 ++ b2), suf'.
    by rewrite !app_assoc.
  - by rewrite Hk, app_assoc.
Qed.

Lemma parses_weaken {A} (m : CM A) (R R' : A -> bytes -> Prop) :
  parses m R -> (forall a bs, R a bs -> R' a bs) -> parses m R'.
Proof.
  intros Hm HR pre rest. specialize (Hm pre rest).
  destruct (m _) as [[a|e|] c]; [|done|done].
  destruct Hm as (bs & suf & ? & ? & ?). exists bs, suf. auto.
Qed.

(** ** Rules of the primitive operations *)

Lemma remaining_at pre rest : remaining (at_cursor pre rest) = length rest.
Proof. unfold remaining. cbn. rewrite length_app. lia. Qed.

Lemma need_ok n pre rest :
  n <= length rest -> need n (at_cursor pre rest) = (Ok tt, at_cursor pre rest).
Proof.
  intros Hn. unfold need, mbind, CM_bind, get_remaining. rewrite remaining_at.
  unfold guard_err. destruct (Nat.ltb_spec (length rest) n); [lia|done].
Qed.

(** Every [try_*] operation reports how much it needed and how much there was,
    and leaves the cursor where it found it. *)
Lemma need_err n c :
  remaining c < n -> need n c = (Err (BufferTooSmall n (remaining c)), c).
Proof.
  intros Hn. unfold need, mbind, CM_bind, get_remaining, guard_err.
  destruct (Nat.ltb_spec (remaining c) n); [done|lia].
Qed.

Lemma reads_need n suf : n <= length suf -> reads (need n) [] suf tt.
Proof. intros Hn pre. rewrite app_nil_r. by apply need_ok. Qed.

Lemma writes_need n m bs : n <= length bs -> writes m bs -> writes (_ ← need n; m) bs.
Proof.
  intros Hn Hm pre old suf Hlen. unfold mbind, CM_bind.
  rewrite need_ok by (rewrite length_app; lia). by apply Hm.
Qed.

Lemma get_fixed_at pre bs suf :
  get_fixed (length bs) (at_cursor pre (bs ++ suf)) = (Ok bs, at_cursor (pre ++ bs) suf).
Proof.
  unfold get_fixed, mbind, CM_bind, get_position, slice. cbn.
  rewrite !length_app.
  destruct (Nat.leb_spec (length pre) (length pre + length bs)); [|lia].
  destruct (Nat.leb_spec (length pre + length bs) (length pre + (length bs + length suf))); [|lia].
  cbn. rewrite Nat.add_comm, Nat.add_sub, drop_app_length, take_app_length.
  unfold at_cursor. by rewrite app_assoc, length_app, Nat.add_comm.
Qed.

Lemma reads_get_fixed n bs suf : length bs = n -> reads (get_fixed n) bs suf bs.
Proof. intros <- pre. apply get_fixed_at. Qed.

Lemma reads_try_get_fixed n bs suf : length bs = n -> reads (try_get_fixed n) bs suf bs.
Proof.
  intros Hn. apply (reads_bind _ _ [] bs suf tt bs).
  - apply reads_need. rewrite length_app. lia.
  - by apply reads_get_fixed.
Qed.

Lemma parses_try_get_fixed n : parses (try_get_fixed n) (fun a bs => a = bs /\ length bs = n).
Proof.
  intros pre rest. unfold try_get_fixed, mbind, CM_bind.
  destruct (decide (n <= length rest)) as [Hn|Hn].
  - rewrite need_ok by done.
    assert (exists bs suf, rest = bs ++ suf /\ length bs = n) as (bs & suf & -> & <-).
    { exists (take n rest), (drop n rest). rewrite take_drop, length_take. split; [done|lia]. }
    rewrite get_fixed_at. exists bs, suf. done.
  - rewrite need_err; [done|]. rewrite remaining_at. lia.
Qed.

Lemma put_slice_at pre old suf bs :
  length old = length bs ->
  put_slice bs (at_cursor pre (old ++ suf)) = (Ok tt, at_cursor (pre ++ bs) suf).
Proof.
  intros Hlen. unfold put_slice, mbind, CM_bind, get_position, overwrite. cbn.
  rewrite !length_app.
  destruct (Nat.leb_spec (length pre + length bs) (length pre + (length old + length suf))); [|lia].
  cbn. unfold bump, at_cursor. cbn. f_equal.
  rewrite take_app_length.
  replace (length pre + length bs) with (length (pre ++ old)) by (rewrite length_app; lia).
  rewrite (app_assoc pre old suf), drop_app_length, <-app_assoc.
  by rewrite !length_app, Hlen.
Qed.

Lemma writes_put_slice bs : writes (put_slice bs) bs.
Proof. intros pre old suf. apply put_slice_at. Qed.

Lemma writes_try_put_slice bs : writes (try_put_slice bs) bs.
Proof. by apply writes_need, writes_put_slice. Qed.

Lemma writes_put_u32_le v : writes (put_u32_le v) (to_le_bytes 4 v).
Proof. apply writes_put_slice. Qed.
Lemma writes_try_put_u32_le v : writes (try_put_u32_le v) (to_le_bytes 4 v).
Proof. apply writes_need; [len|apply writes_put_slice]. Qed.
Lemma writes_put_u64_le v : writes (put_u64_le v) (to_le_bytes 8 v).
Proof. apply writes_put_slice. Qed.
Lemma writes_try_put_u64 v : writes (try_put_u64 v) (to_be_bytes 8 v).
Proof. apply writes_need; [len|apply writes_put_slice]. Qed.

Lemma reads_fixed_map {A} n (f : bytes -> A) bs suf a :
  length bs = n -> f bs = a ->
  reads (_ ← need n; bs ← get_fixed n; mret (f bs)) bs suf a.
Proof.
  intros <- <- pre. unfold mbind, CM_bind.
  rewrite need_ok by (rewrite length_app; lia). by rewrite get_fixed_at.
Qed.

Lemma reads_try_get_u32_le v suf :
  is_u32 v -> reads try_get_u32_le (to_le_bytes 4 v) suf v.
Proof.
  intros Hv. apply (reads_fixed_map 4 from_le_bytes); [len|by apply from_to_le_bytes_u32].
Qed.

Lemma reads_try_get_u64_le v suf :
  is_u64 v -> reads try_get_u64_le (to_le_bytes 8 v) suf v.
Proof.
  intros Hv. apply (reads_fixed_map 8 from_le_bytes); [len|by apply from_to_le_bytes_u64].
Qed.

Lemma reads_try_get_u32 v suf : is_u32 v -> reads try_get_u32 (to_be_bytes 4 v) suf v.
Proof.
  intros Hv. apply (reads_fixed_map 4 from_be_bytes); [len|].
  rewrite from_to_be_bytes. by apply from_to_le_bytes_u32.
Qed.

Lemma reads_try_get_u64 v suf : is_u64 v -> reads try_get_u64 (to_be_bytes 8 v) suf v.
Proof.
  intros Hv. apply (reads_fixed_map 8 from_be_bytes); [len|].
  rewrite from_to_be_bytes. by apply from_to_le_bytes_u64.
Qed.

(** The integer reads are exact: the value is in range and its encoding is what
    was consumed. *)
Lemma parses_fixed_map {A} n (f : bytes -> A) :
  parses (_ ← need n; bs ← get_fixed n; mret (f bs)) (fun a bs => a = f bs /\ length bs = n).
Proof.
  intros pre rest. pose proof (parses_try_get_fixed n pre rest) as H.
  unfold try_get_fixed, mbind, CM_bind in *.
  destruct (need n _) as [[[]|e|] c]; [|done|done].
  destruct (get_fixed n c) as [[bs|e|] c']; [|done|done].
  destruct H as (b & suf & -> & -> & -> & Hn). exists b, suf. done.
Qed.

Lemma parses_try_get_u32_le :
  parses try_get_u32_le (fun v bs => is_u32 v /\ bs = to_le_bytes 4 v).
Proof.
  eapply parses_weaken; [apply (parses_fixed_map 4 from_le_bytes)|].
  intros a bs [-> Hn]. split; [auto with roughtime|by rewrite to_from_le_bytes].
Qed.

Lemma parses_try_get_u64_le :
  parses try_get_u64_le (fun v bs => is_u64 v /\ bs = to_le_bytes 8 v).
Proof.
  eapply parses_weaken; [apply (parses_fixed_map 8 from_le_bytes)|].
  intros a bs [-> Hn]. split; [auto with roughtime|by rewrite to_from_le_bytes].
Qed.

Lemma parses_try_get_u32 :
  parses try_get_u32 (fun v bs => is_u32 v /\ bs = to_be_bytes 4 v).
Proof.
  eapply parses_weaken; [apply (parses_fixed_map 4 from_be_bytes)|].
  intros a bs [-> Hn]. split; [auto with roughtime|by rewrite to_from_be_bytes].
Qed.

Lemma parses_try_get_u64 :
  parses try_get_u64 (fun v bs => length bs = 8 /\ bs = to_be_bytes 8 v).
Proof.
  eapply parses_weaken; [apply (parses_fixed_map 8 from_be_bytes)|].
  intros a bs [-> Hn]. split; [done|by rewrite to_from_be_bytes].
Qed.

Lemma reads_guard b e suf : b = false -> reads (guard_err b e) [] suf tt.
Proof. intros ->. apply reads_ret. Qed.

#[export] Hint Resolve writes_ret writes_put_slice writes_try_put_slice writes_put_u32_le
  writes_try_put_u32_le writes_put_u64_le writes_try_put_u64 : roughtime.
#[export] Hint Resolve reads_ret reads_try_get_fixed reads_try_get_u32_le reads_try_get_u64_le
  reads_try_get_u32 reads_try_get_u64 : roughtime.

Lemma reads_lift_res {A} (r : res Error A) a suf : r = Ok a -> reads (lift_res r) [] suf a.
Proof. intros ->. apply reads_ret. Qed.

(** ** Steps that consume nothing, followed by the rest of a parser *)

Lemma parses_silent {A B} (m : CM A) (k : A -> CM B) (R : B -> bytes -> Prop) :
  (forall pre rest, match m (at_cursor pre rest) with
    | (Ok a, c) => c = at_cursor pre rest /\ parses (k a) R
    | (Err _, c) => c = at_cursor pre rest
    | (Panic, _) => False
    end) ->
  parses (m ≫= k) R.
Proof.
  intros Hm pre rest. unfold mbind, CM_bind. specialize (Hm pre rest).
  destruct (m (at_cursor pre rest)) as [[a|e|] c]; [|by subst|done].
  destruct Hm as [-> Hk]. apply Hk.
Qed.

Lemma parses_need_bind {A} n (k : unit -> CM A) (R : A -> bytes -> Prop) :
  parses (k tt) R -> parses (need n ≫= k) R.
Proof.
  intros Hk. apply parses_silent. intros pre rest.
  unfold need, mbind, CM_bind, get_remaining, guard_err. by destruct (_ <? n).
Qed.

Lemma parses_guard_bind {A} b e (k : unit -> CM A) (R : A -> bytes -> Prop) :
  (b = false -> parses (k tt) R) -> parses (guard_err b e ≫= k) R.
Proof. intros Hk. apply parses_silent. intros pre rest. destruct b; cbn; auto. Qed.

Lemma parses_remaining_bind {A} (k : nat -> CM A) (R : A -> bytes -> Prop) :
  (forall n, parses (k n) R) -> parses (get_remaining ≫= k) R.
Proof. intros Hk. apply parses_silent. intros pre rest. cbn. auto. Qed.

Lemma parses_lift_bind {A B} (r : res Error A) (k : A -> CM B) (R : B -> bytes -> Prop) :
  r <> Panic -> (forall a, r = Ok a -> parses (k a) R) -> parses (lift_res r ≫= k) R.
Proof. intros Hr Hk. apply parses_silent. intros pre rest. destruct r; cbn; auto. Qed.

(** Peeking at a [u32]: whatever it is, the cursor is back where it was. *)
Lemma parses_peek_u32 {A} (k : Z -> CM A) (R : A -> bytes -> Prop) :
  (forall v, parses (k v) R) ->
  parses (p ← get_position; v ← try_get_u32_le; _ ← set_position p; k v) R.
Proof.
  intros Hk pre rest. pose proof (parses_try_get_u32_le pre rest) as H.
  unfold mbind, CM_bind, get_position. cbn [position at_cursor].
  destruct (try_get_u32_le _) as [[v|e|] c]; [|done|done].
  destruct H as (bs & suf & -> & -> & _). unfold set_position, at_cursor. cbn [data].
  rewrite <-app_assoc. apply Hk.
Qed.

Lemma reads_peek_u32 {A} (k : Z -> CM A) v tl bs suf a :
  is_u32 v -> bs ++ suf = to_le_bytes 4 v ++ tl -> reads (k v) bs suf a ->
  reads (p ← get_position; v ← try_get_u32_le; _ ← set_position p; k v) bs suf a.
Proof.
  intros Hv Hbs Hk pre. unfold mbind, CM_bind, get_position. cbn [position at_cursor].
  pose proof (reads_try_get_u32_le v tl Hv pre) as Hr. rewrite Hbs, Hr.
  unfold set_position. cbn [data at_cursor]. rewrite <-app_assoc, <-Hbs. apply Hk.
Qed.

(** Inversion of a successful run. *)
Lemma bind_ok {A B} (m : CM A) (k : A -> CM B) c b c2 :
  (m ≫= k) c = (Ok b, c2) -> exists a c1, m c = (Ok a, c1) /\ k a c1 = (Ok b, c2).
Proof. unfold mbind, CM_bind. destruct (m c) as [[a|e|] c1]; [eauto|done|done]. Qed.

Lemma guard_ok b e c u c' : guard_err b e c = (Ok u, c') -> b = false /\ c' = c.
Proof. destruct b; cbn; [done|]. by intros [= <- <-]. Qed.

Lemma parses_ok {A} (m : CM A) R pre rest a c :
  parses m R -> m (at_cursor pre rest) = (Ok a, c) ->
  exists bs suf, rest = bs ++ suf /\ c = at_cursor (pre ++ bs) suf /\ R a bs.
Proof. intros Hm E. specialize (Hm pre rest). by rewrite E in Hm. Qed.
