(* ===== verification/Wire.v ===== *)
(** * Wire traits and framing (crates/roughenough-protocol/src/wire.rs)

    [ToWire], [FromWire] and [FromWireN] are the traits of the crate.  [Encode]
    gives a type its reference encoding (a pure function) and the values the
    encoding is defined for; [LawfulWrite], [LawfulRead] and [Canonical] are
    the contracts an implementation owes, and the framing theorems are proved
    against these contracts. *)
From S2P Require Import Prelude Errors Cursor.

Definition FRAME_MAGIC : Z := 0x524f55474854494d.
Definition FRAME_OVERHEAD : nat := 12.
Definition MINIMUM_FRAME_SIZE : nat := 100.

Class ToWire (A : Type) := {
  wire_size : A -> nat;
  to_wire : A -> CM unit;
}.
Class FromWire (A : Type) := from_wire : CM A.
Class FromWireN (A : Type) := from_wire_n : nat -> CM A.

(** [let mut buf = vec![0u8; n]; m(&mut ParseCursor::new(&mut buf))?; Ok(buf)] *)
Definition fill_buffer (n : nat) (m : CM unit) : res Error bytes :=
  match m (new (zeroes n)) with
  | (Ok _, c) => Ok (data c)
  | (Err e, _) => Err e
  | (Panic, _) => Panic
  end.

Section operations.
Context {A : Type}.

Definition as_bytes `{!ToWire A} (a : A) : res Error bytes := fill_buffer (wire_size a) (to_wire a).

Definition frame_size `{!ToWire A} (a : A) : nat := wire_size a + FRAME_OVERHEAD.

Definition to_frame `{!ToWire A} (a : A) : CM unit :=
  _ ← try_put_u64 FRAME_MAGIC;
  _ ← try_put_u32_le (as_u32 (wire_size a));
  to_wire a.

Definition as_frame_bytes `{!ToWire A} (a : A) : res Error bytes :=
  fill_buffer (frame_size a) (to_frame a).

Definition from_frame `{!FromWire A} : CM A :=
  magic ← try_get_u64;
  _ ← guard_err (negb (magic =? FRAME_MAGIC)%Z) (UnexpectedMagic magic);
  len32 ← try_get_u32_le;
  let len := Z.to_nat len32 in
  rem ← get_remaining;
  _ ← guard_err ((len <? MINIMUM_FRAME_SIZE) || (rem <? MINIMUM_FRAME_SIZE))
                (UnexpectedFraming (Nat.min len rem));
  _ ← guard_err (rem <? len) (BufferTooSmall len rem);
  from_wire.
End operations.

(** ** Contracts *)

Class Encode (A : Type) := {
  encode : A -> bytes;
  wf : A -> Prop;
}.

Class LawfulWrite (A : Type) `{!ToWire A} `{!Encode A} := {
  wire_size_encode a : wf a -> wire_size a = length (encode a);
  to_wire_writes a : wf a -> writes (to_wire a) (encode a);
}.

Class LawfulRead (A : Type) `{!FromWire A} `{!Encode A} :=
  from_wire_reads a suf : wf a -> reads from_wire (encode a) suf a.

(** A parser that consumes exactly the encoding of what it returns. *)
Class Canonical (A : Type) `{!FromWire A} `{!Encode A} :=
  from_wire_parses : parses from_wire (fun a bs => wf a /\ bs = encode a).

(** What reads back is encoded injectively. *)
Lemma encode_inj {A} `{LawfulRead A} (a b : A) : wf a -> wf b -> encode a = encode b -> a = b.
Proof.
  intros Ha Hb He. pose proof (from_wire_reads a [] Ha []) as H1. rewrite He, (from_wire_reads b [] Hb []) in H1.
  by injection H1.
Qed.

#[export] Hint Resolve to_wire_writes from_wire_reads : roughtime.

(** Splits a [writes] goal along the structure of a [to_wire] body. *)
Ltac writes_steps :=
  cbv beta;
  lazymatch goal with
  | |- writes (to_wire _) _ => apply to_wire_writes
  | |- writes (put_u32_le _) _ => apply writes_put_u32_le
  | |- writes (put_u64_le _) _ => apply writes_put_u64_le
  | |- writes (put_slice _) _ => apply writes_put_slice
  | |- writes (mret tt) _ => apply writes_ret
  | |- writes (_ ≫= _) _ => apply writes_bind; writes_steps
  end.

(** The reference framing: magic, little-endian length, message. *)
Definition frame_bytes (msg : bytes) : bytes :=
  to_be_bytes 8 FRAME_MAGIC ++ to_le_bytes 4 (as_u32 (length msg)) ++ msg.

Lemma length_frame_bytes msg : length (frame_bytes msg) = length msg + FRAME_OVERHEAD.
Proof. unfold frame_bytes, FRAME_OVERHEAD. len. Qed.

Lemma fill_buffer_writes n m bs : writes m bs -> length bs = n -> fill_buffer n m = Ok bs.
Proof.
  intros Hm Hn. unfold fill_buffer.
  change (new (zeroes n)) with (at_cursor [] (zeroes n)).
  rewrite <-(app_nil_r (zeroes n)), Hm by (rewrite length_zeroes; lia).
  cbn. by rewrite app_nil_r.
Qed.

Section frame_theorems.
Context {A : Type} `{!ToWire A} `{!FromWire A} `{!Encode A}.

Lemma as_bytes_encode `{!LawfulWrite A} a : wf a -> as_bytes a = Ok (encode a).
Proof.
  intros Ha. apply fill_buffer_writes; [by apply to_wire_writes|].
  symmetry. by apply wire_size_encode.
Qed.

(** Framing a value that writes [bs]. *)
Lemma as_frame_bytes_writes a bs : writes (to_wire a) bs -> length bs = wire_size a ->
  as_frame_bytes a = Ok (frame_bytes bs).
Proof.
  intros Hw Hl. apply fill_buffer_writes.
  - unfold to_frame, frame_bytes. rewrite <-Hl.
    apply writes_bind; [apply writes_try_put_u64|].
    by apply writes_bind; [apply writes_try_put_u32_le|].
  - unfold frame_size. by rewrite length_frame_bytes, Hl.
Qed.

Lemma to_frame_writes `{!LawfulWrite A} a : wf a -> writes (to_frame a) (frame_bytes (encode a)).
Proof.
  intros Ha. unfold to_frame, frame_bytes. rewrite (wire_size_encode a Ha).
  apply writes_bind; [apply writes_try_put_u64|].
  apply writes_bind; [apply writes_try_put_u32_le|]. by apply to_wire_writes.
Qed.

Lemma as_frame_bytes_encode `{!LawfulWrite A} a :
  wf a -> as_frame_bytes a = Ok (frame_bytes (encode a)).
Proof.
  intros Ha. apply as_frame_bytes_writes; [by apply to_wire_writes|].
  symmetry. by apply wire_size_encode.
Qed.

(** [from_frame] accepts a framed message that [from_wire] accepts in place;
    the parser may leave an end [pad] of the message on the cursor. *)
Lemma from_frame_reads_padded msg pad suf a :
  reads from_wire msg (pad ++ suf) a ->
  MINIMUM_FRAME_SIZE <= length (msg ++ pad) -> small (msg ++ pad) ->
  reads from_frame
    (to_be_bytes 8 FRAME_MAGIC ++ to_le_bytes 4 (as_u32 (length (msg ++ pad))) ++ msg)
    (pad ++ suf) a.
Proof.
  unfold small. intros Hm Hmin Hmax. unfold from_frame.
  assert (is_u32 (as_u32 (length (msg ++ pad)))) as H32 by (rewrite as_u32_small; unfold is_u32; lia).
  assert (Z.to_nat (as_u32 (length (msg ++ pad))) = length (msg ++ pad)) as Hz
    by (rewrite as_u32_small, Nat2Z.id; done).
  eapply reads_bind; [apply reads_try_get_u64; unfold is_u64, FRAME_MAGIC; lia|].
  eapply reads_bind_nil; [by apply reads_guard|].
  eapply reads_bind; [by apply reads_try_get_u32_le|]. rewrite Hz.
  intros pre. unfold mbind, CM_bind, get_remaining. rewrite remaining_at, !length_app in *.
  unfold guard_err.
  destruct (Nat.ltb_spec (length msg + length pad) MINIMUM_FRAME_SIZE); [lia|].
  destruct (Nat.ltb_spec (length msg + (length pad + length suf)) MINIMUM_FRAME_SIZE); [lia|].
  destruct (Nat.ltb_spec (length msg + (length pad + length suf)) (length msg + length pad)); [lia|].
  apply Hm.
Qed.

Lemma from_frame_reads msg suf a :
  reads from_wire msg suf a ->
  MINIMUM_FRAME_SIZE <= length msg -> small msg ->
  reads from_frame (frame_bytes msg) suf a.
Proof.
  intros Hm Hmin Hmax. pose proof (from_frame_reads_padded msg [] suf a) as H.
  rewrite app_nil_r in H. by apply H.
Qed.

Lemma from_frame_parses (R : A -> bytes -> Prop) :
  parses from_wire R ->
  parses from_frame (fun a bs => exists len msg, is_u32 len /\
    bs = to_be_bytes 8 FRAME_MAGIC ++ to_le_bytes 4 len ++ msg /\ R a msg).
Proof.
  intros HR. unfold from_frame.
  eapply parses_bind; [apply parses_try_get_u64|]. intros magic b1 [_ ->].
  apply parses_guard_bind. intros Hm%negb_false_iff%Z.eqb_eq. subst magic.
  eapply parses_bind; [apply parses_try_get_u32_le|]. intros len b2 [Hlen ->].
  apply parses_remaining_bind. intros rem.
  do 2 (apply parses_guard_bind; intros _).
  eapply parses_weaken; [apply HR|]. intros a msg Ha. cbn. eauto 6.
Qed.

(** A message accepted in a frame was accepted 12 bytes further. *)
Lemma from_frame_ok pre rest a c :
  from_frame (at_cursor pre rest) = (Ok a, c) ->
  exists len msg, is_u32 len /\
    from_wire (at_cursor (pre ++ to_be_bytes 8 FRAME_MAGIC ++ to_le_bytes 4 len) msg) = (Ok a, c) /\
    rest = to_be_bytes 8 FRAME_MAGIC ++ to_le_bytes 4 len ++ msg.
Proof.
  intros E. unfold from_frame in E.
  apply bind_ok in E as (magic & c1 & E1 & E).
  apply (parses_ok _ _ _ _ _ _ parses_try_get_u64) in E1 as (b1 & s1 & -> & -> & _ & ->).
  apply bind_ok in E as ([] & c2 & [Hm%negb_false_iff%Z.eqb_eq ->]%guard_ok & E). subst magic.
  apply bind_ok in E as (len & c3 & E2 & E).
  apply (parses_ok _ _ _ _ _ _ parses_try_get_u32_le) in E2 as (b2 & s2 & -> & -> & Hlen & ->).
  apply bind_ok in E as (rem & c4 & [= <- <-] & E).
  apply bind_ok in E as ([] & c5 & [_ ->]%guard_ok & E).
  apply bind_ok in E as ([] & c6 & [_ ->]%guard_ok & E).
  exists len, s2. by rewrite <-app_assoc in E.
Qed.

(** The frame checks come first and report what the code says they report. *)
Lemma from_frame_bad_magic m pre rest :
  is_u64 m -> m <> FRAME_MAGIC ->
  from_frame (at_cursor pre (to_be_bytes 8 m ++ rest)) =
    (Err (UnexpectedMagic m), at_cursor (pre ++ to_be_bytes 8 m) rest).
Proof.
  intros Hm Hne. unfold from_frame, mbind, CM_bind.
  rewrite reads_try_get_u64 by done. unfold guard_err.
  destruct (Z.eqb_spec m FRAME_MAGIC); done.
Qed.
End frame_theorems.
