(* ===== verification/Tags.v ===== *)
(** * Tags (crates/roughenough-protocol/src/tag.rs) *)
From S2P Require Import Prelude Errors.

Module Tag.
Inductive t : Type :=
| INVALID | SIG | VER | SRV | NONC | DELE | TYPE | PATH | RADI | PUBK | MIDP | SREP | VERS
| MINT | ROOT | CERT | MAXT | INDX | ZZZZ | PAD.

#[global] Instance t_eq_dec : EqDecision t.
Proof. solve_decision. Defined.

(** [*self as u32] *)
Definition discriminant (tag : t) : Z :=
  match tag with
  | INVALID => 0x00000000
  | SIG => 0x53494700
  | VER => 0x56455200
  | SRV => 0x53525600
  | NONC => 0x4e4f4e43
  | DELE => 0x44454c45
  | TYPE => 0x54595045
  | PATH => 0x50415448
  | RADI => 0x52414449
  | PUBK => 0x5055424b
  | MIDP => 0x4d494450
  | SREP => 0x53524550
  | VERS => 0x56455253
  | MINT => 0x4d494e54
  | ROOT => 0x524f4f54
  | CERT => 0x43455254
  | MAXT => 0x4d415854
  | INDX => 0x494e4458
  | ZZZZ => 0x5a5a5a5a
  | PAD => 0x504144ff
  end.

(** [Ord for [u8]]: lexicographic. *)
Fixpoint bytes_cmp (a b : bytes) : comparison :=
  match a, b with
  | [], [] => Eq
  | [], _ :: _ => Lt
  | _ :: _, [] => Gt
  | x :: a', y :: b' =>
      match Z.compare (byte.unsigned x) (byte.unsigned y) with
      | Eq => bytes_cmp a' b'
      | o => o
      end
  end.

(** [impl Ord for Tag] *)
Definition cmp (self other : t) : comparison :=
  bytes_cmp (to_le_bytes 4 (discriminant self)) (to_le_bytes 4 (discriminant other)).

Definition ltb (a b : t) : bool := match cmp a b with Lt => true | _ => false end.

Definition wire_value (tag : t) : bytes := to_be_bytes 4 (discriminant tag).

(** The arms of the [match] in [Tag::from_wire]. *)
Definition from_wire_arms : list (bytes * t) :=
  [ (b_lit "SIG" ++ [Byte.x00], SIG); (b_lit "VER" ++ [Byte.x00], VER); (b_lit "SRV" ++ [Byte.x00], SRV);
    (b_lit "NONC", NONC); (b_lit "DELE", DELE); (b_lit "TYPE", TYPE); (b_lit "PATH", PATH); (b_lit "RADI", RADI);
    (b_lit "PUBK", PUBK); (b_lit "MIDP", MIDP); (b_lit "SREP", SREP); (b_lit "VERS", VERS); (b_lit "MINT", MINT);
    (b_lit "ROOT", ROOT); (b_lit "CERT", CERT); (b_lit "MAXT", MAXT); (b_lit "INDX", INDX); (b_lit "ZZZZ", ZZZZ);
    (b_lit "PAD" ++ [Byte.xff], PAD) ].

Definition from_wire (bs : bytes) : res Error t :=
  if length bs <? 4 then Err (BufferTooSmall 4 (length bs))
  else match find (fun arm => bool_decide (arm.1 = bs)) from_wire_arms with
       | Some arm => Ok arm.2
       | None => Err (InvalidTag (from_be_bytes (take 4 bs)))
       end.

Definition is_nested (tag : t) : bool :=
  match tag with CERT | DELE | SREP => true | _ => false end.

(** [impl TryFrom<u32> for Tag] *)
Definition try_from (v : Z) : res Error t := from_wire (to_be_bytes 4 v).

(** [impl From<Tag> for u32] *)
Definition to_u32 (tag : t) : Z := from_be_bytes (wire_value tag).

(** ** Lemmas *)

Lemma length_wire_value tag : length (wire_value tag) = 4.
Proof. apply length_to_be_bytes. Qed.

Lemma discriminant_u32 tag : is_u32 (discriminant tag).
Proof. unfold is_u32. destruct tag; cbn; lia. Qed.

Lemma to_u32_discriminant tag : to_u32 tag = discriminant tag.
Proof. destruct tag; reflexivity. Qed.

Lemma from_wire_wire_value tag : tag <> INVALID -> from_wire (wire_value tag) = Ok tag.
Proof. intros H. destruct tag; [done|vm_compute; reflexivity..]. Qed.

Lemma from_wire_inv bs tag : from_wire bs = Ok tag -> bs = wire_value tag /\ tag <> INVALID.
Proof.
  unfold from_wire. destruct (length bs <? 4); [done|].
  destruct (find _ _) as [[k tg]|] eqn:E; [|done]. intros [= <-].
  apply find_some in E as [Hin Hk]. apply bool_decide_eq_true in Hk. cbn in Hk. subst bs.
  cbn in Hin. repeat (destruct Hin as [[= <- <-]|Hin]; [split; [vm_compute; reflexivity|done]|]).
  done.
Qed.

Lemma try_from_to_u32 tag : tag <> INVALID -> try_from (to_u32 tag) = Ok tag.
Proof. intros H. destruct tag; [done|vm_compute; reflexivity..]. Qed.

Lemma try_from_inv v tag :
  is_u32 v -> try_from v = Ok tag -> v = discriminant tag /\ tag <> INVALID.
Proof.
  intros Hv [Heq Hne]%from_wire_inv. split; [|done].
  apply (f_equal from_be_bytes) in Heq.
  unfold wire_value in Heq. rewrite !from_to_be_bytes in Heq.
  rewrite !from_to_le_bytes_u32 in Heq by auto using discriminant_u32. done.
Qed.

(** The order of tags is the numeric order of the wire bytes read little-endian. *)
Lemma cmp_numeric a b :
  cmp a b = Z.compare (from_le_bytes (wire_value a)) (from_le_bytes (wire_value b)).
Proof. destruct a, b; vm_compute; reflexivity. Qed.

Lemma ltb_lt a b :
  ltb a b = true <-> (from_le_bytes (wire_value a) < from_le_bytes (wire_value b))%Z.
Proof. unfold ltb. rewrite cmp_numeric. unfold Z.lt. by destruct (_ ?= _)%Z. Qed.

#[global] Hint Rewrite length_wire_value : wire_length.
End Tag.
