(* ===== verification/Header.v ===== *)
(** * Message headers (crates/roughenough-protocol/src/header.rs)

    The macro [make_header_n!] makes one struct per number of tags; here [N] is
    an index of the record.  [HeaderN] holds a [u32], [N - 1] offsets and [N]
    tags of 4 bytes each, so its [size_of] is [8 * N]. *)
From S2P Require Import Prelude Errors Cursor Wire Tags.

Record Header (N : nat) := mkHeader {
  num_tags : Z;
  offsets : list Z;
  tags : list Tag.t;
}.
Arguments mkHeader {N} num_tags offsets tags.
Arguments num_tags {N} h : rename.
Arguments offsets {N} h : rename.
Arguments tags {N} h : rename.

Abbreviation Header2 := (Header 2).
Abbreviation Header3 := (Header 3).
Abbreviation Header4 := (Header 4).
Abbreviation Header5 := (Header 5).
Abbreviation Header6 := (Header 6).
Abbreviation Header7 := (Header 7).

#[export] Instance Header_eq_dec N : EqDecision (Header N).
Proof.
  intros [n1 o1 t1] [n2 o2 t2].
  destruct (decide (n1 = n2)), (decide (o1 = o2)), (decide (t1 = t2));
    [left; by subst | right; by intros [=].. ].
Defined.

Definition Header_default (N : nat) : Header N :=
  mkHeader (Z.of_nat N) (replicate (N - 1) 0%Z) (replicate N Tag.INVALID).

Definition size_of_Header (N : nat) : nat := 4 + 4 * (N - 1) + 4 * N.

(** [self.offsets[idx] = offset] *)
Definition set_offset {N} (h : Header N) (idx : nat) (offset : Z) : res Error (Header N) :=
  if idx <? length (offsets h) then Ok (mkHeader (num_tags h) (<[idx := offset]> (offsets h)) (tags h))
  else Panic.
(** [self.tags[idx] = tag] *)
Definition set_tag {N} (h : Header N) (idx : nat) (tag : Tag.t) : res Error (Header N) :=
  if idx <? length (tags h) then Ok (mkHeader (num_tags h) (offsets h) (<[idx := tag]> (tags h)))
  else Panic.

(** [for x in xs { put(x) }] *)
Fixpoint put_all {A} (put : A -> CM unit) (xs : list A) : CM unit :=
  match xs with
  | [] => mret tt
  | x :: xs' => _ ← put x; put_all put xs'
  end.

Definition to_wire_inner {N} (h : Header N) : CM unit :=
  _ ← need (size_of_Header N);
  _ ← put_u32_le (Z.of_nat N);
  _ ← put_all put_u32_le (offsets h);
  put_all (fun tag => put_slice (Tag.wire_value tag)) (tags h).

(** The loop over the offsets: [n] are left to read, [idx] is the next one. *)
Fixpoint read_offsets {N} (n idx : nat) (prior_offset : Z) (h : Header N) : CM (Header N) :=
  match n with
  | O => mret h
  | S n' =>
      value ← try_get_u32_le;
      _ ← guard_err (negb (value mod 4 =? 0)%Z) (UnalignedOffset (Z.of_nat idx) value);
      _ ← guard_err (value <? prior_offset)%Z (UnorderedOffset (Z.of_nat idx) value);
      h' ← lift_res (set_offset h idx value);
      read_offsets n' (S idx) value h'
  end.

(** The loop over the tags. *)
Fixpoint read_tags {N} (n idx : nat) (prior_tag : Tag.t) (h : Header N) : CM (Header N) :=
  match n with
  | O => mret h
  | S n' =>
      value ← try_get_u32;
      tag ← lift_res (Tag.try_from value);
      _ ← guard_err (Tag.ltb tag prior_tag) (UnorderedTag (Z.of_nat idx) value);
      h' ← lift_res (set_tag h idx tag);
      read_tags n' (S idx) tag h'
  end.

Definition from_wire_inner (N : nat) : CM (Header N) :=
  _ ← need (size_of_Header N);
  read_num_tags ← try_get_u32_le;
  _ ← guard_err (negb (Z.of_nat N =? read_num_tags)%Z) (MismatchedNumTags (Z.of_nat N) read_num_tags);
  h ← read_offsets (N - 1) 0 0%Z (Header_default N);
  read_tags N 0 Tag.INVALID h.

(** [check_offset_bounds_inner]: the loop over [offsets().iter().enumerate()]. *)
Fixpoint check_offsets_from (idx : nat) (total_len : nat) (os : list Z) : res Error unit :=
  match os with
  | [] => Ok tt
  | offset :: os' =>
      if (as_u32 total_len <? offset)%Z then Err (OutOfBoundsOffset (Z.of_nat idx) offset)
      else check_offsets_from (S idx) total_len os'
  end.
Definition check_offset_bounds {N} (h : Header N) (total_len : nat) : res Error unit :=
  check_offsets_from 0 total_len (offsets h).

(** [header.check_offset_bounds(cursor.remaining())?] *)
Definition check_bounds_here {N} (h : Header N) : CM unit :=
  r ← get_remaining; lift_res (check_offset_bounds h r).

#[export] Instance Header_ToWire N : ToWire (Header N) :=
  {| wire_size _ := size_of_Header N; to_wire := to_wire_inner |}.
#[export] Instance Header_FromWire N : FromWire (Header N) := from_wire_inner N.

(** ** Reference encoding and validity *)

Fixpoint offsets_okb (prior : Z) (os : list Z) : bool :=
  match os with
  | [] => true
  | v :: os' => (0 <=? v)%Z && (v <? 2 ^ 32)%Z && (v mod 4 =? 0)%Z && (prior <=? v)%Z && offsets_okb v os'
  end.

Fixpoint tags_okb (prior : Tag.t) (ts : list Tag.t) : bool :=
  match ts with
  | [] => true
  | t :: ts' => bool_decide (t <> Tag.INVALID) && negb (Tag.ltb t prior) && tags_okb t ts'
  end.

Record header_wf {N} (h : Header N) : Prop := {
  hw_N : 1 <= N /\ (Z.of_nat N < 2 ^ 32)%Z;
  hw_num : num_tags h = Z.of_nat N;
  hw_offsets_len : length (offsets h) = N - 1;
  hw_tags_len : length (tags h) = N;
  hw_offsets : offsets_okb 0 (offsets h) = true;
  hw_tags : tags_okb Tag.INVALID (tags h) = true;
}.

Definition encode_offsets (os : list Z) : bytes := concat (map (to_le_bytes 4) os).
Definition encode_tags (ts : list Tag.t) : bytes := concat (map Tag.wire_value ts).
Arguments encode_offsets : simpl never.
Arguments encode_tags : simpl never.

#[export] Instance Header_Encode N : Encode (Header N) := {|
  encode h := to_le_bytes 4 (Z.of_nat N) ++ encode_offsets (offsets h) ++ encode_tags (tags h);
  wf := header_wf
|}.

Lemma length_encode_offsets os : length (encode_offsets os) = 4 * length os.
Proof. unfold encode_offsets. induction os; cbn [map concat]; len. Qed.
Lemma length_encode_tags ts : length (encode_tags ts) = 4 * length ts.
Proof. unfold encode_tags. induction ts; cbn [map concat]; len. Qed.
#[export] Hint Rewrite length_encode_offsets length_encode_tags : wire_length.

Lemma writes_put_all {A} (put : A -> CM unit) (f : A -> bytes) xs :
  (forall x, writes (put x) (f x)) -> writes (put_all put xs) (concat (map f xs)).
Proof.
  intros Hput. induction xs as [|x xs IH]; cbn; [apply writes_ret|].
  by apply writes_bind.
Qed.

Lemma length_encode_Header {N} (h : Header N) :
  1 <= N -> length (offsets h) = N - 1 -> length (tags h) = N ->
  length (encode h) = size_of_Header N.
Proof. intros. unfold size_of_Header. cbn. len. Qed.

Lemma length_encode_header {N} (h : Header N) : wf h -> length (encode h) = size_of_Header N.
Proof. intros []. apply length_encode_Header; tauto. Qed.

#[export] Instance Header_LawfulWrite N : LawfulWrite (Header N).
Proof.
  split; intros h [[H1 ?] ? Ho Ht ? ?]; pose proof (length_encode_Header h H1 Ho Ht) as Hl; [done|].
  apply writes_need; [by rewrite Hl|].
  apply writes_bind; [auto with roughtime|].
  apply writes_bind; apply writes_put_all; intros; auto with roughtime.
Qed.

(** ** Reading a header back *)

Lemma set_offset_next {N} n done x rest ts v :
  set_offset (@mkHeader N n (done ++ x :: rest) ts) (length done) v
  = Ok (mkHeader n ((done ++ [v]) ++ rest) ts).
Proof.
  unfold set_offset. cbn. rewrite length_app. cbn.
  destruct (Nat.ltb_spec (length done) (length done + S (length rest))); [|lia].
  rewrite insert_app_r_alt, Nat.sub_diag by lia. cbn. by rewrite <-app_assoc.
Qed.

Lemma set_tag_next {N} n os done x rest t :
  set_tag (@mkHeader N n os (done ++ x :: rest)) (length done) t
  = Ok (mkHeader n os ((done ++ [t]) ++ rest)).
Proof.
  unfold set_tag. cbn. rewrite length_app. cbn.
  destruct (Nat.ltb_spec (length done) (length done + S (length rest))); [|lia].
  rewrite insert_app_r_alt, Nat.sub_diag by lia. cbn. by rewrite <-app_assoc.
Qed.

Lemma reads_read_offsets {N} n os : forall done rest ts prior suf,
  length rest = length os -> offsets_okb prior os = true ->
  reads (read_offsets (length os) (length done) prior (@mkHeader N n (done ++ rest) ts))
        (encode_offsets os) suf (mkHeader n (done ++ os) ts).
Proof.
  induction os as [|v os IH]; intros done rest ts prior suf Hlen Hok.
  { destruct rest; [|done]. apply reads_ret. }
  destruct rest as [|x rest]; [done|]. cbn in Hok, Hlen.
  rewrite !andb_true_iff in Hok. destruct Hok as ((((? & ?) & ?) & ?) & ?).
  change (encode_offsets (v :: os)) with (to_le_bytes 4 v ++ encode_offsets os). cbn [length read_offsets].
  eapply reads_bind; [apply reads_try_get_u32_le; unfold is_u32; lia|].
  eapply reads_bind_nil; [apply reads_guard; lia|].
  eapply reads_bind_nil; [apply reads_guard; lia|].
  eapply reads_bind_nil; [apply reads_lift_res, set_offset_next|].
  replace (S (length done)) with (length (done ++ [v])) by len.
  replace (done ++ v :: os) with ((done ++ [v]) ++ os) by (by rewrite <-app_assoc).
  apply IH; [lia|done].
Qed.

Lemma reads_read_tags {N} n os ts : forall done rest prior suf,
  length rest = length ts -> tags_okb prior ts = true ->
  reads (read_tags (length ts) (length done) prior (@mkHeader N n os (done ++ rest)))
        (encode_tags ts) suf (mkHeader n os (done ++ ts)).
Proof.
  induction ts as [|t ts IH]; intros done rest prior suf Hlen Hok.
  { destruct rest; [|done]. apply reads_ret. }
  destruct rest as [|x rest]; [done|]. cbn in Hok, Hlen.
  rewrite !andb_true_iff, negb_true_iff, bool_decide_eq_true in Hok. destruct Hok as ((? & ?) & ?).
  change (encode_tags (t :: ts)) with (to_be_bytes 4 (Tag.discriminant t) ++ encode_tags ts).
  cbn [length read_tags].
  eapply reads_bind; [apply reads_try_get_u32, Tag.discriminant_u32|].
  eapply reads_bind_nil.
  { apply reads_lift_res. rewrite <-Tag.to_u32_discriminant. by apply Tag.try_from_to_u32. }
  eapply reads_bind_nil; [by apply reads_guard|].
  eapply reads_bind_nil; [apply reads_lift_res, set_tag_next|].
  replace (S (length done)) with (length (done ++ [t])) by len.
  replace (done ++ t :: ts) with ((done ++ [t]) ++ ts) by (by rewrite <-app_assoc).
  apply IH; [lia|done].
Qed.

#[export] Instance Header_LawfulRead N : LawfulRead (Header N).
Proof.
  intros h suf [[H1 H2] Hn Ho Ht Hos Hts]. pose proof (length_encode_Header h H1 Ho Ht) as Hl.
  change (reads (from_wire_inner N) (encode h) suf h). unfold from_wire_inner.
  eapply reads_bind_nil.
  { apply reads_need. rewrite length_app, Hl. lia. }
  cbn [encode Header_Encode].
  eapply reads_bind; [apply reads_try_get_u32_le; unfold is_u32; lia|].
  eapply reads_bind_nil; [apply reads_guard; lia|].
  destruct h as [n os ts]. cbn in Hn, Ho, Ht, Hos, Hts |- *. subst n.
  pose proof (reads_read_offsets (N := N) (Z.of_nat N) os [] (replicate (N - 1) 0%Z)
    (replicate N Tag.INVALID) 0 (encode_tags ts ++ suf)) as Hr1.
  pose proof (reads_read_tags (N := N) (Z.of_nat N) os ts [] (replicate N Tag.INVALID)
    Tag.INVALID suf) as Hr2.
  rewrite Ho in Hr1. rewrite Ht in Hr2.
  eapply reads_bind; [apply Hr1|apply Hr2]; rewrite ?length_replicate; done.
Qed.

(** ** What an accepted header satisfies, and that no input makes the parser panic *)

Lemma Tag_try_from_no_panic v : Tag.try_from v <> Panic.
Proof.
  unfold Tag.try_from, Tag.from_wire. destruct (_ <? _); [done|]. by destruct (find _ _) as [[]|].
Qed.

Lemma parses_read_offsets {N} num ts : forall n done rest prior,
  length rest = n ->
  parses (read_offsets n (length done) prior (@mkHeader N num (done ++ rest) ts))
    (fun h bs => exists os, h = mkHeader num (done ++ os) ts /\ length os = n /\
                            offsets_okb prior os = true /\ bs = encode_offsets os).
Proof.
  induction n as [|n IH]; intros done rest prior Hlen.
  { destruct rest; [|done]. apply parses_ret. by exists []. }
  destruct rest as [|x rest]; [done|]. cbn [read_offsets].
  eapply parses_bind; [apply parses_try_get_u32_le|]. intros v b1 [Hv ->].
  apply parses_guard_bind. intros Hal%negb_false_iff.
  apply parses_guard_bind. intros Hpr. rewrite set_offset_next.
  apply parses_lift_bind; [done|]. intros ? [= <-].
  replace (S (length done)) with (length (done ++ [v])) by len.
  eapply parses_weaken; [apply IH; cbn in Hlen; lia|].
  intros h bs (os & -> & Hn & Hok & ->). exists (v :: os). unfold is_u32 in Hv. cbn.
  rewrite Hok, <-app_assoc, !andb_true_iff. split_and!; try done; lia.
Qed.

Lemma parses_read_tags {N} num os : forall n done rest prior,
  length rest = n ->
  parses (read_tags n (length done) prior (@mkHeader N num os (done ++ rest)))
    (fun h bs => exists ts, h = mkHeader num os (done ++ ts) /\ length ts = n /\
                            tags_okb prior ts = true /\ bs = encode_tags ts).
Proof.
  induction n as [|n IH]; intros done rest prior Hlen.
  { destruct rest; [|done]. apply parses_ret. by exists []. }
  destruct rest as [|x rest]; [done|]. cbn [read_tags].
  eapply parses_bind; [apply parses_try_get_u32|]. intros v b1 [Hv ->].
  apply parses_lift_bind; [apply Tag_try_from_no_panic|].
  intros t [-> Hne]%Tag.try_from_inv; [|done].
  apply parses_guard_bind. intros Hlt. rewrite set_tag_next.
  apply parses_lift_bind; [done|]. intros ? [= <-].
  replace (S (length done)) with (length (done ++ [t])) by len.
  eapply parses_weaken; [apply IH; cbn in Hlen; lia|].
  intros h bs (ts & -> & Hn & Hok & ->). exists (t :: ts). cbn.
  rewrite Hok, Hlt, <-app_assoc, bool_decide_eq_true_2 by done. split_and!; try done; lia.
Qed.

Lemma Header_parses N : 1 <= N -> (Z.of_nat N < 2 ^ 32)%Z ->
  parses (from_wire_inner N) (fun h bs => wf h /\ bs = encode h).
Proof.
  intros H1 H2. unfold from_wire_inner.
  apply parses_need_bind.
  eapply parses_bind; [apply parses_try_get_u32_le|]. intros v b1 [Hv ->].
  apply parses_guard_bind. intros <-%negb_false_iff%Z.eqb_eq.
  eapply parses_bind; [apply (parses_read_offsets _ _ _ []); by rewrite length_replicate|].
  intros ? ? (os & -> & Hos & Hoks & ->).
  eapply parses_weaken; [apply (parses_read_tags _ _ _ []); by rewrite length_replicate|].
  intros ? ? (ts & -> & Hts & Hokt & ->). cbn. split; [|done]. by split.
Qed.

Lemma check_offsets_from_ok total os : forall idx,
  check_offsets_from idx total os = Ok tt <-> Forall (fun o => (o <= as_u32 total)%Z) os.
Proof.
  induction os as [|o os IH]; intros idx; cbn; [by split|].
  destruct (Z.ltb_spec (as_u32 total) o).
  - split; [done|]. intros Hf. apply Forall_cons in Hf as [? _]. lia.
  - rewrite IH, Forall_cons. split; [by split|tauto].
Qed.

Lemma check_offsets_from_no_panic total os : forall idx, check_offsets_from idx total os <> Panic.
Proof. induction os as [|o os IH]; intros idx; cbn; [done|]. by destruct (_ <? _)%Z. Qed.

Lemma parses_check_bounds_bind {N A} (h : Header N) (k : unit -> CM A) (R : A -> bytes -> Prop) :
  parses (k tt) R -> parses (check_bounds_here h ≫= k) R.
Proof.
  intros Hk. apply parses_silent. intros pre rest.
  unfold check_bounds_here, mbind, CM_bind, get_remaining, lift_res, check_offset_bounds.
  pose proof (check_offsets_from_no_panic (remaining (at_cursor pre rest)) (offsets h) 0).
  destruct (check_offsets_from _ _ _) as [[]|e|]; done.
Qed.

Lemma reads_check_bounds {N} (h : Header N) suf :
  Forall (fun o => (o <= as_u32 (length suf))%Z) (offsets h) ->
  reads (check_bounds_here h) [] suf tt.
Proof.
  intros Hf pre. unfold check_bounds_here, mbind, CM_bind, get_remaining.
  rewrite remaining_at, app_nil_r. unfold lift_res, check_offset_bounds.
  by rewrite (proj2 (check_offsets_from_ok _ _ _) Hf).
Qed.

(** An accepted list of offsets is increasing: each is at least its predecessors. *)
Lemma offsets_okb_lookup prior os i j a b :
  offsets_okb prior os = true -> i <= j -> os !! i = Some a -> os !! j = Some b -> (a <= b)%Z.
Proof.
  revert prior i j. induction os as [|v os IH]; intros prior i j Hok Hij Hi Hj; [done|].
  cbn in Hok. rewrite !andb_true_iff in Hok. destruct Hok as (_ & Hok).
  assert (forall k c p, offsets_okb p os = true -> os !! k = Some c -> (p <= c)%Z) as Hlow.
  { clear. induction os as [|v os IH]; intros k c p Hok Hk; [done|].
    cbn in Hok. rewrite !andb_true_iff in Hok. destruct Hok as ((_ & Hp) & Hok).
    destruct k as [|k]; cbn in Hk; [injection Hk as <-; lia|].
    specialize (IH _ _ _ Hok Hk). lia. }
  destruct i as [|i], j as [|j]; cbn in *; try lia; simplify_eq; [lia| |].
  - by eapply Hlow.
  - eapply IH; [done| |done|done]. lia.
Qed.

Lemma offsets_okb_aligned prior os o : offsets_okb prior os = true -> o ∈ os -> is_u32 o /\ (o mod 4 = 0)%Z.
Proof.
  revert prior. induction os as [|v os IH]; intros prior Hok Ho; [by apply not_elem_of_nil in Ho|].
  cbn in Hok. rewrite !andb_true_iff in Hok. destruct Hok as ((((? & ?) & ?) & ?) & Hok).
  apply elem_of_cons in Ho as [->|Ho]; [unfold is_u32; lia|]. by eapply IH.
Qed.
