(* ===== verification/FixedTags.v ===== *)
(** * Fixed-size tag values

    crates/roughenough-protocol/src/tags/: fixed_tag.rs ([FixedTag<N>]) and its
    newtypes nonce.rs, root.rs, sig.rs and pubk.rs; srv.rs ([SrvCommitment]) and
    mtype.rs ([MessageType]).  An array [[u8; N]] is a byte list whose length is
    the [wf] of the type. *)
From S2P Require Import Prelude Errors Cursor Wire.

(** ** FixedTag *)

Record FixedTag (N : nat) := mkFixed { fixed_bytes : bytes }.
Arguments mkFixed {N} fixed_bytes.
Arguments fixed_bytes {N} f : rename.

#[export] Instance FixedTag_eq_dec N : EqDecision (FixedTag N).
Proof.
  intros [a] [b]. destruct (decide (a = b)); [left; by subst|right; by intros [=]].
Defined.

Definition FixedTag_default (N : nat) : FixedTag N := mkFixed (zeroes N).

Definition FixedTag_from_slice (N : nat) (slice : bytes) : res Error (FixedTag N) :=
  if length slice =? N then Ok (mkFixed slice) else Err (WrongTagSize N (length slice)).

(** [let mut data = [0u8; N]; data.copy_from_slice(bytes)]: panics on another length. *)
Definition copy_from_slice {E} (N : nat) (src : bytes) : res E (FixedTag N) :=
  if length src =? N then Ok (mkFixed src) else Panic.

#[export] Instance FixedTag_ToWire N : ToWire (FixedTag N) :=
  {| wire_size _ := N; to_wire t := try_put_fixed (fixed_bytes t) |}.
#[export] Instance FixedTag_FromWire N : FromWire (FixedTag N) :=
  bs ← try_get_fixed N; mret (mkFixed bs).
#[export] Instance FixedTag_Encode N : Encode (FixedTag N) :=
  {| encode := fixed_bytes; wf t := length (fixed_bytes t) = N |}.

#[export] Instance FixedTag_LawfulWrite N : LawfulWrite (FixedTag N).
Proof. split; intros t Ht; [by symmetry|]. apply writes_need; auto with roughtime. Qed.

#[export] Instance FixedTag_LawfulRead N : LawfulRead (FixedTag N).
Proof.
  intros [bs] suf Hb. cbn in *. rewrite <-(app_nil_r bs) at 1.
  eapply reads_bind; [by apply reads_try_get_fixed|apply reads_ret].
Qed.

#[export] Instance FixedTag_Canonical N : Canonical (FixedTag N).
Proof.
  eapply parses_bind; [apply parses_try_get_fixed|]. intros a bs [-> Hn].
  apply parses_ret. cbn. by rewrite app_nil_r.
Qed.

Lemma FixedTag_from_slice_ok N slice t :
  FixedTag_from_slice N slice = Ok t <-> fixed_bytes t = slice /\ length slice = N.
Proof.
  unfold FixedTag_from_slice. destruct t as [bs]. cbn.
  destruct (Nat.eqb_spec (length slice) N); split; try done.
  - by intros [= ->]. - by intros [-> _]. - by intros [-> ?].
Qed.

(** ** The newtypes over [FixedTag] *)

(** NONC: [Nonce(FixedTag<32>)] *)
Definition Nonce := FixedTag 32.
(** ROOT: [MerkleRoot(FixedTag<32>)] *)
Definition MerkleRoot := FixedTag 32.
(** PUBK: [PublicKey(FixedTag<32>)] *)
Definition PublicKey := FixedTag 32.
(** SIG: [Signature(FixedTag<64>)] *)
Definition Signature := FixedTag 64.

Definition Nonce_default : Nonce := FixedTag_default 32.
Definition MerkleRoot_default : MerkleRoot := FixedTag_default 32.
Definition PublicKey_default : PublicKey := FixedTag_default 32.
Definition Signature_default : Signature := FixedTag_default 64.

(** [impl From<&[u8]> for Nonce] and [impl From<&[u8]> for PublicKey] *)
Definition Nonce_from {E} (bs : bytes) : res E Nonce := copy_from_slice 32 bs.
Definition PublicKey_from {E} (bs : bytes) : res E PublicKey := copy_from_slice 32 bs.

Lemma PublicKey_from_ok {E} bs : length bs = 32 -> PublicKey_from (E := E) bs = Ok (mkFixed bs).
Proof. intros H. unfold PublicKey_from, copy_from_slice. by rewrite H. Qed.
Lemma Nonce_from_ok {E} bs : length bs = 32 -> Nonce_from (E := E) bs = Ok (mkFixed bs).
Proof. intros H. unfold Nonce_from, copy_from_slice. by rewrite H. Qed.

(** ** SRV *)

Record SrvCommitment := mkSrv { srv_bytes : bytes }.

#[export] Instance SrvCommitment_eq_dec : EqDecision SrvCommitment.
Proof. solve_decision. Defined.

Definition HASH_PREFIX_SRV : bytes := [Byte.xff].
Definition SrvCommitment_default : SrvCommitment := mkSrv (zeroes 32).

(** [impl TryFrom<&[u8]> for SrvCommitment] *)
Definition SrvCommitment_try_from (value : bytes) : res Error SrvCommitment :=
  if length value =? 32 then Ok (mkSrv value) else Err (BufferTooSmall 32 (length value)).

#[export] Instance SrvCommitment_ToWire : ToWire SrvCommitment := {|
  wire_size _ := 32;
  to_wire s := _ ← need 32; put_slice (srv_bytes s)
|}.
#[export] Instance SrvCommitment_FromWire : FromWire SrvCommitment :=
  bs ← try_copy_to_slice 32; mret (mkSrv bs).
#[export] Instance SrvCommitment_Encode : Encode SrvCommitment :=
  {| encode := srv_bytes; wf s := length (srv_bytes s) = 32 |}.

#[export] Instance SrvCommitment_LawfulWrite : LawfulWrite SrvCommitment.
Proof.
  split; intros s Hs; cbn in *; [by symmetry|].
  apply writes_need; [lia|auto with roughtime].
Qed.

#[export] Instance SrvCommitment_LawfulRead : LawfulRead SrvCommitment.
Proof.
  intros [bs] suf Hb. cbn in *. rewrite <-(app_nil_r bs) at 1.
  eapply reads_bind; [by apply (reads_try_get_fixed 32)|apply reads_ret].
Qed.

#[export] Instance SrvCommitment_Canonical : Canonical SrvCommitment.
Proof.
  eapply parses_bind; [apply (parses_try_get_fixed 32)|]. intros a bs [-> Hn].
  apply parses_ret. cbn. by rewrite app_nil_r.
Qed.

(** ** TYPE *)

Module MessageType.
Inductive t : Type := Request | Response | Invalid.

#[global] Instance t_eq_dec : EqDecision t.
Proof. solve_decision. Defined.

Definition discriminant (m : t) : Z :=
  match m with Request => 0x00000000 | Response => 0x00000001 | Invalid => 0xffffffff end.

Definition of_u32 (value : Z) : res Error t :=
  if (value =? 0)%Z then Ok Request
  else if (value =? 1)%Z then Ok Response
  else Err (InvalidMessageType value).

#[global] Instance MessageType_ToWire : ToWire t :=
  {| wire_size _ := 4; to_wire m := put_u32_le (discriminant m) |}.
#[global] Instance MessageType_FromWire : FromWire t :=
  value ← try_get_u32_le; lift_res (of_u32 value).
#[global] Instance MessageType_Encode : Encode t :=
  {| encode m := to_le_bytes 4 (discriminant m); wf m := m <> Invalid |}.

Lemma discriminant_is_u32 m : is_u32 (discriminant m).
Proof. unfold is_u32. destruct m; cbn; lia. Qed.

Lemma of_u32_inv v m : of_u32 v = Ok m -> v = discriminant m /\ m <> Invalid.
Proof.
  unfold of_u32. destruct (Z.eqb_spec v 0); [by intros [= <-]|].
  destruct (Z.eqb_spec v 1); [by intros [= <-]|done].
Qed.

#[global] Instance MessageType_LawfulWrite : LawfulWrite t.
Proof. split; intros m Hm; cbn; [len|auto with roughtime]. Qed.

#[global] Instance MessageType_LawfulRead : LawfulRead t.
Proof.
  intros m suf Hm. rewrite <-(app_nil_r (encode m)).
  eapply reads_bind; [apply reads_try_get_u32_le, discriminant_is_u32|].
  apply reads_lift_res. by destruct m.
Qed.

#[global] Instance MessageType_Canonical : Canonical t.
Proof.
  eapply parses_bind; [apply parses_try_get_u32_le|]. intros v b1 [_ ->].
  intros pre rest. cbn. destruct (of_u32 v) as [m|e|] eqn:E; [|done|].
  - apply of_u32_inv in E as [-> Hm]. exists [], rest. by rewrite !app_nil_r.
  - revert E. unfold of_u32. by repeat case_match.
Qed.
End MessageType.

Lemma length_encode_FixedTag N (t : FixedTag N) : wf t -> length (encode t) = N.
Proof. done. Qed.
Lemma length_encode_SrvCommitment s : wf s -> length (encode (A := SrvCommitment) s) = 32.
Proof. done. Qed.
Lemma length_encode_MessageType m : length (encode (A := MessageType.t) m) = 4.
Proof. apply length_to_le_bytes. Qed.
#[export] Hint Rewrite length_encode_MessageType : wire_length.
