(* ===== verification/Encoding.v ===== *)
(** * Text encodings (crates/roughenough-common/src/encoding.rs)

    [try_decode] tries six encodings of the crate data_encoding in turn.  That
    crate is a parameter, the class [DataEncoding]; [DataEncodingLaws] states what
    its documentation says of these encodings: each is the one of RFC 4648 (as
    [hex_encode] and [b64_encode] define them) and decodes exactly what it
    encodes.  [rfc4648] is an instance.  [hexdump] writes its lines to a writer. *)
From stdpp Require Import sets.
From S2P Require Import Prelude Text Errors Cursor Wire FixedTags.

Inductive DecodeKind : Type := Length | Symbol | Trailing | Padding.
Record DecodeError := mkDecodeError { de_position : nat; de_kind : DecodeKind }.

Record Encoding := mkEncoding {
  decode : bytes -> DecodeError + bytes;
  encode_str : bytes -> string;
}.

Class DataEncoding := {
  HEXLOWER : Encoding;
  HEXUPPER : Encoding;
  BASE64URL : Encoding;
  BASE64URL_NOPAD : Encoding;
  BASE64 : Encoding;
  BASE64_NOPAD : Encoding;
}.

(** [r.or_else(|_| next)] *)
Definition or_else {E A} (r next : E + A) : E + A := match r with inr x => inr x | inl _ => next end.
(** [?] on the result of a decoder. *)
Definition of_sum {E A} (r : E + A) : res E A := match r with inr x => Ok x | inl e => Err e end.

Section encoding.
Context {D : DataEncoding}.

Definition try_decode (encoded_value : string) : res DecodeError bytes :=
  let s := str_bytes encoded_value in
  of_sum (or_else (or_else (or_else (or_else (or_else
    (decode HEXLOWER s) (decode HEXUPPER s)) (decode BASE64URL s)) (decode BASE64URL_NOPAD s))
    (decode BASE64 s)) (decode BASE64_NOPAD s)).

Definition try_decode_key (encoded_key : string) : res DecodeError PublicKey :=
  key ← try_decode encoded_key;
  if negb (length key =? 32) then Err (mkDecodeError (length key) Length)
  else PublicKey_from key.

End encoding.

(** ** RFC 4648 *)

Definition alpha (symbols : string) (d : Z) : Init.Byte.byte := default Byte.x00 (str_bytes symbols !! Z.to_nat d).
Definition hex_lower := alpha "0123456789abcdef".
Definition hex_upper := alpha "0123456789ABCDEF".
Definition b64_std := alpha "ABCDEFGHIJKLMNOPQRSTUVWXYZabcdefghijklmnopqrstuvwxyz0123456789+/".
Definition b64_url := alpha "ABCDEFGHIJKLMNOPQRSTUVWXYZabcdefghijklmnopqrstuvwxyz0123456789-_".
Definition pad_byte : Init.Byte.byte := Byte.x3d.

(** The digits of a text in base 16, and in base 64 with zero bits at the end. *)
Fixpoint nibbles (bs : bytes) : list Z :=
  match bs with
  | [] => []
  | b :: r => (byte.unsigned b / 16)%Z :: (byte.unsigned b mod 16)%Z :: nibbles r
  end.
Fixpoint sextets (bs : bytes) : list Z :=
  match bs with
  | a :: b :: c :: r =>
      let v := (byte.unsigned a * 65536 + byte.unsigned b * 256 + byte.unsigned c)%Z in
      (v / 262144)%Z :: (v / 4096 mod 64)%Z :: (v / 64 mod 64)%Z :: (v mod 64)%Z :: sextets r
  | [a; b] =>
      let v := (byte.unsigned a * 1024 + byte.unsigned b * 4)%Z in
      [(v / 4096)%Z; (v / 64 mod 64)%Z; (v mod 64)%Z]
  | [a] => let v := (byte.unsigned a * 16)%Z in [(v / 64)%Z; (v mod 64)%Z]
  | [] => []
  end.
Definition pad_length (n : nat) : nat := match n mod 3 with 1 => 2 | 2 => 1 | _ => 0 end.

Definition hex_encode (symbol : Z -> Init.Byte.byte) (bs : bytes) : bytes := map symbol (nibbles bs).
Definition b64_encode (symbol : Z -> Init.Byte.byte) (padded : bool) (bs : bytes) : bytes :=
  map symbol (sextets bs) ++ if padded then replicate (pad_length (length bs)) pad_byte else [].

(** An encoding of the crate with the texts [spec] of the standard. *)
Record implements (e : Encoding) (spec : bytes -> bytes) : Prop := {
  implements_decode s x : decode e s = inr x <-> s = spec x;
  implements_encode x : str_bytes (encode_str e x) = spec x;
}.

Class DataEncodingLaws (D : DataEncoding) : Prop := {
  HEXLOWER_ok : implements HEXLOWER (hex_encode hex_lower);
  HEXUPPER_ok : implements HEXUPPER (hex_encode hex_upper);
  BASE64URL_ok : implements BASE64URL (b64_encode b64_url true);
  BASE64URL_NOPAD_ok : implements BASE64URL_NOPAD (b64_encode b64_url false);
  BASE64_ok : implements BASE64 (b64_encode b64_std true);
  BASE64_NOPAD_ok : implements BASE64_NOPAD (b64_encode b64_std false);
}.

Definition hex_specs : list (bytes -> bytes) := [hex_encode hex_lower; hex_encode hex_upper].
Definition b64_specs : list (bytes -> bytes) :=
  [b64_encode b64_url true; b64_encode b64_url false; b64_encode b64_std true; b64_encode b64_std false].

(** The digits are in range, determine the bytes, and have their own symbols. *)

Lemma nibbles_range bs : Forall (fun d => 0 <= d < 16)%Z (nibbles bs).
Proof.
  induction bs as [|b r IH]; cbn; [done|]. pose proof (byte.unsigned_range b).
  repeat (apply Forall_cons; split); [| |exact IH]; Z.div_mod_to_equations; lia.
Qed.

Lemma nibbles_inj x : forall y, nibbles x = nibbles y -> x = y.
Proof.
  induction x as [|a x IH]; intros [|b y]; cbn; try done. intros [= H1 H2 H%IH].
  f_equal; [|done]. rewrite <-(byte.of_Z_unsigned a), <-(byte.of_Z_unsigned b).
  f_equal. rewrite (Z.div_mod (byte.unsigned a) 16), (Z.div_mod (byte.unsigned b) 16) by lia. congruence.
Qed.

Fixpoint bytes_ind3 (P : bytes -> Prop) (H0 : P []) (H1 : forall a, P [a]) (H2 : forall a b, P [a; b])
    (H3 : forall a b c r, P r -> P (a :: b :: c :: r)) (bs : bytes) : P bs :=
  match bs with
  | [] => H0
  | [a] => H1 a
  | [a; b] => H2 a b
  | a :: b :: c :: r => H3 a b c r (bytes_ind3 P H0 H1 H2 H3 r)
  end.

(** Bring the ranges of all bytes into the context. *)
Ltac byte_ranges :=
  repeat match goal with
  | b : Init.Byte.byte |- _ =>
      lazymatch goal with
      | _ : (0 <= byte.unsigned b < 2 ^ 8)%Z |- _ => fail
      | _ => pose proof (byte.unsigned_range b)
      end
  end.

Lemma sextets_range bs : Forall (fun d => 0 <= d < 64)%Z (sextets bs).
Proof.
  induction bs as [|a|a b|a b c r IH] using bytes_ind3; cbn; byte_ranges;
    repeat (apply Forall_cons; split); try exact IH; try apply Forall_nil_2;
    Z.div_mod_to_equations; lia.
Qed.

Lemma byte_unsigned_inj a b : byte.unsigned a = byte.unsigned b -> a = b.
Proof. intros H. by rewrite <-(byte.of_Z_unsigned a), <-(byte.of_Z_unsigned b), H. Qed.

(** Two texts of the same bytes: the digits give the bytes back. *)
Ltac same_byte := apply byte_unsigned_inj; Z.div_mod_to_equations; lia.

Lemma sextets_inj x : forall y, sextets x = sextets y -> x = y.
Proof.
  induction x as [|a|a b|a b c r IH] using bytes_ind3; intros [|a' [|b' [|c' r']]]; cbn; try done.
  - intros [= H1 H2]. byte_ranges. assert (a = a') as -> by same_byte. done.
  - intros [= H1 H2 H3]. byte_ranges. assert (a = a') as -> by same_byte.
    assert (b = b') as -> by same_byte. done.
  - intros [= H1 H2 H3 H4 ->%IH]. byte_ranges. assert (a = a') as -> by same_byte.
    assert (b = b') as -> by same_byte. assert (c = c') as -> by same_byte. done.
Qed.

(** Two symbol tables of [n] digits never give one symbol to two digits. *)
Definition tables_agree (n : Z) (f g : Z -> Init.Byte.byte) : bool :=
  forallb (fun i => forallb (fun j => negb (Byte.eqb (f i) (g j)) || (i =? j)%Z) (seqZ 0 n)) (seqZ 0 n).
(** No digit has the symbol of padding. *)
Definition never_pad (n : Z) (f : Z -> Init.Byte.byte) : bool :=
  forallb (fun i => negb (Byte.eqb (f i) pad_byte)) (seqZ 0 n).

Lemma forallb_seqZ (p : Z -> bool) n : forallb p (seqZ 0 n) = true -> forall i, (0 <= i < n)%Z -> p i = true.
Proof. rewrite forallb_forall. intros H i Hi. apply H, list_elem_of_In, elem_of_seqZ. lia. Qed.

Lemma tables_agree_inj n f g i j : tables_agree n f g = true ->
  (0 <= i < n)%Z -> (0 <= j < n)%Z -> f i = g j -> i = j.
Proof.
  unfold tables_agree. intros H Hi Hj Hfg. pose proof (forallb_seqZ _ _ H i Hi) as Hrow.
  pose proof (forallb_seqZ _ _ Hrow j Hj) as Hc. cbn beta in Hc. rewrite Hfg in Hc.
  assert (Byte.eqb (g j) (g j) = true) as Heq by by apply Byte.byte_dec_lb.
  rewrite Heq in Hc. cbn in Hc. lia.
Qed.

Lemma map_tables_inj n f g : tables_agree n f g = true -> forall x y,
  Forall (fun d => 0 <= d < n)%Z x -> Forall (fun d => 0 <= d < n)%Z y ->
  map f x = map g y -> x = y.
Proof.
  intros Hfg. induction x as [|a x IH]; intros [|b y]; cbn; try done.
  intros [Ha Hx]%Forall_cons [Hb Hy]%Forall_cons [= H1 H2]. f_equal; [|by apply IH].
  by eapply tables_agree_inj.
Qed.

Definition strip_pad (s : bytes) : bytes := filter (fun c => c <> pad_byte) s.

Lemma strip_digits n f : never_pad n f = true -> forall x, Forall (fun d => 0 <= d < n)%Z x ->
  strip_pad (map f x) = map f x.
Proof.
  intros Hf. induction x as [|a x IH]; [done|]. intros [Ha Hx]%Forall_cons. cbn [map].
  unfold strip_pad in *. rewrite filter_cons_True; [by rewrite IH|].
  pose proof (forallb_seqZ _ _ Hf a Ha) as Hc. cbn beta in Hc. intros Heq. by rewrite Heq in Hc.
Qed.

Lemma strip_b64 f padded x : never_pad 64 f = true -> strip_pad (b64_encode f padded x) = map f (sextets x).
Proof.
  intros Hf. unfold b64_encode, strip_pad. rewrite filter_app.
  rewrite <-(strip_digits 64 f Hf (sextets x) (sextets_range x)) at 2. unfold strip_pad.
  destruct padded; [|by rewrite filter_nil, app_nil_r].
  assert (filter (fun c => c <> pad_byte) (replicate (pad_length (length x)) pad_byte) = []) as ->.
  { induction (pad_length (length x)) as [|k IH]; [done|]. cbn [replicate]. by rewrite filter_cons_False by auto. }
  by rewrite app_nil_r.
Qed.

Lemma hex_agree f g x y : f ∈ hex_specs -> g ∈ hex_specs -> f x = g y -> x = y.
Proof.
  assert (forall s t, tables_agree 16 s t = true -> hex_encode s x = hex_encode t y -> x = y) as Hst.
  { intros s t Hst H. eapply nibbles_inj, (map_tables_inj 16); [done|apply nibbles_range..|exact H]. }
  unfold hex_specs. rewrite !elem_of_cons.
  intros [->|[->|[]%not_elem_of_nil]] [->|[->|[]%not_elem_of_nil]]; apply Hst; vm_compute; reflexivity.
Qed.

Lemma b64_agree f g x y : f ∈ b64_specs -> g ∈ b64_specs -> f x = g y -> x = y.
Proof.
  assert (forall s t p q, never_pad 64 s = true -> never_pad 64 t = true -> tables_agree 64 s t = true ->
    b64_encode s p x = b64_encode t q y -> x = y) as Hst.
  { intros s t p q Hs Ht Hst H%(f_equal strip_pad). rewrite !strip_b64 in H by done.
    eapply sextets_inj, (map_tables_inj 64); [done|apply sextets_range..|exact H]. }
  unfold b64_specs. rewrite !elem_of_cons.
  intros [->|[->|[->|[->|[]%not_elem_of_nil]]]] [->|[->|[->|[->|[]%not_elem_of_nil]]]];
    apply Hst; vm_compute; reflexivity.
Qed.

Lemma length_nibbles bs : length (nibbles bs) = 2 * length bs.
Proof. induction bs; cbn; lia. Qed.

Lemma length_sextets bs : length (sextets bs) = length bs + (length bs + 2) / 3.
Proof.
  induction bs as [|a|a b|a b c r IH] using bytes_ind3; cbn -[Nat.div]; try reflexivity.
  rewrite IH. replace (S (S (S (length r + 2)))) with (length r + 2 + 1 * 3) by lia.
  rewrite Nat.div_add by lia. lia.
Qed.

(** The bytes that occur in texts. *)
Definition text_symbols (n : Z) (f : Z -> Init.Byte.byte) : bytes := pad_byte :: map f (seqZ 0 n).

Lemma map_symbols n f ds c : Forall (fun d => 0 <= d < n)%Z ds -> c ∈ map f ds -> c ∈ text_symbols n f.
Proof.
  intros Hds Hc. apply list_elem_of_In, in_map_iff in Hc as (d & <- & Hd%list_elem_of_In).
  apply elem_of_cons. right. apply list_elem_of_In, in_map, list_elem_of_In, elem_of_seqZ.
  rewrite Forall_forall in Hds. specialize (Hds d Hd). lia.
Qed.

Definition hex_alphabet : bytes := text_symbols 16 hex_lower ++ text_symbols 16 hex_upper.
Definition b64_alphabet : bytes := text_symbols 64 b64_std ++ text_symbols 64 b64_url.

Lemma hex_symbols f x c : f ∈ hex_specs -> c ∈ f x -> existsb (Byte.eqb c) hex_alphabet = true.
Proof.
  intros Hf Hc. apply existsb_exists. exists c. split; [|by apply Byte.byte_dec_lb].
  apply list_elem_of_In, elem_of_app. unfold hex_specs in Hf. rewrite !elem_of_cons in Hf.
  destruct Hf as [->|[->|[]%not_elem_of_nil]]; [left|right]; by eapply map_symbols, Hc; apply nibbles_range.
Qed.

Lemma b64_symbols f x c : f ∈ b64_specs -> c ∈ f x -> existsb (Byte.eqb c) b64_alphabet = true.
Proof.
  assert (forall s p, c ∈ b64_encode s p x -> c ∈ text_symbols 64 s) as Hs.
  { intros s p. unfold b64_encode. rewrite elem_of_app. intros [Hc|Hc].
    - eapply map_symbols, Hc. apply sextets_range.
    - destruct p; [|by apply not_elem_of_nil in Hc]. apply elem_of_replicate in Hc as [-> _].
      apply elem_of_cons. by left. }
  intros Hf Hc. apply existsb_exists. exists c. split; [|by apply Byte.byte_dec_lb].
  apply list_elem_of_In, elem_of_app. unfold b64_specs in Hf. rewrite !elem_of_cons in Hf.
  destruct Hf as [->|[->|[->|[->|[]%not_elem_of_nil]]]]; eauto.
Qed.

(** ** What [try_decode] accepts *)

Section decoding.
Context {D : DataEncoding} {DL : DataEncodingLaws D}.

Definition hex_text (s : bytes) (x : bytes) : Prop := exists f, f ∈ hex_specs /\ s = f x.
Definition b64_text (s : bytes) (x : bytes) : Prop := exists f, f ∈ b64_specs /\ s = f x.

(** One more alternative of an [or_else] chain. *)
Lemma or_else_decode (e : Encoding) spec s (r : DecodeError + bytes) x : implements e spec ->
  or_else r (decode e s) = inr x <-> r = inr x \/ ((forall y, r <> inr y) /\ s = spec x).
Proof using Type.
  intros He. destruct r as [err|y]; cbn.
  - rewrite (implements_decode _ _ He). split; [intros H; right; by split|by intros [?|[_ ?]]].
  - split; [by left|]. intros [?|[Hn _]]; [done|]. by destruct (Hn y).
Qed.

Lemma hex_decode s x :
  or_else (decode HEXLOWER s) (decode HEXUPPER s) = inr x <-> hex_text s x.
Proof using DL.
  rewrite (or_else_decode _ _ _ _ _ HEXUPPER_ok), (implements_decode _ _ HEXLOWER_ok). split.
  - intros [->|[_ ->]]; eexists; (split; [|reflexivity]); set_solver.
  - intros (f & Hf & Hs). unfold hex_specs in Hf. rewrite !elem_of_cons in Hf.
    destruct Hf as [->|[->|[]%not_elem_of_nil]]; [by left|].
    destruct (decode HEXLOWER s) as [e|y] eqn:Hy; [by right|]. left.
    apply (implements_decode _ _ HEXLOWER_ok) in Hy. rewrite Hy. f_equal.
    eapply hex_agree; [| |rewrite <-Hy; exact Hs]; set_solver.
Qed.

(** A chain of decoders finds what one of them decodes. *)
Definition decode_chain (e : DecodeError) (ds : list Encoding) (s : bytes) : DecodeError + bytes :=
  foldl (fun r d => or_else r (decode d s)) (inl e) ds.

Lemma decode_chain_ok ds s : forall e,
  (forall x, decode_chain e ds s = inr x -> exists d, d ∈ ds /\ decode d s = inr x) /\
  (forall d y, d ∈ ds -> decode d s = inr y -> exists x, decode_chain e ds s = inr x).
Proof using Type.
  assert (forall ds y, foldl (fun r d => or_else r (decode d s)) (inr y) ds = inr y) as Hfound.
  { clear. induction ds as [|d ds IH]; intros y; [done|]. apply IH. }
  unfold decode_chain. induction ds as [|d0 ds IH]; intros e; cbn [foldl or_else].
  { split; [done|]. intros d y Hd. by apply not_elem_of_nil in Hd. }
  destruct (decode d0 s) as [e0|y0] eqn:Hd0.
  - destruct (IH e0) as [IH1 IH2]. split.
    + intros x (d & Hd & Hx)%IH1. exists d. split; [by right|done].
    + intros d y [->|Hd]%elem_of_cons Hy; [by rewrite Hy in Hd0|by eapply IH2].
  - rewrite Hfound. split; [|by eexists]. intros x [= <-]. exists d0. split; [by left|done].
Qed.

(** So do decoders of the base-64 variants in any order. *)
Lemma b64_chain e ds s x :
  (forall d, d ∈ ds -> exists f, f ∈ b64_specs /\ implements d f) ->
  (forall f, f ∈ b64_specs -> exists d, d ∈ ds /\ implements d f) ->
  decode_chain e ds s = inr x <-> b64_text s x.
Proof using Type.
  intros Hds Hspecs. destruct (decode_chain_ok ds s e) as [Hsound Hcomplete].
  assert (forall y, decode_chain e ds s = inr y -> b64_text s y) as Htext.
  { intros y (d & Hd & Hy)%Hsound. destruct (Hds d Hd) as (f & Hf & Hi). exists f. split; [done|].
    by apply (implements_decode _ _ Hi). }
  split; [apply Htext|]. intros (f & Hf & Hs). destruct (Hspecs f Hf) as (d & Hd & Hi).
  destruct (Hcomplete d x Hd) as [y Hy]; [by apply (implements_decode _ _ Hi)|]. rewrite Hy. f_equal.
  destruct (Htext y Hy) as (g & Hg & Hs'). eapply b64_agree; [| |by rewrite <-Hs'; exact Hs]; done.
Qed.

Definition b64_decoders : list Encoding := [BASE64URL; BASE64URL_NOPAD; BASE64; BASE64_NOPAD].

(** The hexadecimal decoders have precedence; the base-64 ones agree, so that their
    order does not matter. *)
Lemma decode_order_spec ds s x : (forall d, d ∈ ds <-> d ∈ b64_decoders) ->
  of_sum (foldl (fun r d => or_else r (decode d s)) (or_else (decode HEXLOWER s) (decode HEXUPPER s)) ds) = Ok x <->
  hex_text s x \/ ((forall y, ~ hex_text s y) /\ b64_text s x).
Proof using DL.
  intros Hds.
  assert ((forall d, d ∈ ds -> exists f, f ∈ b64_specs /\ implements d f) /\
    (forall f, f ∈ b64_specs -> exists d, d ∈ ds /\ implements d f)) as [H1 H2].
  { pose proof DL as []. split.
    - intros d Hd%Hds. unfold b64_decoders in Hd. rewrite !elem_of_cons, elem_of_nil in Hd.
      destruct Hd as [->|[->|[->|[->|[]]]]]; eexists; (split; [|eassumption]); unfold b64_specs; rewrite !elem_of_cons; tauto.
    - intros f. unfold b64_specs. rewrite !elem_of_cons, elem_of_nil. intros [->|[->|[->|[->|[]]]]];
        eexists; (split; [|eassumption]); apply Hds; unfold b64_decoders; rewrite !elem_of_cons; tauto. }
  rewrite <-hex_decode.
  destruct (or_else (decode HEXLOWER s) (decode HEXUPPER s)) as [e|y] eqn:Hh.
  - assert (forall y, ~ hex_text s y) as Hn by (intros y; rewrite <-hex_decode, Hh; done).
    rewrite <-(b64_chain e ds s x H1 H2). unfold decode_chain. destruct (foldl _ _ ds) as [e'|y]; cbn.
    + split; [done|]. by intros [?|[_ ?]].
    + split; [intros [= ->]; by right|]. by intros [?|[_ [= ->]]].
  - assert (forall l, foldl (fun r d => or_else r (decode d s)) (inr y) l = inr y) as -> by (induction l; done).
    cbn. split; [intros [= ->]; by left|]. intros [[= ->]|[Hn _]]; [done|].
    destruct (Hn y). by apply hex_decode.
Qed.

Lemma try_decode_spec s x :
  try_decode s = Ok x <->
  hex_text (str_bytes s) x \/ ((forall y, ~ hex_text (str_bytes s) y) /\ b64_text (str_bytes s) x).
Proof using DL. by apply (decode_order_spec b64_decoders). Qed.

(** Base 64 of 32 bytes has 43 digits, an odd number. *)
Lemma hex_b64_distinct s y k : length k = 32 -> hex_text s y -> ~ b64_text s k.
Proof using Type.
  intros Hk (f & Hf & ->) (g & Hg & H). apply (f_equal strip_pad), (f_equal length) in H.
  assert (length (strip_pad (f y)) = 2 * length y) as Hy.
  { unfold hex_specs in Hf. rewrite !elem_of_cons in Hf.
    destruct Hf as [->|[->|[]%not_elem_of_nil]]; unfold hex_encode;
      (rewrite (strip_digits 16) by (apply nibbles_range || (vm_compute; reflexivity)));
      by rewrite length_map, length_nibbles. }
  assert (length (strip_pad (g k)) = 43) as Hg43.
  { unfold b64_specs in Hg. rewrite !elem_of_cons in Hg.
    destruct Hg as [->|[->|[->|[->|[]%not_elem_of_nil]]]];
      by rewrite strip_b64, length_map, length_sextets, Hk by (vm_compute; reflexivity). }
  lia.
Qed.

(** Keys in any encoding.  [try_decode_key] reads a text as a public key exactly
    when the text is one of the six encodings (hexadecimal in either case, base64
    or base64url, padded or not) of 32 bytes, and then returns these bytes: for
    keys, trying the encodings in turn is never ambiguous. *)
Theorem try_decode_key_spec s k :
  try_decode_key s = Ok k <->
  length (fixed_bytes k) = 32 /\
  (hex_text (str_bytes s) (fixed_bytes k) \/ b64_text (str_bytes s) (fixed_bytes k)).
Proof using DL.
  unfold try_decode_key. split.
  - destruct (try_decode s) as [x|e|] eqn:Hx; [|done|done]. cbn [mbind res_bind].
    destruct (Nat.eqb_spec (length x) 32) as [Hl|]; [|done]. cbn [negb].
    rewrite PublicKey_from_ok by done. intros [= <-]. cbn. split; [done|].
    apply try_decode_spec in Hx. tauto.
  - destruct k as [k]. cbn. intros [Hl Htext].
    assert (try_decode s = Ok k) as ->.
    { apply try_decode_spec. destruct Htext as [?|Hb]; [by left|right]. split; [|done].
      intros y Hy. by eapply hex_b64_distinct. }
    cbn [mbind res_bind]. rewrite Hl. cbn. by rewrite PublicKey_from_ok.
Qed.

End decoding.

(** ** An implementation of the parameter *)

Definition symbol_digit (n : Z) (f : Z -> Init.Byte.byte) (c : Init.Byte.byte) : Z :=
  default 0%Z (head (filter (fun d => f d = c) (seqZ 0 n))).
Fixpoint of_nibbles (ds : list Z) : bytes :=
  match ds with h :: l :: r => byte.of_Z (h * 16 + l) :: of_nibbles r | _ => [] end.
Fixpoint of_sextets (ds : list Z) : bytes :=
  match ds with
  | p :: q :: r :: s :: ds' =>
      let v := (p * 262144 + q * 4096 + r * 64 + s)%Z in
      byte.of_Z (v / 65536) :: byte.of_Z (v / 256 mod 256) :: byte.of_Z (v mod 256) :: of_sextets ds'
  | [p; q; r] => let v := (p * 4096 + q * 64 + r)%Z in [byte.of_Z (v / 1024); byte.of_Z (v / 4 mod 256)]
  | [p; q] => [byte.of_Z ((p * 64 + q) / 16)]
  | _ => []
  end.

(** Decode by [raw], and accept the text only if it is the one [spec] gives. *)
Definition strict_codec (spec raw : bytes -> bytes) : Encoding :=
  mkEncoding (fun s => if decide (spec (raw s) = s) then inr (raw s) else inl (mkDecodeError 0 Symbol))
    (fun x => of_bytes (spec x)).
Definition hex_codec (f : Z -> Init.Byte.byte) : Encoding :=
  strict_codec (hex_encode f) (fun s => of_nibbles (map (symbol_digit 16 f) s)).
Definition b64_codec (f : Z -> Init.Byte.byte) (padded : bool) : Encoding :=
  strict_codec (b64_encode f padded) (fun s => of_sextets (map (symbol_digit 64 f) (strip_pad s))).

Definition rfc4648 : DataEncoding := {|
  HEXLOWER := hex_codec hex_lower;
  HEXUPPER := hex_codec hex_upper;
  BASE64URL := b64_codec b64_url true;
  BASE64URL_NOPAD := b64_codec b64_url false;
  BASE64 := b64_codec b64_std true;
  BASE64_NOPAD := b64_codec b64_std false;
|}.

Lemma strict_codec_ok spec raw : (forall x, raw (spec x) = x) -> implements (strict_codec spec raw) spec.
Proof.
  intros Hraw. split.
  - intros s x. cbn. case_decide as Hs; split; try done.
    + by intros [= <-].
    + intros ->. by rewrite Hraw.
    + intros ->. by rewrite Hraw in Hs.
  - intros x. apply str_bytes_of_bytes.
Qed.

Lemma of_nibbles_nibbles bs : of_nibbles (nibbles bs) = bs.
Proof.
  induction bs as [|b r IH]; cbn; [done|]. rewrite IH. f_equal. rewrite <-(byte.of_Z_unsigned b) at 3.
  f_equal. pose proof (Z.div_mod (byte.unsigned b) 16). lia.
Qed.

Ltac of_Z_byte b := rewrite <-(byte.of_Z_unsigned b) at 1; f_equal; byte_ranges; Z.div_mod_to_equations; lia.

Lemma of_sextets_sextets bs : of_sextets (sextets bs) = bs.
Proof.
  induction bs as [|a|a b|a b c r IH] using bytes_ind3; cbn; byte_ranges; [done|..]; repeat f_equal; try exact IH;
  match goal with |- _ = ?x => symmetry; of_Z_byte x end.
Qed.

Lemma symbol_digit_ok n f : forallb (fun d => (symbol_digit n f (f d) =? d)%Z) (seqZ 0 n) = true ->
  forall ds, Forall (fun d => 0 <= d < n)%Z ds -> map (symbol_digit n f) (map f ds) = ds.
Proof.
  intros Hf. induction ds as [|d ds IH]; [done|]. intros [Hd Hds]%Forall_cons. cbn [map].
  rewrite IH by done. f_equal. pose proof (forallb_seqZ _ _ Hf d Hd) as Hc. cbn beta in Hc. lia.
Qed.

Lemma hex_codec_ok f : forallb (fun d => (symbol_digit 16 f (f d) =? d)%Z) (seqZ 0 16) = true ->
  implements (hex_codec f) (hex_encode f).
Proof.
  intros Hf. apply strict_codec_ok. intros x. unfold hex_encode.
  by rewrite symbol_digit_ok, of_nibbles_nibbles by (done || apply nibbles_range).
Qed.

Lemma b64_codec_ok f padded : forallb (fun d => (symbol_digit 64 f (f d) =? d)%Z) (seqZ 0 64) = true ->
  never_pad 64 f = true -> implements (b64_codec f padded) (b64_encode f padded).
Proof.
  intros Hf Hp. apply strict_codec_ok. intros x. rewrite strip_b64 by done.
  by rewrite symbol_digit_ok, of_sextets_sextets by (done || apply sextets_range).
Qed.

#[export] Instance rfc4648_laws : DataEncodingLaws rfc4648.
Proof. split; first [apply hex_codec_ok|apply b64_codec_ok]; vm_compute; reflexivity. Qed.

Lemma try_decode_key_spec_witness :
  let k := mkFixed (replicate 32 (Byte.x42)) in
  try_decode_key (D := rfc4648) "QkJCQkJCQkJCQkJCQkJCQkJCQkJCQkJCQkJCQkJCQkI=" = Ok k /\
  try_decode_key (D := rfc4648) "0101010101010101" <> Ok k.
Proof.
  split.
  - apply (try_decode_key_spec (D := rfc4648)). split; [reflexivity|]. right.
    exists (b64_encode b64_std true). split; [|vm_compute; reflexivity]. unfold b64_specs. set_solver.
  - intros H. vm_compute in H. discriminate H.
Defined.

(** ** Hex dumps *)

Section hexdump.
Context {W E : Type} (write : string -> W -> res E W).

Definition BYTES_PER_LINE : nat := 16.

Definition hex_byte (b : Init.Byte.byte) : string := of_bytes (hex_encode hex_lower [b]).
(** [{:08x}] *)
Definition hex_offset (n : nat) : string :=
  of_bytes (map hex_lower
    (map (fun i => Z.of_nat n / 16 ^ i mod 16)%Z (rev (seqZ 0 (Z.max 8 (Z.log2 (Z.of_nat n) / 4 + 1)))))).

Definition is_ascii_graphic (b : Init.Byte.byte) : bool := (33 <=? byte.unsigned b)%Z && (byte.unsigned b <=? 126)%Z.
Definition dump_char (b : Init.Byte.byte) : Init.Byte.byte :=
  if is_ascii_graphic b || bool_decide (b = Byte.x20) then b else Byte.x2e.

(** The loops of a line, with their writes. *)
Fixpoint dump_hex (i : nat) (chunk : bytes) (w : W) : res E W :=
  match chunk with
  | [] => Ok w
  | b :: bs =>
      w ← write (hex_byte b) w;
      w ← if i mod 2 =? 1 then write " " w else Ok w;
      dump_hex (S i) bs w
  end.
Fixpoint dump_padding (n i len : nat) (w : W) : res E W :=
  match n with
  | O => Ok w
  | S n' =>
      w ← write "  " w;
      w ← if (len + i) mod 2 =? 1 then write " " w else Ok w;
      dump_padding n' (S i) len w
  end.
Fixpoint dump_ascii (chunk : bytes) (w : W) : res E W :=
  match chunk with
  | [] => Ok w
  | b :: bs => w ← write (of_bytes [dump_char b]) w; dump_ascii bs w
  end.
Definition dump_line (offset : nat) (chunk : bytes) (w : W) : res E W :=
  w ← write (hex_offset (offset * BYTES_PER_LINE) +:+ ": ") w;
  w ← dump_hex 0 chunk w;
  let padding := BYTES_PER_LINE - length chunk in
  w ← dump_padding padding 0 (length chunk) w;
  w ← write " |" w;
  w ← dump_ascii chunk w;
  write ("|" +:+ String (Ascii.ascii_of_nat 10) EmptyString) w.

(** [data.chunks(16)]; the fuel is the length of the data. *)
Fixpoint dump_lines (fuel offset : nat) (bs : bytes) (w : W) : res E W :=
  match fuel, bs with
  | S fuel', _ :: _ =>
      w ← dump_line offset (take BYTES_PER_LINE bs) w;
      dump_lines fuel' (S offset) (drop BYTES_PER_LINE bs) w
  | _, _ => Ok w
  end.
Definition hexdump (bs : bytes) (w : W) : res E W := dump_lines (length bs) 0 bs w.

End hexdump.

(** A [Vec<u8>] never fails. *)
Definition vec_write {E} (s : string) (w : string) : res E string := Ok (w +:+ s).
Definition newline : string := String (Ascii.ascii_of_nat 10) EmptyString.

Example hexdump_test : hexdump (E := unit) vec_write (b_lit "Hello, World! This is a test.") "" =
  Ok ("00000000: 4865 6c6c 6f2c 2057 6f72 6c64 2120 5468  |Hello, World! Th|" +:+ newline +:+
      "00000010: 6973 2069 7320 6120 7465 7374 2e         |is is a test.|" +:+ newline)%string.
Proof. vm_compute. reflexivity. Qed.
