(* ===== verification/Versions.v ===== *)
(** * Protocol versions and version lists

    crates/roughenough-protocol/src/protocol_ver.rs ([ProtocolVersion]),
    version_list.rs ([VersionList]) and its newtypes tags/ver.rs
    ([RequestedVersions]) and tags/vers.rs ([SupportedVersions]). *)
From S2P Require Import Prelude Errors Cursor Wire.
From Stdlib Require Import Ascii.

Inductive ProtocolVersion : Type := RfcDraft08 | RfcDraft14.

#[export] Instance ProtocolVersion_eq_dec : EqDecision ProtocolVersion.
Proof. solve_decision. Defined.

(** [*self as u32] *)
Definition version_u32 (v : ProtocolVersion) : Z :=
  match v with RfcDraft08 => 0x80000008 | RfcDraft14 => 0x8000000c end.

(** The derived [Ord] compares discriminants. *)
Definition version_ltb (a b : ProtocolVersion) : bool := (version_u32 a <? version_u32 b)%Z.

Definition dele_prefix (v : ProtocolVersion) : bytes :=
  match v with
  | RfcDraft08 => b_lit "RoughTime v1 delegation signature--" ++ [Byte.x00]
  | RfcDraft14 => b_lit "RoughTime v1 delegation signature" ++ [Byte.x00]
  end.

Definition srep_prefix (v : ProtocolVersion) : bytes :=
  match v with
  | RfcDraft08 | RfcDraft14 => b_lit "RoughTime v1 response signature" ++ [Byte.x00]
  end.

Definition requires_type_tag (v : ProtocolVersion) : bool :=
  match v with RfcDraft08 => false | RfcDraft14 => true end.

Definition version_of_u32 (value : Z) : res Error ProtocolVersion :=
  if (value =? 0x00000000)%Z || (value =? 0x80000008)%Z then Ok RfcDraft08
  else if (value =? 0x8000000c)%Z then Ok RfcDraft14
  else Err (InvalidVersion value).

#[export] Instance ProtocolVersion_ToWire : ToWire ProtocolVersion :=
  {| wire_size _ := 4; to_wire v := put_u32_le (version_u32 v) |}.
#[export] Instance ProtocolVersion_FromWire : FromWire ProtocolVersion :=
  value ← try_get_u32_le; lift_res (version_of_u32 value).
#[export] Instance ProtocolVersion_Encode : Encode ProtocolVersion :=
  {| encode v := to_le_bytes 4 (version_u32 v); wf _ := True |}.

(** [u8::to_ascii_lowercase] and [str::to_ascii_lowercase] *)
Definition ascii_lowercase (c : ascii) : ascii :=
  let n := nat_of_ascii c in
  if (65 <=? n) && (n <=? 90) then ascii_of_nat (n + 32) else c.
Fixpoint to_ascii_lowercase (s : string) : string :=
  match s with
  | EmptyString => EmptyString
  | String c s' => String (ascii_lowercase c) (to_ascii_lowercase s')
  end.

(** [impl FromStr for ProtocolVersion] *)
Definition version_from_str (s : string) : res Error ProtocolVersion :=
  let l := to_ascii_lowercase s in
  if bool_decide (l ∈ ["8"; "draft-08"; "draft08"]%string) then Ok RfcDraft08
  else if bool_decide (l ∈ ["14"; "draft-14"; "draft14"; "ietf-roughtime"]%string) then Ok RfcDraft14
  else Err (InvalidVersion (2 ^ 32 - 1)).

Lemma version_u32_range v : is_u32 (version_u32 v).
Proof. unfold is_u32. destruct v; cbn; lia. Qed.

#[export] Instance ProtocolVersion_LawfulWrite : LawfulWrite ProtocolVersion.
Proof. split; intros v _; cbn; [len|auto with roughtime]. Qed.

#[export] Instance ProtocolVersion_LawfulRead : LawfulRead ProtocolVersion.
Proof.
  intros v suf _. rewrite <-(app_nil_r (encode v)).
  eapply reads_bind; [apply reads_try_get_u32_le, version_u32_range|].
  apply reads_lift_res. by destruct v.
Qed.

(** Parsing is not injective: the legacy Google version 0 reads as draft-08. *)
Definition version_bytes (v : ProtocolVersion) (bs : bytes) : Prop :=
  bs = encode v \/ (v = RfcDraft08 /\ bs = to_le_bytes 4 0).

Lemma ProtocolVersion_parses :
  parses (from_wire (A := ProtocolVersion)) version_bytes.
Proof.
  eapply parses_bind; [apply parses_try_get_u32_le|]. intros v b1 [_ ->].
  intros pre rest. cbn. unfold version_of_u32.
  destruct (Z.eqb_spec v 0) as [->|]; cbn.
  { exists [], rest. rewrite !app_nil_r. by repeat split; right. }
  destruct (Z.eqb_spec v 0x80000008) as [->|]; cbn.
  { exists [], rest. rewrite !app_nil_r. by repeat split; left. }
  destruct (Z.eqb_spec v 0x8000000c) as [->|]; cbn; [|done].
  exists [], rest. rewrite !app_nil_r. by repeat split; left.
Qed.

Lemma length_version_bytes v bs : version_bytes v bs -> length bs = 4.
Proof. intros [->|[_ ->]]; cbn; len. Qed.

(** ** VersionList *)

Record VersionList := mkVersionList { versions : list ProtocolVersion }.

#[export] Instance VersionList_eq_dec : EqDecision VersionList.
Proof. solve_decision. Defined.

Definition MAX_VERSIONS : nat := 32.

Definition VersionList_new (vs : list ProtocolVersion) : VersionList :=
  let count := Nat.min (length vs) MAX_VERSIONS in
  mkVersionList (take count vs).

Definition VersionList_default : VersionList := mkVersionList [].

Definition is_supported (l : VersionList) (v : ProtocolVersion) : bool :=
  existsb (fun x => bool_decide (x = v)) (versions l).

(** [for version in &self.versions { version.to_wire(cursor)?; }] *)
Fixpoint put_versions (vs : list ProtocolVersion) : CM unit :=
  match vs with
  | [] => mret tt
  | v :: vs' => _ ← to_wire v; put_versions vs'
  end.

#[export] Instance VersionList_ToWire : ToWire VersionList := {|
  wire_size l := length (versions l) * 4;
  to_wire l := put_versions (versions l)
|}.

(** The [while] loop of [from_wire_n]; [room] is [MAX_VERSIONS - versions.len()]. *)
Fixpoint read_versions (room remaining : nat) (prior : option ProtocolVersion)
    (acc : list ProtocolVersion) : CM (list ProtocolVersion) :=
  match room with
  | O => mret acc
  | S room' =>
      if remaining =? 0 then mret acc else
      version ← from_wire (A := ProtocolVersion);
      _ ← guard_err (match prior with Some p => version_ltb version p | None => false end)
                    (UnorderedVersion (as_u32 (length acc)) (version_u32 version));
      remaining' ← lift_res (usize_sub remaining (wire_size version));
      read_versions room' remaining' (Some version) (acc ++ [version])
  end.

#[export] Instance VersionList_FromWireN : FromWireN VersionList := fun n =>
  vs ← read_versions MAX_VERSIONS n None [];
  mret (mkVersionList vs).

#[export] Instance VersionList_FromWire : FromWire VersionList :=
  n ← get_remaining; from_wire_n n.

(** [RequestedVersions { versions: VersionList }] and
    [SupportedVersions { versions: VersionList }]. *)
Definition RequestedVersions := VersionList.
Definition SupportedVersions := VersionList.
Definition RequestedVersions_default : RequestedVersions := VersionList_new [RfcDraft14].
Definition SupportedVersions_default : SupportedVersions := VersionList_default.

(** ** Encoding of version lists *)

Fixpoint versions_sorted (prior : option ProtocolVersion) (vs : list ProtocolVersion) : bool :=
  match vs with
  | [] => true
  | v :: vs' =>
      match prior with Some p => negb (version_ltb v p) | None => true end &&
      versions_sorted (Some v) vs'
  end.

Definition encode_versions (vs : list ProtocolVersion) : bytes := concat (map encode vs).
Arguments encode_versions : simpl never.

#[export] Instance VersionList_Encode : Encode VersionList := {|
  encode l := encode_versions (versions l);
  wf l := length (versions l) <= MAX_VERSIONS /\ versions_sorted None (versions l) = true
|}.

Lemma length_encode_versions vs : length (encode_versions vs) = length vs * 4.
Proof. unfold encode_versions. induction vs; cbn [map concat]; [done|]. cbn. len. Qed.
#[export] Hint Rewrite length_encode_versions : wire_length.

#[export] Instance VersionList_LawfulWrite : LawfulWrite VersionList.
Proof.
  split; intros [vs] _; [symmetry; apply length_encode_versions|].
  cbn [to_wire encode VersionList_ToWire VersionList_Encode versions].
  induction vs as [|v vs IH]; [apply writes_ret|].
  change (encode_versions (v :: vs)) with (encode v ++ encode_versions vs).
  apply writes_bind; [by apply to_wire_writes|done].
Qed.

(** The loop stops after [room] versions or [k] versions, whichever is first. *)
Lemma reads_read_versions vs suf : forall room k prior acc,
  length vs = Nat.min room k -> versions_sorted prior vs = true ->
  reads (read_versions room (k * 4) prior acc) (encode_versions vs) suf (acc ++ vs).
Proof.
  induction vs as [|v vs IH]; intros room k prior acc Hlen Hs.
  { rewrite app_nil_r. destruct room; [apply reads_ret|]. cbn in Hlen.
    destruct k; [apply reads_ret|lia]. }
  destruct room as [|room]; [cbn in Hlen; lia|]. destruct k as [|k]; [cbn in Hlen; lia|].
  cbn [versions_sorted] in Hs. apply andb_true_iff in Hs as [Hp Hs]. cbn [read_versions].
  destruct (Nat.eqb_spec (S k * 4) 0); [lia|].
  change (encode_versions (v :: vs)) with (encode v ++ encode_versions vs).
  eapply reads_bind; [by apply (from_wire_reads (A := ProtocolVersion))|].
  eapply reads_bind_nil; [apply reads_guard|].
  { destruct prior; [by apply negb_true_iff|done]. }
  eapply reads_bind_nil.
  { apply reads_lift_res. unfold usize_sub. cbn [wire_size ProtocolVersion_ToWire].
    destruct (Nat.leb_spec 4 (S k * 4)); [reflexivity|lia]. }
  replace (S k * 4 - 4) with (k * 4) by lia.
  replace (acc ++ v :: vs) with ((acc ++ [v]) ++ vs) by (by rewrite <-app_assoc).
  apply IH; [cbn in Hlen; lia|done].
Qed.

Lemma reads_VersionList l suf :
  wf l -> reads (from_wire_n (wire_size l)) (encode (A := VersionList) l) suf l.
Proof.
  destruct l as [vs]. intros [Hlen Hs]. cbn in *.
  rewrite <-(app_nil_r (encode_versions vs)). unfold from_wire_n, VersionList_FromWireN.
  eapply reads_bind; [|apply reads_ret].
  apply (reads_read_versions _ _ MAX_VERSIONS (length vs) None []); [lia|done].
Qed.

(** A list longer than [MAX_VERSIONS] is cut at 32, and the excess is left on
    the cursor. *)
Lemma reads_VersionList_excess vs k suf :
  length vs = MAX_VERSIONS -> MAX_VERSIONS <= k -> versions_sorted None vs = true ->
  reads (from_wire_n (k * 4)) (encode_versions vs) suf (mkVersionList vs).
Proof.
  intros Hlen Hk Hs. rewrite <-(app_nil_r (encode_versions vs)).
  unfold from_wire_n, VersionList_FromWireN. eapply reads_bind; [|apply reads_ret].
  apply (reads_read_versions _ _ MAX_VERSIONS k None []); [lia|done].
Qed.

(** What the loop accepts: at most [room] sorted versions of 4 bytes each. *)
Lemma parses_read_versions : forall room k prior acc,
  parses (read_versions room (k * 4) prior acc) (fun vs bs =>
    exists vs', vs = acc ++ vs' /\ length vs' = Nat.min room k /\
      versions_sorted prior vs' = true /\ length bs = length vs' * 4).
Proof.
  induction room as [|room IH]; intros k prior acc.
  { apply parses_ret. exists []. by rewrite app_nil_r. }
  cbn [read_versions]. destruct (Nat.eqb_spec (k * 4) 0).
  { apply parses_ret. exists []. assert (k = 0) as -> by lia. by rewrite app_nil_r. }
  eapply parses_bind; [apply ProtocolVersion_parses|]. intros v b1 Hb%length_version_bytes.
  apply parses_guard_bind. intros Hp.
  apply parses_lift_bind; unfold usize_sub; cbn [wire_size ProtocolVersion_ToWire];
    destruct (Nat.leb_spec 4 (k * 4)); try done; try lia.
  intros ? [= <-]. replace (k * 4 - 4) with ((k - 1) * 4) by lia.
  eapply parses_weaken; [apply IH|]. intros vs bs (vs' & -> & Hlen & Hs & Hbs).
  exists (v :: vs'). rewrite <-app_assoc. cbn [length versions_sorted]. rewrite Hs, andb_true_r.
  split_and!; [done|lia| |rewrite length_app; lia].
  destruct prior; [by apply negb_true_iff|done].
Qed.

Lemma VersionList_parses k :
  parses (from_wire_n (A := VersionList) (k * 4)) (fun l bs =>
    wf l /\ length (versions l) = Nat.min MAX_VERSIONS k /\ length bs = wire_size l).
Proof.
  eapply parses_bind; [apply parses_read_versions|]. intros vs b1 (vs' & -> & Hlen & Hs & Hb).
  apply parses_ret. cbn. rewrite app_nil_r. split_and!; try done. rewrite Hlen. lia.
Qed.
