(* ===== verification/Path.v ===== *)
(** * MerklePath (crates/roughenough-protocol/src/tags/path.rs)

    A path owns a fixed buffer of 1024 bytes, of which the first
    [num_paths * 32] are the path.  [clear] and [copy_from] leave old bytes
    behind, so the derived equality of the struct is finer than the path it
    stands for: [path_equiv] is the equality the operations respect. *)
From S2P Require Import Prelude Errors Cursor Wire.
From Stdlib Require Import Morphisms.

Definition MAX_PATHS : nat := 32.
Definition ELEMENT_SIZE : nat := 32.
Definition path_capacity : nat := MAX_PATHS * ELEMENT_SIZE.

Record MerklePath := mkPath { num_paths : nat; path_data : bytes }.

Definition MerklePath_default : MerklePath := mkPath 0 (zeroes (MAX_PATHS * ELEMENT_SIZE)).

(** [&self.data[..self.num_paths * 32]], also [as_ref] *)
Definition paths (p : MerklePath) : bytes := take (num_paths p * ELEMENT_SIZE) (path_data p).
Definition depth (p : MerklePath) : nat := num_paths p.
Definition path_is_empty (p : MerklePath) : bool := num_paths p =? 0.

(** [slice.chunks(32)] of a slice of [n] elements *)
Fixpoint chunks (n : nat) (bs : bytes) : list bytes :=
  match n with
  | O => []
  | S n' => take ELEMENT_SIZE bs :: chunks n' (drop ELEMENT_SIZE bs)
  end.
Definition elements (p : MerklePath) : list bytes := chunks (num_paths p) (paths p).

Definition path_clear (p : MerklePath) : MerklePath := mkPath 0 (path_data p).

(** Panics at [MAX_PATHS] elements. *)
Definition push_element {E} (p : MerklePath) (element : bytes) : res E MerklePath :=
  if num_paths p <? MAX_PATHS then
    let start := num_paths p * ELEMENT_SIZE in
    let stop := start + ELEMENT_SIZE in
    if (stop <=? length (path_data p)) && (length element =? ELEMENT_SIZE) then
      Ok (mkPath (num_paths p + 1) (take start (path_data p) ++ element ++ drop stop (path_data p)))
    else Panic
  else Panic.

Definition copy_from (self other : MerklePath) : MerklePath :=
  let stop := num_paths other * ELEMENT_SIZE in
  mkPath (num_paths other) (take stop (path_data other) ++ drop stop (path_data self)).

#[export] Instance MerklePath_ToWire : ToWire MerklePath := {|
  wire_size p := num_paths p * ELEMENT_SIZE;
  to_wire p :=
    if num_paths p =? 0 then mret tt
    else _ ← need (num_paths p * ELEMENT_SIZE); put_slice (paths p)
|}.

#[export] Instance MerklePath_FromWireN : FromWireN MerklePath := fun n =>
  if n =? 0 then mret MerklePath_default
  else if path_capacity <? n then fail (BufferTooSmall n path_capacity)
  else if negb (n mod ELEMENT_SIZE =? 0) then fail (InvalidPathLength (as_u32 n))
  else
    let num := n / ELEMENT_SIZE in
    let stop := num * ELEMENT_SIZE in
    bs ← try_copy_to_slice stop;
    mret (mkPath num (bs ++ zeroes (path_capacity - stop))).

#[export] Instance MerklePath_FromWire : FromWire MerklePath :=
  n ← get_remaining; from_wire_n n.

(** ** Invariant *)

Definition path_wf (p : MerklePath) : Prop :=
  num_paths p <= MAX_PATHS /\ length (path_data p) = path_capacity.

#[export] Instance MerklePath_Encode : Encode MerklePath := {| encode := paths; wf := path_wf |}.

Lemma default_wf : path_wf MerklePath_default.
Proof. split; cbn; [unfold MAX_PATHS; lia|reflexivity]. Qed.

Lemma clear_wf p : path_wf p -> path_wf (path_clear p).
Proof. intros [? ?]. split; cbn; [unfold MAX_PATHS; lia|done]. Qed.

Lemma length_paths p : path_wf p -> length (paths p) = num_paths p * ELEMENT_SIZE.
Proof.
  intros [Hn Hd]. unfold paths. rewrite length_take, Hd.
  unfold path_capacity, MAX_PATHS, ELEMENT_SIZE in *. lia.
Qed.

Lemma push_element_ok {E} p e :
  path_wf p -> num_paths p < MAX_PATHS -> length e = ELEMENT_SIZE ->
  exists p', push_element (E := E) p e = Ok p' /\ path_wf p' /\
    num_paths p' = num_paths p + 1 /\ paths p' = paths p ++ e.
Proof.
  intros [Hn Hd] Hlt He. unfold push_element.
  destruct (Nat.ltb_spec (num_paths p) MAX_PATHS); [|lia].
  unfold path_capacity, MAX_PATHS, ELEMENT_SIZE in *.
  destruct (Nat.leb_spec (num_paths p * 32 + 32) (length (path_data p))); [|lia].
  rewrite He. cbn [Nat.eqb andb]. eexists; split; [reflexivity|]. unfold path_wf, paths. cbn.
  rewrite !length_app, length_take, length_drop, He.
  unfold path_capacity, MAX_PATHS, ELEMENT_SIZE. split_and!; [lia|lia|done|].
  rewrite app_assoc, take_app_length'; [done|]. rewrite length_app, length_take. lia.
Qed.

Lemma push_element_full {E} p e : MAX_PATHS <= num_paths p -> push_element (E := E) p e = Panic.
Proof. intros H. unfold push_element. by destruct (Nat.ltb_spec (num_paths p) MAX_PATHS); [lia|]. Qed.

Lemma copy_from_wf self other : path_wf self -> path_wf other -> path_wf (copy_from self other).
Proof.
  intros [? Hs] [? Ho]. split; cbn; [done|].
  unfold path_capacity, MAX_PATHS, ELEMENT_SIZE in *. rewrite length_app, length_take, length_drop, Hs, Ho. lia.
Qed.

Lemma paths_copy_from self other : path_wf other -> paths (copy_from self other) = paths other.
Proof.
  intros Ho. unfold copy_from, paths. cbn. apply take_app_length'.
  pose proof (length_paths other Ho) as Hl. unfold paths in Hl. by rewrite Hl.
Qed.

Lemma length_chunks n : forall bs, length (chunks n bs) = n.
Proof. induction n as [|n IH]; intros bs; cbn; [done|]. by rewrite IH. Qed.

Lemma length_elements p : length (elements p) = num_paths p.
Proof. apply length_chunks. Qed.

Lemma chunks_sizes n : forall bs, n * ELEMENT_SIZE <= length bs ->
  Forall (fun e => length e = ELEMENT_SIZE) (chunks n bs).
Proof.
  induction n as [|n IH]; intros bs Hb; cbn [chunks]; [by apply Forall_nil|]. constructor.
  - rewrite length_take. lia.
  - apply IH. rewrite length_drop. lia.
Qed.

Lemma elements_sizes p : path_wf p -> Forall (fun e => length e = ELEMENT_SIZE) (elements p).
Proof. intros Hp. apply chunks_sizes. by rewrite (length_paths p Hp). Qed.

(** ** The path a buffer stands for *)

Definition path_equiv (p q : MerklePath) : Prop := num_paths p = num_paths q /\ paths p = paths q.

#[export] Instance path_equivalence : Equivalence path_equiv.
Proof.
  split; [done|by intros p q [? ?]|].
  intros p q r [H1 H2] [H3 H4]. split; congruence.
Qed.

#[export] Instance elements_proper : Proper (path_equiv ==> eq) elements.
Proof. intros p q [Hn Hp]. unfold elements. by rewrite Hn, Hp. Qed.
#[export] Instance path_wire_size_proper : Proper (path_equiv ==> eq) (wire_size (A := MerklePath)).
Proof. intros p q [Hn Hp]. cbn. by rewrite Hn. Qed.
#[export] Instance path_to_wire_proper : Proper (path_equiv ==> eq ==> eq) (to_wire (A := MerklePath)).
Proof. intros p q [Hn Hp] c ? <-. cbn. by rewrite Hn, Hp. Qed.
#[export] Instance path_encode_proper : Proper (path_equiv ==> eq) (encode (A := MerklePath)).
Proof. intros p q [Hn Hp]. done. Qed.

Lemma copy_from_equiv self other : path_wf other -> path_equiv (copy_from self other) other.
Proof. intros Ho. split; [done|]. by apply paths_copy_from. Qed.

(** The path with the stale bytes of its buffer zeroed: what parsing builds. *)
Definition normalize (p : MerklePath) : MerklePath :=
  mkPath (num_paths p) (paths p ++ zeroes (path_capacity - num_paths p * ELEMENT_SIZE)).

Lemma normalize_equiv p : path_wf p -> path_equiv (normalize p) p.
Proof.
  intros Hp. split; [done|]. unfold normalize, paths. cbn. apply take_app_length'.
  pose proof (length_paths p Hp) as Hl. unfold paths in Hl. by rewrite Hl.
Qed.

Lemma normalize_wf p : path_wf p -> path_wf (normalize p).
Proof.
  intros Hp. pose proof (length_paths p Hp) as Hl. destruct Hp as [Hn Hd].
  split; cbn; [done|]. rewrite length_app, length_zeroes, Hl.
  unfold path_capacity, MAX_PATHS, ELEMENT_SIZE in *. lia.
Qed.

(** ** Wire format *)

#[export] Instance MerklePath_LawfulWrite : LawfulWrite MerklePath.
Proof.
  split; intros p Hp; [symmetry; by apply length_paths|]. cbn.
  pose proof (length_paths p Hp) as Hl.
  destruct (Nat.eqb_spec (num_paths p) 0) as [H0|].
  - rewrite H0 in Hl. apply nil_length_inv in Hl. rewrite Hl. apply writes_ret.
  - apply writes_need; [by rewrite Hl|]. apply writes_put_slice.
Qed.

Lemma reads_MerklePath p suf :
  path_wf p -> reads (from_wire_n (num_paths p * ELEMENT_SIZE)) (encode p) suf (normalize p).
Proof.
  intros Hp. pose proof (length_paths p Hp) as Hl. destruct Hp as [Hn Hd].
  unfold from_wire_n, MerklePath_FromWireN. cbn [encode MerklePath_Encode].
  unfold path_capacity, MAX_PATHS, normalize in *.
  destruct (Nat.eqb_spec (num_paths p * ELEMENT_SIZE) 0) as [H0|H0].
  { rewrite H0 in Hl. apply nil_length_inv in Hl. rewrite Hl. unfold ELEMENT_SIZE in H0.
    assert (num_paths p = 0) as -> by lia. apply reads_ret. }
  destruct (Nat.ltb_spec (32 * ELEMENT_SIZE) (num_paths p * ELEMENT_SIZE)); [unfold ELEMENT_SIZE in *; lia|].
  rewrite Nat.Div0.mod_mul, Nat.div_mul by (unfold ELEMENT_SIZE; lia). cbn [Nat.eqb negb].
  rewrite <-(app_nil_r (paths p)) at 1.
  eapply reads_bind; [by apply reads_try_get_fixed|]. apply reads_ret.
Qed.

Lemma MerklePath_parses n :
  parses (from_wire_n (A := MerklePath) n) (fun p bs =>
    path_wf p /\ length bs = n /\ n = num_paths p * ELEMENT_SIZE /\ bs = encode p /\ normalize p = p).
Proof.
  unfold from_wire_n, MerklePath_FromWireN.
  destruct (Nat.eqb_spec n 0) as [->|H0].
  { apply parses_ret. split_and!; try done. apply default_wf. }
  destruct (Nat.ltb_spec path_capacity n) as [|Hcap]; [apply parses_fail|].
  destruct (Nat.eqb_spec (n mod ELEMENT_SIZE) 0) as [Hm|]; [|apply parses_fail]. cbn [negb].
  assert (n = n / ELEMENT_SIZE * ELEMENT_SIZE) as Hn
    by (rewrite (Nat.div_mod_eq n ELEMENT_SIZE) at 1; lia).
  generalize dependent (n / ELEMENT_SIZE). intros k ->. clear Hm H0.
  eapply parses_bind; [apply parses_try_get_fixed|]. intros a bs [-> Hlen]. apply parses_ret.
  rewrite app_nil_r. unfold path_wf, normalize, paths.
  cbn [num_paths path_data encode MerklePath_Encode].
  rewrite take_app_length' by done. rewrite length_app, length_zeroes, Hlen.
  unfold path_capacity, MAX_PATHS, ELEMENT_SIZE in *. split_and!; try done; try lia.
  unfold paths. cbn [num_paths path_data]. by rewrite take_app_length' by done.
Qed.
