(* ===== verification/Cert.v ===== *)
(** * DELE and CERT (crates/roughenough-protocol/src/tags/dele.rs, cert.rs) *)
From S2P Require Import Prelude Errors Cursor Wire Tags Header FixedTags.

(** ** Delegation *)

Record Delegation := mkDelegation {
  dele_header : Header3;
  dele_public_key : PublicKey;
  min_time : Z;
  max_time : Z;
}.

#[export] Instance Delegation_eq_dec : EqDecision Delegation.
Proof. solve_decision. Defined.

Definition DELE_OFFSETS : list Z := [32; 40]%Z.
Definition DELE_TAGS : list Tag.t := [Tag.PUBK; Tag.MINT; Tag.MAXT].

Definition Delegation_default : Delegation :=
  mkDelegation (mkHeader (num_tags (Header_default 3)) DELE_OFFSETS DELE_TAGS) PublicKey_default 0 0.

(** [Delegation::new(public_key, now_epoch_sec, validity)], with
    [validity_secs = validity.as_secs()]. *)
Definition Delegation_new (public_key : PublicKey) (now_epoch_sec validity_secs : Z) : Delegation :=
  mkDelegation (dele_header Delegation_default) public_key now_epoch_sec
    (u64_saturating_add now_epoch_sec validity_secs).

(** [size_of::<Delegation>()]: [repr(C)], fields (size, alignment). *)
Definition size_of_Delegation : nat := repr_c_size [(size_of_Header 3, 4); (32, 1); (8, 8); (8, 8)].

#[export] Instance Delegation_ToWire : ToWire Delegation := {|
  wire_size _ := size_of_Delegation;
  to_wire d :=
    _ ← to_wire (dele_header d);
    _ ← to_wire (dele_public_key d);
    _ ← put_u64_le (min_time d);
    put_u64_le (max_time d)
|}.

#[export] Instance Delegation_FromWire : FromWire Delegation :=
  header ← from_wire (A := Header3);
  public_key ← from_wire (A := PublicKey);
  mint ← try_get_u64_le;
  maxt ← try_get_u64_le;
  let dele := mkDelegation header public_key mint maxt in
  _ ← guard_err (negb (bool_decide (offsets (dele_header dele) = DELE_OFFSETS))) UnexpectedOffsets;
  _ ← guard_err (negb (bool_decide (tags (dele_header dele) = DELE_TAGS))) UnexpectedTags;
  mret dele.

Record dele_wf (d : Delegation) : Prop := {
  dw_header : dele_header d = mkHeader 3 DELE_OFFSETS DELE_TAGS;
  dw_pubk : wf (A := FixedTag 32) (dele_public_key d);
  dw_mint : is_u64 (min_time d);
  dw_maxt : is_u64 (max_time d);
}.

#[export] Instance Delegation_Encode : Encode Delegation := {|
  encode d := encode (dele_header d) ++ encode (A := FixedTag 32) (dele_public_key d) ++
    to_le_bytes 8 (min_time d) ++ to_le_bytes 8 (max_time d);
  wf := dele_wf
|}.

Lemma dele_header_wf : header_wf (@mkHeader 3 3 DELE_OFFSETS DELE_TAGS).
Proof. split; cbn; try done; lia. Qed.

Lemma length_encode_Delegation d : wf d -> length (encode d) = 72.
Proof.
  intros [Hh Hp _ _]. cbn [encode Delegation_Encode]. rewrite Hh, !length_app.
  rewrite (length_encode_header _ dele_header_wf). cbn in Hp. cbn. rewrite Hp. reflexivity.
Qed.

#[export] Instance Delegation_LawfulWrite : LawfulWrite Delegation.
Proof.
  split; intros d Hd.
  - symmetry. rewrite length_encode_Delegation by done. reflexivity.
  - destruct Hd as [Hh Hp _ _]. cbn [to_wire encode Delegation_ToWire Delegation_Encode].
    writes_steps; try done. rewrite Hh. apply dele_header_wf.
Qed.

#[export] Instance Delegation_LawfulRead : LawfulRead Delegation.
Proof.
  intros [h pk mint maxt] suf [Hh Hp Hmi Hma]. cbn in Hh, Hp, Hmi, Hma. subst h.
  unfold from_wire, Delegation_FromWire. cbn [encode Delegation_Encode].
  eapply reads_bind; [apply from_wire_reads, dele_header_wf|].
  eapply reads_bind; [by apply (from_wire_reads (A := FixedTag 32))|].
  eapply reads_bind; [by apply reads_try_get_u64_le|].
  rewrite <-(app_nil_r (to_le_bytes 8 _)).
  eapply reads_bind; [by apply reads_try_get_u64_le|]. apply reads_ret.
Qed.

(** The accepted bytes are exactly what serializing the result gives: verifying a
    signature over a re-serialized DELE verifies it over the received bytes. *)
#[export] Instance Delegation_Canonical : Canonical Delegation.
Proof.
  eapply parses_bind; [apply (Header_parses 3); lia|]. intros h ? [[_ Hn Ho Ht _ _] ->].
  eapply parses_bind; [apply (from_wire_parses (A := FixedTag 32))|]. intros pk ? [Hpk ->].
  eapply parses_bind; [apply parses_try_get_u64_le|]. intros mint ? [Hmi ->].
  eapply parses_bind; [apply parses_try_get_u64_le|]. intros maxt ? [Hma ->]. cbn [dele_header].
  apply parses_guard_bind. intros Hoff%negb_false_iff%bool_decide_eq_true.
  apply parses_guard_bind. intros Htag%negb_false_iff%bool_decide_eq_true.
  apply parses_ret. rewrite app_nil_r. split; [|done].
  split; cbn; try done. destruct h as [n os ts]. cbn in *. by subst.
Qed.

(** ** Certificate *)

Record Certificate := mkCertificate {
  cert_header : Header2;
  cert_signature : Signature;
  cert_delegation : Delegation;
}.

#[export] Instance Certificate_eq_dec : EqDecision Certificate.
Proof. solve_decision. Defined.

Definition CERT_OFFSETS : list Z := [64]%Z.
Definition CERT_TAGS : list Tag.t := [Tag.SIG; Tag.DELE].

Definition Certificate_default : Certificate :=
  mkCertificate (mkHeader (num_tags (Header_default 2)) CERT_OFFSETS CERT_TAGS)
    Signature_default Delegation_default.

Definition Certificate_new (sig : Signature) (dele : Delegation) : Certificate :=
  mkCertificate (cert_header Certificate_default) sig dele.

Definition cert_set_sig (c : Certificate) (sig : Signature) : Certificate :=
  mkCertificate (cert_header c) sig (cert_delegation c).
Definition cert_set_dele (c : Certificate) (dele : Delegation) : Certificate :=
  mkCertificate (cert_header c) (cert_signature c) dele.

(** [size_of::<Certificate>()] *)
Definition size_of_Certificate : nat :=
  repr_c_size [(size_of_Header 2, 4); (64, 1); (size_of_Delegation, 8)].

#[export] Instance Certificate_ToWire : ToWire Certificate := {|
  wire_size _ := size_of_Certificate;
  to_wire c :=
    _ ← to_wire (cert_header c);
    _ ← to_wire (cert_signature c);
    to_wire (cert_delegation c)
|}.

#[export] Instance Certificate_FromWire : FromWire Certificate :=
  header ← from_wire (A := Header2);
  signature ← from_wire (A := Signature);
  delegation ← from_wire (A := Delegation);
  let cert := mkCertificate header signature delegation in
  _ ← guard_err (negb (bool_decide (offsets (cert_header cert) = CERT_OFFSETS))) UnexpectedOffsets;
  _ ← guard_err (negb (bool_decide (tags (cert_header cert) = CERT_TAGS))) UnexpectedTags;
  mret cert.

Record cert_wf (c : Certificate) : Prop := {
  cw_header : cert_header c = mkHeader 2 CERT_OFFSETS CERT_TAGS;
  cw_sig : wf (A := FixedTag 64) (cert_signature c);
  cw_dele : wf (cert_delegation c);
}.

#[export] Instance Certificate_Encode : Encode Certificate := {|
  encode c := encode (cert_header c) ++ encode (A := FixedTag 64) (cert_signature c) ++
    encode (cert_delegation c);
  wf := cert_wf
|}.

Lemma cert_header_wf : header_wf (@mkHeader 2 2 CERT_OFFSETS CERT_TAGS).
Proof. split; cbn; try done; lia. Qed.

Lemma length_encode_Certificate c : wf c -> length (encode c) = 152.
Proof.
  intros [Hh Hs Hd]. cbn [encode Certificate_Encode]. rewrite Hh, !length_app.
  rewrite (length_encode_header _ cert_header_wf), (length_encode_Delegation _ Hd).
  cbn in Hs. cbn. by rewrite Hs.
Qed.

#[export] Instance Certificate_LawfulWrite : LawfulWrite Certificate.
Proof.
  split; intros c Hc.
  - symmetry. rewrite length_encode_Certificate by done. reflexivity.
  - destruct Hc as [Hh Hs Hd]. cbn [to_wire encode Certificate_ToWire Certificate_Encode].
    writes_steps; try done. rewrite Hh. apply cert_header_wf.
Qed.

#[export] Instance Certificate_LawfulRead : LawfulRead Certificate.
Proof.
  intros [h sig dele] suf [Hh Hs Hd]. cbn in Hh, Hs, Hd. subst h.
  unfold from_wire, Certificate_FromWire. cbn [encode Certificate_Encode].
  eapply reads_bind; [apply from_wire_reads, cert_header_wf|].
  eapply reads_bind; [by apply (from_wire_reads (A := FixedTag 64))|].
  rewrite <-(app_nil_r (encode dele)).
  eapply reads_bind; [by apply (from_wire_reads (A := Delegation))|]. apply reads_ret.
Qed.

#[export] Instance Certificate_Canonical : Canonical Certificate.
Proof.
  eapply parses_bind; [apply (Header_parses 2); lia|]. intros h ? [[_ Hn Ho Ht _ _] ->].
  eapply parses_bind; [apply (from_wire_parses (A := FixedTag 64))|]. intros sig ? [Hs ->].
  eapply parses_bind; [apply (from_wire_parses (A := Delegation))|]. intros dele ? [Hd ->].
  cbn [cert_header].
  apply parses_guard_bind. intros Hoff%negb_false_iff%bool_decide_eq_true.
  apply parses_guard_bind. intros Htag%negb_false_iff%bool_decide_eq_true.
  apply parses_ret. rewrite app_nil_r. split; [|done].
  split; cbn; try done. destruct h as [n os ts]. cbn in *. by subst.
Qed.

Lemma Delegation_new_wf pk now validity :
  wf (A := FixedTag 32) pk -> is_u64 now -> is_u64 validity -> wf (Delegation_new pk now validity).
Proof.
  intros Hpk Hn Hv. unfold is_u64 in *. split; [done|done|done|].
  unfold is_u64, u64_saturating_add, u64_max. cbn [max_time Delegation_new].
  unfold u64_saturating_add, u64_max. lia.
Qed.

Lemma Certificate_new_wf sig dele :
  wf (A := FixedTag 64) sig -> wf dele -> wf (Certificate_new sig dele).
Proof. intros. by split. Qed.
