(* ===== verification/Srep.v ===== *)
(** * SREP (crates/roughenough-protocol/src/tags/srep.rs) *)
From S2P Require Import Prelude Errors Cursor Wire Tags Header FixedTags Versions.

(** ** SignedResponse (draft-14) *)

Record SignedResponse := mkSrep {
  srep_header : Header5;
  srep_version : ProtocolVersion;
  srep_radius : Z;
  srep_midpoint : Z;
  srep_versions : SupportedVersions;
  srep_merkle_root : MerkleRoot;
}.

#[export] Instance SignedResponse_eq_dec : EqDecision SignedResponse.
Proof. solve_decision. Defined.

Definition DEFAULT_RADI_SECONDS : Z := 5.
Definition RADI_OFFSET : Z := 4.
Definition MIDP_OFFSET : Z := RADI_OFFSET + 4.
Definition VERS_OFFSET : Z := MIDP_OFFSET + 8.
Definition SREP_OFFSETS : list Z := [RADI_OFFSET; MIDP_OFFSET; VERS_OFFSET; 0%Z].
Definition SREP_TAGS : list Tag.t := [Tag.VER; Tag.RADI; Tag.MIDP; Tag.VERS; Tag.ROOT].

Definition SignedResponse_default : SignedResponse :=
  mkSrep (mkHeader (num_tags (Header_default 5)) SREP_OFFSETS SREP_TAGS)
    RfcDraft14 0 0 SupportedVersions_default MerkleRoot_default.

Definition set_ver (s : SignedResponse) (v : ProtocolVersion) : SignedResponse :=
  mkSrep (srep_header s) v (srep_radius s) (srep_midpoint s) (srep_versions s) (srep_merkle_root s).
Definition set_radi (s : SignedResponse) (r : Z) : SignedResponse :=
  mkSrep (srep_header s) (srep_version s) r (srep_midpoint s) (srep_versions s) (srep_merkle_root s).
Definition set_midp (s : SignedResponse) (m : Z) : SignedResponse :=
  mkSrep (srep_header s) (srep_version s) (srep_radius s) m (srep_versions s) (srep_merkle_root s).
(** [set_vers] also fixes the fourth offset up. *)
Definition set_vers (s : SignedResponse) (vs : SupportedVersions) : SignedResponse :=
  let h := srep_header s in
  let h' := mkHeader (num_tags h)
              (<[3 := u32_add VERS_OFFSET (as_u32 (wire_size vs))]> (offsets h)) (tags h) in
  mkSrep h' (srep_version s) (srep_radius s) (srep_midpoint s) vs (srep_merkle_root s).
Definition set_root (s : SignedResponse) (root : MerkleRoot) : SignedResponse :=
  mkSrep (srep_header s) (srep_version s) (srep_radius s) (srep_midpoint s) (srep_versions s) root.

#[export] Instance SignedResponse_ToWire : ToWire SignedResponse := {|
  wire_size s := wire_size (srep_header s) + wire_size (srep_version s) + 4 + 8 +
    wire_size (srep_versions s) + wire_size (srep_merkle_root s);
  to_wire s :=
    _ ← to_wire (srep_header s);
    _ ← to_wire (srep_version s);
    _ ← put_u32_le (srep_radius s);
    _ ← put_u64_le (srep_midpoint s);
    _ ← to_wire (srep_versions s);
    to_wire (srep_merkle_root s)
|}.

#[export] Instance SignedResponse_FromWire : FromWire SignedResponse :=
  header ← from_wire (A := Header5);
  _ ← check_bounds_here header;
  _ ← guard_err (negb (bool_decide (tags header = SREP_TAGS))) UnexpectedTags;
  let os := offsets header in
  _ ← guard_err (negb (bool_decide (take 3 os = take 3 SREP_OFFSETS))) UnexpectedOffsets;
  o2 ← lift_res (index os 2);
  o3 ← lift_res (index os 3);
  _ ← guard_err (o2 =? o3)%Z NoSupportedVersions;
  version ← from_wire (A := ProtocolVersion);
  radius ← try_get_u32_le;
  midpoint ← try_get_u64_le;
  vers_size ← lift_res (u32_sub o3 o2);
  vers ← from_wire_n (A := VersionList) (Z.to_nat vers_size);
  root ← from_wire (A := MerkleRoot);
  mret (mkSrep header version radius midpoint vers root).

(** The offset of ROOT for a list of [n] versions. *)
Definition srep_offsets (n : nat) : list Z := [4; 8; 16; 16 + Z.of_nat (4 * n)]%Z.

Record srep_wf (s : SignedResponse) : Prop := {
  sw_header : srep_header s =
    mkHeader 5 (srep_offsets (length (versions (srep_versions s)))) SREP_TAGS;
  sw_radi : is_u32 (srep_radius s);
  sw_midp : is_u64 (srep_midpoint s);
  sw_vers : wf (srep_versions s);
  sw_some : 1 <= length (versions (srep_versions s));
  sw_root : wf (A := FixedTag 32) (srep_merkle_root s);
}.

#[export] Instance SignedResponse_Encode : Encode SignedResponse := {|
  encode s := encode (srep_header s) ++ encode (srep_version s) ++
    to_le_bytes 4 (srep_radius s) ++ to_le_bytes 8 (srep_midpoint s) ++
    encode (srep_versions s) ++ encode (A := FixedTag 32) (srep_merkle_root s);
  wf := srep_wf
|}.

Lemma srep_header_wf n : 1 <= n -> n <= MAX_VERSIONS ->
  header_wf (@mkHeader 5 5 (srep_offsets n) SREP_TAGS).
Proof.
  unfold MAX_VERSIONS. intros H1 H2. split; cbn [num_tags offsets tags]; try done; [lia|].
  cbn [srep_offsets offsets_okb].
  rewrite !andb_true_iff, !Z.leb_le, !Z.ltb_lt, !Z.eqb_eq. split_and!; try done; try lia.
  rewrite Nat2Z.inj_mul, Z.add_comm, Z.mul_comm, Z.add_mod, Z.mod_mul by done. reflexivity.
Qed.

Lemma length_encode_srep s :
  wf s -> length (encode s) = 88 + 4 * length (versions (srep_versions s)).
Proof.
  intros [Hh _ _ Hv Hs Hr]. cbn [encode SignedResponse_Encode]. rewrite !length_app.
  rewrite (length_encode_header (srep_header s)).
  2: { rewrite Hh. apply srep_header_wf; [done|apply Hv]. }
  cbn in Hr. cbn [encode FixedTag_Encode ProtocolVersion_Encode VersionList_Encode].
  rewrite Hr, length_encode_versions, !length_to_le_bytes. unfold size_of_Header. lia.
Qed.

#[export] Instance SignedResponse_LawfulWrite : LawfulWrite SignedResponse.
Proof.
  split; intros s Hs.
  - rewrite length_encode_srep by done. cbn. unfold size_of_Header. lia.
  - destruct Hs as [Hh _ _ Hv Hs Hr]. cbn [to_wire encode SignedResponse_ToWire SignedResponse_Encode].
    writes_steps; try done. rewrite Hh. apply srep_header_wf; [done|apply Hv].
Qed.

Lemma parsed_index_reads {N} (h : Header N) i v suf :
  offsets h !! i = Some v -> reads (lift_res (index (offsets h) i)) [] suf v.
Proof. intros H. apply reads_lift_res. unfold index. by rewrite H. Qed.

Lemma reads_SignedResponse s suf :
  wf s -> small (encode s ++ suf) -> reads (from_wire (A := SignedResponse)) (encode s) suf s.
Proof.
  intros Hs Hsm. pose proof (length_encode_srep s Hs) as Hl. revert Hsm Hl.
  destruct s as [h ver radi midp vers root], Hs as [Hh Hra Hmi [Hvl Hvs] Hsome Hr].
  cbn [srep_header srep_version srep_radius srep_midpoint srep_versions srep_merkle_root] in *.
  subst h. set (n := length (versions vers)) in *. intros Hsm Hl.
  assert (header_wf (@mkHeader 5 5 (srep_offsets n) SREP_TAGS)) as Hhw by (by apply srep_header_wf).
  pose proof (length_encode_header _ Hhw) as Hhl.
  unfold from_wire, SignedResponse_FromWire, small in *. cbn [encode SignedResponse_Encode
    srep_header srep_version srep_radius srep_midpoint srep_versions srep_merkle_root] in *.
  repeat rewrite length_app in Hsm. repeat rewrite length_app in Hl.
  rewrite Hhl in Hsm, Hl. unfold size_of_Header in Hsm, Hl.
  eapply reads_bind; [by apply from_wire_reads|].
  eapply reads_bind_nil.
  { apply reads_check_bounds. cbn [offsets]. rewrite as_u32_small by (rewrite !length_app; lia).
    rewrite !length_app. repeat constructor; lia. }
  eapply reads_bind_nil; [by apply reads_guard|].
  eapply reads_bind_nil; [by apply reads_guard|].
  eapply reads_bind_nil; [by apply parsed_index_reads|].
  eapply reads_bind_nil; [by apply parsed_index_reads|].
  eapply reads_bind_nil; [apply reads_guard; apply Z.eqb_neq; lia|].
  eapply reads_bind; [by apply (from_wire_reads (A := ProtocolVersion))|].
  eapply reads_bind; [by apply reads_try_get_u32_le|].
  eapply reads_bind; [by apply reads_try_get_u64_le|].
  eapply reads_bind_nil.
  { apply reads_lift_res. unfold u32_sub. rewrite (proj2 (Z.leb_le _ _)) by lia. reflexivity. }
  replace (Z.to_nat _) with (wire_size vers) by (cbn [wire_size VersionList_ToWire]; fold n; lia).
  eapply reads_bind; [by apply reads_VersionList|].
  rewrite <-(app_nil_r (encode root)).
  eapply reads_bind; [by apply (from_wire_reads (A := FixedTag 32))|]. apply reads_ret.
Qed.

(** What the parser accepts: VER may be the legacy value 0, and VERS is the
    first 32 versions of a list whose announced size is [o3 - o2]. *)
Record srep_parsed (s : SignedResponse) (bs : bytes) : Prop := {
  sp_header : header_wf (srep_header s);
  sp_tags : tags (srep_header s) = SREP_TAGS;
  sp_offsets : exists k, 1 <= k /\ offsets (srep_header s) = srep_offsets k /\
                         length (versions (srep_versions s)) = Nat.min MAX_VERSIONS k;
  sp_radi : is_u32 (srep_radius s);
  sp_midp : is_u64 (srep_midpoint s);
  sp_vers : wf (srep_versions s);
  sp_root : wf (A := FixedTag 32) (srep_merkle_root s);
  sp_bytes : exists vb lb, version_bytes (srep_version s) vb /\
    length lb = 4 * length (versions (srep_versions s)) /\
    bs = encode (srep_header s) ++ vb ++ to_le_bytes 4 (srep_radius s) ++
         to_le_bytes 8 (srep_midpoint s) ++ lb ++ encode (A := FixedTag 32) (srep_merkle_root s);
}.

Lemma srep_offsets_inv (os : list Z) :
  length os = 4 -> offsets_okb 0 os = true -> take 3 os = take 3 SREP_OFFSETS ->
  exists k, os = srep_offsets k.
Proof.
  intros Hl Hok Ht. destruct os as [|a [|b [|c [|d [|]]]]]; try done.
  cbn in Ht. injection Ht as -> -> ->. cbn [offsets_okb] in Hok.
  rewrite !andb_true_iff in Hok. destruct Hok as (_ & _ & _ & Hd & _).
  destruct Hd as [[[_ _] Hm%Z.eqb_eq] Hle%Z.leb_le]. unfold VERS_OFFSET, MIDP_OFFSET, RADI_OFFSET in *.
  exists (Z.to_nat (d - 16) / 4). unfold srep_offsets. repeat f_equal.
  apply Z.mod_divide in Hm as [q ->]; [|done].
  replace (Z.to_nat (q * 4 - 16)) with (Z.to_nat (q - 4) * 4) by lia.
  rewrite Nat.div_mul by done. lia.
Qed.

Lemma SignedResponse_parses : parses (from_wire (A := SignedResponse)) srep_parsed.
Proof.
  unfold from_wire at 1, SignedResponse_FromWire.
  eapply parses_bind; [apply (Header_parses 5); lia|]. intros h ? [Hh ->].
  apply parses_check_bounds_bind.
  apply parses_guard_bind. intros Htag%negb_false_iff%bool_decide_eq_true.
  apply parses_guard_bind. intros Hoff%negb_false_iff%bool_decide_eq_true.
  destruct (srep_offsets_inv (offsets h)) as [k Hk]; [apply Hh|apply Hh|done|].
  rewrite Hk in *. cbv zeta. unfold index. cbn [srep_offsets lookup list_lookup].
  apply parses_lift_bind; [done|]. intros ? [= <-].
  apply parses_lift_bind; [done|]. intros ? [= <-].
  apply parses_guard_bind. intros Hne%Z.eqb_neq.
  eapply parses_bind; [apply ProtocolVersion_parses|]. intros ver vb Hvb.
  eapply parses_bind; [apply parses_try_get_u32_le|]. intros radi ? [Hra ->].
  eapply parses_bind; [apply parses_try_get_u64_le|]. intros midp ? [Hmi ->].
  apply parses_lift_bind; unfold u32_sub; rewrite (proj2 (Z.leb_le _ _)) by lia; [done|].
  intros ? [= <-]. replace (Z.to_nat _) with (k * 4) by lia.
  eapply parses_bind; [apply VersionList_parses|]. intros vers lb (Hv & Hlv & Hlb).
  eapply parses_bind; [apply (from_wire_parses (A := FixedTag 32))|]. intros root ? [Hroot ->].
  apply parses_ret. split; cbn; try done.
  - exists k. split_and!; [lia|done|done].
  - exists vb, lb. rewrite app_nil_r. split_and!; [done| |done]. cbn in Hlb. lia.
Qed.

Lemma srep_parsed_length s bs : srep_parsed s bs -> length bs = wire_size s.
Proof.
  intros [Hh _ _ _ _ _ Hr (vb & lb & Hvb%length_version_bytes & Hlb & ->)].
  rewrite !length_app, (length_encode_header _ Hh), !length_to_le_bytes, Hvb, Hlb.
  rewrite (length_encode_FixedTag 32) by done. cbn. lia.
Qed.

(** Where the signed values are. *)
Lemma srep_parsed_midp s bs : srep_parsed s bs -> take 8 (drop 48 bs) = to_le_bytes 8 (srep_midpoint s).
Proof.
  intros [Hh _ _ _ _ _ _ (vb & lb & Hvb%length_version_bytes & _ & ->)].
  rewrite app_assoc, app_assoc. rewrite drop_app_length'.
  - by rewrite take_app_length' by (by rewrite length_to_le_bytes).
  - rewrite !length_app, (length_encode_header _ Hh), Hvb, length_to_le_bytes. done.
Qed.

Lemma srep_parsed_root s bs : srep_parsed s bs -> drop (length bs - 32) bs = fixed_bytes (srep_merkle_root s).
Proof.
  intros [_ _ _ _ _ _ Hr (vb & lb & _ & _ & ->)]. rewrite !app_assoc. apply drop_app_length'.
  rewrite length_app, (length_encode_FixedTag 32) by done. lia.
Qed.

(** Two readings of the same bytes have the same time and root. *)
Lemma srep_parsed_agree s s' bs : srep_parsed s bs -> srep_parsed s' bs ->
  srep_midpoint s = srep_midpoint s' /\ srep_merkle_root s = srep_merkle_root s'.
Proof.
  intros H H'. split.
  - pose proof (srep_parsed_midp _ _ H) as Hm. rewrite (srep_parsed_midp _ _ H') in Hm.
    apply (f_equal from_le_bytes) in Hm. rewrite !from_to_le_bytes_u64 in Hm by (by destruct H, H'). done.
  - pose proof (srep_parsed_root _ _ H) as Hr. rewrite (srep_parsed_root _ _ H') in Hr.
    destruct (srep_merkle_root s), (srep_merkle_root s'). cbn in Hr. by subst.
Qed.

Lemma srep_wf_parsed s : srep_wf s -> srep_parsed s (encode s).
Proof.
  intros [Hh Hra Hmi [Hvl Hvs] Hsome Hr]. split; try done.
  - rewrite Hh. by apply srep_header_wf.
  - by rewrite Hh.
  - exists (length (versions (srep_versions s))). rewrite Hh. split; [done|]. split; [done|]. by rewrite Nat.min_r.
  - exists (encode (srep_version s)), (encode (srep_versions s)). split_and!; [by left|rewrite Nat.mul_comm; apply length_encode_versions|reflexivity].
Qed.

(** ** The setters keep the offsets consistent *)

(** Everything but the versions, whose offset only [set_vers] sets. *)
Definition srep_ready (s : SignedResponse) : Prop :=
  tags (srep_header s) = SREP_TAGS /\ num_tags (srep_header s) = 5%Z /\
  (exists o, offsets (srep_header s) = [4; 8; 16; o]%Z) /\
  is_u32 (srep_radius s) /\ is_u64 (srep_midpoint s) /\ wf (A := FixedTag 32) (srep_merkle_root s).

Lemma SignedResponse_default_ready : srep_ready SignedResponse_default.
Proof. split_and!; try done. by eexists. Qed.

Lemma set_vers_wf s vs :
  srep_ready s -> wf (A := VersionList) vs -> 1 <= length (versions vs) -> wf (set_vers s vs).
Proof.
  intros (Ht & Hn & [o Ho] & Hra & Hmi & Hr) Hv H1. split; cbn; try done.
  rewrite Ho, Ht, Hn. cbn. destruct Hv as [Hl _]. unfold MAX_VERSIONS in Hl.
  unfold srep_offsets. do 5 f_equal. unfold VERS_OFFSET, MIDP_OFFSET, RADI_OFFSET.
  rewrite as_u32_small by lia. rewrite u32_add_small by lia. lia.
Qed.

Lemma setters_wf s v r m root :
  wf s -> is_u32 r -> is_u64 m -> wf (A := FixedTag 32) root ->
  wf (set_ver s v) /\ wf (set_radi s r) /\ wf (set_midp s m) /\ wf (set_root s root).
Proof. intros [] **. split_and!; by split. Qed.

(** ** SignedResponseDraft08 *)

Record SignedResponseDraft08 := mkSrep08 {
  srep08_header : Header3;
  srep08_radius : Z;
  srep08_midpoint : Z;
  srep08_merkle_root : MerkleRoot;
}.

#[export] Instance SignedResponseDraft08_eq_dec : EqDecision SignedResponseDraft08.
Proof. solve_decision. Defined.

Definition SREP08_OFFSETS : list Z := [4; 4 + 8]%Z.
Definition SREP08_TAGS : list Tag.t := [Tag.RADI; Tag.MIDP; Tag.ROOT].

Definition SignedResponseDraft08_default : SignedResponseDraft08 :=
  mkSrep08 (mkHeader (num_tags (Header_default 3)) SREP08_OFFSETS SREP08_TAGS)
    0 0 MerkleRoot_default.

Definition set_radi08 (s : SignedResponseDraft08) (r : Z) : SignedResponseDraft08 :=
  mkSrep08 (srep08_header s) r (srep08_midpoint s) (srep08_merkle_root s).
Definition set_midp08 (s : SignedResponseDraft08) (m : Z) : SignedResponseDraft08 :=
  mkSrep08 (srep08_header s) (srep08_radius s) m (srep08_merkle_root s).
Definition set_root08 (s : SignedResponseDraft08) (root : MerkleRoot) : SignedResponseDraft08 :=
  mkSrep08 (srep08_header s) (srep08_radius s) (srep08_midpoint s) root.

#[export] Instance SignedResponseDraft08_ToWire : ToWire SignedResponseDraft08 := {|
  wire_size s := wire_size (srep08_header s) + 4 + 8 + wire_size (srep08_merkle_root s);
  to_wire s :=
    _ ← to_wire (srep08_header s);
    _ ← put_u32_le (srep08_radius s);
    _ ← put_u64_le (srep08_midpoint s);
    to_wire (srep08_merkle_root s)
|}.

#[export] Instance SignedResponseDraft08_FromWire : FromWire SignedResponseDraft08 :=
  header ← from_wire (A := Header3);
  _ ← check_bounds_here header;
  _ ← guard_err (negb (bool_decide (tags header = SREP08_TAGS))) UnexpectedTags;
  radius ← try_get_u32_le;
  midpoint ← try_get_u64_le;
  root ← from_wire (A := MerkleRoot);
  mret (mkSrep08 header radius midpoint root).

(** [impl From<SignedResponseDraft08> for SignedResponse] *)
Definition SignedResponse_from (draft08 : SignedResponseDraft08) : SignedResponse :=
  let srep := SignedResponse_default in
  let srep := set_ver srep RfcDraft08 in
  let srep := set_radi srep (srep08_radius draft08) in
  let srep := set_midp srep (srep08_midpoint draft08) in
  let srep := set_vers srep (VersionList_new [RfcDraft08]) in
  set_root srep (srep08_merkle_root draft08).

(** The offsets are not compared with [SREP08_OFFSETS], so a value may carry others. *)
Record srep08_wf (s : SignedResponseDraft08) : Prop := {
  s8_header : header_wf (srep08_header s);
  s8_tags : tags (srep08_header s) = SREP08_TAGS;
  s8_radi : is_u32 (srep08_radius s);
  s8_midp : is_u64 (srep08_midpoint s);
  s8_root : wf (A := FixedTag 32) (srep08_merkle_root s);
}.

#[export] Instance SignedResponseDraft08_Encode : Encode SignedResponseDraft08 := {|
  encode s := encode (srep08_header s) ++ to_le_bytes 4 (srep08_radius s) ++
    to_le_bytes 8 (srep08_midpoint s) ++ encode (A := FixedTag 32) (srep08_merkle_root s);
  wf := srep08_wf
|}.

Lemma length_encode_srep08 s : wf s -> length (encode (A := SignedResponseDraft08) s) = 68.
Proof.
  intros [Hh _ _ _ Hr]. cbn [encode SignedResponseDraft08_Encode].
  rewrite !length_app, (length_encode_header _ Hh), !length_to_le_bytes.
  rewrite (length_encode_FixedTag 32) by done. reflexivity.
Qed.

#[export] Instance SignedResponseDraft08_LawfulWrite : LawfulWrite SignedResponseDraft08.
Proof.
  split; intros s Hs; [by rewrite length_encode_srep08|].
  destruct Hs as [Hh _ _ _ Hr].
  cbn [to_wire encode SignedResponseDraft08_ToWire SignedResponseDraft08_Encode].
  writes_steps; done.
Qed.

#[export] Instance SignedResponseDraft08_Canonical : Canonical SignedResponseDraft08.
Proof.
  unfold Canonical, from_wire, SignedResponseDraft08_FromWire.
  eapply parses_bind; [apply (Header_parses 3); lia|]. intros h ? [Hh ->].
  apply parses_check_bounds_bind.
  apply parses_guard_bind. intros Htag%negb_false_iff%bool_decide_eq_true.
  eapply parses_bind; [apply parses_try_get_u32_le|]. intros radi ? [Hra ->].
  eapply parses_bind; [apply parses_try_get_u64_le|]. intros midp ? [Hmi ->].
  eapply parses_bind; [apply (from_wire_parses (A := FixedTag 32))|]. intros root ? [Hroot ->].
  apply parses_ret. rewrite app_nil_r. by split.
Qed.

(** The same of a draft-08 SREP. *)
Lemma srep08_agree s s' : srep08_wf s -> srep08_wf s' -> encode s = encode s' ->
  srep08_midpoint s = srep08_midpoint s' /\ srep08_merkle_root s = srep08_merkle_root s'.
Proof.
  intros [Hh _ _ Hm Hr] [Hh' _ _ Hm' Hr'] He. cbn [encode SignedResponseDraft08_Encode] in He.
  apply app_inj_1 in He as [_ He]; [|by rewrite (length_encode_header _ Hh), (length_encode_header _ Hh')].
  apply app_inj_1 in He as [_ He]; [|by rewrite !length_to_le_bytes].
  apply app_inj_1 in He as [Hmid Hroot]; [|by rewrite !length_to_le_bytes]. split.
  - apply (f_equal from_le_bytes) in Hmid. by rewrite !from_to_le_bytes_u64 in Hmid.
  - apply (encode_inj (A := FixedTag 32)); done.
Qed.

(** No bytes are an SREP of both drafts: their headers count five and three tags. *)
Lemma srep_versions_differ s (s' : SignedResponseDraft08) : ~ srep_parsed s (encode s').
Proof.
  intros [_ _ _ _ _ _ _ (vb & lb & _ & _ & He)]. apply (f_equal (take 4)) in He. vm_compute in He. discriminate.
Qed.

(** Reading a draft-08 SREP back also needs its offsets to be within the bytes
    that follow its header. *)
Lemma reads_SignedResponseDraft08 s suf :
  wf s -> Forall (fun o => (o <= Z.of_nat (44 + length suf))%Z) (offsets (srep08_header s)) ->
  small (encode s ++ suf) ->
  reads (from_wire (A := SignedResponseDraft08)) (encode s) suf s.
Proof.
  destruct s as [h radi midp root]. intros [Hh Ht Hra Hmi Hr] Hf Hsm.
  cbn [srep08_header srep08_radius srep08_midpoint srep08_merkle_root] in *.
  unfold small in Hsm. cbn [encode SignedResponseDraft08_Encode srep08_header srep08_radius
    srep08_midpoint srep08_merkle_root] in *.
  repeat rewrite length_app in Hsm. rewrite (length_encode_FixedTag 32) in Hsm by done.
  repeat rewrite length_to_le_bytes in Hsm.
  unfold from_wire, SignedResponseDraft08_FromWire.
  eapply reads_bind; [by apply from_wire_reads|].
  eapply reads_bind_nil.
  { apply reads_check_bounds. rewrite as_u32_small; rewrite !length_app, !length_to_le_bytes,
      (length_encode_FixedTag 32) by done; [|lia].
    eapply Forall_impl; [apply Hf|]. intros o. cbn. lia. }
  eapply reads_bind_nil; [apply reads_guard; rewrite Ht; done|].
  eapply reads_bind; [by apply reads_try_get_u32_le|].
  eapply reads_bind; [by apply reads_try_get_u64_le|].
  rewrite <-(app_nil_r (encode root)).
  eapply reads_bind; [by apply (from_wire_reads (A := FixedTag 32))|]. apply reads_ret.
Qed.

Lemma SignedResponse_from_wf s : wf s -> wf (SignedResponse_from s).
Proof.
  intros [_ _ Hra Hmi Hr]. split; cbn; try done. cbn. split; [unfold MAX_VERSIONS; lia|done].
Qed.
