(* ===== verification/Request.v ===== *)
(** * Requests (crates/roughenough-protocol/src/request.rs)

    The three request structs, the [Request] enum and its parser, which tells
    the variants apart by peeking at the number of tags.  Parsing ignores the
    ZZZZ padding: it stays on the cursor. *)
From S2P Require Import Prelude Errors Cursor Wire Tags Header FixedTags Versions.

Definition REQUEST_SIZE : nat := 1024.

(** ** RequestDraft14: VER, NONC, TYPE, ZZZZ *)

Record RequestDraft14 := mkReq14 {
  r14_header : Header4;
  r14_version : RequestedVersions;
  r14_nonce : Nonce;
  r14_msg_type : MessageType.t;
  r14_padding : bytes;
}.

#[export] Instance RequestDraft14_eq_dec : EqDecision RequestDraft14.
Proof. solve_decision. Defined.

Definition REQ14_TAGS : list Tag.t := [Tag.VER; Tag.NONC; Tag.TYPE; Tag.ZZZZ].

Definition RequestDraft14_default : RequestDraft14 :=
  let version := RequestedVersions_default in
  let o0 := as_u32 (wire_size version) in
  let o1 := u32_add o0 (as_u32 (wire_size Nonce_default)) in
  let o2 := u32_add o1 (as_u32 (wire_size MessageType.Request)) in
  mkReq14 (mkHeader (num_tags (Header_default 4)) [o0; o1; o2] REQ14_TAGS)
    version Nonce_default MessageType.Request (zeroes 940).

Definition RequestDraft14_new (nonce : Nonce) : RequestDraft14 :=
  let d := RequestDraft14_default in
  mkReq14 (r14_header d) (r14_version d) nonce (r14_msg_type d) (r14_padding d).

#[export] Instance RequestDraft14_FromWire : FromWire RequestDraft14 :=
  header ← from_wire (A := Header4);
  _ ← check_bounds_here header;
  _ ← guard_err (negb (bool_decide (tags header = REQ14_TAGS))) UnexpectedTags;
  ver_len ← lift_res (index (offsets header) 0);
  version ← from_wire_n (A := VersionList) (Z.to_nat ver_len);
  nonce ← from_wire (A := Nonce);
  msg_type ← from_wire (A := MessageType.t);
  _ ← guard_err (negb (bool_decide (msg_type = MessageType.Request)))
        (InvalidMessageType (MessageType.discriminant msg_type));
  mret (mkReq14 header version nonce msg_type (r14_padding RequestDraft14_default)).

Definition r14_wire_size (r : RequestDraft14) : nat :=
  wire_size (r14_header r) + wire_size (r14_version r) + wire_size (r14_nonce r) +
  wire_size (r14_msg_type r) + length (r14_padding r).

#[export] Instance RequestDraft14_ToWire : ToWire RequestDraft14 := {|
  wire_size := r14_wire_size;
  to_wire r :=
    _ ← need (r14_wire_size r);
    _ ← to_wire (r14_header r);
    _ ← to_wire (r14_version r);
    _ ← to_wire (r14_nonce r);
    _ ← to_wire (r14_msg_type r);
    put_slice (r14_padding r)
|}.

(** ** RequestDraft08: VER, NONC, ZZZZ *)

Record RequestDraft08 := mkReq08 {
  r08_header : Header3;
  r08_version : RequestedVersions;
  r08_nonce : Nonce;
  r08_padding : bytes;
}.

#[export] Instance RequestDraft08_eq_dec : EqDecision RequestDraft08.
Proof. solve_decision. Defined.

Definition REQ08_TAGS : list Tag.t := [Tag.VER; Tag.NONC; Tag.ZZZZ].

(** The byte offset of NONC in a framed request with one version. *)
Definition FRAMED_NONCE_OFFSET : nat := 40.

Definition RequestDraft08_default : RequestDraft08 :=
  let version : RequestedVersions := VersionList_new [RfcDraft08] in
  let o0 := as_u32 (wire_size version) in
  let o1 := u32_add o0 (as_u32 (wire_size Nonce_default)) in
  mkReq08 (mkHeader (num_tags (Header_default 3)) [o0; o1] REQ08_TAGS)
    version Nonce_default (zeroes 952).

Definition RequestDraft08_new (nonce : Nonce) : RequestDraft08 :=
  let d := RequestDraft08_default in
  mkReq08 (r08_header d) (r08_version d) nonce (r08_padding d).

#[export] Instance RequestDraft08_FromWire : FromWire RequestDraft08 :=
  header ← from_wire (A := Header3);
  _ ← check_bounds_here header;
  _ ← guard_err (negb (bool_decide (tags header = REQ08_TAGS))) UnexpectedTags;
  ver_len ← lift_res (index (offsets header) 0);
  version ← from_wire_n (A := VersionList) (Z.to_nat ver_len);
  nonce ← from_wire (A := Nonce);
  mret (mkReq08 header version nonce (r08_padding RequestDraft08_default)).

Definition r08_wire_size (r : RequestDraft08) : nat :=
  wire_size (r08_header r) + wire_size (r08_version r) + wire_size (r08_nonce r) +
  length (r08_padding r).

#[export] Instance RequestDraft08_ToWire : ToWire RequestDraft08 := {|
  wire_size := r08_wire_size;
  to_wire r :=
    _ ← need (r08_wire_size r);
    _ ← to_wire (r08_header r);
    _ ← to_wire (r08_version r);
    _ ← to_wire (r08_nonce r);
    put_slice (r08_padding r)
|}.

(** ** RequestDraft14Srv: VER, SRV, NONC, TYPE, ZZZZ *)

Record RequestDraft14Srv := mkReqSrv {
  rs_header : Header5;
  rs_version : RequestedVersions;
  rs_server : SrvCommitment;
  rs_nonce : Nonce;
  rs_msg_type : MessageType.t;
  rs_padding : bytes;
}.

#[export] Instance RequestDraft14Srv_eq_dec : EqDecision RequestDraft14Srv.
Proof. solve_decision. Defined.

Definition REQSRV_TAGS : list Tag.t := [Tag.VER; Tag.SRV; Tag.NONC; Tag.TYPE; Tag.ZZZZ].

Definition RequestDraft14Srv_default : RequestDraft14Srv :=
  let version := RequestedVersions_default in
  let o0 := as_u32 (wire_size version) in
  let o1 := u32_add o0 (as_u32 (wire_size SrvCommitment_default)) in
  let o2 := u32_add o1 (as_u32 (wire_size Nonce_default)) in
  let o3 := u32_add o2 (as_u32 (wire_size MessageType.Request)) in
  mkReqSrv (mkHeader (num_tags (Header_default 5)) [o0; o1; o2; o3] REQSRV_TAGS)
    version SrvCommitment_default Nonce_default MessageType.Request (zeroes 900).

Definition RequestDraft14Srv_new (nonce : Nonce) (server : SrvCommitment) : RequestDraft14Srv :=
  let d := RequestDraft14Srv_default in
  mkReqSrv (rs_header d) (rs_version d) server nonce (rs_msg_type d) (rs_padding d).

#[export] Instance RequestDraft14Srv_FromWire : FromWire RequestDraft14Srv :=
  header ← from_wire (A := Header5);
  _ ← check_bounds_here header;
  _ ← guard_err (negb (bool_decide (tags header = REQSRV_TAGS))) UnexpectedTags;
  ver_len ← lift_res (index (offsets header) 0);
  version ← from_wire_n (A := VersionList) (Z.to_nat ver_len);
  server ← from_wire (A := SrvCommitment);
  nonce ← from_wire (A := Nonce);
  msg_type ← from_wire (A := MessageType.t);
  _ ← guard_err (negb (bool_decide (msg_type = MessageType.Request)))
        (InvalidMessageType (MessageType.discriminant msg_type));
  mret (mkReqSrv header version server nonce msg_type (rs_padding RequestDraft14Srv_default)).

Definition rs_wire_size (r : RequestDraft14Srv) : nat :=
  wire_size (rs_header r) + wire_size (rs_version r) + wire_size (rs_server r) +
  wire_size (rs_nonce r) + wire_size (rs_msg_type r) + length (rs_padding r).

#[export] Instance RequestDraft14Srv_ToWire : ToWire RequestDraft14Srv := {|
  wire_size := rs_wire_size;
  to_wire r :=
    _ ← need (rs_wire_size r);
    _ ← to_wire (rs_header r);
    _ ← to_wire (rs_version r);
    _ ← to_wire (rs_server r);
    _ ← to_wire (rs_nonce r);
    _ ← to_wire (rs_msg_type r);
    put_slice (rs_padding r)
|}.

(** ** Request *)

Inductive Request : Type :=
| Draft08 (req : RequestDraft08)
| Draft14 (req : RequestDraft14)
| Draft14Srv (req : RequestDraft14Srv).

#[export] Instance Request_eq_dec : EqDecision Request.
Proof. solve_decision. Defined.

Definition new_draft14 (nonce : Nonce) : Request := Draft14 (RequestDraft14_new nonce).
Definition new_draft08 (nonce : Nonce) : Request := Draft08 (RequestDraft08_new nonce).
Definition new_draft14_with_server_commitment (nonce : Nonce) (server : SrvCommitment) : Request :=
  Draft14Srv (RequestDraft14Srv_new nonce server).

Definition req_ver (r : Request) : RequestedVersions :=
  match r with
  | Draft08 req => r08_version req
  | Draft14 req => r14_version req
  | Draft14Srv req => rs_version req
  end.
Definition req_nonc (r : Request) : Nonce :=
  match r with
  | Draft08 req => r08_nonce req
  | Draft14 req => r14_nonce req
  | Draft14Srv req => rs_nonce req
  end.
Definition req_msg_type (r : Request) : MessageType.t :=
  match r with
  | Draft08 _ => MessageType.Request
  | Draft14 req => r14_msg_type req
  | Draft14Srv req => rs_msg_type req
  end.
Definition req_srv (r : Request) : option SrvCommitment :=
  match r with Draft08 _ | Draft14 _ => None | Draft14Srv req => Some (rs_server req) end.

#[export] Instance Request_ToWire : ToWire Request := {|
  wire_size r := match r with
    | Draft08 req => wire_size req
    | Draft14 req => wire_size req
    | Draft14Srv req => wire_size req
    end;
  to_wire r := match r with
    | Draft08 req => to_wire req
    | Draft14 req => to_wire req
    | Draft14Srv req => to_wire req
    end
|}.

(** The [match num_tags] of the parser. *)
Definition from_wire_variant (num : Z) : CM Request :=
  if (num =? 3)%Z then req ← from_wire (A := RequestDraft08); mret (Draft08 req)
  else if (num =? 4)%Z then req ← from_wire (A := RequestDraft14); mret (Draft14 req)
  else if (num =? 5)%Z then req ← from_wire (A := RequestDraft14Srv); mret (Draft14Srv req)
  else fail (InvalidRequestNumTags num "3, 4, or 5").

#[export] Instance Request_FromWire : FromWire Request :=
  n ← get_remaining;
  _ ← guard_err (negb (n =? 1012)) (BadRequestSize n);
  saved_pos ← get_position;
  num ← try_get_u32_le;
  _ ← set_position saved_pos;
  from_wire_variant num.

(** ** Well-formed requests and their encoding

    [fields] is the request without its padding, the part the parser consumes. *)

Definition r14_offsets (n : nat) : list Z := map Z.of_nat [4 * n; 4 * n + 32; 4 * n + 36].
Definition r08_offsets (n : nat) : list Z := map Z.of_nat [4 * n; 4 * n + 32].
Definition rs_offsets (n : nat) : list Z :=
  map Z.of_nat [4 * n; 4 * n + 32; 4 * n + 64; 4 * n + 68].

Record r14_wf (r : RequestDraft14) : Prop := {
  r14w_header : r14_header r = mkHeader 4 (r14_offsets (length (versions (r14_version r)))) REQ14_TAGS;
  r14w_version : wf (r14_version r);
  r14w_nonce : wf (A := FixedTag 32) (r14_nonce r);
  r14w_type : r14_msg_type r = MessageType.Request;
  r14w_padding : r14_padding r = zeroes 940;
}.
Record r08_wf (r : RequestDraft08) : Prop := {
  r08w_header : r08_header r = mkHeader 3 (r08_offsets (length (versions (r08_version r)))) REQ08_TAGS;
  r08w_version : wf (r08_version r);
  r08w_nonce : wf (A := FixedTag 32) (r08_nonce r);
  r08w_padding : r08_padding r = zeroes 952;
}.
Record rs_wf (r : RequestDraft14Srv) : Prop := {
  rsw_header : rs_header r = mkHeader 5 (rs_offsets (length (versions (rs_version r)))) REQSRV_TAGS;
  rsw_version : wf (rs_version r);
  rsw_server : wf (rs_server r);
  rsw_nonce : wf (A := FixedTag 32) (rs_nonce r);
  rsw_type : rs_msg_type r = MessageType.Request;
  rsw_padding : rs_padding r = zeroes 900;
}.

Definition r14_fields (r : RequestDraft14) : bytes :=
  encode (r14_header r) ++ encode (r14_version r) ++ encode (A := FixedTag 32) (r14_nonce r) ++
  encode (r14_msg_type r).
Definition r08_fields (r : RequestDraft08) : bytes :=
  encode (r08_header r) ++ encode (r08_version r) ++ encode (A := FixedTag 32) (r08_nonce r).
Definition rs_fields (r : RequestDraft14Srv) : bytes :=
  encode (rs_header r) ++ encode (rs_version r) ++ encode (rs_server r) ++
  encode (A := FixedTag 32) (rs_nonce r) ++ encode (rs_msg_type r).

Definition fields (r : Request) : bytes :=
  match r with
  | Draft08 req => r08_fields req
  | Draft14 req => r14_fields req
  | Draft14Srv req => rs_fields req
  end.
Definition padding (r : Request) : bytes :=
  match r with
  | Draft08 req => r08_padding req
  | Draft14 req => r14_padding req
  | Draft14Srv req => rs_padding req
  end.

#[export] Instance Request_Encode : Encode Request := {|
  encode r := fields r ++ padding r;
  wf r := match r with
    | Draft08 req => r08_wf req
    | Draft14 req => r14_wf req
    | Draft14Srv req => rs_wf req
    end
|}.

(** The headers of the three layouts are valid for every number of versions. *)
Lemma aligned4 n k : ((Z.of_nat (4 * n + 4 * k)) mod 4 =? 0)%Z = true.
Proof. apply Z.eqb_eq. rewrite <-Nat.mul_add_distr_l, Nat2Z.inj_mul, Z.mul_comm. by apply Z.mod_mul. Qed.

Ltac offsets_ok n :=
  cbn [map offsets_okb];
  pose proof (aligned4 n 0); pose proof (aligned4 n 8); pose proof (aligned4 n 9);
  pose proof (aligned4 n 16); pose proof (aligned4 n 17);
  rewrite ?Nat.mul_0_r, ?Nat.add_0_r in *;
  repeat (apply andb_true_iff; split); first [done|assumption|apply Z.leb_le; lia|apply Z.ltb_lt; lia].

Lemma r14_header_wf n : n <= MAX_VERSIONS -> header_wf (@mkHeader 4 4 (r14_offsets n) REQ14_TAGS).
Proof.
  unfold MAX_VERSIONS. intros Hn. split; cbn [num_tags offsets tags]; try done; [lia|].
  unfold r14_offsets. offsets_ok n.
Qed.
Lemma r08_header_wf_upto n : n <= 1000 -> header_wf (@mkHeader 3 3 (r08_offsets n) REQ08_TAGS).
Proof.
  intros Hn. split; cbn [num_tags offsets tags]; try done; [lia|].
  unfold r08_offsets. offsets_ok n.
Qed.
Lemma r08_header_wf n : n <= MAX_VERSIONS -> header_wf (@mkHeader 3 3 (r08_offsets n) REQ08_TAGS).
Proof. unfold MAX_VERSIONS. intros Hn. apply r08_header_wf_upto. lia. Qed.
Lemma rs_header_wf n : n <= MAX_VERSIONS -> header_wf (@mkHeader 5 5 (rs_offsets n) REQSRV_TAGS).
Proof.
  unfold MAX_VERSIONS. intros Hn. split; cbn [num_tags offsets tags]; try done; [lia|].
  unfold rs_offsets. offsets_ok n.
Qed.

#[local] Ltac req_sizes H :=
  rewrite ?length_app, ?(length_encode_header _ H), ?(length_encode_FixedTag 32) by done;
  cbn [encode VersionList_Encode FixedTag_Encode SrvCommitment_Encode];
  rewrite ?length_encode_versions, ?length_encode_MessageType, ?length_zeroes.

Lemma length_r14_fields r : r14_wf r ->
  length (r14_fields r) = 68 + 4 * length (versions (r14_version r)).
Proof.
  intros [Hh Hv Hn _ _]. unfold r14_fields. rewrite Hh.
  req_sizes (r14_header_wf _ (proj1 Hv)). cbn in Hn. rewrite ?Hn. unfold size_of_Header. lia.
Qed.
Lemma length_r08_fields r : r08_wf r ->
  length (r08_fields r) = 56 + 4 * length (versions (r08_version r)).
Proof.
  intros [Hh Hv Hn _]. unfold r08_fields. rewrite Hh.
  req_sizes (r08_header_wf _ (proj1 Hv)). cbn in Hn. rewrite ?Hn. unfold size_of_Header. lia.
Qed.
Lemma length_rs_fields r : rs_wf r ->
  length (rs_fields r) = 108 + 4 * length (versions (rs_version r)).
Proof.
  intros [Hh Hv Hs Hn _ _]. unfold rs_fields. rewrite Hh.
  req_sizes (rs_header_wf _ (proj1 Hv)). cbn in Hn, Hs. rewrite ?Hn, ?Hs. unfold size_of_Header. lia.
Qed.

Lemma length_encode_Request r : wf r -> length (encode r) = wire_size r.
Proof.
  destruct r as [r|r|r]; intros Hr; cbn [encode Request_Encode fields padding wf] in *;
    rewrite length_app.
  - rewrite (length_r08_fields _ Hr). destruct Hr as [_ _ _ Hp]. cbn. unfold r08_wire_size. cbn.
    unfold size_of_Header. lia.
  - rewrite (length_r14_fields _ Hr). destruct Hr as [_ _ _ _ Hp]. cbn. unfold r14_wire_size. cbn.
    unfold size_of_Header. lia.
  - rewrite (length_rs_fields _ Hr). destruct Hr as [_ _ _ _ _ Hp]. cbn. unfold rs_wire_size. cbn.
    unfold size_of_Header. lia.
Qed.

#[export] Instance Request_LawfulWrite : LawfulWrite Request.
Proof.
  split; intros r Hr; [by rewrite length_encode_Request|].
  pose proof (length_encode_Request r Hr) as Hl. destruct r as [r|r|r];
    cbn [to_wire encode wire_size Request_ToWire Request_Encode RequestDraft08_ToWire RequestDraft14_ToWire
         RequestDraft14Srv_ToWire fields padding wf] in *;
    (apply writes_need; [by rewrite Hl|]).
  - destruct Hr as [Hh Hv Hn _]. unfold r08_fields. rewrite <-!app_assoc. writes_steps; try done.
    rewrite Hh. by apply r08_header_wf, Hv.
  - destruct Hr as [Hh Hv Hn Ht _]. unfold r14_fields. rewrite <-!app_assoc. writes_steps; try done.
    + rewrite Hh. by apply r14_header_wf, Hv. + by rewrite Ht.
  - destruct Hr as [Hh Hv Hs Hn Ht _]. unfold rs_fields. rewrite <-!app_assoc. writes_steps; try done.
    + rewrite Hh. by apply rs_header_wf, Hv. + by rewrite Ht.
Qed.

(** The version list of a well-formed request sits before its first offset. *)
Lemma reads_request_version (vs : VersionList) suf :
  wf vs ->
  reads (from_wire_n (A := VersionList) (Z.to_nat (Z.of_nat (4 * length (versions vs)))))
    (encode vs) suf vs.
Proof.
  intros Hv. replace (Z.to_nat _) with (wire_size vs) by (cbn; lia). by apply reads_VersionList.
Qed.

Lemma reads_bounds_le {N} (h : Header N) suf n :
  Forall (fun o => (o <= Z.of_nat n)%Z) (offsets h) -> n <= length suf -> small suf ->
  reads (check_bounds_here h) [] suf tt.
Proof.
  intros Hf Hn Hs. apply reads_check_bounds. rewrite as_u32_small by done.
  eapply Forall_impl; [apply Hf|]. cbn. lia.
Qed.

#[local] Ltac bounds_ok n :=
  eapply (reads_bounds_le _ _ n);
  [ repeat constructor; lia
  | repeat rewrite length_app in *; rewrite ?length_encode_versions; lia
  | unfold small in *; repeat rewrite length_app in *; lia ].

Lemma reads_RequestDraft14 r suf :
  r14_wf r -> small (r14_fields r ++ suf) ->
  reads (from_wire (A := RequestDraft14)) (r14_fields r) suf r.
Proof.
  intros Hr Hsm. pose proof (length_r14_fields r Hr) as Hl. destruct r as [h v n t p].
  destruct Hr as [Hh Hv Hn Ht Hp].
  cbn [r14_header r14_version r14_nonce r14_msg_type r14_padding] in *. subst h t p.
  pose proof (r14_header_wf _ (proj1 Hv)) as Hhw. unfold small in Hsm.
  unfold r14_fields in *. cbn [r14_header r14_version r14_nonce r14_msg_type] in *.
  repeat rewrite length_app in Hsm. repeat rewrite length_app in Hl.
  rewrite (length_encode_header _ Hhw) in Hl, Hsm. unfold size_of_Header in *.
  eapply reads_bind; [by apply from_wire_reads|].
  eapply reads_bind_nil; [bounds_ok (4 * length (versions v) + 36)|].
  eapply reads_bind_nil; [by apply reads_guard|].
  eapply reads_bind_nil; [by apply reads_lift_res|].
  eapply reads_bind; [by apply reads_request_version|].
  eapply reads_bind; [by apply (from_wire_reads (A := FixedTag 32))|].
  rewrite <-(app_nil_r (encode MessageType.Request)).
  eapply reads_bind; [by apply (from_wire_reads (A := MessageType.t))|].
  eapply reads_bind_nil; [by apply reads_guard|]. apply reads_ret.
Qed.

Lemma reads_RequestDraft08 r suf :
  r08_wf r -> small (r08_fields r ++ suf) ->
  reads (from_wire (A := RequestDraft08)) (r08_fields r) suf r.
Proof.
  intros Hr Hsm. pose proof (length_r08_fields r Hr) as Hl. destruct r as [h v n p].
  destruct Hr as [Hh Hv Hn Hp].
  cbn [r08_header r08_version r08_nonce r08_padding] in *. subst h p.
  pose proof (r08_header_wf _ (proj1 Hv)) as Hhw. unfold small in Hsm.
  unfold r08_fields in *. cbn [r08_header r08_version r08_nonce] in *.
  repeat rewrite length_app in Hsm. repeat rewrite length_app in Hl.
  rewrite (length_encode_header _ Hhw) in Hl, Hsm. unfold size_of_Header in *.
  eapply reads_bind; [by apply from_wire_reads|].
  eapply reads_bind_nil; [bounds_ok (4 * length (versions v) + 32)|].
  eapply reads_bind_nil; [by apply reads_guard|].
  eapply reads_bind_nil; [by apply reads_lift_res|].
  eapply reads_bind; [by apply reads_request_version|].
  rewrite <-(app_nil_r (encode n)).
  eapply reads_bind; [by apply (from_wire_reads (A := FixedTag 32))|]. apply reads_ret.
Qed.

Lemma reads_RequestDraft14Srv r suf :
  rs_wf r -> small (rs_fields r ++ suf) ->
  reads (from_wire (A := RequestDraft14Srv)) (rs_fields r) suf r.
Proof.
  intros Hr Hsm. pose proof (length_rs_fields r Hr) as Hl. destruct r as [h v s n t p].
  destruct Hr as [Hh Hv Hs Hn Ht Hp].
  cbn [rs_header rs_version rs_server rs_nonce rs_msg_type rs_padding] in *. subst h t p.
  pose proof (rs_header_wf _ (proj1 Hv)) as Hhw. unfold small in Hsm.
  unfold rs_fields in *. cbn [rs_header rs_version rs_server rs_nonce rs_msg_type] in *.
  repeat rewrite length_app in Hsm. repeat rewrite length_app in Hl.
  rewrite (length_encode_header _ Hhw) in Hl, Hsm. unfold size_of_Header in *.
  eapply reads_bind; [by apply from_wire_reads|].
  eapply reads_bind_nil; [bounds_ok (4 * length (versions v) + 68)|].
  eapply reads_bind_nil; [by apply reads_guard|].
  eapply reads_bind_nil; [by apply reads_lift_res|].
  eapply reads_bind; [by apply reads_request_version|].
  eapply reads_bind; [by apply (from_wire_reads (A := SrvCommitment))|].
  eapply reads_bind; [by apply (from_wire_reads (A := FixedTag 32))|].
  rewrite <-(app_nil_r (encode MessageType.Request)).
  eapply reads_bind; [by apply (from_wire_reads (A := MessageType.t))|].
  eapply reads_bind_nil; [by apply reads_guard|]. apply reads_ret.
Qed.

(** ** The [Request] parser *)

Lemma reads_Request_variant num tl bs suf r :
  length (bs ++ suf) = 1012 -> is_u32 num -> bs ++ suf = to_le_bytes 4 num ++ tl ->
  reads (from_wire_variant num) bs suf r -> reads (from_wire (A := Request)) bs suf r.
Proof.
  intros Hl Hnum Htl Hr pre. unfold from_wire at 1, Request_FromWire.
  unfold mbind at 1, CM_bind at 1, get_remaining at 1. rewrite remaining_at, Hl. cbn [Nat.eqb negb].
  by apply (reads_peek_u32 from_wire_variant num tl).
Qed.

Lemma reads_Request r :
  wf r -> wire_size r = 1012 ->
  reads (from_wire (A := Request)) (fields r) (padding r) r.
Proof.
  intros Hr Hsz. pose proof (length_encode_Request r Hr) as Hl. rewrite Hsz in Hl.
  cbn [encode Request_Encode] in Hl.
  assert (small (fields r ++ padding r)) as Hsm by (unfold small; lia).
  destruct r as [r|r|r]; cbn [wf Request_Encode] in Hr; cbn [fields padding] in *.
  - eapply (reads_Request_variant 3); [done|unfold is_u32; lia| |].
    { unfold r08_fields. cbn [encode Header_Encode]. rewrite <-!app_assoc. reflexivity. }
    rewrite <-(app_nil_r (_ r)).
    eapply reads_bind; [apply reads_RequestDraft08; [done|by rewrite app_nil_l]|apply reads_ret].
  - eapply (reads_Request_variant 4); [done|unfold is_u32; lia| |].
    { unfold r14_fields. cbn [encode Header_Encode]. rewrite <-!app_assoc. reflexivity. }
    rewrite <-(app_nil_r (_ r)).
    eapply reads_bind; [apply reads_RequestDraft14; [done|by rewrite app_nil_l]|apply reads_ret].
  - eapply (reads_Request_variant 5); [done|unfold is_u32; lia| |].
    { unfold rs_fields. cbn [encode Header_Encode]. rewrite <-!app_assoc. reflexivity. }
    rewrite <-(app_nil_r (_ r)).
    eapply reads_bind; [apply reads_RequestDraft14Srv; [done|by rewrite app_nil_l]|apply reads_ret].
Qed.

(** What an accepted request satisfies.  The version list occupies the first
    [4 * min 32 k] bytes after the header, where [4 * k] is the first offset,
    and the other fields follow it; the other offsets play no role. *)
Definition version_field {N} (h : Header N) (tgs : list Tag.t) (vs : VersionList) (lb : bytes) : Prop :=
  header_wf h /\ tags h = tgs /\ wf vs /\ length lb = 4 * length (versions vs) /\
  exists k, offsets h !! 0 = Some (Z.of_nat (4 * k)) /\
            length (versions vs) = Nat.min MAX_VERSIONS k.

Definition request_parsed (r : Request) (bs : bytes) : Prop :=
  wf (A := FixedTag 32) (req_nonc r) /\ req_msg_type r = MessageType.Request /\
  match r with
  | Draft08 r => exists lb, version_field (r08_header r) REQ08_TAGS (r08_version r) lb /\
      r08_padding r = zeroes 952 /\
      bs = encode (r08_header r) ++ lb ++ encode (A := FixedTag 32) (r08_nonce r)
  | Draft14 r => exists lb, version_field (r14_header r) REQ14_TAGS (r14_version r) lb /\
      r14_padding r = zeroes 940 /\
      bs = encode (r14_header r) ++ lb ++ encode (A := FixedTag 32) (r14_nonce r) ++
           encode (r14_msg_type r)
  | Draft14Srv r => exists lb, version_field (rs_header r) REQSRV_TAGS (rs_version r) lb /\
      wf (rs_server r) /\ rs_padding r = zeroes 900 /\
      bs = encode (rs_header r) ++ lb ++ encode (rs_server r) ++
           encode (A := FixedTag 32) (rs_nonce r) ++ encode (rs_msg_type r)
  end.

(** The first offset exists and is a multiple of four. *)
Lemma first_offset {N} (h : Header N) :
  header_wf h -> 2 <= N -> exists k, offsets h !! 0 = Some (Z.of_nat (4 * k)).
Proof.
  intros [_ _ Hl _ Hok _] HN. destruct (offsets h) as [|o os]; [cbn in Hl; lia|].
  destruct (offsets_okb_aligned 0 (o :: os) o Hok) as [Hu Hm]; [left|].
  exists (Z.to_nat (o / 4)). cbn. f_equal. unfold is_u32 in Hu.
  pose proof (Z.div_mod o 4 ltac:(done)) as Hd. rewrite Hm in Hd.
  pose proof (Z.div_pos o 4 ltac:(lia) ltac:(lia)). lia.
Qed.

(** The common start of the three parsers: header, bounds, tags, versions. *)
Lemma parses_request_start {A} N tgs (k : Header N -> VersionList -> CM A) (R : A -> bytes -> Prop) :
  2 <= N -> (Z.of_nat N < 2 ^ 32)%Z ->
  (forall h vs lb, version_field h tgs vs lb ->
    parses (k h vs) (fun a bs => R a (encode h ++ lb ++ bs))) ->
  parses (header ← from_wire (A := Header N);
          _ ← check_bounds_here header;
          _ ← guard_err (negb (bool_decide (tags header = tgs))) UnexpectedTags;
          ver_len ← lift_res (index (offsets header) 0);
          version ← from_wire_n (A := VersionList) (Z.to_nat ver_len);
          k header version) R.
Proof.
  intros HN1 HN2 Hk.
  eapply parses_bind; [apply (Header_parses N); lia|]. intros h ? [Hh ->].
  apply parses_check_bounds_bind.
  apply parses_guard_bind. intros Htag%negb_false_iff%bool_decide_eq_true.
  destruct (first_offset h Hh HN1) as [q Hq]. unfold index. rewrite Hq.
  apply parses_lift_bind; [done|]. intros ? [= <-].
  replace (Z.to_nat _) with (q * 4) by lia.
  eapply parses_bind; [apply VersionList_parses|]. intros vs lb (Hv & Hl & Hlb).
  eapply parses_weaken; [apply (Hk h vs lb)|cbn; auto].
  split_and!; try done; [cbn in Hlb; lia|by exists q].
Qed.

(** The common end of the draft-14 parsers: the type must be [Request]. *)
Lemma parses_request_type {A} (k : MessageType.t -> A) (R : A -> bytes -> Prop) :
  R (k MessageType.Request) (encode MessageType.Request) ->
  parses (msg_type ← from_wire (A := MessageType.t);
          _ ← guard_err (negb (bool_decide (msg_type = MessageType.Request)))
                (InvalidMessageType (MessageType.discriminant msg_type));
          mret (k msg_type)) R.
Proof.
  intros Hk. eapply parses_bind; [apply (from_wire_parses (A := MessageType.t))|].
  intros mt ? [_ ->]. apply parses_guard_bind. intros ->%negb_false_iff%bool_decide_eq_true.
  apply parses_ret. by rewrite app_nil_r.
Qed.

Lemma Request_parses : parses (from_wire (A := Request)) request_parsed.
Proof.
  unfold from_wire at 1, Request_FromWire.
  apply parses_remaining_bind. intros n. apply parses_guard_bind. intros _.
  apply parses_peek_u32. intros num. unfold from_wire_variant.
  destruct (num =? 3)%Z; [|destruct (num =? 4)%Z; [|destruct (num =? 5)%Z; [|apply parses_fail]]].
  - eapply parses_bind with (R1 := fun r bs => request_parsed (Draft08 r) bs).
    2: { intros r bs Hr. apply parses_ret. by rewrite app_nil_r. }
    apply (parses_request_start 3 REQ08_TAGS); [lia|done|]. intros h vs lb Hvs.
    eapply parses_bind; [apply (from_wire_parses (A := FixedTag 32))|]. intros nonce ? [Hn ->].
    apply parses_ret. split_and!; [done|done|]. exists lb. by rewrite app_nil_r.
  - eapply parses_bind with (R1 := fun r bs => request_parsed (Draft14 r) bs).
    2: { intros r bs Hr. apply parses_ret. by rewrite app_nil_r. }
    apply (parses_request_start 4 REQ14_TAGS); [lia|done|]. intros h vs lb Hvs.
    eapply parses_bind; [apply (from_wire_parses (A := FixedTag 32))|]. intros nonce ? [Hn ->].
    apply (parses_request_type (fun mt => mkReq14 h vs nonce mt _)).
    split_and!; [done|done|]. by exists lb.
  - eapply parses_bind with (R1 := fun r bs => request_parsed (Draft14Srv r) bs).
    2: { intros r bs Hr. apply parses_ret. by rewrite app_nil_r. }
    apply (parses_request_start 5 REQSRV_TAGS); [lia|done|]. intros h vs lb Hvs.
    eapply parses_bind; [apply (from_wire_parses (A := SrvCommitment))|]. intros srv ? [Hs ->].
    eapply parses_bind; [apply (from_wire_parses (A := FixedTag 32))|]. intros nonce ? [Hn ->].
    apply (parses_request_type (fun mt => mkReqSrv h vs srv nonce mt _)).
    split_and!; [done|done|]. by exists lb.
Qed.

(** ** The constructors *)

Lemma new_request_wf nonce server :
  wf (A := FixedTag 32) nonce -> wf (A := SrvCommitment) server ->
  (wf (new_draft08 nonce) /\ wire_size (new_draft08 nonce) = 1012) /\
  (wf (new_draft14 nonce) /\ wire_size (new_draft14 nonce) = 1012) /\
  (wf (new_draft14_with_server_commitment nonce server) /\
   wire_size (new_draft14_with_server_commitment nonce server) = 1012).
Proof.
  intros Hn Hs. split_and!; try reflexivity; split; try done;
    cbn; (split; [unfold MAX_VERSIONS; lia|done]).
Qed.

(** A frame read back: [from_frame] on the whole datagram. *)
Lemma from_frame_Request r :
  wf r -> wire_size r = 1012 ->
  from_frame (A := Request) (new (frame_bytes (encode r))) =
    (Ok r, mkCursor (frame_bytes (encode r)) (12 + length (fields r))).
Proof.
  intros Hr Hsz. pose proof (length_encode_Request r Hr) as Hl. rewrite Hsz in Hl.
  cbn [encode Request_Encode] in Hl |- *.
  pose proof (reads_Request r Hr Hsz) as Hrd. rewrite <-(app_nil_r (padding r)) in Hrd.
  apply from_frame_reads_padded in Hrd; [|rewrite Hl; unfold MINIMUM_FRAME_SIZE; lia|unfold small; lia].
  specialize (Hrd []). rewrite !app_nil_r in Hrd. unfold at_cursor in Hrd. cbn [app length] in Hrd.
  rewrite <-!app_assoc in Hrd. unfold frame_bytes. etransitivity; [exact Hrd|].
  f_equal; f_equal; rewrite !length_app, length_to_be_bytes, length_to_le_bytes; lia.
Qed.

(** C23: Request round trip.  Framing a request that the crate's constructors
    build (one version, so 1012 bytes) gives exactly [REQUEST_SIZE] = 1024 bytes,
    and parsing that frame returns the request and leaves the cursor before the
    padding, whatever the nonce and the server commitment are. *)
Theorem request_frame_roundtrip (r : Request) :
  wf r -> wire_size r = 1012 ->
  exists bs, as_frame_bytes r = Ok bs /\ length bs = REQUEST_SIZE /\
    from_frame (A := Request) (new bs) = (Ok r, mkCursor bs (12 + length (fields r))).
Proof.
  intros Hr Hsz. exists (frame_bytes (encode r)). split_and!.
  - by apply as_frame_bytes_encode.
  - by rewrite length_frame_bytes, length_encode_Request, Hsz.
  - by apply from_frame_Request.
Qed.

Lemma request_frame_roundtrip_witness :
  let r := new_draft14_with_server_commitment (mkFixed (zeroes 32)) (mkSrv (zeroes 32)) in
  exists bs, as_frame_bytes r = Ok bs /\ length bs = REQUEST_SIZE /\
    from_frame (A := Request) (new bs) = (Ok r, mkCursor bs (12 + length (fields r))).
Proof.
  apply request_frame_roundtrip; [|reflexivity].
  split; try reflexivity. split; [unfold MAX_VERSIONS; cbn; lia|reflexivity].
Defined.

Lemma Request_size_exact pre rest r c :
  from_wire (A := Request) (at_cursor pre rest) = (Ok r, c) -> length rest = 1012.
Proof.
  unfold from_wire, Request_FromWire. unfold mbind at 1, CM_bind at 1, get_remaining at 1.
  rewrite remaining_at. destruct (Nat.eqb_spec (length rest) 1012); [done|].
  cbn. done.
Qed.

(** C24: Request parsing is total.  On every datagram [Request::from_frame] returns
    a request or an error and never panics, it leaves the buffer as it was, and
    what it accepts is a 1024-byte datagram that starts with the frame magic,
    holds a valid header with the variant's tags, at most 32 sorted versions, a
    32-byte nonce and the type REQUEST, in that order. *)
Theorem request_parse_total (bs : bytes) :
  match from_frame (A := Request) (new bs) with
  | (Ok r, c) =>
      data c = bs /\ length bs = REQUEST_SIZE /\
      exists len msg pad, is_u32 len /\ request_parsed r msg /\
        bs = to_be_bytes 8 FRAME_MAGIC ++ to_le_bytes 4 len ++ msg ++ pad
  | (Err _, c) => data c = bs
  | (Panic, _) => False
  end.
Proof.
  assert (parses (from_wire (A := Request)) (fun r b => request_parsed r b)) as Hp by apply Request_parses.
  change (new bs) with (at_cursor [] bs).
  pose proof (from_frame_parses _ Hp [] bs) as H.
  destruct (from_frame (at_cursor [] bs)) as [[r|e|] c] eqn:E; [|done|done].
  apply from_frame_ok in E as (len & msg & Hlen & E%Request_size_exact & ->).
  destruct H as (b1 & suf & Hb & -> & len' & msg' & Hlen' & -> & Hmsg).
  cbn [data at_cursor app]. rewrite <-Hb. split_and!; [done| |].
  - rewrite !length_app, length_to_be_bytes, length_to_le_bytes, E. done.
  - exists len', msg', suf. rewrite Hb, <-!app_assoc. done.
Qed.

(** A version list longer than 32 is cut: the parser takes the nonce from the
    bytes after the 32nd version. *)
Lemma reads_RequestDraft08_cut k vs nonce suf :
  MAX_VERSIONS < k -> k <= 1000 -> length vs = MAX_VERSIONS -> versions_sorted None vs = true ->
  wf (A := FixedTag 32) nonce ->
  let h := mkHeader 3 (r08_offsets k) REQ08_TAGS in
  4 * k + 32 <= 160 + length suf -> small (zeroes 160 ++ suf) ->
  reads (from_wire (A := RequestDraft08))
    (encode h ++ encode_versions vs ++ encode (A := FixedTag 32) nonce) suf
    (mkReq08 h (mkVersionList vs) nonce (zeroes 952)).
Proof.
  intros Hk Hk2 Hvs Hs Hn h Hsuf Hsm. unfold small in Hsm. rewrite length_app, length_zeroes in Hsm.
  assert (header_wf (N := 3) h) as Hh by (apply r08_header_wf_upto; lia).
  eapply reads_bind; [by apply (from_wire_reads (A := Header 3))|].
  eapply reads_bind_nil.
  { eapply (reads_bounds_le _ _ (4 * k + 32)).
    1: by apply (Forall_cons_2 _ _ _); [cbn; lia|]; apply Forall_singleton.
    all: unfold small; rewrite !length_app, length_encode_versions, Hvs,
      (length_encode_FixedTag 32) by done; unfold MAX_VERSIONS in *; lia. }
  eapply reads_bind_nil; [by apply reads_guard|].
  eapply reads_bind_nil; [by apply reads_lift_res|].
  eapply reads_bind.
  { replace (Z.to_nat _) with (k * 4) by lia. apply reads_VersionList_excess; [done|lia|done]. }
  rewrite <-(app_nil_r (encode (A := FixedTag 32) _)).
  eapply reads_bind; [by apply (from_wire_reads (A := FixedTag 32))|apply reads_ret].
Qed.

Lemma versions_sorted_take vs : forall o n,
  versions_sorted o vs = true -> versions_sorted o (take n vs) = true.
Proof.
  induction vs as [|v vs IH]; intros o [|n]; cbn; try done.
  rewrite !andb_true_iff. intros [? ?]. split; auto.
Qed.

(** Versions in excess of 32 are not discarded.  A draft-08 request that lists
    more than [MAX_VERSIONS] versions is accepted, but the parser resumes right
    after the 32nd version: the nonce it returns starts with the excess versions
    and is not the nonce of the request. *)
Theorem request_excess_versions (vs : list ProtocolVersion) (nonce : Nonce) (pad : bytes) :
  MAX_VERSIONS < length vs -> versions_sorted None vs = true ->
  wf (A := FixedTag 32) nonce -> 4 * length vs + length pad = 956 ->
  let h := mkHeader 3 (r08_offsets (length vs)) REQ08_TAGS in
  let rest := encode_versions (drop MAX_VERSIONS vs) ++ encode (A := FixedTag 32) nonce in
  exists c, from_wire (A := Request)
      (new (encode h ++ encode_versions vs ++ encode (A := FixedTag 32) nonce ++ pad)) =
    (Ok (Draft08 (mkReq08 h (mkVersionList (take MAX_VERSIONS vs))
       (mkFixed (take 32 rest)) (zeroes 952))), c).
Proof.
  intros Hlen Hs Hn Hpad h rest.
  assert (header_wf (N := 3) h) as Hh by (apply r08_header_wf_upto; lia).
  assert (encode_versions vs = encode_versions (take MAX_VERSIONS vs) ++
    encode_versions (drop MAX_VERSIONS vs)) as Hvs.
  { unfold encode_versions. by rewrite <-concat_app, <-map_app, take_drop. }
  assert (length rest = (length vs - MAX_VERSIONS) * 4 + 32) as Hrest.
  { unfold rest. by rewrite length_app, length_encode_versions, length_drop, (length_encode_FixedTag 32). }
  assert (length (take 32 rest) = 32) as H32 by (rewrite length_take; lia).
  assert (encode h ++ encode_versions vs ++ encode (A := FixedTag 32) nonce ++ pad =
    (encode h ++ encode_versions (take MAX_VERSIONS vs) ++ take 32 rest) ++ drop 32 rest ++ pad) as Hsplit.
  { rewrite <-!app_assoc, (app_assoc (take 32 rest)), take_drop, Hvs. unfold rest. by rewrite <-!app_assoc. }
  rewrite Hsplit. eexists.
  change (new ?b) with (at_cursor [] b). apply (reads_Request_variant 3 (drop 4 (encode h) ++
    encode_versions vs ++ encode (A := FixedTag 32) nonce ++ pad)); rewrite <-?Hsplit.
  - rewrite !length_app, (length_encode_header _ Hh), length_encode_versions,
      (length_encode_FixedTag 32) by done. unfold size_of_Header. lia.
  - unfold is_u32. lia.
  - reflexivity.
  - rewrite <-(app_nil_r (_ ++ _ ++ take 32 rest)).
    eapply reads_bind; [|apply reads_ret].
    apply (reads_RequestDraft08_cut _ _ (mkFixed (take 32 rest))); try done; try lia.
    + rewrite length_take. lia.
    + by apply versions_sorted_take.
    + rewrite app_nil_l, length_app, length_drop. unfold MAX_VERSIONS in *. lia.
    + unfold small. rewrite app_nil_l, !length_app, length_zeroes, length_drop. lia.
Qed.

Lemma request_excess_versions_witness :
  let vs := replicate 33 RfcDraft14 in
  let h := mkHeader 3 (r08_offsets 33) REQ08_TAGS in
  exists c, from_wire (A := Request)
      (new (encode h ++ encode_versions vs ++ zeroes 32 ++ zeroes 824)) =
    (Ok (Draft08 (mkReq08 h (mkVersionList (replicate 32 RfcDraft14))
       (mkFixed (encode RfcDraft14 ++ zeroes 28)) (zeroes 952))), c).
Proof.
  apply (request_excess_versions (replicate 33 RfcDraft14) (mkFixed (zeroes 32)) (zeroes 824));
    [|reflexivity..].
  unfold MAX_VERSIONS; cbn; lia.
Defined.

(** In the frame of [Request::new_draft08] the nonce is the 32 bytes at
    [FRAMED_NONCE_OFFSET], which is where the client and the server take the
    draft-08 Merkle leaf from. *)
Theorem framed_nonce_offset (nonce : Nonce) :
  wf (A := FixedTag 32) nonce ->
  exists bs, as_frame_bytes (new_draft08 nonce) = Ok bs /\
    slice FRAMED_NONCE_OFFSET (FRAMED_NONCE_OFFSET + 32) (new bs) = (Ok (fixed_bytes nonce), new bs).
Proof.
  intros Hn. assert (wf (new_draft08 nonce)) as Hw.
  { by apply (new_request_wf nonce (mkSrv (zeroes 32))). }
  exists (frame_bytes (encode (new_draft08 nonce))). split; [by apply as_frame_bytes_encode|].
  set (bs := frame_bytes _).
  assert (exists pre post, bs = pre ++ fixed_bytes nonce ++ post /\ length pre = 40) as (pre & post & -> & Hpre).
  { unfold bs, frame_bytes. cbn [encode Request_Encode fields new_draft08]. unfold r08_fields.
    eexists (to_be_bytes 8 FRAME_MAGIC ++ to_le_bytes 4 _ ++ encode (r08_header _) ++ encode (r08_version _)), _.
    rewrite <-!app_assoc. split; [reflexivity|reflexivity]. }
  cbn in Hn. unfold slice, new. cbn [data]. rewrite !length_app, Hpre, Hn.
  destruct (Nat.leb_spec (FRAMED_NONCE_OFFSET + 32) (40 + (32 + length post)));
    [|unfold FRAMED_NONCE_OFFSET in *; lia].
  cbn [FRAMED_NONCE_OFFSET Nat.leb andb Nat.add]. do 2 f_equal.
  rewrite (drop_app_length' _ _ 40) by done. by apply take_app_length'.
Qed.

Lemma framed_nonce_offset_witness :
  exists bs, as_frame_bytes (new_draft08 (mkFixed (replicate 32 Byte.x07))) = Ok bs /\
    slice 40 72 (new bs) = (Ok (replicate 32 Byte.x07), new bs).
Proof. by apply framed_nonce_offset. Defined.
