(* ===== verification/Response.v ===== *)
(** * Responses (crates/roughenough-protocol/src/response.rs)

    The draft-14 and draft-08 response structs.  The parsers read the fields in
    sequence; of the header's offsets they use only the difference that gives
    the length of PATH. *)
From S2P Require Import Prelude Errors Cursor Wire Tags Header FixedTags Versions Path Cert Srep.

(** ** Response: SIG, NONC, TYPE, PATH, SREP, CERT, INDX *)

Record Response := mkResponse {
  resp_header : Header7;
  resp_signature : Signature;
  resp_nonce : Nonce;
  resp_msg_type : MessageType.t;
  resp_path : MerklePath;
  resp_srep : SignedResponse;
  resp_cert : Certificate;
  resp_index : Z;
}.

Definition MINIMUM_SIZE : nat := 404.
Definition RESP_TAGS : list Tag.t :=
  [Tag.SIG; Tag.NONC; Tag.TYPE; Tag.PATH; Tag.SREP; Tag.CERT; Tag.INDX].

Definition Response_default : Response :=
  mkResponse (mkHeader (num_tags (Header_default 7)) (offsets (Header_default 7)) RESP_TAGS)
    Signature_default Nonce_default MessageType.Response MerklePath_default
    SignedResponse_default Certificate_default 0.

(** [update_offsets]: each offset is the previous one plus a field's size. *)
Definition update_offsets (r : Response) : Response :=
  let o0 := as_u32 (wire_size (resp_signature r)) in
  let o1 := u32_add o0 (as_u32 (wire_size (resp_nonce r))) in
  let o2 := u32_add o1 (as_u32 (wire_size (resp_msg_type r))) in
  let o3 := u32_add o2 (as_u32 (wire_size (resp_path r))) in
  let o4 := u32_add o3 (as_u32 (wire_size (resp_srep r))) in
  let o5 := u32_add o4 (as_u32 (wire_size (resp_cert r))) in
  mkResponse (mkHeader (num_tags (resp_header r)) [o0; o1; o2; o3; o4; o5] (tags (resp_header r)))
    (resp_signature r) (resp_nonce r) (resp_msg_type r) (resp_path r) (resp_srep r)
    (resp_cert r) (resp_index r).

Definition set_sig (r : Response) (sig : Signature) : Response :=
  mkResponse (resp_header r) sig (resp_nonce r) (resp_msg_type r) (resp_path r) (resp_srep r)
    (resp_cert r) (resp_index r).
Definition set_nonc (r : Response) (nonce : Nonce) : Response :=
  mkResponse (resp_header r) (resp_signature r) nonce (resp_msg_type r) (resp_path r) (resp_srep r)
    (resp_cert r) (resp_index r).
Definition set_path (r : Response) (path : MerklePath) : Response :=
  update_offsets (mkResponse (resp_header r) (resp_signature r) (resp_nonce r) (resp_msg_type r)
    path (resp_srep r) (resp_cert r) (resp_index r)).
Definition copy_path (r : Response) (path : MerklePath) : Response :=
  update_offsets (mkResponse (resp_header r) (resp_signature r) (resp_nonce r) (resp_msg_type r)
    (copy_from (resp_path r) path) (resp_srep r) (resp_cert r) (resp_index r)).
Definition set_srep (r : Response) (srep : SignedResponse) : Response :=
  update_offsets (mkResponse (resp_header r) (resp_signature r) (resp_nonce r) (resp_msg_type r)
    (resp_path r) srep (resp_cert r) (resp_index r)).
Definition set_cert (r : Response) (cert : Certificate) : Response :=
  mkResponse (resp_header r) (resp_signature r) (resp_nonce r) (resp_msg_type r) (resp_path r)
    (resp_srep r) cert (resp_index r).
Definition set_indx (r : Response) (index : Z) : Response :=
  mkResponse (resp_header r) (resp_signature r) (resp_nonce r) (resp_msg_type r) (resp_path r)
    (resp_srep r) (resp_cert r) index.

#[export] Instance Response_FromWire : FromWire Response :=
  header ← from_wire (A := Header7);
  _ ← check_bounds_here header;
  _ ← guard_err (negb (bool_decide (tags header = RESP_TAGS))) UnexpectedTags;
  signature ← from_wire (A := Signature);
  nonce ← from_wire (A := Nonce);
  msg_type ← from_wire (A := MessageType.t);
  _ ← guard_err (negb (bool_decide (msg_type = MessageType.Response)))
        (InvalidMessageType (MessageType.discriminant msg_type));
  o3 ← lift_res (index (offsets header) 3);
  o2 ← lift_res (index (offsets header) 2);
  path_len ← lift_res (u32_sub o3 o2);
  path ← from_wire_n (A := MerklePath) (Z.to_nat path_len);
  srep ← from_wire (A := SignedResponse);
  cert ← from_wire (A := Certificate);
  idx ← try_get_u32_le;
  mret (mkResponse header signature nonce (resp_msg_type Response_default) path srep cert idx).

Definition resp_wire_size (r : Response) : nat :=
  wire_size (resp_header r) + wire_size (resp_signature r) + wire_size (resp_nonce r) +
  wire_size (resp_msg_type r) + wire_size (resp_path r) + wire_size (resp_srep r) +
  wire_size (resp_cert r) + 4.

#[export] Instance Response_ToWire : ToWire Response := {|
  wire_size := resp_wire_size;
  to_wire r :=
    cap ← get_capacity;
    _ ← guard_err (cap <? resp_wire_size r) (BufferTooSmall (resp_wire_size r) cap);
    _ ← to_wire (resp_header r);
    _ ← to_wire (resp_signature r);
    _ ← to_wire (resp_nonce r);
    _ ← to_wire (resp_msg_type r);
    _ ← to_wire (resp_path r);
    _ ← to_wire (resp_srep r);
    _ ← to_wire (resp_cert r);
    put_u32_le (resp_index r)
|}.

(** ** ResponseDraft08: SIG, VER, PATH, SREP, CERT, INDX *)

Record ResponseDraft08 := mkResponse08 {
  resp08_header : Header6;
  resp08_signature : Signature;
  resp08_version : ProtocolVersion;
  resp08_path : MerklePath;
  resp08_srep : SignedResponseDraft08;
  resp08_cert : Certificate;
  resp08_index : Z;
}.

Definition RESP08_TAGS : list Tag.t := [Tag.SIG; Tag.VER; Tag.PATH; Tag.SREP; Tag.CERT; Tag.INDX].

Definition ResponseDraft08_default : ResponseDraft08 :=
  mkResponse08 (mkHeader (num_tags (Header_default 6)) (offsets (Header_default 6)) RESP08_TAGS)
    Signature_default RfcDraft08 MerklePath_default SignedResponseDraft08_default
    Certificate_default 0.

Definition update_offsets08 (r : ResponseDraft08) : ResponseDraft08 :=
  let o0 := as_u32 (wire_size (resp08_signature r)) in
  let o1 := u32_add o0 (as_u32 (wire_size (resp08_version r))) in
  let o2 := u32_add o1 (as_u32 (wire_size (resp08_path r))) in
  let o3 := u32_add o2 (as_u32 (wire_size (resp08_srep r))) in
  let o4 := u32_add o3 (as_u32 (wire_size (resp08_cert r))) in
  mkResponse08 (mkHeader (num_tags (resp08_header r)) [o0; o1; o2; o3; o4] (tags (resp08_header r)))
    (resp08_signature r) (resp08_version r) (resp08_path r) (resp08_srep r) (resp08_cert r)
    (resp08_index r).

Definition set_sig08 (r : ResponseDraft08) (sig : Signature) : ResponseDraft08 :=
  mkResponse08 (resp08_header r) sig (resp08_version r) (resp08_path r) (resp08_srep r)
    (resp08_cert r) (resp08_index r).
Definition set_srep08 (r : ResponseDraft08) (srep : SignedResponseDraft08) : ResponseDraft08 :=
  update_offsets08 (mkResponse08 (resp08_header r) (resp08_signature r) (resp08_version r)
    (resp08_path r) srep (resp08_cert r) (resp08_index r)).
Definition set_cert08 (r : ResponseDraft08) (cert : Certificate) : ResponseDraft08 :=
  update_offsets08 (mkResponse08 (resp08_header r) (resp08_signature r) (resp08_version r)
    (resp08_path r) (resp08_srep r) cert (resp08_index r)).
Definition set_indx08 (r : ResponseDraft08) (indx : Z) : ResponseDraft08 :=
  mkResponse08 (resp08_header r) (resp08_signature r) (resp08_version r) (resp08_path r)
    (resp08_srep r) (resp08_cert r) indx.
Definition set_path08 (r : ResponseDraft08) (path : MerklePath) : ResponseDraft08 :=
  update_offsets08 (mkResponse08 (resp08_header r) (resp08_signature r) (resp08_version r)
    path (resp08_srep r) (resp08_cert r) (resp08_index r)).
Definition copy_path08 (r : ResponseDraft08) (path : MerklePath) : ResponseDraft08 :=
  update_offsets08 (mkResponse08 (resp08_header r) (resp08_signature r) (resp08_version r)
    (copy_from (resp08_path r) path) (resp08_srep r) (resp08_cert r) (resp08_index r)).

#[export] Instance ResponseDraft08_FromWire : FromWire ResponseDraft08 :=
  header ← from_wire (A := Header6);
  _ ← check_bounds_here header;
  _ ← guard_err (negb (bool_decide (tags header = RESP08_TAGS))) UnexpectedTags;
  signature ← from_wire (A := Signature);
  version ← from_wire (A := ProtocolVersion);
  o2 ← lift_res (index (offsets header) 2);
  o1 ← lift_res (index (offsets header) 1);
  path_len ← lift_res (u32_sub o2 o1);
  path ← from_wire_n (A := MerklePath) (Z.to_nat path_len);
  srep ← from_wire (A := SignedResponseDraft08);
  cert ← from_wire (A := Certificate);
  idx ← try_get_u32_le;
  mret (mkResponse08 header signature version path srep cert idx).

#[export] Instance ResponseDraft08_ToWire : ToWire ResponseDraft08 := {|
  wire_size r :=
    wire_size (resp08_header r) + wire_size (resp08_signature r) + wire_size (resp08_version r) +
    wire_size (resp08_path r) + wire_size (resp08_srep r) + wire_size (resp08_cert r) + 4;
  to_wire r :=
    _ ← to_wire (resp08_header r);
    _ ← to_wire (resp08_signature r);
    _ ← to_wire (resp08_version r);
    _ ← to_wire (resp08_path r);
    _ ← to_wire (resp08_srep r);
    _ ← to_wire (resp08_cert r);
    put_u32_le (resp08_index r)
|}.

(** [impl From<ResponseDraft08> for Response]; NONC stays the default. *)
Definition Response_from (draft08 : ResponseDraft08) : Response :=
  let response := Response_default in
  let response := set_sig response (resp08_signature draft08) in
  let response := set_path response (resp08_path draft08) in
  let response := set_srep response (SignedResponse_from (resp08_srep draft08)) in
  let response := set_cert response (resp08_cert draft08) in
  set_indx response (resp08_index draft08).

(** ** Shape and layout of a response

    [wf] is what serializing needs and parsing guarantees; [consistent] adds that
    the offsets of the header describe the layout of the fields. *)

Definition resp_offsets (np srep_size : nat) : list Z :=
  map Z.of_nat [64; 96; 100; 100 + 32 * np; 100 + 32 * np + srep_size; 252 + 32 * np + srep_size].

Record resp_wf (r : Response) : Prop := {
  rw_header : header_wf (resp_header r);
  rw_tags : tags (resp_header r) = RESP_TAGS;
  rw_path_len : exists o, offsets (resp_header r) !! 2 = Some o /\
    offsets (resp_header r) !! 3 = Some (o + Z.of_nat (num_paths (resp_path r) * ELEMENT_SIZE))%Z;
  rw_sig : wf (A := FixedTag 64) (resp_signature r);
  rw_nonce : wf (A := FixedTag 32) (resp_nonce r);
  rw_type : resp_msg_type r = MessageType.Response;
  rw_path : path_wf (resp_path r);
  rw_srep : srep_wf (resp_srep r);
  rw_cert : cert_wf (resp_cert r);
  rw_index : is_u32 (resp_index r);
}.

Definition consistent (r : Response) : Prop :=
  offsets (resp_header r) = resp_offsets (num_paths (resp_path r)) (wire_size (resp_srep r)).

Definition resp_body (r : Response) : bytes :=
  encode (A := FixedTag 64) (resp_signature r) ++ encode (A := FixedTag 32) (resp_nonce r) ++
  encode (resp_msg_type r) ++ encode (resp_path r) ++ encode (resp_srep r) ++
  encode (resp_cert r) ++ to_le_bytes 4 (resp_index r).

#[export] Instance Response_Encode : Encode Response :=
  {| encode r := encode (resp_header r) ++ resp_body r; wf := resp_wf |}.

Lemma length_resp_body r : resp_wf r ->
  length (resp_body r) = 256 + 32 * num_paths (resp_path r) + wire_size (resp_srep r).
Proof.
  intros []. unfold resp_body. rewrite !length_app, (length_encode_FixedTag 64),
    (length_encode_FixedTag 32), length_encode_MessageType, length_to_le_bytes by done.
  cbn [encode MerklePath_Encode]. rewrite (length_paths _ rw_path0), (length_encode_Certificate _ rw_cert0).
  rewrite (wire_size_encode (resp_srep r)) by done. unfold ELEMENT_SIZE. lia.
Qed.

Lemma Response_wire_size (r : Response) :
  wire_size r = 312 + 32 * num_paths (resp_path r) + wire_size (resp_srep r).
Proof.
  change (wire_size r) with (resp_wire_size r). unfold resp_wire_size.
  cbn [wire_size Header_ToWire FixedTag_ToWire MessageType.MessageType_ToWire MerklePath_ToWire
       Certificate_ToWire].
  change size_of_Certificate with 152. unfold size_of_Header, ELEMENT_SIZE. lia.
Qed.

Lemma length_encode_Response r : wf r -> length (encode (A := Response) r) = wire_size r.
Proof.
  intros Hr. cbn [encode Response_Encode]. rewrite length_app, (length_resp_body r Hr).
  destruct Hr. rewrite (length_encode_header _ rw_header0). cbn. unfold resp_wire_size. cbn.
  unfold ELEMENT_SIZE. lia.
Qed.

Lemma writes_capacity_bind (m : CM unit) n e bs :
  n <= length bs -> writes m bs ->
  writes (cap ← get_capacity; _ ← guard_err (cap <? n) (e cap); m) bs.
Proof.
  intros Hn Hm pre old suf Hl. unfold mbind at 1, CM_bind at 1, get_capacity, capacity.
  cbn [data at_cursor]. rewrite !length_app.
  destruct (Nat.ltb_spec (length pre + (length old + length suf)) n); [lia|]. by apply Hm.
Qed.

#[export] Instance Response_LawfulWrite : LawfulWrite Response.
Proof.
  split; intros r Hr; pose proof (length_encode_Response r Hr) as Hl; [done|].
  cbn [to_wire encode Response_ToWire Response_Encode] in *.
  apply writes_capacity_bind; [by rewrite Hl|]. destruct Hr as [].
  unfold resp_body. writes_steps; try done. by rewrite rw_type0.
Qed.

(** The same response with the stale bytes of its path buffer zeroed. *)
Definition resp_normalize (r : Response) : Response :=
  mkResponse (resp_header r) (resp_signature r) (resp_nonce r) (resp_msg_type r)
    (normalize (resp_path r)) (resp_srep r) (resp_cert r) (resp_index r).

Lemma reads_Response r suf :
  resp_wf r ->
  Forall (fun o => (o <= Z.of_nat (length (resp_body r ++ suf)))%Z) (offsets (resp_header r)) ->
  small (encode r ++ suf) ->
  reads (from_wire (A := Response)) (encode r) suf (resp_normalize r).
Proof.
  intros Hr Hf Hsm. unfold small in Hsm. cbn [encode Response_Encode] in Hsm |- *.
  repeat rewrite length_app in Hsm.
  destruct Hr as [Hh Ht (o & Ho2 & Ho3) Hs Hn Hty Hp Hsr Hc Hi]. destruct r as [h sig nonce mt path srep cert idx].
  cbn [resp_header resp_signature resp_nonce resp_msg_type resp_path resp_srep resp_cert resp_index] in *.
  subst mt. unfold from_wire at 1, Response_FromWire.
  eapply reads_bind; [by apply from_wire_reads|].
  eapply reads_bind_nil.
  { apply reads_check_bounds. rewrite as_u32_small; [done|rewrite length_app; lia]. }
  eapply reads_bind_nil; [apply reads_guard; by rewrite Ht|].
  revert Hsm. unfold resp_body.
  cbn [resp_signature resp_nonce resp_msg_type resp_path resp_srep resp_cert resp_index]. intros Hsm.
  repeat rewrite length_app in Hsm.
  eapply reads_bind; [by apply (from_wire_reads (A := FixedTag 64))|].
  eapply reads_bind; [by apply (from_wire_reads (A := FixedTag 32))|].
  eapply reads_bind; [by apply (from_wire_reads (A := MessageType.t))|].
  eapply reads_bind_nil; [by apply reads_guard|].
  eapply reads_bind_nil; [by apply parsed_index_reads|].
  eapply reads_bind_nil; [by apply parsed_index_reads|].
  eapply reads_bind_nil.
  { apply reads_lift_res. unfold u32_sub. rewrite (proj2 (Z.leb_le _ _)) by lia. reflexivity. }
  replace (Z.to_nat _) with (num_paths path * ELEMENT_SIZE) by lia.
  eapply reads_bind; [by apply reads_MerklePath|].
  eapply reads_bind.
  { apply reads_SignedResponse; [done|]. unfold small. rewrite !length_app. lia. }
  eapply reads_bind; [by apply (from_wire_reads (A := Certificate))|].
  rewrite <-(app_nil_r (to_le_bytes 4 idx)).
  eapply reads_bind; [by apply reads_try_get_u32_le|]. apply reads_ret.
Qed.

(** ** What the parser accepts *)

Record resp_parsed (r : Response) (bs : bytes) : Prop := {
  rp_header : header_wf (resp_header r);
  rp_tags : tags (resp_header r) = RESP_TAGS;
  rp_path_len : exists o, offsets (resp_header r) !! 2 = Some o /\
    offsets (resp_header r) !! 3 = Some (o + Z.of_nat (num_paths (resp_path r) * ELEMENT_SIZE))%Z;
  rp_sig : wf (A := FixedTag 64) (resp_signature r);
  rp_nonce : wf (A := FixedTag 32) (resp_nonce r);
  rp_type : resp_msg_type r = MessageType.Response;
  rp_path : path_wf (resp_path r);
  rp_cert : cert_wf (resp_cert r);
  rp_index : is_u32 (resp_index r);
  rp_bytes : exists sb, srep_parsed (resp_srep r) sb /\
    bs = encode (resp_header r) ++ encode (A := FixedTag 64) (resp_signature r) ++
      encode (A := FixedTag 32) (resp_nonce r) ++ encode (resp_msg_type r) ++
      encode (resp_path r) ++ sb ++ encode (resp_cert r) ++ to_le_bytes 4 (resp_index r);
}.

(** The difference of two offsets of an accepted header. *)
Lemma parses_path_len {N A} (h : Header N) i (k : Z -> CM A) (R : A -> bytes -> Prop) :
  header_wf h -> S i < N - 1 ->
  (forall o d, (0 <= d)%Z -> offsets h !! i = Some o -> offsets h !! S i = Some (o + d)%Z ->
    parses (k d) R) ->
  parses (b ← lift_res (index (offsets h) (S i)); a ← lift_res (index (offsets h) i);
          path_len ← lift_res (u32_sub b a); k path_len) R.
Proof.
  intros [_ _ Hl _ Hok _] Hi Hk.
  destruct (lookup_lt_is_Some_2 (offsets h) (S i)) as [b Hb]; [by rewrite Hl|].
  destruct (lookup_lt_is_Some_2 (offsets h) i) as [a Ha]; [lia|].
  pose proof (offsets_okb_lookup 0 (offsets h) i (S i) a b Hok ltac:(lia) Ha Hb) as Hab.
  unfold index. rewrite Ha, Hb.
  apply parses_lift_bind; [done|]. intros ? [= <-]. apply parses_lift_bind; [done|]. intros ? [= <-].
  unfold u32_sub. rewrite (proj2 (Z.leb_le a b)) by done.
  apply parses_lift_bind; [done|]. intros ? [= <-].
  apply (Hk a); [lia|done|]. rewrite Hb. f_equal. lia.
Qed.

Lemma Response_parses : parses (from_wire (A := Response)) resp_parsed.
Proof.
  unfold from_wire at 1, Response_FromWire.
  eapply parses_bind; [apply (Header_parses 7); lia|]. intros h ? [Hh ->].
  apply parses_check_bounds_bind.
  apply parses_guard_bind. intros Htag%negb_false_iff%bool_decide_eq_true.
  eapply parses_bind; [apply (from_wire_parses (A := FixedTag 64))|]. intros sig ? [Hs ->].
  eapply parses_bind; [apply (from_wire_parses (A := FixedTag 32))|]. intros nonce ? [Hn ->].
  eapply parses_bind; [apply (from_wire_parses (A := MessageType.t))|]. intros mt ? [_ ->].
  apply parses_guard_bind. intros ->%negb_false_iff%bool_decide_eq_true.
  apply (parses_path_len h 2); [done|lia|]. intros o d Hd Ho2 Ho3.
  eapply parses_bind; [apply MerklePath_parses|]. intros path ? (Hp & _ & Hpl & -> & _).
  eapply parses_bind; [apply SignedResponse_parses|]. intros srep sb Hsb.
  eapply parses_bind; [apply (from_wire_parses (A := Certificate))|]. intros cert ? [Hc ->].
  eapply parses_bind; [apply parses_try_get_u32_le|]. intros idx ? [Hi ->].
  apply parses_ret. split; cbn; try done.
  - exists o. rewrite <-Hpl, Z2Nat.id by lia. done.
  - exists sb. by rewrite app_nil_r.
Qed.

Lemma resp_parsed_length r bs : resp_parsed r bs -> length bs = wire_size r.
Proof.
  intros [? ? ? ? ? ? Hp Hc ? (sb & Hsb & ->)].
  rewrite !length_app, (srep_parsed_length _ _ Hsb), (length_encode_header _ rp_header0),
    (length_encode_FixedTag 64), (length_encode_FixedTag 32), length_encode_MessageType,
    (length_encode_Certificate _ Hc), length_to_le_bytes by done.
  cbn [encode MerklePath_Encode]. rewrite (length_paths _ Hp). cbn. unfold resp_wire_size. cbn.
  unfold ELEMENT_SIZE. lia.
Qed.

(** A parsed response serializes, even where its SREP is not one the setters make
    (more than 32 versions announced, so that it is not [srep_wf]). *)
Lemma srep_parsed_writes s bs : srep_parsed s bs ->
  writes (to_wire s) (encode s) /\ length (encode s) = wire_size s.
Proof.
  intros Hp. pose proof (sp_header _ _ Hp). pose proof (sp_vers _ _ Hp). pose proof (sp_root _ _ Hp) as Hr.
  split.
  - cbn [to_wire encode SignedResponse_ToWire SignedResponse_Encode]. writes_steps; done.
  - cbn [encode SignedResponse_Encode]. rewrite !length_app, (length_encode_header _ (sp_header _ _ Hp)).
    cbn in Hr. cbn [encode FixedTag_Encode ProtocolVersion_Encode VersionList_Encode].
    rewrite Hr, length_encode_versions, !length_to_le_bytes. cbn. unfold size_of_Header. lia.
Qed.

Lemma as_frame_bytes_parsed r bs : resp_parsed r bs -> as_frame_bytes r = Ok (frame_bytes (encode r)).
Proof.
  intros [Hh ? ? ? ? Ht Hp ? ? (sb & Hsb & _)]. destruct (srep_parsed_writes _ _ Hsb) as [Hsw Hsl].
  assert (length (encode (A := Response) r) = wire_size r) as Hl.
  { cbn [encode Response_Encode]. unfold resp_body.
    rewrite !length_app, Hsl, (length_encode_header _ Hh), (length_encode_FixedTag 64),
      (length_encode_FixedTag 32), length_encode_MessageType, (length_encode_Certificate (resp_cert r)),
      length_to_le_bytes by done.
    cbn [encode MerklePath_Encode]. rewrite (length_paths _ Hp). cbn. unfold resp_wire_size. cbn.
    unfold ELEMENT_SIZE. lia. }
  apply as_frame_bytes_writes; [|done].
  cbn [to_wire encode Response_ToWire Response_Encode] in *.
  apply writes_capacity_bind; [by rewrite Hl|]. unfold resp_body.
  do 5 (apply writes_bind; [apply to_wire_writes; (done || by rewrite Ht)|]).
  apply writes_bind; [exact Hsw|]. writes_steps; done.
Qed.

(** ** The setters *)

(** Everything [resp_wf] asks for but the offsets. *)
Record resp_ready (r : Response) : Prop := {
  rr_num : num_tags (resp_header r) = 7%Z;
  rr_tags : tags (resp_header r) = RESP_TAGS;
  rr_sig : wf (A := FixedTag 64) (resp_signature r);
  rr_nonce : wf (A := FixedTag 32) (resp_nonce r);
  rr_type : resp_msg_type r = MessageType.Response;
  rr_path : path_wf (resp_path r);
  rr_srep : srep_wf (resp_srep r);
  rr_cert : cert_wf (resp_cert r);
  rr_index : is_u32 (resp_index r);
}.

Lemma resp_header_wf np n :
  np <= MAX_PATHS -> n <= MAX_VERSIONS ->
  header_wf (@mkHeader 7 7 (resp_offsets np (88 + 4 * n)) RESP_TAGS).
Proof.
  unfold MAX_PATHS, MAX_VERSIONS. intros Hp Hn. split; cbn [num_tags offsets tags]; try done; [lia|].
  unfold resp_offsets. cbn [map offsets_okb]. rewrite !andb_true_r.
  repeat (apply andb_true_iff; split);
    first [done|apply Z.leb_le; lia|apply Z.ltb_lt; lia|apply Z.eqb_eq; Z.div_mod_to_equations; lia].
Qed.

Lemma srep_wire_size s : srep_wf s ->
  wire_size s = 88 + 4 * length (versions (srep_versions s)) /\
  length (versions (srep_versions s)) <= MAX_VERSIONS.
Proof.
  intros Hs. rewrite (wire_size_encode s) by done. rewrite (length_encode_srep s Hs).
  split; [done|apply Hs].
Qed.

Lemma update_offsets_wf r : resp_ready r -> resp_wf (update_offsets r) /\ consistent (update_offsets r).
Proof.
  intros []. destruct (srep_wire_size _ rr_srep0) as [Hss Hn].
  pose proof (proj1 rr_path0) as Hp.
  assert (consistent (update_offsets r)) as Hc.
  { unfold consistent, update_offsets. cbn [resp_header offsets resp_path resp_srep]. rewrite Hss, rr_type0.
    cbn [wire_size FixedTag_ToWire MerklePath_ToWire MessageType.MessageType_ToWire Certificate_ToWire].
    change size_of_Certificate with 152. unfold resp_offsets, ELEMENT_SIZE, MAX_PATHS, MAX_VERSIONS in *.
    cbn [map]. rewrite !as_u32_small by lia. rewrite !u32_add_small by (rewrite ?u32_add_small; lia).
    repeat f_equal; lia. }
  split; [|done]. unfold consistent in Hc.
  split; try done.
  - replace (resp_header (update_offsets r)) with
      (@mkHeader 7 7 (resp_offsets (num_paths (resp_path r)) (wire_size (resp_srep r))) RESP_TAGS).
    { rewrite Hss. by apply resp_header_wf. }
    unfold update_offsets in *. cbn in *. by rewrite rr_num0, rr_tags0, Hc.
  - rewrite Hc. eexists; split; [reflexivity|]. unfold resp_offsets. cbn [map lookup list_lookup].
    f_equal. unfold ELEMENT_SIZE, update_offsets. cbn [resp_path]. lia.
Qed.

Lemma consistent_in_bounds r : resp_wf r -> consistent r ->
  Forall (fun o => (o <= Z.of_nat (length (resp_body r)))%Z) (offsets (resp_header r)).
Proof.
  intros Hr Hc. rewrite Hc, (length_resp_body r Hr). unfold resp_offsets. cbn [map].
  repeat constructor; lia.
Qed.

(** A frame parsed back. *)
Lemma from_frame_Response r :
  resp_wf r -> consistent r ->
  exists c, from_frame (A := Response) (new (frame_bytes (encode r))) = (Ok (resp_normalize r), c).
Proof.
  intros Hr Hc. pose proof (length_encode_Response r Hr) as Hl. rewrite Response_wire_size in Hl.
  destruct (srep_wire_size _ (rw_srep r Hr)) as [Hss Hn]. pose proof (proj1 (rw_path r Hr)) as Hnp.
  unfold MAX_PATHS, MAX_VERSIONS in *.
  assert (small (encode r)) as Hsm by (unfold small; lia).
  assert (reads (from_frame (A := Response)) (frame_bytes (encode r)) [] (resp_normalize r)) as Hrd.
  { apply from_frame_reads; [|unfold MINIMUM_FRAME_SIZE; lia|done].
    apply reads_Response; rewrite ?app_nil_r; try done. by apply consistent_in_bounds. }
  specialize (Hrd []). rewrite app_nil_r in Hrd. by eexists.
Qed.

Lemma resp_normalize_wf r : resp_wf r -> wf (A := Response) (resp_normalize r).
Proof. intros []. split; try done. by apply normalize_wf. Qed.
Lemma encode_resp_normalize r : resp_wf r -> encode (A := Response) (resp_normalize r) = encode r.
Proof.
  intros Hr. cbn [encode Response_Encode]. unfold resp_body, resp_normalize.
  cbn [resp_header resp_signature resp_nonce resp_msg_type resp_path resp_srep resp_cert resp_index].
  do 4 f_equal. by rewrite (normalize_equiv (resp_path r)) by apply Hr.
Qed.

(** C25: Response round trip.  Any response with well-formed fields whose offsets
    [update_offsets] has refreshed serializes into a frame of its announced size,
    and parsing the frame gives it back (with the stale bytes of its path buffer
    zeroed), and serializing that again gives the same bytes. *)
Theorem response_frame_roundtrip (r0 : Response) :
  resp_ready r0 ->
  let r := update_offsets r0 in
  exists bs c, as_frame_bytes r = Ok bs /\ length bs = frame_size r /\
    from_frame (A := Response) (new bs) = (Ok (resp_normalize r), c) /\
    as_frame_bytes (resp_normalize r) = Ok bs.
Proof.
  intros Hready r. destruct (update_offsets_wf r0 Hready) as [Hr Hc]. fold r in Hr, Hc.
  destruct (from_frame_Response r Hr Hc) as [c Hrd]. exists (frame_bytes (encode r)), c.
  split_and!; [by apply as_frame_bytes_encode| |done|].
  { by rewrite length_frame_bytes, (length_encode_Response r Hr). }
  rewrite (as_frame_bytes_encode (resp_normalize r) (resp_normalize_wf r Hr)). by rewrite encode_resp_normalize.
Qed.

(** A response with some versions in its SREP, for the examples. *)
Definition sample_srep : SignedResponse :=
  set_vers SignedResponse_default (VersionList_new [RfcDraft08; RfcDraft14]).

Lemma sample_srep_wf : srep_wf sample_srep.
Proof.
  apply set_vers_wf; [apply SignedResponse_default_ready| |cbn; lia].
  split; [unfold MAX_VERSIONS; cbn; lia|done].
Qed.

Lemma Certificate_default_wf : cert_wf Certificate_default.
Proof. by repeat split. Qed.

Lemma Response_default_ready srep : srep_wf srep -> resp_ready (set_srep Response_default srep).
Proof.
  intros Hs. split; try done. apply default_wf.
Qed.

Lemma response_frame_roundtrip_witness :
  let r := update_offsets (set_srep Response_default sample_srep) in
  exists bs c, as_frame_bytes r = Ok bs /\ length bs = frame_size r /\
    from_frame (A := Response) (new bs) = (Ok (resp_normalize r), c) /\
    as_frame_bytes (resp_normalize r) = Ok bs.
Proof. apply response_frame_roundtrip, Response_default_ready, sample_srep_wf. Defined.

(** C26: Response parsing is total.  On every input [Response::from_frame] returns
    a response or an error and never panics, and it leaves the buffer as it was.
    An accepted message is at least [MINIMUM_SIZE] = 404 bytes; it consists of a
    valid header and the fields in the order of the tags, with the lengths their
    types give them; PATH is the difference of the third and fourth offsets. *)
Theorem response_parse_total (bs : bytes) :
  match from_frame (A := Response) (new bs) with
  | (Ok r, c) =>
      data c = bs /\
      exists len msg rest, is_u32 len /\ resp_parsed r msg /\
        MINIMUM_SIZE <= length msg /\ length msg = wire_size r /\
        bs = to_be_bytes 8 FRAME_MAGIC ++ to_le_bytes 4 len ++ msg ++ rest
  | (Err _, c) => data c = bs
  | (Panic, _) => False
  end.
Proof.
  change (new bs) with (at_cursor [] bs).
  pose proof (from_frame_parses _ Response_parses [] bs) as H.
  destruct (from_frame (at_cursor [] bs)) as [[r|e|] c]; [|done|done].
  destruct H as (b & rest & -> & -> & len & msg & Hlen & -> & Hr). cbn [data at_cursor app].
  split; [done|]. exists len, msg, rest. pose proof (resp_parsed_length r msg Hr) as Hl.
  rewrite <-!app_assoc. split_and!; try done. rewrite Hl, Response_wire_size.
  destruct Hr as [_ _ _ _ _ _ _ _ _ (sb & [Hh _ (k & Hk & _ & Hv) _ _ _ Hroot _] & _)].
  cbn [wire_size SignedResponse_ToWire Header_ToWire ProtocolVersion_ToWire VersionList_ToWire FixedTag_ToWire].
  rewrite Hv. unfold MINIMUM_SIZE, MAX_VERSIONS, size_of_Header. lia.
Qed.

(** ** Draft-08 responses *)

Definition resp08_offsets (np : nat) : list Z :=
  map Z.of_nat [64; 68; 68 + 32 * np; 136 + 32 * np; 288 + 32 * np].

Record resp08_wf (r : ResponseDraft08) : Prop := {
  r8_header : header_wf (resp08_header r);
  r8_tags : tags (resp08_header r) = RESP08_TAGS;
  r8_path_len : exists o, offsets (resp08_header r) !! 1 = Some o /\
    offsets (resp08_header r) !! 2 = Some (o + Z.of_nat (num_paths (resp08_path r) * ELEMENT_SIZE))%Z;
  r8_sig : wf (A := FixedTag 64) (resp08_signature r);
  r8_path : path_wf (resp08_path r);
  r8_srep : srep08_wf (resp08_srep r);
  r8_cert : cert_wf (resp08_cert r);
  r8_index : is_u32 (resp08_index r);
}.

Definition consistent08 (r : ResponseDraft08) : Prop :=
  offsets (resp08_header r) = resp08_offsets (num_paths (resp08_path r)).

#[export] Instance ResponseDraft08_Encode : Encode ResponseDraft08 := {|
  encode r := encode (resp08_header r) ++ encode (A := FixedTag 64) (resp08_signature r) ++
    encode (resp08_version r) ++ encode (resp08_path r) ++ encode (resp08_srep r) ++
    encode (resp08_cert r) ++ to_le_bytes 4 (resp08_index r);
  wf := resp08_wf
|}.

Definition resp08_wire_size (np : nat) : nat := 340 + 32 * np.

Lemma length_encode_Response08 r : wf r -> length (encode (A := ResponseDraft08) r) = wire_size r.
Proof.
  intros []. cbn [encode ResponseDraft08_Encode].
  rewrite !length_app, (length_encode_header _ r8_header0), (length_encode_FixedTag 64),
    (length_encode_srep08 _ r8_srep0), (length_encode_Certificate _ r8_cert0), length_to_le_bytes by done.
  cbn [encode ProtocolVersion_Encode MerklePath_Encode].
  rewrite length_to_le_bytes, (length_paths _ r8_path0).
  cbn [wire_size ResponseDraft08_ToWire Header_ToWire FixedTag_ToWire ProtocolVersion_ToWire
       MerklePath_ToWire SignedResponseDraft08_ToWire Certificate_ToWire].
  change size_of_Certificate with 152. unfold size_of_Header. lia.
Qed.

#[export] Instance ResponseDraft08_LawfulWrite : LawfulWrite ResponseDraft08.
Proof.
  split; intros r Hr; [by rewrite length_encode_Response08|]. destruct Hr.
  cbn [to_wire encode ResponseDraft08_ToWire ResponseDraft08_Encode]. writes_steps; done.
Qed.

(** Parsing draft-08 bytes: VER may be the legacy value, the rest is exact. *)
Definition resp08_parsed (r : ResponseDraft08) (bs : bytes) : Prop :=
  resp08_wf r /\ exists vb, version_bytes (resp08_version r) vb /\
    bs = encode (resp08_header r) ++ encode (A := FixedTag 64) (resp08_signature r) ++ vb ++
      encode (resp08_path r) ++ encode (resp08_srep r) ++ encode (resp08_cert r) ++
      to_le_bytes 4 (resp08_index r).

Lemma ResponseDraft08_parses : parses (from_wire (A := ResponseDraft08)) resp08_parsed.
Proof.
  unfold from_wire at 1, ResponseDraft08_FromWire.
  eapply parses_bind; [apply (Header_parses 6); lia|]. intros h ? [Hh ->].
  apply parses_check_bounds_bind.
  apply parses_guard_bind. intros Htag%negb_false_iff%bool_decide_eq_true.
  eapply parses_bind; [apply (from_wire_parses (A := FixedTag 64))|]. intros sig ? [Hs ->].
  eapply parses_bind; [apply ProtocolVersion_parses|]. intros ver vb Hvb.
  apply (parses_path_len h 1); [done|lia|]. intros o d Hd Ho1 Ho2.
  eapply parses_bind; [apply MerklePath_parses|]. intros path ? (Hp & _ & Hpl & -> & _).
  eapply parses_bind; [apply (from_wire_parses (A := SignedResponseDraft08))|]. intros srep ? [Hsr ->].
  eapply parses_bind; [apply (from_wire_parses (A := Certificate))|]. intros cert ? [Hc ->].
  eapply parses_bind; [apply parses_try_get_u32_le|]. intros idx ? [Hi ->].
  apply parses_ret. rewrite app_nil_r. split; [|by exists vb].
  split; cbn; try done. exists o. rewrite <-Hpl, Z2Nat.id by lia. done.
Qed.

(** The conversion to a draft-14 response gives a consistent one whose NONC is zero. *)
Lemma Response_from_wf r :
  resp08_wf r ->
  resp_wf (Response_from r) /\ consistent (Response_from r) /\
  resp_nonce (Response_from r) = Nonce_default /\
  srep_midpoint (resp_srep (Response_from r)) = srep08_midpoint (resp08_srep r) /\
  srep_radius (resp_srep (Response_from r)) = srep08_radius (resp08_srep r).
Proof.
  intros []. pose proof (SignedResponse_from_wf _ r8_srep0) as Hs.
  set (r1 := set_path (set_sig Response_default (resp08_signature r)) (resp08_path r)).
  set (r2 := mkResponse (resp_header r1) (resp_signature r1) (resp_nonce r1) (resp_msg_type r1)
    (resp_path r1) (SignedResponse_from (resp08_srep r)) (resp08_cert r) (resp08_index r)).
  assert (resp_ready r2) as H2 by (by split).
  destruct (update_offsets_wf r2 H2) as [Hw Hc].
  change (Response_from r) with (update_offsets r2). by split_and!.
Qed.

(** ** Draft-08: setters and reading back *)

Record resp08_ready (r : ResponseDraft08) : Prop := {
  r8r_num : num_tags (resp08_header r) = 6%Z;
  r8r_tags : tags (resp08_header r) = RESP08_TAGS;
  r8r_sig : wf (A := FixedTag 64) (resp08_signature r);
  r8r_path : path_wf (resp08_path r);
  r8r_srep : srep08_wf (resp08_srep r);
  r8r_cert : cert_wf (resp08_cert r);
  r8r_index : is_u32 (resp08_index r);
}.

Lemma resp08_header_wf np :
  np <= MAX_PATHS -> header_wf (@mkHeader 6 6 (resp08_offsets np) RESP08_TAGS).
Proof.
  unfold MAX_PATHS. intros Hp. split; cbn [num_tags offsets tags]; try done; [lia|].
  unfold resp08_offsets. cbn [map offsets_okb]. rewrite !andb_true_r.
  repeat (apply andb_true_iff; split);
    first [done|apply Z.leb_le; lia|apply Z.ltb_lt; lia|apply Z.eqb_eq; Z.div_mod_to_equations; lia].
Qed.

Lemma update_offsets08_wf r :
  resp08_ready r -> resp08_wf (update_offsets08 r) /\ consistent08 (update_offsets08 r).
Proof.
  intros []. pose proof (proj1 r8r_path0) as Hp.
  assert (consistent08 (update_offsets08 r)) as Hc.
  { unfold consistent08, update_offsets08. cbn [resp08_header offsets resp08_path].
    cbn [wire_size FixedTag_ToWire MerklePath_ToWire ProtocolVersion_ToWire Certificate_ToWire
         SignedResponseDraft08_ToWire Header_ToWire].
    change size_of_Certificate with 152. change (size_of_Header 3) with 24.
    unfold resp08_offsets, ELEMENT_SIZE, MAX_PATHS in *.
    cbn [map]. rewrite !as_u32_small by lia. rewrite !u32_add_small by (rewrite ?u32_add_small; lia).
    repeat f_equal; lia. }
  split; [|done]. unfold consistent08 in Hc. split; try done.
  - replace (resp08_header (update_offsets08 r)) with
      (@mkHeader 6 6 (resp08_offsets (num_paths (resp08_path r))) RESP08_TAGS).
    { by apply resp08_header_wf. }
    unfold update_offsets08 in *. cbn in *. by rewrite r8r_num0, r8r_tags0, Hc.
  - rewrite Hc. eexists; split; [reflexivity|]. unfold resp08_offsets. cbn [map lookup list_lookup].
    f_equal. unfold ELEMENT_SIZE, update_offsets08. cbn [resp08_path]. lia.
Qed.

Definition resp08_normalize (r : ResponseDraft08) : ResponseDraft08 :=
  mkResponse08 (resp08_header r) (resp08_signature r) (resp08_version r) (normalize (resp08_path r))
    (resp08_srep r) (resp08_cert r) (resp08_index r).

Lemma Response08_wire_size (r : ResponseDraft08) : wire_size r = resp08_wire_size (num_paths (resp08_path r)).
Proof.
  cbn [wire_size ResponseDraft08_ToWire Header_ToWire FixedTag_ToWire ProtocolVersion_ToWire
       MerklePath_ToWire SignedResponseDraft08_ToWire Certificate_ToWire].
  change size_of_Certificate with 152. unfold resp08_wire_size, size_of_Header, ELEMENT_SIZE. lia.
Qed.

(** Reading a draft-08 response back: its header's offsets and those of its SREP
    must be within the bytes that follow. *)
Lemma reads_ResponseDraft08 r suf :
  resp08_wf r -> consistent08 r -> offsets (srep08_header (resp08_srep r)) = SREP08_OFFSETS ->
  small (encode r ++ suf) ->
  reads (from_wire (A := ResponseDraft08)) (encode r) suf (resp08_normalize r).
Proof.
  intros Hr Hc Hso Hsm. pose proof (length_encode_Response08 r Hr) as Hl.
  rewrite Response08_wire_size in Hl. unfold resp08_wire_size in Hl.
  unfold small in Hsm. rewrite length_app, Hl in Hsm.
  destruct Hr as [Hh Ht (o & Ho1 & Ho2) Hs Hp Hsr Hce Hi]. destruct r as [h sig ver path srep cert idx].
  unfold consistent08 in Hc.
  cbn [resp08_header resp08_signature resp08_version resp08_path resp08_srep resp08_cert resp08_index] in *.
  cbn [encode ResponseDraft08_Encode] in *.
  cbn [resp08_header resp08_signature resp08_version resp08_path resp08_srep resp08_cert resp08_index] in *.
  repeat rewrite length_app in Hl. rewrite (length_encode_header h Hh) in Hl. unfold size_of_Header in Hl.
  unfold from_wire at 1, ResponseDraft08_FromWire.
  eapply reads_bind; [by apply from_wire_reads|].
  eapply reads_bind_nil.
  { apply reads_check_bounds. rewrite Hc, as_u32_small by (rewrite !length_app; lia).
    rewrite !length_app. unfold resp08_offsets. cbn [map]. repeat constructor; lia. }
  eapply reads_bind_nil; [apply reads_guard; by rewrite Ht|].
  eapply reads_bind; [by apply (from_wire_reads (A := FixedTag 64))|].
  eapply reads_bind; [by apply (from_wire_reads (A := ProtocolVersion))|].
  eapply reads_bind_nil; [by apply parsed_index_reads|].
  eapply reads_bind_nil; [by apply parsed_index_reads|].
  eapply reads_bind_nil.
  { apply reads_lift_res. unfold u32_sub. rewrite (proj2 (Z.leb_le _ _)) by lia. reflexivity. }
  replace (Z.to_nat _) with (num_paths path * ELEMENT_SIZE) by lia.
  eapply reads_bind; [by apply reads_MerklePath|].
  eapply reads_bind.
  { apply reads_SignedResponseDraft08; [done| |unfold small; rewrite !length_app; lia].
    rewrite Hso. repeat constructor; lia. }
  eapply reads_bind; [by apply (from_wire_reads (A := Certificate))|].
  rewrite <-(app_nil_r (to_le_bytes 4 idx)).
  eapply reads_bind; [by apply reads_try_get_u32_le|]. apply reads_ret.
Qed.

(** The same for draft-08. *)
Lemma from_frame_Response08 r :
  resp08_wf r -> consistent08 r -> offsets (srep08_header (resp08_srep r)) = SREP08_OFFSETS ->
  exists c, from_frame (A := ResponseDraft08) (new (frame_bytes (encode r))) = (Ok (resp08_normalize r), c).
Proof.
  intros Hr Hc Ho. pose proof (length_encode_Response08 r Hr) as Hl. rewrite Response08_wire_size in Hl.
  unfold resp08_wire_size in Hl. pose proof (proj1 (r8_path r Hr)) as Hnp. unfold MAX_PATHS in *.
  assert (small (encode r)) as Hsm by (unfold small; lia).
  assert (reads (from_frame (A := ResponseDraft08)) (frame_bytes (encode r)) [] (resp08_normalize r)) as Hrd.
  { apply from_frame_reads; [|unfold MINIMUM_FRAME_SIZE; lia|done].
    apply reads_ResponseDraft08; rewrite ?app_nil_r; done. }
  specialize (Hrd []). rewrite app_nil_r in Hrd. by eexists.
Qed.
