(* ===== verification/Fuzz.v ===== *)
(** * The fuzz target of responses (src/fuzz/fuzz_targets/fuzz_response_parse.rs)

    The other two targets call functions that the protocol crate does not have. *)
From S2P Require Import Prelude Errors Cursor Wire Tags Header FixedTags Versions Path Cert Srep Response.

(** [assert!] and [assert_eq!] *)
Definition assert_ok (b : bool) : res Error unit := if b then Ok tt else Panic.

Definition fuzz_response_parse (input : bytes) : res Error unit :=
  match (from_wire (A := Response) (new input)).1 with
  | Ok response =>
      _ ← assert_ok (bool_decide (resp_msg_type response = MessageType.Response));
      assert_ok (MINIMUM_SIZE <? wire_size response)
  | Err _ => Ok tt
  | Panic => Panic
  end.

(** The least response has no path and one version. *)
Definition least (r : Response) : bool := (num_paths (resp_path r) =? 0) && (length (versions (srep_versions (resp_srep r))) =? 1).

Lemma parsed_least r bs : resp_parsed r bs -> (MINIMUM_SIZE <? wire_size r) = negb (least r).
Proof.
  intros [_ _ _ _ _ _ _ _ _ (sb & [_ _ (k & Hk & _ & Hv) _ _ _ _ _] & _)]. rewrite Response_wire_size.
  cbn [wire_size SignedResponse_ToWire Header_ToWire ProtocolVersion_ToWire VersionList_ToWire FixedTag_ToWire].
  unfold least, MINIMUM_SIZE, size_of_Header. rewrite Hv. unfold MAX_VERSIONS.
  destruct (Nat.ltb_spec 404 (312 + 32 * num_paths (resp_path r) + (4 + 4 * (5 - 1) + 4 * 5 + 4 + 4 + 8 + 32 `min` k * 4 + 32)));
    destruct (Nat.eqb_spec (num_paths (resp_path r)) 0), (Nat.eqb_spec (32 `min` k) 1); cbn; lia || done.
Qed.

(** The target raises a false alarm.  The parser never panics, but the assertion that
    an accepted response is longer than [MINIMUM_SIZE] fails on one that has no path
    and one version, which is what this server answers to a batch of one request;
    and only on those. *)
Theorem fuzz_response_parse_alarms (input : bytes) :
  match (from_wire (A := Response) (new input)).1 with
  | Ok r => fuzz_response_parse input = if least r then Panic else Ok tt
  | Err _ => fuzz_response_parse input = Ok tt
  | Panic => False
  end.
Proof.
  unfold fuzz_response_parse. change (new input) with (at_cursor [] input). pose proof (Response_parses [] input) as H.
  destruct (from_wire (at_cursor [] input)) as [[r|e|] c]; cbn [fst]; [|done|done].
  destruct H as (b & rest & _ & _ & Hr). rewrite bool_decide_eq_true_2 by apply Hr. cbn [assert_ok mbind res_bind].
  rewrite (parsed_least r b Hr). by destruct (least r).
Qed.

(** Such a response. *)
Definition least_response : Response :=
  set_srep Response_default (set_vers SignedResponse_default (VersionList_new [RfcDraft14])).
Lemma least_response_alarms : fuzz_response_parse (encode least_response) = Panic.
Proof. vm_compute. reflexivity. Qed.
