(* ===== verification/Merkle.v ===== *)
(** * The Merkle tree (crates/roughenough-merkle/src/lib.rs)

    [levels] holds the leaves at level 0 and, after [compute_root], the nodes of
    the levels above.  The digest is a parameter: [sha512] stands for the SHA-512
    of the crypto library, of which the code relies on the output length only.

    The second half gives the specification of the tree (each level is the one
    below, padded to an even length with a zero node and hashed pairwise) and
    proves that [compute_root] computes its root, that the path of every leaf
    verifies, and that a path that verifies leads to a leaf of the tree unless it
    exhibits a collision or a preimage of the zero node. *)
From stdpp Require Import sets.
From S2P Require Import Prelude Errors Cursor Wire Path.

Definition LEAF_TWEAK : bytes := [Byte.x00].
Definition NODE_TWEAK : bytes := [Byte.x01].
Definition OUTPUT_LEN : nat := 32.

Record MerkleTree := mkTree { levels : list (list bytes) }.

(** [MerkleTree::new()] and [Default] *)
Definition tree_new : MerkleTree := mkTree [[]].

(** [self.levels[i]] replaced; the index has been checked before. *)
Definition set_level (t : MerkleTree) (i : nat) (l : list bytes) : MerkleTree :=
  mkTree (<[i := l]> (levels t)).

(** The levels [reserve] makes room for: [log2(num_leaves) + 1], rounded up. *)
Definition is_power_of_two (n : nat) : bool := n =? 2 ^ Nat.log2 n.
Definition max_levels (num_leaves : nat) : nat :=
  if is_power_of_two num_leaves then Nat.log2 num_leaves + 1
  else Nat.log2 (num_leaves - 1) + 2.

(** [for level in 0..max_levels { if level >= self.levels.len() { push(Vec::new()) } .. }];
    the capacity of a [Vec] is not part of its value. *)
Fixpoint reserve_levels (n level : nat) (ls : list (list bytes)) : list (list bytes) :=
  match n with
  | O => ls
  | S n' => reserve_levels n' (S level) (if length ls <=? level then ls ++ [[]] else ls)
  end.
Definition reserve (t : MerkleTree) (num_leaves : nat) : MerkleTree :=
  if num_leaves =? 0 then t
  else mkTree (reserve_levels (max_levels num_leaves) 0 (levels t)).

Definition tree_clear (t : MerkleTree) : MerkleTree := mkTree (map (fun _ => []) (levels t)).

Definition tree_is_empty {E} (t : MerkleTree) : res E bool :=
  l0 ← index (levels t) 0; mret (match l0 with [] => true | _ => false end).

(** The [while] loop of [get_paths_to] on the levels from the current one on;
    it counts the levels it climbed. *)
Fixpoint climb {E} (ls : list (list bytes)) (idx : nat) (path : MerklePath) (level : nat)
    : res E (MerklePath * nat) :=
  match ls with
  | [] => Panic
  | l :: ls' =>
      match l with
      | [] => Ok (path, level)
      | _ =>
          let sibling := if idx mod 2 =? 0 then idx + 1 else idx - 1 in
          if length l <=? sibling then Ok (path, level)
          else
            e ← index l sibling;
            path' ← push_element path e;
            climb ls' (idx / 2) path' (S level)
      end
  end.

Definition get_paths_to `{!Profile} {E} (t : MerkleTree) (idx : nat) (path : MerklePath)
    : res E MerklePath :=
  _ ← debug_assert (path_is_empty path);
  r ← climb (levels t) idx path 0;
  if r.2 <=? 32 then Ok r.1 else Panic.

Definition get_paths `{!Profile} {E} (t : MerkleTree) (idx : nat) : res E MerklePath :=
  get_paths_to t idx MerklePath_default.

Section merkle.
Context (sha512 : bytes -> bytes).

(** [hash(&[..])]: the first 32 bytes of the digest of the concatenation. *)
Definition hash (to_hash : list bytes) : bytes := take OUTPUT_LEN (sha512 (concat to_hash)).
Definition hash_leaf (leaf : bytes) : bytes := hash [LEAF_TWEAK; leaf].
Definition hash_nodes (first second : bytes) : bytes := hash [NODE_TWEAK; first; second].

Definition push_leaf {E} (t : MerkleTree) (data : bytes) : res E MerkleTree :=
  l0 ← index (levels t) 0;
  mret (set_level t 0 (l0 ++ [hash_leaf data])).

(** [for i in 0..node_count { .. push(hash_nodes(prev[2 * i], prev[2 * i + 1])) }] *)
Fixpoint hash_pairs {E} (n i : nat) (prev acc : list bytes) : res E (list bytes) :=
  match n with
  | O => Ok acc
  | S n' =>
      a ← index prev (i * 2);
      b ← index prev (i * 2 + 1);
      hash_pairs n' (S i) prev (acc ++ [hash_nodes a b])
  end.

(** The [while node_count > 1] loop; [fuel] bounds its iterations. *)
Fixpoint root_loop {E} (fuel level node_count : nat) (t : MerkleTree) : res E (MerkleTree * nat) :=
  if node_count <=? 1 then Ok (t, level) else
  match fuel with
  | O => Panic
  | S fuel' =>
      let level := level + 1 in
      let t := if length (levels t) <? level + 1 then mkTree (levels t ++ [[]]) else t in
      _ ← index (levels t) level;
      let t := set_level t level [] in
      prev ← index (levels t) (level - 1);
      let odd := negb (node_count mod 2 =? 0) in
      let prev := if odd then prev ++ [zeroes OUTPUT_LEN] else prev in
      let node_count := if odd then node_count + 1 else node_count in
      let t := set_level t (level - 1) prev in
      let node_count := node_count / 2 in
      nodes ← hash_pairs node_count 0 prev [];
      root_loop fuel' level node_count (set_level t level nodes)
  end.

(** [compute_root(&mut self) -> Hash]: panics on a tree without leaves. *)
Definition compute_root {E} (t : MerkleTree) : res E (bytes * MerkleTree) :=
  l0 ← index (levels t) 0;
  match l0 with
  | [] => Panic
  | _ =>
      r ← root_loop (length l0) 0 (length l0) t;
      top ← index (levels r.1) r.2;
      if length top =? 1 then
        h ← index top 0; mret (h, r.1)
      else Panic
  end.

(** The loop of [root_from_paths]. *)
Fixpoint fold_path (idx : nat) (h : bytes) (ps : list bytes) : bytes :=
  match ps with
  | [] => h
  | p :: ps' =>
      let h' := if Nat.land idx 1 =? 0 then hash [NODE_TWEAK; h; p] else hash [NODE_TWEAK; p; h] in
      fold_path (Nat.shiftr idx 1) h' ps'
  end.

Definition root_from_paths (idx : nat) (init_data : bytes) (ps : MerklePath) : bytes :=
  fold_path idx (hash_leaf init_data) (elements ps).

(** ** Specification *)

Definition zero_node : bytes := zeroes OUTPUT_LEN.
Definition pad (l : list bytes) : list bytes := if Nat.even (length l) then l else l ++ [zero_node].
Fixpoint pair_up (l : list bytes) : list bytes :=
  match l with
  | a :: b :: r => hash_nodes a b :: pair_up r
  | _ => []
  end.
(** The level above [l]. *)
Definition next (l : list bytes) : list bytes := pair_up (pad l).

(** The number of levels above [l], and the root of the tree over [l]. *)
Definition tree_depth (l : list bytes) : nat := Nat.log2_up (length l).
Fixpoint root_at (n : nat) (l : list bytes) : bytes :=
  match n with O => hd [] l | S n' => root_at n' (next l) end.
Definition merkle_root (l : list bytes) : bytes := root_at (tree_depth l) l.

(** The levels a computed tree holds; the levels above the root are stale. *)
Inductive tree_of : list (list bytes) -> list bytes -> Prop :=
| tree_top l rest : length l = 1 -> tree_of (l :: rest) l
| tree_node l ls : 2 <= length l -> tree_of ls (next l) -> tree_of (pad l :: ls) l.

Lemma pair_up_ind (P : list bytes -> Prop) :
  P [] -> (forall a, P [a]) -> (forall a b r, P r -> P (a :: b :: r)) -> forall l, P l.
Proof.
  intros H0 H1 H2 l. assert (P l /\ forall a, P (a :: l)) as [H _]; [|done].
  induction l as [|b l [IH1 IH2]]; [auto|]. split; [auto|]. intros a. by apply H2.
Qed.

Lemma length_pair_up l : length (pair_up l) = length l / 2.
Proof.
  induction l as [| |a b r IH] using pair_up_ind; [done..|].
  cbn [pair_up length]. rewrite IH. replace (S (S (length r))) with (1 * 2 + length r) by lia.
  by rewrite Nat.div_add_l.
Qed.

Lemma length_pad l : length (pad l) = 2 * ((length l + 1) / 2).
Proof.
  unfold pad. destruct (Nat.even (length l)) eqn:He.
  - apply Nat.even_spec in He as [k Hk]. rewrite Hk, (Nat.add_comm (2 * k)).
    rewrite (Nat.mul_comm 2 k), Nat.div_add by done. cbn. lia.
  - assert (Nat.odd (length l) = true) as [k Hk]%Nat.odd_spec by (by rewrite <-Nat.negb_even, He).
    rewrite length_app, Hk. cbn [length]. replace (2 * k + 1 + 1) with ((k + 1) * 2) by lia.
    rewrite Nat.div_mul by done. lia.
Qed.

Lemma length_next l : length (next l) = (length l + 1) / 2.
Proof. unfold next. by rewrite length_pair_up, length_pad, Nat.mul_comm, Nat.div_mul. Qed.

Lemma log2_up_half n : 2 <= n -> Nat.log2_up n = S (Nat.log2_up ((n + 1) / 2)).
Proof.
  intros Hn. apply Nat.log2_up_unique; [lia|].
  set (m := (n + 1) / 2). assert (2 * m <= n + 1 /\ n <= 2 * m) as [Hm1 Hm2].
  { unfold m. pose proof (Nat.div_mod_eq (n + 1) 2). pose proof (Nat.mod_upper_bound (n + 1) 2). lia. }
  cbn [Nat.pred]. rewrite Nat.pow_succ_r'.
  destruct (decide (m = 1)) as [->|Hne]; [cbn; lia|].
  pose proof (Nat.log2_up_spec m ltac:(lia)) as [Hl Hu]. split; [|lia].
  destruct (Nat.log2_up m) as [|k] eqn:Hk; [apply Nat.log2_up_null in Hk; lia|].
  cbn [Nat.pred] in Hl. rewrite Nat.pow_succ_r'. lia.
Qed.

Lemma tree_depth_next l : 2 <= length l -> tree_depth l = S (tree_depth (next l)).
Proof. intros Hl. unfold tree_depth. by rewrite log2_up_half, length_next. Qed.

Lemma length_next_bounds l : 2 <= length l -> 1 <= length (next l) < length l.
Proof.
  intros Hl. rewrite length_next. pose proof (Nat.div_mod_eq (length l + 1) 2).
  pose proof (Nat.mod_upper_bound (length l + 1) 2). lia.
Qed.

(** Induction along the levels of the tree. *)
Lemma tree_ind (P : list bytes -> Prop) :
  (forall a, P [a]) -> (forall l, 2 <= length l -> P (next l) -> P l) ->
  forall l, 1 <= length l -> P l.
Proof.
  intros H1 H2 l. remember (length l) as n eqn:Hn. revert l Hn.
  induction n as [n IH] using lt_wf_ind. intros l -> Hl.
  destruct l as [|a [|b r]]; [cbn in Hl; lia|apply H1|].
  assert (2 <= length (a :: b :: r)) as H by (cbn; lia).
  destruct (length_next_bounds _ H). apply H2; [done|]. by eapply IH.
Qed.

Lemma merkle_root_singleton a : merkle_root [a] = a.
Proof. done. Qed.
Lemma merkle_root_next l : 2 <= length l -> merkle_root l = merkle_root (next l).
Proof. intros Hl. unfold merkle_root. by rewrite tree_depth_next. Qed.

(** ** [compute_root] *)

Lemma hash_pairs_spec {E} n : forall i prev acc, length prev = 2 * (i + n) ->
  hash_pairs (E := E) n i prev acc = Ok (acc ++ pair_up (drop (2 * i) prev)).
Proof.
  induction n as [|n IH]; intros i prev acc Hlen.
  { rewrite drop_ge by lia. cbn. by rewrite app_nil_r. }
  destruct (lookup_lt_is_Some_2 prev (2 * i)) as [a Ha]; [lia|].
  destruct (lookup_lt_is_Some_2 prev (2 * i + 1)) as [b Hb]; [lia|].
  cbn [hash_pairs]. unfold index. rewrite (Nat.mul_comm i 2), Ha, Hb. cbn [mbind res_bind].
  rewrite IH by lia. rewrite (drop_S _ _ _ Ha). replace (S (2 * i)) with (2 * i + 1) by lia.
  rewrite (drop_S _ _ _ Hb). cbn [pair_up]. replace (S (2 * i + 1)) with (2 * S i) by lia.
  by rewrite <-app_assoc.
Qed.

Lemma pad_odd l : pad l = if negb (length l mod 2 =? 0) then l ++ [zero_node] else l.
Proof.
  unfold pad. destruct (Nat.eqb_spec (length l mod 2) 0) as [H|H].
  - apply Nat.Div0.mod_divides in H as [k Hk]. rewrite Hk. by rewrite Nat.even_even.
  - destruct (Nat.even (length l)) eqn:He; [|done].
    apply Nat.even_spec in He as [k Hk]. rewrite Hk, Nat.mul_comm, Nat.Div0.mod_mul in H. done.
Qed.

Lemma length_pad_odd l :
  length (pad l) = if negb (length l mod 2 =? 0) then length l + 1 else length l.
Proof. rewrite pad_odd. destruct (negb _); [|done]. by rewrite length_app. Qed.

Lemma index_middle {E A} (xs : list A) y ys : index (E := E) (xs ++ y :: ys) (length xs) = Ok y.
Proof. unfold index. by rewrite list_lookup_middle. Qed.
Lemma index_middle_1 {E A} (xs : list A) x y ys :
  index (E := E) (xs ++ x :: y :: ys) (length xs + 1) = Ok y.
Proof.
  unfold index. rewrite lookup_app_r by lia. by replace (length xs + 1 - length xs) with 1 by lia.
Qed.
Lemma set_level_middle xs y ys v :
  set_level (mkTree (xs ++ y :: ys)) (length xs) v = mkTree (xs ++ v :: ys).
Proof. unfold set_level. cbn [levels]. by rewrite insert_app_r_alt, Nat.sub_diag by lia. Qed.
Lemma set_level_middle_1 xs x y ys v :
  set_level (mkTree (xs ++ x :: y :: ys)) (length xs + 1) v = mkTree (xs ++ x :: v :: ys).
Proof.
  unfold set_level. cbn [levels]. rewrite insert_app_r_alt by lia.
  by replace (length xs + 1 - length xs) with 1 by lia.
Qed.

(** The loop makes sure that the level above exists. *)
Lemma ensure_level done (l : list bytes) rest :
  exists x, (if length (done ++ l :: rest) <? length done + 1 + 1
             then mkTree ((done ++ l :: rest) ++ [[]]) else mkTree (done ++ l :: rest)) =
            mkTree (done ++ l :: x :: tail rest).
Proof.
  rewrite length_app. cbn [length].
  destruct (Nat.ltb_spec (length done + S (length rest)) (length done + 1 + 1)).
  - destruct rest; [|cbn in *; lia]. exists []. by rewrite <-app_assoc.
  - destruct rest as [|x r]; [cbn in *; lia|]. by exists x.
Qed.

(** One turn of the loop, with the levels laid out around the current one. *)
Lemma root_loop_step {E} fuel done l rest :
  2 <= length l ->
  root_loop (E := E) (S fuel) (length done) (length l) (mkTree (done ++ l :: rest)) =
  root_loop fuel (length (done ++ [pad l])) (length (next l))
    (mkTree ((done ++ [pad l]) ++ next l :: tail rest)).
Proof.
  intros Hl. cbn [root_loop]. destruct (Nat.leb_spec (length l) 1); [lia|].
  cbn [levels]. destruct (ensure_level done l rest) as [x ->]. cbn [levels].
  rewrite index_middle_1. cbn [mbind res_bind]. rewrite set_level_middle_1. cbn [levels].
  rewrite Nat.add_sub, index_middle. cbn [mbind res_bind]. fold zero_node.
  rewrite <-pad_odd, <-length_pad_odd, <-length_pair_up, set_level_middle.
  rewrite hash_pairs_spec.
  2: { rewrite length_pair_up, length_pad, (Nat.mul_comm 2), Nat.div_mul by done. lia. }
  cbn [mbind res_bind app Nat.mul drop]. rewrite set_level_middle_1, length_app, <-app_assoc. done.
Qed.

Lemma root_loop_spec {E} : forall l, 1 <= length l -> forall fuel done rest, length l <= S fuel ->
  exists ls d, root_loop (E := E) fuel (length done) (length l) (mkTree (done ++ l :: rest)) =
      Ok (mkTree (done ++ ls), length done + d) /\
    tree_of ls l /\ ls !! d = Some [merkle_root l].
Proof.
  apply (tree_ind (fun l => forall fuel done rest, length l <= S fuel -> exists ls d, _)).
  - intros a fuel done rest _. exists ([a] :: rest), 0.
    destruct fuel; cbn; rewrite Nat.add_0_r; (split_and!; [done|by constructor|done]).
  - intros l H2 IH fuel done rest Hf.
    destruct (length_next_bounds l H2) as [H1 Hlt]. destruct fuel as [|fuel]; [lia|].
    rewrite root_loop_step by done.
    destruct (IH fuel (done ++ [pad l]) (tail rest)) as (ls & d & -> & Ht & Hd); [lia|].
    exists (pad l :: ls), (S d). rewrite length_app, <-app_assoc. cbn [length app].
    rewrite <-Nat.add_assoc. split_and!; [done|by constructor|]. by rewrite merkle_root_next.
Qed.

(** [compute_root] on a tree whose leaves are [l]: the root is the specified
    one, and the levels hold the tree over [l]. *)
Lemma compute_root_spec {E} l rest : 1 <= length l ->
  exists ls, compute_root (E := E) (mkTree (l :: rest)) = Ok (merkle_root l, mkTree ls) /\ tree_of ls l.
Proof.
  intros Hl. unfold compute_root. cbn [levels index lookup list_lookup mbind res_bind].
  destruct l as [|a l]; [cbn in Hl; lia|].
  destruct (root_loop_spec (E := E) (a :: l) Hl (length (a :: l)) [] rest) as (ls & d & Hr & Ht & Hd); [lia|].
  cbn [length app Nat.add] in Hr. unfold index at 1. cbn [lookup list_lookup mbind res_bind].
  cbn [length]. rewrite Hr. cbn [mbind res_bind fst snd levels]. unfold index. rewrite Hd. cbn. by exists ls.
Qed.

(** ** The path of a leaf *)

Lemma pair_up_lookup l : forall k h,
  pair_up l !! k = Some h <->
  exists a b, l !! (2 * k) = Some a /\ l !! (2 * k + 1) = Some b /\ h = hash_nodes a b.
Proof.
  induction l as [|a|a b r IH] using pair_up_ind; intros k h.
  - split; [done|]. intros (? & ? & H & _). done.
  - split; [done|]. intros (? & b & _ & H & _). by rewrite Nat.add_1_r in H.
  - destruct k as [|k]; cbn [pair_up lookup list_lookup].
    + split; [intros [= <-]; by exists a, b|]. intros (? & ? & [= <-] & [= <-] & ->). done.
    + change (list_lookup k (pair_up r)) with (pair_up r !! k). rewrite IH.
      replace (2 * S k) with (S (S (2 * k))) by lia. replace (S (S (2 * k)) + 1) with (S (S (2 * k + 1))) by lia.
      done.
Qed.

Lemma pad_lookup l i x : l !! i = Some x -> pad l !! i = Some x.
Proof. unfold pad. destruct (Nat.even _); [done|]. intros H. by apply lookup_app_l_Some. Qed.

Lemma pad_lookup_inv l i x : pad l !! i = Some x -> l !! i = Some x \/ x = zero_node.
Proof.
  unfold pad. destruct (Nat.even _); [by left|].
  intros [H|[_ H]]%lookup_app_Some; [by left|right].
  by apply list_lookup_singleton_Some in H as [_ <-].
Qed.

Definition sibling_of (i : nat) : nat := if i mod 2 =? 0 then i + 1 else i - 1.

Lemma land_1 i : Nat.land i 1 = i mod 2.
Proof. exact (Nat.land_ones i 1). Qed.
Lemma shiftr_1 i : Nat.shiftr i 1 = i / 2.
Proof. exact (Nat.shiftr_div_pow2 i 1). Qed.

(** Every node has a sibling in the padded level, and their parent is above. *)
Lemma sibling_parent l i x : l !! i = Some x -> exists e,
  pad l !! sibling_of i = Some e /\
  next l !! (i / 2) = Some (if i mod 2 =? 0 then hash_nodes x e else hash_nodes e x).
Proof.
  intros Hx. pose proof (lookup_lt_Some _ _ _ Hx) as Hi. pose proof (length_pad l) as Hp.
  pose proof (Nat.div_mod_eq i 2) as Hd. pose proof (Nat.mod_upper_bound i 2 ltac:(done)) as Hm.
  pose proof (Nat.div_mod_eq (length l + 1) 2) as Hd'.
  pose proof (Nat.mod_upper_bound (length l + 1) 2 ltac:(done)) as Hm'.
  destruct (lookup_lt_is_Some_2 (pad l) (sibling_of i)) as [e He].
  { unfold sibling_of. destruct (Nat.eqb_spec (i mod 2) 0); lia. }
  exists e. split; [done|]. apply pair_up_lookup. apply pad_lookup in Hx.
  unfold sibling_of in He. destruct (Nat.eqb_spec (i mod 2) 0) as [H0|H0].
  - replace (2 * (i / 2)) with i by lia. by exists x, e.
  - replace (2 * (i / 2)) with (i - 1) by lia. replace (i - 1 + 1) with i by lia. by exists e, x.
Qed.

Lemma length_chunks_elements ps :
  Forall (fun e => length e = ELEMENT_SIZE) ps -> chunks (length ps) (concat ps) = ps.
Proof.
  induction 1 as [|e ps He _ IH]; [done|]. cbn [length concat chunks].
  rewrite take_app_length', drop_app_length' by done. by rewrite IH.
Qed.

Hypothesis sha512_length : forall x, length (sha512 x) = 64.
#[local] Set Default Proof Using "Type*".

Lemma length_hash xs : length (hash xs) = 32.
Proof. unfold hash. by rewrite length_take, sha512_length. Qed.

Definition all_hashes (l : list bytes) : Prop := Forall (fun e => length e = ELEMENT_SIZE) l.

Lemma pad_all_hashes l : all_hashes l -> all_hashes (pad l).
Proof.
  intros H. unfold pad. destruct (Nat.even _); [done|]. apply Forall_app. split; [done|].
  by repeat constructor.
Qed.

Lemma next_all_hashes l : all_hashes (next l).
Proof.
  apply Forall_lookup. intros k h (a & b & _ & _ & ->)%pair_up_lookup. apply length_hash.
Qed.

Lemma length_merkle_root : forall l, 1 <= length l -> all_hashes l -> length (merkle_root l) = 32.
Proof.
  refine (tree_ind _ _ _).
  - intros a Ha. by apply Forall_cons in Ha as [Ha _].
  - intros l H2 IH _. rewrite merkle_root_next by done. apply IH, next_all_hashes.
Qed.

(** [climb] on a computed tree appends the [tree_depth l] siblings of the [i]-th
    node, and folding them over that node gives the root. *)
Lemma climb_spec {E} : forall l, 1 <= length l -> forall ls i x path level,
  tree_of ls l -> l !! i = Some x -> all_hashes l -> path_wf path ->
  num_paths path + tree_depth l <= MAX_PATHS ->
  exists ps path', climb (E := E) ls i path level = Ok (path', level + tree_depth l) /\
    length ps = tree_depth l /\ all_hashes ps /\ path_wf path' /\
    num_paths path' = num_paths path + tree_depth l /\ paths path' = paths path ++ concat ps /\
    fold_path i x ps = merkle_root l.
Proof.
  refine (tree_ind _ _ _).
  - intros a ls i x path level Ht Hx _ Hp _. inversion Ht as [? rest _|? ? H]; subst; [|cbn in H; lia].
    destruct i as [|i]; [|done]. injection Hx as ->. exists [], path. cbn.
    rewrite !Nat.add_0_r, app_nil_r. split_and!; try done. by apply Forall_nil.
  - intros l H2 IH ls i x path level Ht Hx Hall Hp Hn.
    inversion Ht as [? rest H|? ls' _ Ht']; subst; [lia|].
    destruct (sibling_parent l i x Hx) as (e & He & Hpar).
    assert (length e = ELEMENT_SIZE) as Hel.
    { apply pad_all_hashes in Hall. by eapply Forall_lookup_1 in Hall. }
    rewrite tree_depth_next in Hn |- * by done.
    destruct (push_element_ok (E := E) path e Hp ltac:(lia) Hel) as (path1 & Hpush & Hp1 & Hn1 & Hps1).
    destruct (IH ls' (i / 2) _ path1 (S level) Ht' Hpar (next_all_hashes l) Hp1 ltac:(lia))
      as (ps & path' & Hc & Hlen & Hps & Hw & Hn' & Hpaths & Hroot).
    exists (e :: ps), path'. split_and!; try done; try lia.
    + cbn [climb]. destruct (pad l) as [|y ys] eqn:Hpad; [done|]. rewrite <-Hpad in *.
      fold (sibling_of i). pose proof (lookup_lt_Some _ _ _ He).
      destruct (Nat.leb_spec (length (pad l)) (sibling_of i)); [lia|].
      unfold index. rewrite He. cbn [mbind res_bind]. rewrite Hpush. cbn [mbind res_bind].
      rewrite Hc. do 2 f_equal. lia.
    + cbn. by f_equal.
    + by constructor.
    + rewrite Hpaths, Hps1. cbn. by rewrite <-app_assoc.
    + cbn [fold_path]. rewrite land_1, shiftr_1, merkle_root_next by done. apply Hroot.
Qed.

Lemma tree_depth_max l : length l <= 2 ^ 32 -> tree_depth l <= MAX_PATHS.
Proof.
  intros Hl. unfold tree_depth, MAX_PATHS. etransitivity; [by apply Nat.log2_up_le_mono|].
  by rewrite Nat.log2_up_pow2 by lia.
Qed.

(** [get_paths_to] into an empty path, for a leaf of a computed tree. *)
Lemma get_paths_to_spec `{!Profile} {E} t l i x path :
  tree_of (levels t) l -> all_hashes l -> l !! i = Some x -> length l <= 2 ^ 32 ->
  path_wf path -> num_paths path = 0 ->
  exists p, get_paths_to (E := E) t i path = Ok p /\ path_wf p /\
    num_paths p = tree_depth l /\ fold_path i x (elements p) = merkle_root l.
Proof.
  intros Ht Hall Hx Hmax Hw Hz. pose proof (tree_depth_max l Hmax) as Hd.
  pose proof (lookup_lt_Some _ _ _ Hx).
  destruct (climb_spec (E := E) l ltac:(lia) (levels t) i x path 0 Ht Hx Hall Hw ltac:(lia))
    as (ps & p & Hc & Hlen & Hps & Hwp & Hnp & Hpaths & Hroot).
  exists p. unfold get_paths_to, debug_assert, path_is_empty. rewrite Hz. cbn [Nat.eqb negb].
  rewrite andb_false_r. cbn [mbind res_bind]. rewrite Hc. cbn [mbind res_bind fst snd].
  unfold MAX_PATHS in Hd. destruct (Nat.leb_spec (0 + tree_depth l) 32); [|lia].
  split_and!; try done; [lia|].
  unfold elements. rewrite Hnp, Hz, Hpaths. cbn [Nat.add].
  pose proof (length_paths path Hw) as Hl0. rewrite Hz in Hl0. apply nil_length_inv in Hl0.
  rewrite Hl0. cbn [app]. rewrite <-Hlen. by rewrite length_chunks_elements.
Qed.

(** ** What a path that verifies shows *)

(** A path is checked against a root that somebody computed; both only ever hash
    finitely many strings.  Those are listed here, so that "the hash is broken" means
    a collision between two of them, or one of them hashed to the padding node. *)
Definition digest32 (x : bytes) : bytes := take OUTPUT_LEN (sha512 x).
Definition leaf_input (d : bytes) : bytes := concat [LEAF_TWEAK; d].
Definition node_input (a b : bytes) : bytes := concat [NODE_TWEAK; a; b].

(** What [compute_root] hashes for a level, and for [n] levels from [l] on. *)
Fixpoint pair_inputs (l : list bytes) : list bytes :=
  match l with a :: b :: r => node_input a b :: pair_inputs r | _ => [] end.
Fixpoint tree_inputs (n : nat) (l : list bytes) : list bytes :=
  match n with O => [] | S n' => pair_inputs (pad l) ++ tree_inputs n' (next l) end.
(** What the loop of [root_from_paths] hashes. *)
Fixpoint path_inputs (idx : nat) (h : bytes) (ps : list bytes) : list bytes :=
  match ps with
  | [] => []
  | p :: ps' =>
      let x := if Nat.land idx 1 =? 0 then node_input h p else node_input p h in
      x :: path_inputs (Nat.shiftr idx 1) (digest32 x) ps'
  end.
(** All that a batch's server and a response's client hash. *)
Definition batch_inputs (datas : list bytes) : list bytes :=
  map leaf_input datas ++ tree_inputs (tree_depth (map hash_leaf datas)) (map hash_leaf datas).
Definition verify_inputs (idx : nat) (d : bytes) (p : MerklePath) : list bytes :=
  leaf_input d :: path_inputs idx (hash_leaf d) (elements p).

Definition collision_in (S : list bytes) : Prop :=
  exists x y, x ∈ S /\ y ∈ S /\ x <> y /\ digest32 x = digest32 y.
Definition zero_preimage_in (S : list bytes) : Prop := exists x, x ∈ S /\ digest32 x = zero_node.
(** What an attacker needs to leave the tree. *)
Definition hash_broken (S : list bytes) : Prop := collision_in S \/ zero_preimage_in S.

Lemma pair_inputs_lookup l : forall k a b, l !! (2 * k) = Some a -> l !! (2 * k + 1) = Some b -> node_input a b ∈ pair_inputs l.
Proof using Type.
  induction l as [|x|x y r IH] using pair_up_ind; intros k a b; [done|by destruct k as [|k]; [|cbn; rewrite Nat.add_succ_r]|].
  destruct k as [|k]; [intros [= ->] [= ->]; by left|].
  replace (2 * S k) with (S (S (2 * k))) by lia. cbn [Nat.add pair_inputs]. intros Ha Hb. right. by apply (IH k).
Qed.

Lemma fold_path_app ps1 : forall i h ps2,
  fold_path i h (ps1 ++ ps2) = fold_path (i / 2 ^ length ps1) (fold_path i h ps1) ps2.
Proof using Type.
  induction ps1 as [|p ps1 IH]; intros i h ps2; [by rewrite Nat.div_1_r|].
  cbn [app fold_path length]. rewrite IH, shiftr_1, Nat.Div0.div_div. done.
Qed.

Lemma fold_path_snoc i h ps p :
  let h' := fold_path i h ps in
  fold_path i h (ps ++ [p]) =
    if (i / 2 ^ length ps) mod 2 =? 0 then hash_nodes h' p else hash_nodes p h'.
Proof using Type. rewrite fold_path_app. cbn [fold_path]. by rewrite land_1. Qed.

Lemma path_inputs_app ps1 : forall i h ps2,
  path_inputs i h (ps1 ++ ps2) = path_inputs i h ps1 ++ path_inputs (i / 2 ^ length ps1) (fold_path i h ps1) ps2.
Proof using Type.
  induction ps1 as [|p ps1 IH]; intros i h ps2; [by rewrite Nat.div_1_r|].
  cbn [app path_inputs fold_path length]. rewrite IH, shiftr_1, Nat.Div0.div_div. f_equal.
  by destruct (Nat.land i 1 =? 0).
Qed.

Section inputs.
Context (S : list bytes).

Definition is_digest (x : bytes) : Prop := exists y, y ∈ S /\ x = digest32 y.
Definition is_node (x : bytes) : Prop := exists a b, node_input a b ∈ S /\ x = hash_nodes a b.

Lemma hash_nodes_inj a b c d :
  length a = 32 -> length b = 32 -> length c = 32 -> length d = 32 ->
  node_input a b ∈ S -> node_input c d ∈ S ->
  hash_nodes a b = hash_nodes c d -> hash_broken S \/ a = c /\ b = d.
Proof using Type.
  intros Ha Hb Hc Hd H1 H2 Heq. destruct (decide (node_input a b = node_input c d)) as [He|He].
  - right. unfold node_input in He. cbn in He. injection He as He. rewrite !app_nil_r in He.
    apply app_inj_1 in He; [done|congruence].
  - left; left. by exists (node_input a b), (node_input c d).
Qed.

Lemma hash_leaf_inj d e : leaf_input d ∈ S -> leaf_input e ∈ S -> hash_leaf d = hash_leaf e -> hash_broken S \/ d = e.
Proof using Type.
  intros Hd He Heq. destruct (decide (d = e)) as [|Hne]; [by right|]. left; left.
  exists (leaf_input d), (leaf_input e). split_and!; [done|done| |done].
  unfold leaf_input. cbn. rewrite !app_nil_r. by intros [= ?].
Qed.

(** Leaves and nodes never mix: the tweaks separate them. *)
Lemma leaf_not_node d : leaf_input d ∈ S -> is_node (hash_leaf d) -> hash_broken S.
Proof using Type. intros Hd (a & b & Hab & Heq). left. by exists (leaf_input d), (node_input a b). Qed.

Lemma fold_path_digest ps : forall i h, is_digest h -> path_inputs i h ps ⊆ S -> is_digest (fold_path i h ps).
Proof using Type.
  induction ps as [|p ps IH]; intros i h Hh Hin; [done|]. cbn [fold_path path_inputs] in *.
  assert ((if Nat.land i 1 =? 0 then hash [NODE_TWEAK; h; p] else hash [NODE_TWEAK; p; h]) =
    digest32 (if Nat.land i 1 =? 0 then node_input h p else node_input p h)) as -> by by destruct (_ =? 0).
  apply IH; [eexists; split; [|done]; apply Hin; by left|]. intros y Hy. apply Hin. by right.
Qed.

Lemma length_digest x : is_digest x -> length x = 32.
Proof. intros [y [_ ->]]. unfold digest32. by rewrite length_take, sha512_length. Qed.

(** If folding [ps] over a digest gives the root of the tree over [l], then [ps]
    ends with a path of that tree, and what comes before it leads to the entry of
    [l] at the position the index names. *)
Lemma fold_path_sound : forall l, 1 <= length l -> forall i x ps,
  all_hashes l -> is_digest x -> all_hashes ps ->
  tree_inputs (tree_depth l) l ⊆ S -> path_inputs i x ps ⊆ S -> fold_path i x ps = merkle_root l ->
  hash_broken S \/ (length ps < tree_depth l /\ is_node x) \/
  exists ps1 ps2, ps = ps1 ++ ps2 /\ length ps2 = tree_depth l /\
    l !! ((i / 2 ^ length ps1) mod 2 ^ tree_depth l) = Some (fold_path i x ps1).
Proof.
  refine (tree_ind _ _ _).
  { intros a i x ps _ _ _ _ _ Hroot. right; right. exists ps, []. rewrite app_nil_r.
    split_and!; [done..|]. change (tree_depth [a]) with 0.
    by rewrite Nat.pow_0_r, Nat.mod_1_r, Hroot. }
  intros l H2 IH i x ps Hall Hx Hps Htree Hpath Hroot. rewrite merkle_root_next in Hroot by done.
  rewrite tree_depth_next in Htree |- * by done. cbn [tree_inputs] in Htree.
  apply list_subseteq_app_iff_l in Htree as [Hlevel Htree]. set (D := tree_depth (next l)) in *.
  destruct (IH i x ps (next_all_hashes l) Hx Hps Htree Hpath Hroot) as [Hb|[[Hlt Hn]|(ps1 & ps2 & -> & Hl2 & Hpos)]];
    [by left|right; left; split; [lia|done]|].
  apply pair_up_lookup in Hpos as (a & b & Ha & Hb & Hv).
  assert (node_input a b ∈ S) as HabS by (by apply Hlevel, (pair_inputs_lookup _ _ _ _ Ha Hb)).
  destruct ps1 as [|p ps1' _] using rev_ind.
  { right; left. cbn in *. split; [lia|]. by exists a, b. }
  rewrite fold_path_snoc in Hv. rewrite length_app in Ha, Hb. cbn [length] in Ha, Hb.
  rewrite path_inputs_app, path_inputs_app in Hpath. cbn [path_inputs] in Hpath. rewrite land_1 in Hpath.
  apply list_subseteq_app_iff_l in Hpath as [[Hpath1 Hpath2]%list_subseteq_app_iff_l _].
  set (k := length ps1') in *. set (F := fold_path i x ps1') in *.
  rewrite (Nat.add_1_r k), (Nat.pow_succ_r' 2 k), (Nat.mul_comm 2 (2 ^ k)), <-Nat.Div0.div_div in Ha, Hb.
  set (m := i / 2 ^ k) in *.
  assert (is_digest F) as HF by (by apply fold_path_digest).
  apply Forall_app in Hps as [[_ [Hp _]%Forall_cons]%Forall_app _].
  apply pad_all_hashes in Hall.
  pose proof (Forall_lookup_1 _ _ _ _ Hall Ha) as Hla. pose proof (Forall_lookup_1 _ _ _ _ Hall Hb) as Hlb.
  pose proof (length_digest F HF) as HlF. unfold ELEMENT_SIZE in *.
  assert (hash_broken S \/ l !! (m mod 2 + 2 * (m / 2 mod 2 ^ D)) = Some F) as [?|Hfound]; [|by left|].
  - assert (forall j, pad l !! j = Some F -> hash_broken S \/ l !! j = Some F) as Hpad.
    { intros j [Hj|Hz]%pad_lookup_inv; [by right|left; right]. destruct HF as [y [Hy ->]]. by exists y. }
    pose proof (Nat.mod_upper_bound m 2 ltac:(done)) as Hm2.
    destruct (Nat.eqb_spec (m mod 2) 0) as [H0|H0].
    + apply hash_nodes_inj in Hv as [?|[Hv _]]; try done; [by left| |apply Hpath2; by left].
      rewrite H0. apply Hpad. by rewrite Hv.
    + apply hash_nodes_inj in Hv as [?|[_ Hv]]; try done; [by left| |apply Hpath2; by left].
      replace (m mod 2) with 1 by lia. rewrite Nat.add_comm. apply Hpad. by rewrite Hv.
  - right; right. exists ps1', (p :: ps2). rewrite <-app_assoc. fold k m F. cbn [length].
    rewrite Nat.pow_succ_r', Nat.Div0.mod_mul_r. split_and!; [done|lia|done].
Qed.
End inputs.

(** ** Batches of leaves *)

(** [push_leaf] for each request of a batch. *)
Fixpoint push_leaves {E} (t : MerkleTree) (datas : list bytes) : res E MerkleTree :=
  match datas with
  | [] => Ok t
  | d :: ds => t' ← push_leaf t d; push_leaves t' ds
  end.

Lemma push_leaves_spec {E} datas : forall l rest,
  push_leaves (E := E) (mkTree (l :: rest)) datas = Ok (mkTree ((l ++ map hash_leaf datas) :: rest)).
Proof using Type.
  induction datas as [|d ds IH]; intros l rest; [by rewrite app_nil_r|].
  cbn [push_leaves push_leaf levels index lookup list_lookup mbind res_bind map].
  unfold push_leaf, index, set_level. cbn. rewrite IH. by rewrite <-app_assoc.
Qed.

Lemma reserve_levels_cons n : forall k l rest,
  exists rest', reserve_levels n k (l :: rest) = l :: rest'.
Proof using Type.
  induction n as [|n IH]; intros k l rest; cbn [reserve_levels]; [by exists rest|].
  destruct (_ <=? k); [|by apply IH]. change ((l :: rest) ++ [[]]) with (l :: (rest ++ [[]])).
  apply IH.
Qed.

(** The tree a batch starts from: cleared and reserved, its level 0 is empty. *)
Lemma reserve_clear_cons t n : levels t <> [] ->
  exists rest, reserve (tree_clear t) n = mkTree ([] :: rest).
Proof using Type.
  intros Ht. destruct t as [[|l ls]]; [done|]. unfold reserve, tree_clear. cbn.
  destruct (n =? 0); [by eexists|].
  destruct (reserve_levels_cons (max_levels n) 0 [] (map (fun _ => []) ls)) as [rest ->]. by exists rest.
Qed.

Lemma leaves_all_hashes datas : all_hashes (map hash_leaf datas).
Proof. apply Forall_fmap, Forall_true. intros. apply length_hash. Qed.

(** A batch pushed onto a tree without leaves, its root computed. *)
Lemma batch_spec {E} rest datas : 1 <= length datas ->
  exists t, (t1 ← push_leaves (E := E) (mkTree ([] :: rest)) datas; compute_root t1) =
      Ok (merkle_root (map hash_leaf datas), t) /\ tree_of (levels t) (map hash_leaf datas).
Proof using Type.
  intros Hl. rewrite push_leaves_spec. cbn [mbind res_bind app].
  destruct (compute_root_spec (E := E) (map hash_leaf datas) rest) as (ls & -> & Ht).
  { by rewrite length_map. }
  by exists (mkTree ls).
Qed.

Lemma batch_verify_inputs datas i d p : let S := batch_inputs datas ++ verify_inputs i d p in
  tree_inputs (tree_depth (map hash_leaf datas)) (map hash_leaf datas) ⊆ S /\ map leaf_input datas ⊆ S /\
  leaf_input d ∈ S /\ path_inputs i (hash_leaf d) (elements p) ⊆ S.
Proof using Type.
  cbn zeta. unfold batch_inputs, verify_inputs. split_and!.
  - apply list_subseteq_app_l, list_subseteq_app_r. reflexivity.
  - apply list_subseteq_app_l, list_subseteq_app_l. reflexivity.
  - apply elem_of_app. right. by left.
  - apply list_subseteq_app_r. intros x Hx. by right.
Qed.

Lemma path_sound (datas : list bytes) (i : nat) (d : bytes) (p : MerklePath) :
  1 <= length datas -> path_wf p ->
  root_from_paths i d p = merkle_root (map hash_leaf datas) ->
  (depth p = tree_depth (map hash_leaf datas) /\ datas !! (i mod 2 ^ depth p) = Some d) \/
  hash_broken (batch_inputs datas ++ verify_inputs i d p).
Proof.
  intros Hl Hp Hroot. unfold root_from_paths in Hroot. set (S := batch_inputs datas ++ verify_inputs i d p).
  pose proof (length_elements p) as Hlen. pose proof (elements_sizes p Hp) as Hsz.
  destruct (batch_verify_inputs datas i d p) as (Htree & Hleaf & HdS & Hin). fold S in Htree, Hleaf, HdS, Hin.
  assert (forall e j, datas !! j = Some e -> leaf_input e ∈ S) as HeS.
  { intros e j He. by apply Hleaf, list_elem_of_fmap_2, (list_elem_of_lookup_2 _ j). }
  destruct (fold_path_sound S (map hash_leaf datas)) with (i := i) (x := hash_leaf d) (ps := elements p)
    as [?|[[_ Hn]|(ps1 & ps2 & Hps & Hl2 & Hpos)]]; try done.
  - by rewrite length_map.
  - apply leaves_all_hashes.
  - by exists (leaf_input d).
  - by right.
  - right. by eapply leaf_not_node.
  - rewrite list_lookup_fmap in Hpos. destruct (datas !! _) as [e|] eqn:He; [|done]. injection Hpos as Hpos.
    destruct ps1 as [|q ps1' _] using rev_ind.
    + cbn [length fold_path app] in *. subst ps2. rewrite Nat.pow_0_r, Nat.div_1_r in He.
      rewrite Hlen in Hl2. apply (hash_leaf_inj S) in Hpos as [?|<-]; [by right| |by eapply HeS|done].
      left. unfold depth. by rewrite Hl2.
    + right. apply (leaf_not_node S e); [by eapply HeS|]. rewrite Hpos, fold_path_snoc.
      rewrite Hps, path_inputs_app, path_inputs_app in Hin. cbn [path_inputs] in Hin. rewrite land_1 in Hin.
      apply list_subseteq_app_iff_l in Hin as [[_ Hin]%list_subseteq_app_iff_l _].
      destruct (_ =? 0); eexists _, _; (split; [|done]); apply Hin; by left.
Qed.

Lemma batch_path `{!Profile} {E} t datas i d path :
  tree_of (levels t) (map hash_leaf datas) -> datas !! i = Some d -> length datas <= 2 ^ 32 ->
  path_wf path -> num_paths path = 0 ->
  exists p, get_paths_to (E := E) t i path = Ok p /\ path_wf p /\
    num_paths p = tree_depth (map hash_leaf datas) /\
    root_from_paths i d p = merkle_root (map hash_leaf datas).
Proof.
  intros Ht Hi Hmax Hw Hz.
  apply (get_paths_to_spec t (map hash_leaf datas) i (hash_leaf d)); try done.
  - apply leaves_all_hashes.
  - by rewrite list_lookup_fmap, Hi.
  - by rewrite length_map.
Qed.

Lemma merkle_root_pad l : 1 <= length l -> merkle_root (pad l) = merkle_root l \/ length l = 1.
Proof using Type.
  intros Hl. destruct (decide (length l = 1)); [by right|left].
  assert (2 <= length (pad l)).
  { rewrite length_pad. pose proof (length_next_bounds l ltac:(lia)) as H. rewrite length_next in H. lia. }
  rewrite merkle_root_next, (merkle_root_next l) by lia. unfold next at 1. f_equal. unfold next. f_equal.
  unfold pad at 1. rewrite length_pad, Nat.even_mul. done.
Qed.

(** ** Properties *)

(** C9: Completeness of the batch tree.  Clearing any tree, reserving any number of
    leaves and pushing between 1 and 2^32 requests, [compute_root] returns the root
    of the specified tree, and then for every request [get_paths] returns, without
    panicking, a path of at most 32 elements that [root_from_paths] maps back to
    that root. *)
Theorem merkle_batch_complete `{!Profile} {E} (t0 : MerkleTree) (n : nat) (datas : list bytes) :
  levels t0 <> [] -> 1 <= length datas <= 2 ^ 32 ->
  exists t1 t2,
    push_leaves (E := E) (reserve (tree_clear t0) n) datas = Ok t1 /\
    compute_root (E := E) t1 = Ok (merkle_root (map hash_leaf datas), t2) /\
    forall i d, datas !! i = Some d ->
      exists p, get_paths (E := E) t2 i = Ok p /\ depth p <= 32 /\
        root_from_paths i d p = merkle_root (map hash_leaf datas).
Proof.
  intros Hne [Hl Hmax]. destruct (reserve_clear_cons t0 n Hne) as [rest ->].
  destruct (batch_spec (E := E) rest datas Hl) as (t2 & Hr & Ht). revert Hr.
  rewrite push_leaves_spec. cbn [mbind res_bind app]. intros Hr.
  eexists _, t2. split_and!; [done|done|]. intros i d Hi.
  destruct (batch_path (E := E) t2 datas i d MerklePath_default) as (p & Hp & [Hw _] & _ & Hroot);
    [done|done|done|apply default_wf|done|].
  exists p. by split_and!.
Qed.

(** C8: Soundness of path verification.  If [root_from_paths] maps a request, an
    index and a path to the root of a batch, then either the path has exactly the
    depth of the tree and the request is the one of the batch at that index modulo
    [2 ^ depth], or the hash function was broken on the way: of the strings that the
    tree and the verification hash, two collide or one hashes to the padding node. *)
Theorem merkle_path_sound (datas : list bytes) (i : nat) (d : bytes) (p : MerklePath) :
  1 <= length datas -> path_wf p ->
  root_from_paths i d p = merkle_root (map hash_leaf datas) ->
  (depth p = tree_depth (map hash_leaf datas) /\ datas !! (i mod 2 ^ depth p) = Some d) \/
  hash_broken (batch_inputs datas ++ verify_inputs i d p).
Proof. apply path_sound. Qed.

(** The root can be recomputed.  [compute_root] on any non-empty list of
    leaves never panics, and calling it again on the tree it leaves (whose leaf
    level may have gained the padding node) gives the same root. *)
Theorem compute_root_idempotent {E} (l : list bytes) (rest : list (list bytes)) :
  1 <= length l ->
  exists t1 t2, compute_root (E := E) (mkTree (l :: rest)) = Ok (merkle_root l, t1) /\
    compute_root (E := E) t1 = Ok (merkle_root l, t2).
Proof using Type.
  intros Hl. destruct (compute_root_spec (E := E) l rest Hl) as (ls & Hr & Ht).
  exists (mkTree ls). rewrite Hr. inversion Ht as [? rest' H1|? ls' H2 Ht']; subst.
  - destruct (compute_root_spec (E := E) l rest' Hl) as (ls2 & Hr2 & _). by exists (mkTree ls2).
  - assert (1 <= length (pad l)) as Hp.
    { rewrite length_pad. pose proof (length_next_bounds l H2) as H. rewrite length_next in H. lia. }
    destruct (compute_root_spec (E := E) (pad l) ls' Hp) as (ls2 & Hr2 & _).
    destruct (merkle_root_pad l Hl) as [Heq|]; [|lia]. rewrite Heq in Hr2. by exists (mkTree ls2).
Qed.

(** Only [clear] starts a new batch.  After [compute_root] on an odd number
    (at least three) of leaves, the padding node stays in level 0: a request pushed
    then is not the next leaf but the one after the padding node. *)
Theorem push_after_compute_root {E} (l : list bytes) (rest : list (list bytes)) (d : bytes) :
  3 <= length l -> Nat.even (length l) = false ->
  exists t1 t2 t3, compute_root (E := E) (mkTree (l :: rest)) = Ok (merkle_root l, t1) /\
    push_leaf (E := E) t1 d = Ok t2 /\
    levels t2 !! 0 = Some (l ++ [zero_node; hash_leaf d]) /\
    compute_root (E := E) t2 = Ok (merkle_root (l ++ [zero_node; hash_leaf d]), t3).
Proof using Type.
  intros Hl Hodd. destruct (compute_root_spec (E := E) l rest) as (ls & Hr & Ht); [lia|].
  inversion Ht as [? rest' H1|? ls' H2 Ht']; subst; [lia|].
  destruct (compute_root_spec (E := E) (l ++ [zero_node; hash_leaf d]) ls') as (ls2 & Hr2 & _).
  { rewrite length_app. lia. }
  exists (mkTree (pad l :: ls')), (mkTree ((l ++ [zero_node; hash_leaf d]) :: ls')), (mkTree ls2).
  split_and!; try done. unfold push_leaf, index, set_level, pad. cbn. rewrite Hodd.
  by rewrite <-app_assoc.
Qed.

End merkle.

(** ** Witnesses: a stand-in digest of 64 bytes *)

Definition toy_digest (x : bytes) : bytes := take 64 (x ++ zeroes 64).

Lemma toy_digest_length x : length (toy_digest x) = 64.
Proof. unfold toy_digest. rewrite length_take, length_app, length_zeroes. lia. Qed.

Lemma merkle_batch_complete_witness :
  let datas := [b_lit "a"; b_lit "b"; b_lit "c"] in
  exists t1 t2,
    push_leaves toy_digest (E := Error) (reserve (tree_clear tree_new) 64) datas = Ok t1 /\
    compute_root toy_digest (E := Error) t1 =
      Ok (merkle_root toy_digest (map (hash_leaf toy_digest) datas), t2) /\
    forall i d, datas !! i = Some d ->
      exists p, get_paths (H := true) (E := Error) t2 i = Ok p /\ depth p <= 32 /\
        root_from_paths toy_digest i d p = merkle_root toy_digest (map (hash_leaf toy_digest) datas).
Proof.
  apply merkle_batch_complete; [apply toy_digest_length|done|].
  split; [cbn; lia|]. transitivity (2 ^ 2); [cbn; lia|]. apply Nat.pow_le_mono_r; lia.
Defined.

(** A digest that hashes nothing to zero. *)
Definition one_digest (x : bytes) : bytes := Byte.x01 :: take 63 (x ++ zeroes 63).
Lemma one_digest_length x : length (one_digest x) = 64.
Proof. unfold one_digest. cbn [length]. rewrite length_take, length_app, length_zeroes. lia. Qed.

Lemma merkle_path_sound_witness :
  let p := MerklePath_default in
  depth p = 0 /\ [b_lit "a"] !! (7 mod 2 ^ depth p) = Some (b_lit "a").
Proof.
  destruct (merkle_path_sound one_digest one_digest_length [b_lit "a"] 7 (b_lit "a") MerklePath_default) as [H|[(x & y & Hx & Hy & Hn & _)|(x & _ & Hz)]];
    [cbn; lia|apply default_wf|reflexivity|exact H| |discriminate Hz].
  exfalso. apply Hn. apply elem_of_cons in Hx as [->|[->|[]%elem_of_nil]%elem_of_cons],
    Hy as [->|[->|[]%elem_of_nil]%elem_of_cons]; reflexivity.
Defined.

Lemma compute_root_idempotent_witness :
  let l := [zeroes 32; zeroes 32; zeroes 32] in
  exists t1 t2, compute_root toy_digest (E := Error) (mkTree [l]) = Ok (merkle_root toy_digest l, t1) /\
    compute_root toy_digest (E := Error) t1 = Ok (merkle_root toy_digest l, t2).
Proof. apply compute_root_idempotent. cbn. lia. Defined.

Lemma push_after_compute_root_witness :
  let l := [zeroes 32; zeroes 32; zeroes 32] in
  exists t1 t2 t3, compute_root toy_digest (E := Error) (mkTree [l]) = Ok (merkle_root toy_digest l, t1) /\
    push_leaf toy_digest (E := Error) t1 (b_lit "d") = Ok t2 /\
    levels t2 !! 0 = Some (l ++ [zero_node; hash_leaf toy_digest (b_lit "d")]) /\
    compute_root toy_digest (E := Error) t2 =
      Ok (merkle_root toy_digest (l ++ [zero_node; hash_leaf toy_digest (b_lit "d")]), t3).
Proof. apply push_after_compute_root; [cbn; lia|reflexivity]. Defined.
