(* ===== verification/Crypto.v ===== *)
(** * Cryptographic interfaces, clocks and the shared helpers

    [CryptoLib] stands for the crypto library (aws-lc-rs): SHA-512 and Ed25519,
    with a key pair represented by its 32-byte seed.  [CryptoLaws] is what the
    code relies on: the output sizes and that a signature verifies.  [ClockSource]
    is crates/roughenough-protocol/src/util/clocksource.rs; the helpers are
    crates/roughenough-common/src/crypto.rs. *)
From stdpp Require Import gmap.
From S2P Require Import Prelude Errors Cursor Wire FixedTags Versions Path Srep Response Merkle.

Class CryptoLib := {
  sha512 : bytes -> bytes;
  ed_public : bytes -> bytes;
  ed_sign : bytes -> bytes -> bytes;
  ed_verify : bytes -> bytes -> bytes -> bool;
}.

Class CryptoLaws (C : CryptoLib) : Prop := {
  sha512_length x : length (sha512 x) = 64;
  ed_public_length sk : length (ed_public sk) = 32;
  ed_sign_length sk m : length (ed_sign sk m) = 64;
  ed_verify_sign sk m : ed_verify (ed_public sk) m (ed_sign sk m) = true;
}.

(** ** Clocks *)

(** What a clock reads: the system time, and the cells that mock clocks share. *)
Record World := mkWorld { system_now : Z; mock_cells : gmap nat Z }.

(** [Mock(Arc<AtomicU64>)] holds the address of its cell, so clones share it. *)
Inductive ClockSource : Type :=
| System
| FixedOffset (offset : Z)
| Mock (cell : nat).

Definition new_mock (w : World) (now : Z) : ClockSource * World :=
  let cell := fresh (dom (mock_cells w)) in
  (Mock cell, mkWorld (system_now w) (<[cell := now]> (mock_cells w))).

(** [a.saturating_add_signed(b)] *)
Definition u64_saturating_add_signed (a b : Z) : Z := Z.max 0 (Z.min (a + b) u64_max).

(** A mock cell always exists; reading a missing one cannot happen in the code. *)
Definition epoch_seconds (w : World) (c : ClockSource) : Z :=
  match c with
  | System => system_now w
  | FixedOffset offset => u64_saturating_add_signed (system_now w) offset
  | Mock cell => default 0%Z (mock_cells w !! cell)
  end.

Definition set_time {E} (w : World) (c : ClockSource) (now : Z) : res E World :=
  match c with
  | System | FixedOffset _ => Panic
  | Mock cell => Ok (mkWorld (system_now w) (<[cell := now]> (mock_cells w)))
  end.

Definition world_wf (w : World) : Prop :=
  is_u64 (system_now w) /\ map_Forall (fun _ v => is_u64 v) (mock_cells w).

Lemma epoch_seconds_u64 w c : world_wf w -> is_u64 (epoch_seconds w c).
Proof.
  intros [Hs Hm]. destruct c as [|o|cell]; cbn; [done| |].
  - unfold u64_saturating_add_signed, u64_max, is_u64 in *. lia.
  - destruct (mock_cells w !! cell) as [v|] eqn:Hv; cbn; [by eapply Hm|unfold is_u64; lia].
Qed.

(** Setting a mock clock is seen by its clones and by no other clock. *)
Lemma set_time_spec {E} w cell now :
  exists w', set_time (E := E) w (Mock cell) now = Ok w' /\
    epoch_seconds w' (Mock cell) = now /\
    forall c, c <> Mock cell -> epoch_seconds w' c = epoch_seconds w c.
Proof.
  eexists. split; [reflexivity|]. split.
  - cbn. by rewrite lookup_insert_eq.
  - intros [|o|cell'] Hc; cbn; [done..|]. rewrite lookup_insert_ne by congruence. done.
Qed.

(** [std::time::Duration] *)
Record Duration := mkDuration { as_secs : Z; subsec_nanos : Z }.
Definition from_secs (s : Z) : Duration := mkDuration s 0.
Definition duration_is_zero (d : Duration) : bool := (as_secs d =? 0)%Z && (subsec_nanos d =? 0)%Z.

(** ** Hash helpers *)

Section helpers.
Context {C : CryptoLib}.

(** [&digest.as_ref()[..32]] *)
Definition sha512_32 (data : bytes) : bytes := take 32 (sha512 data).

(** [calculate_chained_nonce]: panics if the response does not serialize. *)
Definition calculate_chained_nonce {E} (prior_response : Response) (rand : bytes) : res E Nonce :=
  chain_value ← expect (as_frame_bytes prior_response);
  Nonce_from (sha512_32 (chain_value ++ rand)).

Definition make_srv_commitment {E} (pub_key : PublicKey) : res E SrvCommitment :=
  expect (SrvCommitment_try_from (sha512_32 (HASH_PREFIX_SRV ++ fixed_bytes pub_key))).

Context {CL : CryptoLaws C}.
#[local] Set Default Proof Using "Type*".

Lemma length_sha512_32 data : length (sha512_32 data) = 32.
Proof. unfold sha512_32. rewrite length_take, sha512_length. lia. Qed.

Lemma make_srv_commitment_ok {E} pk :
  make_srv_commitment (E := E) pk = Ok (mkSrv (sha512_32 (HASH_PREFIX_SRV ++ fixed_bytes pk))).
Proof. unfold make_srv_commitment, SrvCommitment_try_from. by rewrite length_sha512_32. Qed.

Lemma calculate_chained_nonce_ok {E} r rand : wf r ->
  calculate_chained_nonce (E := E) r rand =
    Ok (mkFixed (sha512_32 (frame_bytes (encode r) ++ rand))).
Proof.
  intros Hr. unfold calculate_chained_nonce. rewrite (as_frame_bytes_encode r Hr).
  cbn [expect mbind res_bind]. unfold Nonce_from, copy_from_slice. by rewrite length_sha512_32.
Qed.

(** [calculate_chained_nonce] commits to the prior response: equal nonces from
    different frames or random values are a collision of the truncated hash. *)
Lemma chained_nonce_binding {E} r1 r2 rand1 rand2 n :
  wf r1 -> wf r2 -> length rand1 = 32 -> length rand2 = 32 ->
  calculate_chained_nonce (E := E) r1 rand1 = Ok n -> calculate_chained_nonce (E := E) r2 rand2 = Ok n ->
  (encode r1 = encode r2 /\ rand1 = rand2) \/
  collides sha512_32 (frame_bytes (encode r1) ++ rand1) (frame_bytes (encode r2) ++ rand2).
Proof.
  intros H1 H2 Hl1 Hl2. rewrite !calculate_chained_nonce_ok by done. intros [= <-] [= Heq].
  destruct (decide (frame_bytes (encode r1) ++ rand1 = frame_bytes (encode r2) ++ rand2)) as [He|He].
  - left. apply app_inj_2 in He as [He ->]; [|congruence]. split; [|done]. unfold frame_bytes in He.
    apply app_inj_1 in He as [_ He]; [|by rewrite !length_to_be_bytes].
    by apply app_inj_1 in He as [_ He]; [|by rewrite !length_to_le_bytes].
  - by right.
Qed.

End helpers.

(** ** A concrete library, for the examples: it has the sizes and verifies its
    own signatures, and nothing more. *)

#[export] Instance toy_crypto : CryptoLib := {|
  sha512 := toy_digest;
  ed_public sk := take 32 (sk ++ zeroes 32);
  ed_sign sk m := toy_digest (take 32 (sk ++ zeroes 32) ++ m);
  ed_verify pk m sig := bool_decide (sig = toy_digest (pk ++ m));
|}.

Lemma toy_crypto_laws : CryptoLaws toy_crypto.
Proof.
  split; intros; cbn.
  - apply toy_digest_length.
  - rewrite length_take, length_app, length_zeroes. lia.
  - apply toy_digest_length.
  - by apply bool_decide_eq_true.
Qed.
