(* ===== verification/Keys.v ===== *)
(** * Keys (crates/roughenough-keys)

    seed.rs ([Seed], the [SeedBackend] trait), online/memory.rs
    ([MemoryBackend]), online/onlinekey.rs (the online keys) and
    longterm/identity.rs ([LongTermIdentity]), with the server's keysource.rs on
    top.  Randomness ([generate], [random_bytes]) is an argument of the
    operations that draw it; the clock is read from a [World]. *)
From S2P Require Import Prelude Errors Cursor Wire Tags Header FixedTags Versions Cert Srep Response Crypto.

(** ** Seeds and their backends *)

Record Seed := mkSeed { seed_value : bytes }.

(** [Seed::new]: [assert_eq!(value.len(), 32)] *)
Definition Seed_new {E} (value : bytes) : res E Seed :=
  if length value =? 32 then Ok (mkSeed value) else Panic.

(** What the code distinguishes of [linux_keyutils::KeyError]. *)
Inductive KeyError : Type := KeyDoesNotExist | OtherKeyError.

(** The errors of the ssh-agent and PKCS#11 crates carry no more than their kind. *)
Inductive BackendError : Type :=
| NotFound (what : string)
| NotSupported (what : string)
| BackendNotAvailable (backend feature : string)
| Krs (e : KeyError)
| SshAgent
| Ssh (what : string)
| Pkcs11
| WorkerDisconnect.

(** The trait; [&mut self] methods return the backend they leave. *)
Class SeedBackend (B : Type) := {
  store_seed : B -> Seed -> res BackendError B;
  get_seed : B -> res BackendError Seed;
  backend_sign : B -> bytes -> res BackendError (bytes * B);
  seed_len : B -> nat;
  backend_public_key : B -> res BackendError PublicKey;
}.

Record MemoryBackend := mkMemory {
  mem_seed : option Seed;
  mem_public_key : option PublicKey;
}.

Definition MemoryBackend_new : MemoryBackend := mkMemory None None.

(** The box that [try_choose_backend] returns. *)
Inductive ChosenBackend (K S : Type) : Type :=
| ChoseMemory (b : MemoryBackend)
| ChoseKrs (b : K)
| ChoseSshAgent (b : S).
Arguments ChoseMemory {K S} b.
Arguments ChoseKrs {K S} b.
Arguments ChoseSshAgent {K S} b.

Section keys.
Context {C : CryptoLib}.

#[export] Instance MemoryBackend_SeedBackend : SeedBackend MemoryBackend := {|
  store_seed _ seed :=
    public_key ← PublicKey_from (ed_public (seed_value seed));
    Ok (mkMemory (Some seed) (Some public_key));
  get_seed b :=
    match mem_seed b with Some seed => Seed_new (seed_value seed) | None => Panic end;
  backend_sign b data :=
    seed ← match mem_seed b with Some seed => Seed_new (seed_value seed) | None => Panic end;
    Ok (ed_sign (seed_value seed) data, b);
  seed_len b := match mem_seed b with Some seed => length (seed_value seed) | None => 0 end;
  backend_public_key b := match mem_public_key b with Some pk => Ok pk | None => Panic end;
|}.

(** [MemoryBackend::from_value] *)
Definition MemoryBackend_from_value (value : bytes) : res BackendError MemoryBackend :=
  seed ← Seed_new value;
  expect (store_seed MemoryBackend_new seed).

(** [MemoryBackend::from_random] and [Seed::new_random], from the bytes drawn *)
Definition MemoryBackend_from_random (random : bytes) : res BackendError MemoryBackend :=
  seed ← Seed_new random;
  expect (store_seed MemoryBackend_new seed).

(** The features compiled in are the constructors given for the two optional backends. *)
Definition try_choose_backend {K S} (krs : option (res BackendError K)) (ssh : option (res BackendError S))
    (backend : string) : res BackendError (ChosenBackend K S) :=
  let name := to_ascii_lowercase backend in
  if decide (name = "memory"%string) then Ok (ChoseMemory MemoryBackend_new)
  else if decide (name = "krs"%string) then
    match krs with
    | Some made => b ← made; Ok (ChoseKrs b)
    | None => Err (BackendNotAvailable "krs" "online-linux-krs")
    end
  else if decide (name = "sshagent"%string \/ name = "ssh-agent"%string) then
    match ssh with
    | Some made => b ← made; Ok (ChoseSshAgent b)
    | None => Err (BackendNotAvailable "ssh-agent" "online-ssh-agent")
    end
  else Panic.

(** What a backend promises to the identity that uses it: it holds a 32-byte
    seed, signs with it and reports its public key. *)
Class LawfulSeedBackend (B : Type) `{!SeedBackend B} := {
  holds : B -> bytes -> Prop;
  holds_seed_len b sk : holds b sk -> seed_len b = 32;
  holds_sign b sk data : holds b sk -> exists b', backend_sign b data = Ok (ed_sign sk data, b') /\ holds b' sk;
  holds_public_key b sk : holds b sk -> backend_public_key b = Ok (mkFixed (ed_public sk));
}.

(** ** Online keys *)

Record OnlineKeyDraft14 := mkOnline14 {
  ok14_signer : bytes;
  ok14_cert : Certificate;
  ok14_clock : ClockSource;
  ok14_template : SignedResponse;
  ok14_buf : bytes;
}.

Record OnlineKeyDraft08 := mkOnline08 {
  ok08_signer : bytes;
  ok08_cert : Certificate;
  ok08_clock : ClockSource;
  ok08_template : SignedResponseDraft08;
  ok08_buf : bytes;
}.

(** [signer] is the seed that [Ed25519KeyPair::generate] draws.  The buffer has at
    least the capacity asked for; it is modelled with exactly that. *)
Definition OnlineKeyDraft14_new (signer : bytes) (version : ProtocolVersion) (clock : ClockSource)
    : OnlineKeyDraft14 :=
  let template := SignedResponse_default in
  let template := set_radi template DEFAULT_RADI_SECONDS in
  let template := set_vers template (VersionList_new [version]) in
  let template := set_ver template version in
  let prefix := srep_prefix RfcDraft14 in
  let capacity := length prefix + wire_size template in
  mkOnline14 signer Certificate_default clock template
    (prefix ++ zeroes (capacity - length prefix)).

Definition OnlineKeyDraft08_new (signer : bytes) (clock : ClockSource) : OnlineKeyDraft08 :=
  let template := SignedResponseDraft08_default in
  let template := set_radi08 template DEFAULT_RADI_SECONDS in
  let prefix := srep_prefix RfcDraft08 in
  let capacity := length prefix + wire_size template in
  mkOnline08 signer Certificate_default clock template
    (prefix ++ zeroes (capacity - length prefix)).

Definition ok14_set_cert (k : OnlineKeyDraft14) (cert : Certificate) : OnlineKeyDraft14 :=
  mkOnline14 (ok14_signer k) cert (ok14_clock k) (ok14_template k) (ok14_buf k).
Definition ok08_set_cert (k : OnlineKeyDraft08) (cert : Certificate) : OnlineKeyDraft08 :=
  mkOnline08 (ok08_signer k) cert (ok08_clock k) (ok08_template k) (ok08_buf k).

Definition ok14_public_key_bytes (k : OnlineKeyDraft14) : bytes := ed_public (ok14_signer k).
Definition ok08_public_key_bytes (k : OnlineKeyDraft08) : bytes := ed_public (ok08_signer k).

(** A write through [ParseCursor::new(&mut buf[lo..hi])]. *)
Definition write_slice (buf : bytes) (lo hi : nat) (m : CM unit) : res Error bytes :=
  if (lo <=? hi) && (hi <=? length buf) then
    match m (new (take (hi - lo) (drop lo buf))) with
    | (Ok _, c) => Ok (take lo buf ++ data c ++ drop hi buf)
    | (Err e, _) => Err e
    | (Panic, _) => Panic
    end
  else Panic.

(** [make_srep]: the SREP over [root] at the clock's time, and its signature over
    the prefixed bytes in the key's buffer. *)
Definition make_srep14 {E} (w : World) (k : OnlineKeyDraft14) (root : MerkleRoot)
    : res E (SignedResponse * Signature * OnlineKeyDraft14) :=
  let srep := set_root (ok14_template k) root in
  let srep := set_midp srep (epoch_seconds w (ok14_clock k)) in
  let prefix_len := length (srep_prefix RfcDraft14) in
  let total_len := prefix_len + wire_size srep in
  buf ← expect (write_slice (ok14_buf k) prefix_len total_len (to_wire srep));
  let sig := ed_sign (ok14_signer k) (take total_len buf) in
  mret (srep, mkFixed sig,
        mkOnline14 (ok14_signer k) (ok14_cert k) (ok14_clock k) (ok14_template k) buf).

Definition make_srep08 {E} (w : World) (k : OnlineKeyDraft08) (root : MerkleRoot)
    : res E (SignedResponseDraft08 * Signature * OnlineKeyDraft08) :=
  let srep := set_root08 (ok08_template k) root in
  let srep := set_midp08 srep (epoch_seconds w (ok08_clock k)) in
  let prefix_len := length (srep_prefix RfcDraft08) in
  let total_len := prefix_len + wire_size srep in
  buf ← expect (write_slice (ok08_buf k) prefix_len total_len (to_wire srep));
  let sig := ed_sign (ok08_signer k) (take total_len buf) in
  mret (srep, mkFixed sig,
        mkOnline08 (ok08_signer k) (ok08_cert k) (ok08_clock k) (ok08_template k) buf).

(** ** The long-term identity *)

Section identity.
Context {B : Type} `{!SeedBackend B}.

Record LongTermIdentity := mkIdentity { id_seed : B; id_version : ProtocolVersion }.

(** [assert_eq!(seed.seed_len(), 32)] *)
Definition LongTermIdentity_new {E} (version : ProtocolVersion) (seed : B) : res E LongTermIdentity :=
  if seed_len seed =? 32 then Ok (mkIdentity seed version) else Panic.

Definition id_public_key {E} (id : LongTermIdentity) : res E PublicKey :=
  expect (backend_public_key (id_seed id)).

(** The certificate for an online public key, as both functions below make it. *)
Definition sign_delegation {E} (id : LongTermIdentity) (prefix : bytes) (dele : Delegation)
    : res E (Certificate * LongTermIdentity) :=
  dele_bytes ← expect (as_bytes dele);
  r ← expect (backend_sign (id_seed id) (prefix ++ dele_bytes));
  mret (Certificate_new (mkFixed r.1) dele, mkIdentity r.2 (id_version id)).

Definition make_online_key_draft14 {E} (w : World) (id : LongTermIdentity) (clock : ClockSource)
    (validity_length : Duration) (signer : bytes) : res E (OnlineKeyDraft14 * LongTermIdentity) :=
  let now := epoch_seconds w clock in
  let olk := OnlineKeyDraft14_new signer (id_version id) clock in
  let dele := Delegation_new (mkFixed (ok14_public_key_bytes olk)) now (as_secs validity_length) in
  r ← sign_delegation id (dele_prefix (id_version id)) dele;
  mret (ok14_set_cert olk r.1, r.2).

Definition make_online_key_draft08 {E} (w : World) (id : LongTermIdentity) (clock : ClockSource)
    (validity_length : Duration) (signer : bytes) : res E (OnlineKeyDraft08 * LongTermIdentity) :=
  let now := epoch_seconds w clock in
  let olk := OnlineKeyDraft08_new signer clock in
  let dele := Delegation_new (mkFixed (ok08_public_key_bytes olk)) now (as_secs validity_length) in
  r ← sign_delegation id (dele_prefix RfcDraft08) dele;
  mret (ok08_set_cert olk r.1, r.2).

(** ** KeySource (crates/roughenough-server/src/keysource.rs)

    The identity behind [Arc<Mutex<..>>]: an operation locks it, so it reads and
    leaves one value. *)
Record KeySource := mkKeySource {
  ks_identity : LongTermIdentity;
  ks_validity : Duration;
  ks_clock : ClockSource;
}.

(** [assert!(!validity_length.is_zero())] *)
Definition KeySource_new {E} (version : ProtocolVersion) (seed : B) (clock : ClockSource)
    (validity_length : Duration) : res E KeySource :=
  if duration_is_zero validity_length then Panic else
  identity ← LongTermIdentity_new version seed;
  mret (mkKeySource identity validity_length clock).

Definition ks_make_online_key_draft14 {E} (w : World) (ks : KeySource) (signer : bytes)
    : res E (OnlineKeyDraft14 * KeySource) :=
  r ← make_online_key_draft14 w (ks_identity ks) (ks_clock ks) (ks_validity ks) signer;
  mret (r.1, mkKeySource r.2 (ks_validity ks) (ks_clock ks)).
Definition ks_make_online_key_draft08 {E} (w : World) (ks : KeySource) (signer : bytes)
    : res E (OnlineKeyDraft08 * KeySource) :=
  r ← make_online_key_draft08 w (ks_identity ks) (ks_clock ks) (ks_validity ks) signer;
  mret (r.1, mkKeySource r.2 (ks_validity ks) (ks_clock ks)).
Definition ks_public_key {E} (ks : KeySource) : res E PublicKey := id_public_key (ks_identity ks).
End identity.

(** ** Correctness *)

Lemma write_slice_writes pre old m bs n :
  writes m bs -> length old = length bs -> n = length bs ->
  write_slice (pre ++ old) (length pre) (length pre + n) m = Ok (pre ++ bs).
Proof.
  intros Hm Hl ->. unfold write_slice. rewrite length_app, Hl.
  destruct (Nat.leb_spec (length pre) (length pre + length bs)); [|lia].
  rewrite Nat.leb_refl. cbn [andb].
  rewrite Nat.add_comm, Nat.add_sub, drop_app_length, take_app_length, <-Hl, firstn_all.
  change (new old) with (at_cursor [] old).
  rewrite <-(app_nil_r old), Hm by (by rewrite Hl). cbn [data at_cursor app].
  rewrite drop_ge by (rewrite !length_app; cbn; lia). by rewrite !app_nil_r.
Qed.

(** An online key: a template that only lacks root and time, and a signing
    buffer that starts with the prefix and fits the message. *)
Record ok14_inv (k : OnlineKeyDraft14) : Prop := {
  oi_template : srep_wf (ok14_template k);
  oi_radius : srep_radius (ok14_template k) = DEFAULT_RADI_SECONDS;
  oi_vers : srep_version (ok14_template k) ∈ versions (srep_versions (ok14_template k));
  oi_count : length (versions (srep_versions (ok14_template k))) = 1;
  oi_buf : exists tl, ok14_buf k = srep_prefix RfcDraft14 ++ tl /\
                      length tl = wire_size (ok14_template k);
  oi_cert : cert_wf (ok14_cert k);
}.

Record ok08_inv (k : OnlineKeyDraft08) : Prop := {
  o8_template : srep08_wf (ok08_template k);
  o8_offsets : offsets (srep08_header (ok08_template k)) = SREP08_OFFSETS;
  o8_radius : srep08_radius (ok08_template k) = DEFAULT_RADI_SECONDS;
  o8_buf : exists tl, ok08_buf k = srep_prefix RfcDraft08 ++ tl /\ length tl = 68;
  o8_cert : cert_wf (ok08_cert k);
}.

Context {CL : CryptoLaws C}.
#[local] Set Default Proof Using "Type*".

Lemma OnlineKeyDraft14_new_inv signer version clock cert :
  cert_wf cert -> ok14_inv (ok14_set_cert (OnlineKeyDraft14_new signer version clock) cert).
Proof.
  intros Hc. assert (srep_wf (set_vers (set_radi SignedResponse_default DEFAULT_RADI_SECONDS)
    (VersionList_new [version]))) as Hw.
  { apply set_vers_wf; [|split; [unfold MAX_VERSIONS; cbn; lia|done]|cbn; lia].
    destruct SignedResponse_default_ready as (? & ? & ? & _ & ? & ?). by split_and!. }
  split; try done; cbn.
  - destruct Hw. by split.
  - by apply list_elem_of_singleton.
  - eexists. split; [reflexivity|]. rewrite length_zeroes. by destruct version.
Qed.

Lemma OnlineKeyDraft08_new_inv signer clock cert :
  cert_wf cert -> ok08_inv (ok08_set_cert (OnlineKeyDraft08_new signer clock) cert).
Proof.
  intros Hc. split; try done; cbn.
  - split; try done. split; cbn; try done. lia.
  - by eexists.
Qed.

(** [cert] is signed by [lt_pk] under [prefix] and delegates to [signer] from
    [now] for [validity] seconds. *)
Record certified (lt_pk prefix : bytes) (cert : Certificate) (signer : bytes) (now validity : Z) : Prop := {
  ce_wf : cert_wf cert;
  ce_key : dele_public_key (cert_delegation cert) = mkFixed (ed_public signer);
  ce_mint : min_time (cert_delegation cert) = now;
  ce_maxt : max_time (cert_delegation cert) = u64_saturating_add now validity;
  ce_sig : ed_verify lt_pk (prefix ++ encode (cert_delegation cert))
             (fixed_bytes (cert_signature cert)) = true;
}.

(** What [make_srep] returns: a well-formed SREP over the root at the clock's
    time, and the online key's signature over its prefixed encoding. *)
Lemma make_srep14_spec {E} w k root :
  ok14_inv k -> world_wf w -> wf (A := FixedTag 32) root ->
  exists srep sig k', make_srep14 (E := E) w k root = Ok (srep, sig, k') /\
    srep_wf srep /\ srep_merkle_root srep = root /\
    srep_midpoint srep = epoch_seconds w (ok14_clock k) /\
    srep_radius srep = DEFAULT_RADI_SECONDS /\
    srep_version srep = srep_version (ok14_template k) /\
    srep_versions srep = srep_versions (ok14_template k) /\
    wf (A := FixedTag 64) sig /\
    ed_verify (ok14_public_key_bytes k) (srep_prefix RfcDraft14 ++ encode srep) (fixed_bytes sig) = true /\
    ok14_inv k' /\ ok14_signer k' = ok14_signer k /\ ok14_cert k' = ok14_cert k /\
    ok14_clock k' = ok14_clock k /\ ok14_template k' = ok14_template k.
Proof.
  intros [Ht Hrad Hver Hcnt (tl & Hbuf & Htl) Hc] Hw Hroot. unfold make_srep14.
  set (srep := set_midp (set_root (ok14_template k) root) _).
  assert (srep_wf srep) as Hs.
  { destruct Ht. split; try done. apply epoch_seconds_u64, Hw. }
  assert (wire_size srep = wire_size (ok14_template k)) as Hsz by done.
  pose proof (wire_size_encode srep Hs) as Hwe.
  rewrite Hbuf, (write_slice_writes _ _ _ (encode srep));
    [|by apply to_wire_writes|congruence|done].
  cbn [expect mbind res_bind]. eexists srep, _, _. split; [reflexivity|].
  rewrite firstn_all2 by (rewrite length_app; lia).
  split_and!; try done; [apply ed_sign_length|apply ed_verify_sign|].
  split; try done. cbn [ok14_buf ok14_template]. eexists. split; [reflexivity|congruence].
Qed.

Lemma make_srep08_spec {E} w k root :
  ok08_inv k -> world_wf w -> wf (A := FixedTag 32) root ->
  exists srep sig k', make_srep08 (E := E) w k root = Ok (srep, sig, k') /\
    srep08_wf srep /\ offsets (srep08_header srep) = SREP08_OFFSETS /\
    srep08_merkle_root srep = root /\
    srep08_midpoint srep = epoch_seconds w (ok08_clock k) /\
    srep08_radius srep = DEFAULT_RADI_SECONDS /\
    wf (A := FixedTag 64) sig /\
    ed_verify (ok08_public_key_bytes k) (srep_prefix RfcDraft08 ++ encode srep) (fixed_bytes sig) = true /\
    ok08_inv k' /\ ok08_signer k' = ok08_signer k /\ ok08_cert k' = ok08_cert k /\
    ok08_clock k' = ok08_clock k.
Proof.
  intros [Ht Hoff Hrad (tl & Hbuf & Htl) Hc] Hw Hroot. unfold make_srep08.
  set (srep := set_midp08 (set_root08 (ok08_template k) root) _).
  assert (srep08_wf srep) as Hs.
  { destruct Ht. split; try done. apply epoch_seconds_u64, Hw. }
  pose proof (length_encode_srep08 srep Hs) as Hwe.
  rewrite Hbuf, (write_slice_writes _ _ _ (encode srep));
    [|by apply to_wire_writes|congruence|by rewrite Hwe].
  cbn [expect mbind res_bind]. eexists srep, _, _. split; [reflexivity|].
  rewrite firstn_all2 by (rewrite length_app, Hwe; reflexivity).
  split_and!; try done; [apply ed_sign_length|apply ed_verify_sign|].
  split; try done. cbn [ok08_buf]. by eexists.
Qed.

Lemma new_key14 signer v c : ok14_public_key_bytes (OnlineKeyDraft14_new signer v c) = ed_public signer.
Proof. reflexivity. Qed.
Lemma new_key08 signer c : ok08_public_key_bytes (OnlineKeyDraft08_new signer c) = ed_public signer.
Proof. reflexivity. Qed.

Section identity_correct.
Context {B : Type} `{!SeedBackend B} `{!LawfulSeedBackend B}.

Lemma sign_delegation_spec {E} (id : LongTermIdentity (B := B)) sk prefix signer now validity :
  holds (id_seed id) sk -> is_u64 now -> is_u64 validity ->
  exists cert id', sign_delegation (E := E) id prefix
      (Delegation_new (mkFixed (ed_public signer)) now validity) = Ok (cert, id') /\
    certified (ed_public sk) prefix cert signer now validity /\
    holds (id_seed id') sk /\ id_version id' = id_version id.
Proof.
  intros Hh Hn Hv. unfold sign_delegation. set (dele := Delegation_new _ _ _).
  assert (dele_wf dele) as Hd by (apply Delegation_new_wf; [apply ed_public_length|done|done]).
  rewrite (as_bytes_encode dele) by done. cbn [expect mbind res_bind].
  destruct (holds_sign _ _ (prefix ++ encode dele) Hh) as (b' & -> & Hh').
  eexists _, _. split; [reflexivity|]. split_and!; try done.
  split; try done; cbn; [|apply ed_verify_sign]. apply Certificate_new_wf; [apply ed_sign_length|done].
Qed.

Lemma make_online_key_draft14_spec {E} w id sk clock validity signer :
  holds (id_seed id) sk -> world_wf w -> is_u64 (as_secs validity) ->
  exists k id', make_online_key_draft14 (E := E) (B := B) w id clock validity signer = Ok (k, id') /\
    ok14_inv k /\ ok14_signer k = signer /\ ok14_clock k = clock /\
    srep_version (ok14_template k) = id_version id /\
    versions (srep_versions (ok14_template k)) = [id_version id] /\
    certified (ed_public sk) (dele_prefix (id_version id)) (ok14_cert k) signer
      (epoch_seconds w clock) (as_secs validity) /\
    holds (id_seed id') sk /\ id_version id' = id_version id.
Proof.
  intros Hh Hw Hv. unfold make_online_key_draft14.
  destruct (sign_delegation_spec (E := E) id sk (dele_prefix (id_version id)) signer
    (epoch_seconds w clock) (as_secs validity) Hh (epoch_seconds_u64 w clock Hw) Hv)
    as (cert & id' & Hs & Hc & Hh' & Hver).
  rewrite new_key14, Hs. cbn [mbind res_bind].
  eexists _, _. split; [reflexivity|]. split; [apply OnlineKeyDraft14_new_inv, Hc|].
  split_and!; done.
Qed.

Lemma make_online_key_draft08_spec {E} w id sk clock validity signer :
  holds (id_seed id) sk -> world_wf w -> is_u64 (as_secs validity) ->
  exists k id', make_online_key_draft08 (E := E) (B := B) w id clock validity signer = Ok (k, id') /\
    ok08_inv k /\ ok08_signer k = signer /\ ok08_clock k = clock /\
    certified (ed_public sk) (dele_prefix RfcDraft08) (ok08_cert k) signer
      (epoch_seconds w clock) (as_secs validity) /\
    holds (id_seed id') sk /\ id_version id' = id_version id.
Proof.
  intros Hh Hw Hv. unfold make_online_key_draft08.
  destruct (sign_delegation_spec (E := E) id sk (dele_prefix RfcDraft08) signer
    (epoch_seconds w clock) (as_secs validity) Hh (epoch_seconds_u64 w clock Hw) Hv)
    as (cert & id' & Hs & Hc & Hh' & Hver).
  rewrite new_key08, Hs. cbn [mbind res_bind].
  eexists _, _. split; [reflexivity|]. split; [apply OnlineKeyDraft08_new_inv, Hc|].
  split_and!; done.
Qed.
End identity_correct.

(** The memory backend keeps its promises once it has a seed. *)
Definition memory_holds (b : MemoryBackend) (sk : bytes) : Prop :=
  length sk = 32 /\ mem_seed b = Some (mkSeed sk) /\ mem_public_key b = Some (mkFixed (ed_public sk)).

#[export] Instance MemoryBackend_Lawful : LawfulSeedBackend MemoryBackend.
Proof.
  refine {| holds := memory_holds |}.
  - intros b sk (Hl & Hs & _). cbn. by rewrite Hs.
  - intros b sk d (Hl & Hs & Hp). exists b. cbn. rewrite Hs. unfold Seed_new. cbn. by rewrite Hl.
  - intros b sk (_ & _ & Hp). cbn. by rewrite Hp.
Defined.

Lemma MemoryBackend_from_value_spec value : length value = 32 ->
  exists b, MemoryBackend_from_value value = Ok b /\ memory_holds b value.
Proof.
  intros Hl. unfold MemoryBackend_from_value, Seed_new. rewrite Hl. cbn.
  unfold PublicKey_from, copy_from_slice. rewrite ed_public_length. cbn.
  eexists. split; [reflexivity|]. by split_and!.
Qed.

End keys.
