(* ===== verification/Longterm.v ===== *)
(** * Long-term storage of the seed (crates/roughenough-keys/src/longterm)

    envelope.rs ([SeedEnvelope], its JSON form, [seal_seed], [open_seed]) and the
    four services: awskms.rs, gcpkms.rs, awssecret.rs and gcpsecret.rs.  The cloud
    clients, the cipher and the JSON reader and printer are the parameters
    [CloudServices] and [Json]; a call of a client returns [None] when it fails.
    [W] is everything outside the program.  [E] is the error type of the caller,
    since these functions panic where they fail. *)
From Stdlib Require Import Ascii.
From S2P Require Import Prelude Text Errors Cursor Wire FixedTags Encoding Versions Crypto Keys.


Record SeedEnvelope := mkEnvelope {
  env_key_id : string;
  env_seed_ct : bytes;
  env_dek_ct : bytes;
}.

(** serde_json on objects whose members are strings, in order. *)
Class Json := {
  print_object : list (string * string) -> string;
  parse_object : bytes -> option (list (string * string));
}.
Class JsonLaws (J : Json) : Prop := {
  parse_print o : parse_object (str_bytes (print_object o)) = Some o;
  print_brace o : exists r, print_object o = "{" +:+ r;
}.

Record AwsEncryptOutput := mkAwsEncrypt { ae_key_id : option string; ae_ciphertext_blob : option bytes }.
Record AwsDecryptOutput := mkAwsDecrypt { ad_key_id : option string; ad_plaintext : option bytes }.
Record GcpEncryptResponse := mkGcpEncrypt {
  ge_name : string;
  ge_ciphertext : bytes;
  ge_ciphertext_crc32c : option Z;
  ge_verified_plaintext_crc32c : bool;
}.
Record GcpDecryptResponse := mkGcpDecrypt { gd_plaintext : bytes; gd_plaintext_crc32c : option Z }.
Record SecretPayload := mkPayload { pl_data : bytes; pl_data_crc32c : option Z }.

Class CloudServices (W : Type) := {
  (** roughenough_common's [random_bytes::<32>], from aws-lc-rs *)
  cloud_random : W -> bytes * W;
  (** AES-256-GCM with a random nonce: the text with its tag, and the nonce *)
  aead_tag_len : nat;
  aead_nonce_len : nat;
  aead_seal (dek aad plaintext : bytes) : W -> option (bytes * bytes) * W;
  aead_open (dek nonce aad ciphertext : bytes) : option bytes;
  crc32c : bytes -> Z;
  aws_encrypt (region key_id : string) (plaintext : bytes) (context : string * string) :
    W -> option AwsEncryptOutput * W;
  aws_decrypt (region key_id : string) (ciphertext : bytes) (context : string * string) :
    W -> option AwsDecryptOutput * W;
  (** the value of the secret, if the response has one *)
  aws_get_secret_value (region secret_id : string) : W -> option (option string) * W;
  aws_put_secret_value (region secret_id value : string) : W -> bool * W;
  gcp_kms_client : W -> bool * W;
  gcp_encrypt (name : string) (plaintext : bytes) (crc : Z) (aad : bytes) : W -> option GcpEncryptResponse * W;
  gcp_decrypt (name : string) (ciphertext : bytes) (crc : Z) (aad : bytes) : W -> option GcpDecryptResponse * W;
  gcp_secret_client : W -> bool * W;
  gcp_access_secret_version (name : string) : W -> option (option SecretPayload) * W;
  (** the name of the new version *)
  gcp_add_secret_version (parent : string) (payload : SecretPayload) : W -> option string * W;
}.

Section longterm.
Context {D : DataEncoding} {J : Json} {W : Type} {K : CloudServices W} {E : Type}.

Abbreviation IO := (io W E).

(** A call whose failure is unwrapped. *)
Definition call {A} (f : W -> option A * W) : IO A := fun w =>
  match f w with (Some a, w') => (Ok a, w') | (None, w') => (Panic, w') end.
Definition unwrap {A} (x : option A) : IO A := lift (match x with Some a => Ok a | None => Panic end).
Definition assert_ (b : bool) : IO unit := lift (if b then Ok tt else Panic).
(** A client that must build. *)
Definition connect (f : W -> bool * W) : IO unit := fun w =>
  let (ok, w') := f w in (if ok then Ok tt else Panic, w').
(** A call that always returns. *)
Definition effect {A} (f : W -> A * W) : IO A := fun w => let (a, w') := f w in (Ok a, w').
Definition draw_dek : IO bytes := effect cloud_random.

(** ** envelope.rs *)

(** The module [base64] of envelope.rs. *)
Definition base64_serialize (v : bytes) : string := encode_str BASE64_NOPAD v.
Definition base64_deserialize (s : string) : option bytes :=
  match decode BASE64_NOPAD (str_bytes s) with inr v => Some v | inl _ => None end.

(** The derived [Serialize]: empty byte strings are skipped. *)
Definition ct_field (name : string) (v : bytes) : list (string * string) :=
  match v with [] => [] | _ => [(name, base64_serialize v)] end.
Definition envelope_to_fields (e : SeedEnvelope) : list (string * string) :=
  (("key_id", env_key_id e) :: ct_field "seed_ct" (env_seed_ct e)) ++ ct_field "dek_ct" (env_dek_ct e).
(** The derived [Deserialize]: no field has a default, so that each must be there,
    once. *)
Definition field (name : string) (fs : list (string * string)) : option string :=
  match filter (fun kv => kv.1 = name) fs with [(_, v)] => Some v | _ => None end.
Definition envelope_of_fields (fs : list (string * string)) : option SeedEnvelope :=
  key_id ← field "key_id" fs;
  seed_ct ← field "seed_ct" fs ≫= base64_deserialize;
  dek_ct ← field "dek_ct" fs ≫= base64_deserialize;
  Some (mkEnvelope key_id seed_ct dek_ct).

(** [serde_json::to_string_pretty(&envelope)] and [serde_json::from_slice] *)
Definition envelope_to_json (e : SeedEnvelope) : string := print_object (envelope_to_fields e).
Definition envelope_from_json (bs : bytes) : option SeedEnvelope := parse_object bs ≫= envelope_of_fields.

Definition seal_seed (dek : bytes) (seed : Seed) (aad : bytes) : IO bytes :=
  sealed ← call (aead_seal dek aad (seed_value seed));
  let in_out := sealed.1 ++ sealed.2 in
  _ ← assert_ (length in_out =? length (seed_value seed) + aead_tag_len + aead_nonce_len);
  mret in_out.

(** [open_seed]; its only error is [Unspecified].  A text shorter than a nonce
    panics in either profile: in the subtraction, or in the slice after it wraps. *)
Definition open_seed (dek encrypted_seed aad : bytes) : res unit Seed :=
  ciphertext_len ← usize_sub (length encrypted_seed) aead_nonce_len;
  let nonce := drop ciphertext_len encrypted_seed in
  if negb (length nonce =? aead_nonce_len) then Err tt
  else match aead_open dek nonce aad (take ciphertext_len encrypted_seed) with
       | Some plaintext => Seed_new plaintext
       | None => Err tt
       end.

(** ** Prefixes of the resources (storage.rs) *)

Inductive Protection : Type := Plain | AwsKms | GcpKms | AwsSecretManager | GcpSecretManager.

Definition protection_prefix (p : Protection) : string :=
  match p with
  | Plain => "seed://"
  | AwsKms => "aws-kms://"
  | GcpKms => "gcp-kms://"
  | AwsSecretManager => "aws-secret://"
  | GcpSecretManager => "gcp-secret://"
  end.

(** ** awskms.rs *)

Definition AAD : string := "roughenough-seed".

(** [arn.split(":").nth(3).unwrap()] *)
Definition extract_aws_region (arn : string) : IO string := unwrap (split_on ":" arn !! 3).

Definition copy_dek (plaintext : bytes) : IO bytes :=
  lift (if length plaintext =? 32 then Ok plaintext else Panic).

Definition aws_seal_dek (dek : bytes) (key_id : string) : IO bytes :=
  region ← extract_aws_region key_id;
  response ← call (aws_encrypt region key_id dek (AAD, AAD));
  response_key_id ← unwrap (ae_key_id response);
  _ ← assert_ (String.eqb key_id response_key_id);
  unwrap (ae_ciphertext_blob response).

Definition aws_open_dek (dek_ciphertext : bytes) (key_id : string) : IO bytes :=
  region ← extract_aws_region key_id;
  response ← call (aws_decrypt region key_id dek_ciphertext (AAD, AAD));
  response_key_id ← unwrap (ad_key_id response);
  _ ← assert_ (String.eqb key_id response_key_id);
  plaintext ← unwrap (ad_plaintext response);
  copy_dek plaintext.

Definition aws_encrypt_seed (key_id : string) (seed : Seed) : IO SeedEnvelope :=
  dek ← draw_dek;
  dek_ciphertext ← aws_seal_dek dek key_id;
  seed_ciphertext ← seal_seed dek seed (str_bytes AAD);
  mret (mkEnvelope (protection_prefix AwsKms +:+ key_id) seed_ciphertext dek_ciphertext).

Definition aws_decrypt_seed (envelope : SeedEnvelope) : IO Seed :=
  key_id ← unwrap (strip_prefix (protection_prefix AwsKms) (env_key_id envelope));
  dek ← aws_open_dek (env_dek_ct envelope) key_id;
  lift (expect (open_seed dek (env_seed_ct envelope) (str_bytes AAD))).

(** ** gcpkms.rs *)

(** [x.unwrap() as u32] *)
Definition unwrap_u32 (x : option Z) : IO Z := v ← unwrap x; mret (v mod 2 ^ 32)%Z.

Definition gcp_seal_dek (dek : bytes) (key_id : string) : IO bytes :=
  _ ← connect gcp_kms_client;
  dek_result ← call (gcp_encrypt key_id dek (crc32c dek) (str_bytes AAD));
  crc ← unwrap_u32 (ge_ciphertext_crc32c dek_result);
  _ ← assert_ (crc =? crc32c (ge_ciphertext dek_result))%Z;
  _ ← assert_ (starts_with key_id (ge_name dek_result));
  _ ← assert_ (ge_verified_plaintext_crc32c dek_result);
  mret (ge_ciphertext dek_result).

Definition gcp_open_dek (dek_ciphertext : bytes) (key_id : string) : IO bytes :=
  _ ← connect gcp_kms_client;
  result ← call (gcp_decrypt key_id dek_ciphertext (crc32c dek_ciphertext) (str_bytes AAD));
  crc ← unwrap_u32 (gd_plaintext_crc32c result);
  _ ← assert_ (crc =? crc32c (gd_plaintext result))%Z;
  copy_dek (gd_plaintext result).

Definition gcp_encrypt_seed (key_id : string) (seed : Seed) : IO SeedEnvelope :=
  dek ← draw_dek;
  dek_ciphertext ← gcp_seal_dek dek key_id;
  seed_ciphertext ← seal_seed dek seed (str_bytes AAD);
  mret (mkEnvelope (protection_prefix GcpKms +:+ key_id) seed_ciphertext dek_ciphertext).

Definition gcp_decrypt_seed (envelope : SeedEnvelope) : IO Seed :=
  key_id ← unwrap (strip_prefix (protection_prefix GcpKms) (env_key_id envelope));
  dek ← gcp_open_dek (env_dek_ct envelope) key_id;
  lift (expect (open_seed dek (env_seed_ct envelope) (str_bytes AAD))).

(** ** awssecret.rs *)

(** [util::as_hex] *)
Definition as_hex (bs : bytes) : string := of_bytes (hex_encode hex_lower bs).

Definition aws_get_seed (resource : string) : IO Seed :=
  region ← extract_aws_region resource;
  response ← call (aws_get_secret_value region resource);
  encoded_value ← unwrap response;
  let encoded_str := from_utf8_lossy (str_bytes encoded_value) in
  value ← lift (expect (try_decode encoded_str));
  lift (Seed_new value).

Definition aws_store_seed (resource : string) (seed : Seed) : IO bool :=
  region ← extract_aws_region resource;
  effect (aws_put_secret_value region resource (as_hex (seed_value seed))).

(** ** gcpsecret.rs *)

Definition gcp_get_seed (resource : string) : IO Seed :=
  _ ← connect gcp_secret_client;
  result ← call (gcp_access_secret_version resource);
  payload ← unwrap result;
  let encoded_value := pl_data payload in
  _ ← match pl_data_crc32c payload with
      | Some data_crc32c => assert_ (data_crc32c mod 2 ^ 32 =? crc32c encoded_value)%Z
      | None => mret tt
      end;
  value ← lift (expect (try_decode (from_utf8_lossy encoded_value)));
  lift (Seed_new value).

(** [extract_secret_parent]: [None] is its error. *)
Definition extract_secret_parent (resource : string) : option string :=
  match split_on "/" resource with
  | p0 :: p1 :: p2 :: p3 :: rest =>
      if String.eqb p0 "projects" && String.eqb p2 "secrets" then
        match rest with
        | [] => Some resource
        | _ => Some (p0 +:+ "/" +:+ p1 +:+ "/" +:+ p2 +:+ "/" +:+ p3)
        end
      else None
  | _ => None
  end.

(** [store_seed]: the name of the version, or [None] for its error. *)
Definition gcp_store_seed (resource : string) (seed : Seed) : IO (option string) :=
  connected ← effect gcp_secret_client;
  if negb connected then mret None
  else
    let data := str_bytes (as_hex (seed_value seed)) in
    let payload := mkPayload data (Some (crc32c data)) in
    match extract_secret_parent resource with
    | None => mret None
    | Some parent => effect (gcp_add_secret_version parent payload)
    end.

End longterm.
