(* ===== verification/Storage.v ===== *)
(** * Loading and storing the seed (crates/roughenough-keys/src/storage.rs)

    A resource is a protection prefix and a value; [try_load_seed] and
    [try_store_seed] dispatch on it.  The cargo features that compile the services
    in are [Features].  The messages of errors are not kept. *)
From Stdlib Require Import Ascii.
From stdpp Require Import countable.
From S2P Require Import Prelude Text Errors Cursor Wire FixedTags Encoding Versions Crypto Keys Longterm.

Inductive StorageError : Type :=
| InvalidSeed
| NotImplemented
| SeedDecodeError (e : DecodeError)
| InvalidJson
| SecretManager.

Record Features := mkFeatures {
  longterm_aws_kms : bool;
  longterm_gcp_kms : bool;
  longterm_aws_secret_manager : bool;
  longterm_gcp_secret_manager : bool;
}.

Definition from_prefix (prefix : string) : option Protection :=
  if starts_with "aws-kms://" prefix then Some AwsKms
  else if starts_with "aws-secret://" prefix then Some AwsSecretManager
  else if starts_with "gcp-kms://" prefix then Some GcpKms
  else if starts_with "gcp-secret://" prefix then Some GcpSecretManager
  else if starts_with "seed://" prefix then Some Plain
  else None.

Section storage.
Context {D : DataEncoding} {J : Json} {W : Type} {K : CloudServices W} (features : Features).

Abbreviation IO := (io W StorageError).

Definition try_load_plain (value : string) : IO Seed :=
  data ← lift (map_err SeedDecodeError (try_decode value));
  if negb (length data =? 32) then throw InvalidSeed else lift (Seed_new data).

(** The two lines that each of the four loads starts with. *)
Definition decode_envelope (value : string) : IO SeedEnvelope :=
  json_envelope ← lift (map_err SeedDecodeError (try_decode value));
  match envelope_from_json json_envelope with Some e => mret e | None => throw InvalidJson end.

Definition try_load_aws_kms (value : string) : IO Seed :=
  if longterm_aws_kms features then
    seed_envelope ← decode_envelope value;
    aws_decrypt_seed seed_envelope
  else throw NotImplemented.
Definition try_load_gcp_kms (value : string) : IO Seed :=
  if longterm_gcp_kms features then
    seed_envelope ← decode_envelope value;
    gcp_decrypt_seed seed_envelope
  else throw NotImplemented.
Definition try_load_aws_secret_manager (value : string) : IO Seed :=
  if longterm_aws_secret_manager features then
    seed_envelope ← decode_envelope value;
    secret_id ← unwrap (strip_prefix (protection_prefix AwsSecretManager) (env_key_id seed_envelope));
    aws_get_seed secret_id
  else throw NotImplemented.
Definition try_load_gcp_secret_manager (value : string) : IO Seed :=
  if longterm_gcp_secret_manager features then
    seed_envelope ← decode_envelope value;
    secret_id ← unwrap (strip_prefix (protection_prefix GcpSecretManager) (env_key_id seed_envelope));
    gcp_get_seed secret_id
  else throw NotImplemented.

Definition try_load (p : Protection) (value : string) : IO Seed :=
  match p with
  | Plain => try_load_plain value
  | AwsKms => try_load_aws_kms value
  | GcpKms => try_load_gcp_kms value
  | AwsSecretManager => try_load_aws_secret_manager value
  | GcpSecretManager => try_load_gcp_secret_manager value
  end.

Definition try_store_aws_kms (seed : Seed) (resource_id : string) : IO SeedEnvelope :=
  if longterm_aws_kms features then aws_encrypt_seed resource_id seed else throw NotImplemented.
Definition try_store_gcp_kms (seed : Seed) (resource_id : string) : IO SeedEnvelope :=
  if longterm_gcp_kms features then gcp_encrypt_seed resource_id seed else throw NotImplemented.
Definition try_store_aws_secret_manager (seed : Seed) (resource_id : string) : IO SeedEnvelope :=
  if longterm_aws_secret_manager features then
    stored ← aws_store_seed resource_id seed;
    if stored : bool then mret (mkEnvelope (protection_prefix AwsSecretManager +:+ resource_id) [] [])
    else throw SecretManager
  else throw NotImplemented.
Definition try_store_gcp_secret_manager (seed : Seed) (resource_id : string) : IO SeedEnvelope :=
  if longterm_gcp_secret_manager features then
    stored ← gcp_store_seed resource_id seed;
    match stored with
    | Some version => mret (mkEnvelope (protection_prefix GcpSecretManager +:+ version) [] [])
    | None => throw SecretManager
    end
  else throw NotImplemented.

(** [unreachable!] for [Plain]. *)
Definition try_store (p : Protection) (seed : Seed) (resource_id : string) : IO SeedEnvelope :=
  match p with
  | AwsKms => try_store_aws_kms seed resource_id
  | GcpKms => try_store_gcp_kms seed resource_id
  | AwsSecretManager => try_store_aws_secret_manager seed resource_id
  | GcpSecretManager => try_store_gcp_secret_manager seed resource_id
  | Plain => lift Panic
  end.

Definition try_load_seed (encoded_value : string) : IO Seed :=
  match from_prefix encoded_value with
  | Some method =>
      value ← unwrap (strip_prefix (protection_prefix method) encoded_value);
      try_load method value
  | None => try_load Plain encoded_value
  end.

Definition try_store_seed (seed : Seed) (resource_id : string) : IO SeedEnvelope :=
  match from_prefix resource_id with
  | Some method =>
      resource_id' ← unwrap (strip_prefix (protection_prefix method) resource_id);
      try_store method seed resource_id'
  | None => throw InvalidSeed
  end.

(** ** Prefixes *)

Lemma from_prefix_app p value : from_prefix (protection_prefix p +:+ value) = Some p.
Proof using Type. destruct p; reflexivity. Qed.

Lemma from_prefix_Some s p : from_prefix s = Some p -> exists value, s = protection_prefix p +:+ value.
Proof using Type.
  unfold from_prefix, starts_with. intros H.
  repeat (destruct (strip_prefix _ s) as [r|] eqn:Hs in H;
    [injection H as <-; exists r; by apply strip_prefix_Some in Hs|clear Hs]).
  discriminate.
Qed.

Lemma try_load_seed_prefix p value w : try_load_seed (protection_prefix p +:+ value) w = try_load p value w.
Proof using Type. unfold try_load_seed. by rewrite from_prefix_app, strip_prefix_app. Qed.
Lemma try_store_seed_prefix p seed r w :
  try_store_seed seed (protection_prefix p +:+ r) w = try_store p seed r w.
Proof using Type. unfold try_store_seed. by rewrite from_prefix_app, strip_prefix_app. Qed.

End storage.

(** ** The laws of the services *)

(** The random source, the cipher and the checksum always do their work.  A KMS may
    fail any call, and name any key in its answers: what it encrypted is not empty,
    and when it answers the decryption of it, under the same name and with the same
    context, then with the same plaintext. *)
Class CloudLaws {W : Type} (K : CloudServices W) : Prop := {
  cloud_random_length w : length (cloud_random w).1 = 32;
  aead_ok dek aad plaintext w : length dek = 32 ->
    exists ct nonce w', aead_seal dek aad plaintext w = (Some (ct, nonce), w') /\
      length ct = length plaintext + aead_tag_len /\ length nonce = aead_nonce_len /\
      aead_open dek nonce aad ct = Some plaintext;
  crc32c_range bs : is_u32 (crc32c bs);
  aws_decrypts region key_id plaintext context w r ct w1 r1 pt :
    (aws_encrypt region key_id plaintext context w).1 = Some r -> ae_ciphertext_blob r = Some ct ->
    (aws_decrypt region key_id ct context w1).1 = Some r1 -> ad_plaintext r1 = Some pt -> pt = plaintext;
  aws_ciphertext region key_id plaintext context w r :
    (aws_encrypt region key_id plaintext context w).1 = Some r -> ae_ciphertext_blob r <> Some [];
  gcp_decrypts key_id plaintext aad w r w1 r1 :
    (gcp_encrypt key_id plaintext (crc32c plaintext) aad w).1 = Some r ->
    (gcp_decrypt key_id (ge_ciphertext r) (crc32c (ge_ciphertext r)) aad w1).1 = Some r1 ->
    gd_plaintext r1 = plaintext;
  gcp_ciphertext key_id plaintext aad w r :
    (gcp_encrypt key_id plaintext (crc32c plaintext) aad w).1 = Some r -> ge_ciphertext r <> [];
}.

(** What the sources demand of the answers of a KMS: that it answers at all, for AWS
    names the very key it was asked for (the services name the key by its ARN, so
    that a key given by an alias is refused), and for GCP that the checksums agree. *)
Section answers.
Context {W : Type} {K : CloudServices W}.

Definition crc_agrees (crc : option Z) (bs : bytes) : bool :=
  match crc with Some c => (c mod 2 ^ 32 =? crc32c bs)%Z | None => false end.

Definition aws_accepts (key : string) (dek : bytes) (w : W) : bool :=
  match split_on ":" key !! 3 with
  | Some region =>
      match (aws_encrypt region key dek (AAD, AAD) w).1 with
      | Some r => match ae_key_id r, ae_ciphertext_blob r with
                  | Some key', Some _ => String.eqb key key'
                  | _, _ => false
                  end
      | None => false
      end
  | None => false
  end.
Definition aws_answers (key : string) (ct : bytes) (w : W) : bool :=
  match split_on ":" key !! 3 with
  | Some region =>
      match (aws_decrypt region key ct (AAD, AAD) w).1 with
      | Some r => match ad_key_id r, ad_plaintext r with
                  | Some key', Some _ => String.eqb key key'
                  | _, _ => false
                  end
      | None => false
      end
  | None => false
  end.

Definition gcp_accepts (key : string) (dek : bytes) (w : W) : bool :=
  let (connected, w1) := gcp_kms_client w in
  connected &&
  match (gcp_encrypt key dek (crc32c dek) (str_bytes AAD) w1).1 with
  | Some r => crc_agrees (ge_ciphertext_crc32c r) (ge_ciphertext r) && starts_with key (ge_name r) &&
      ge_verified_plaintext_crc32c r
  | None => false
  end.
Definition gcp_answers (key : string) (ct : bytes) (w : W) : bool :=
  let (connected, w1) := gcp_kms_client w in
  connected &&
  match (gcp_decrypt key ct (crc32c ct) (str_bytes AAD) w1).1 with
  | Some r => crc_agrees (gd_plaintext_crc32c r) (gd_plaintext r)
  | None => false
  end.

(** The KMS accepts a fresh key to encrypt at [w]; it decrypts [ct] at [w]. *)
Definition kms_accepts (p : Protection) (key : string) (w : W) : bool :=
  let (dek, w1) := cloud_random w in
  match p with AwsKms => aws_accepts key dek w1 | GcpKms => gcp_accepts key dek w1 | _ => false end.
Definition kms_answers (p : Protection) (key : string) (ct : bytes) (w : W) : bool :=
  match p with AwsKms => aws_answers key ct w | GcpKms => gcp_answers key ct w | _ => false end.
End answers.

(** A KMS that the build supports. *)
Definition kms_enabled (features : Features) (p : Protection) : Prop :=
  match p with
  | AwsKms => longterm_aws_kms features = true
  | GcpKms => longterm_gcp_kms features = true
  | _ => False
  end.

Section correct.
Context {D : DataEncoding} {DL : DataEncodingLaws D} {J : Json} {JL : JsonLaws J}.
Context {W : Type} {K : CloudServices W} {KL : CloudLaws K}.

Lemma base64_roundtrip v : base64_deserialize (base64_serialize v) = Some v.
Proof using DL.
  unfold base64_deserialize, base64_serialize. rewrite (implements_encode _ _ BASE64_NOPAD_ok).
  assert (decode BASE64_NOPAD (b64_encode b64_std false v) = inr v) as ->; [|done].
  by apply (implements_decode _ _ BASE64_NOPAD_ok).
Qed.

(** The JSON form of an envelope is read back if no text in it is empty, and is
    refused otherwise. *)
Lemma envelope_json e :
  envelope_from_json (str_bytes (envelope_to_json e)) =
  match env_seed_ct e, env_dek_ct e with _ :: _, _ :: _ => Some e | _, _ => None end.
Proof using DL JL.
  unfold envelope_from_json, envelope_to_json. rewrite parse_print. cbn [mbind option_bind].
  destruct e as [key [|a sct] [|b dct]]; [reflexivity..| |].
  - change (envelope_of_fields _) with
      (seed_ct ← base64_deserialize (base64_serialize (a :: sct)); None : option SeedEnvelope).
    by rewrite base64_roundtrip.
  - change (envelope_of_fields _) with
      (seed_ct ← base64_deserialize (base64_serialize (a :: sct));
       dek_ct ← base64_deserialize (base64_serialize (b :: dct)); Some (mkEnvelope key seed_ct dek_ct)).
    by rewrite !base64_roundtrip.
Qed.

Lemma seal_open {E} dek seed aad w : length dek = 32 -> length (seed_value seed) = 32 ->
  exists ct w', seal_seed (E := E) dek seed aad w = (Ok ct, w') /\ ct <> [] /\ open_seed dek ct aad = Ok seed.
Proof using KL.
  intros Hd Hs. destruct (aead_ok dek aad (seed_value seed) w Hd) as (ct & nonce & w' & Hseal & Hct & Hn & Hopen).
  exists (ct ++ nonce), w'. unfold seal_seed, call, assert_, mbind, io_bind, lift, mret, io_ret.
  rewrite Hseal. cbn [fst snd]. rewrite length_app, Hct, Hn, Nat.eqb_refl. split; [done|]. split.
  - intros Hnil%(f_equal length). rewrite length_app in Hnil. cbn in Hnil. lia.
  - unfold open_seed, usize_sub. rewrite length_app. destruct (Nat.leb_spec aead_nonce_len (length ct + length nonce)); [|lia].
    cbn [mbind res_bind]. replace (length ct + length nonce - aead_nonce_len) with (length ct) by lia.
    rewrite drop_app_length, take_app_length, Hn, Nat.eqb_refl. cbn [negb]. rewrite Hopen.
    unfold Seed_new. rewrite Hs. by destruct seed.
Qed.

(** The envelope of [seed] under [key]: its texts are not empty, and [dec] opens it
    whenever the KMS answers, to that seed and no other. *)
Record kms_envelope {E} (p : Protection) (key : string) (seed : Seed) (env : SeedEnvelope)
    (dec : SeedEnvelope -> io W E Seed) : Prop := {
  ke_key : env_key_id env = protection_prefix p +:+ key;
  ke_seed_ct : env_seed_ct env <> [];
  ke_dek_ct : env_dek_ct env <> [];
  ke_opens w : (dec env w).1 = if kms_answers p key (env_dek_ct env) w then Ok seed else Panic;
}.

(** An encryption makes such an envelope if the KMS accepts, and else panics. *)
Definition kms_seals {E} (p : Protection) (key : string) (seed : Seed) (w : W)
    (enc : io W E SeedEnvelope) (dec : SeedEnvelope -> io W E Seed) : Prop :=
  match enc w with
  | (Ok env, _) => kms_accepts p key w = true /\ kms_envelope p key seed env dec
  | (Err _, _) => False
  | (Panic, _) => kms_accepts p key w = false
  end.

Lemma aws_kms_seals {E} key seed w : length (seed_value seed) = 32 ->
  kms_seals (E := E) AwsKms key seed w (aws_encrypt_seed key seed) aws_decrypt_seed.
Proof using KL.
  intros Hs. unfold kms_seals, kms_accepts, aws_accepts, aws_encrypt_seed, aws_seal_dek, extract_aws_region.
  unfold draw_dek, effect, call, unwrap, assert_, mbind, io_bind, lift, mret, io_ret.
  pose proof (cloud_random_length w) as Hlen. destruct (cloud_random w) as [dek w0]. cbn [fst] in Hlen.
  destruct (split_on ":" key !! 3) as [region|] eqn:Hr; [|done].
  destruct (aws_encrypt region key dek (AAD, AAD) w0) as [[r|] w1] eqn:Henc; cbn [fst]; [|done].
  pose proof (aws_decrypts region key dek (AAD, AAD) w0 r) as Hdec.
  pose proof (aws_ciphertext region key dek (AAD, AAD) w0 r) as Hne. rewrite Henc in Hdec, Hne. cbn [fst] in Hdec, Hne.
  destruct (ae_key_id r) as [key'|]; [|done].
  destruct (ae_ciphertext_blob r) as [ct|] eqn:Hct; [|by destruct (String.eqb key key')].
  destruct (String.eqb key key'); [|done].
  destruct (seal_open (E := E) dek seed (str_bytes AAD) w1 Hlen Hs) as (sct & w2 & Hseal & Hsne & Hopen).
  rewrite Hseal. split; [done|]. split; cbn [env_key_id env_seed_ct env_dek_ct]; [done|done|by intros ->; apply Hne|].
  intros w3. unfold aws_decrypt_seed, aws_open_dek, extract_aws_region, copy_dek, call, unwrap, assert_.
  unfold kms_answers, aws_answers, mbind, io_bind, lift, mret, io_ret. cbn [env_key_id env_dek_ct env_seed_ct].
  rewrite strip_prefix_app, Hr. specialize (Hdec ct w3).
  destruct (aws_decrypt region key ct (AAD, AAD) w3) as [[r1|] w4]; cbn [fst] in *; [|done].
  destruct (ad_key_id r1) as [key''|]; [|done].
  destruct (ad_plaintext r1) as [pt|] eqn:Hpt; [|by destruct (String.eqb key key'')].
  destruct (String.eqb key key''); [|done]. rewrite (Hdec r1 pt eq_refl eq_refl eq_refl Hpt).
  by rewrite Hlen, Nat.eqb_refl, Hopen.
Qed.

Lemma gcp_kms_seals {E} key seed w : length (seed_value seed) = 32 ->
  kms_seals (E := E) GcpKms key seed w (gcp_encrypt_seed key seed) gcp_decrypt_seed.
Proof using KL.
  intros Hs. unfold kms_seals, kms_accepts, gcp_accepts, crc_agrees, gcp_encrypt_seed, gcp_seal_dek.
  unfold draw_dek, effect, connect, call, unwrap_u32, unwrap, assert_, mbind, io_bind, lift, mret, io_ret.
  pose proof (cloud_random_length w) as Hlen. destruct (cloud_random w) as [dek w0]. cbn [fst] in Hlen.
  destruct (gcp_kms_client w0) as [[|] w1]; cbn [andb]; [|done].
  destruct (gcp_encrypt key dek (crc32c dek) (str_bytes AAD) w1) as [[r|] w2] eqn:Henc; cbn [fst]; [|done].
  pose proof (gcp_decrypts key dek (str_bytes AAD) w1 r) as Hdec.
  pose proof (gcp_ciphertext key dek (str_bytes AAD) w1 r) as Hne. rewrite Henc in Hdec, Hne. cbn [fst] in Hdec, Hne.
  destruct (ge_ciphertext_crc32c r) as [crc|]; [|done].
  destruct (crc mod 2 ^ 32 =? crc32c (ge_ciphertext r))%Z; cbn [andb]; [|done].
  destruct (starts_with key (ge_name r)); cbn [andb]; [|done].
  destruct (ge_verified_plaintext_crc32c r); [|done].
  destruct (seal_open (E := E) dek seed (str_bytes AAD) w2 Hlen Hs) as (sct & w3 & Hseal & Hsne & Hopen).
  rewrite Hseal. split; [done|]. split; cbn [env_key_id env_seed_ct env_dek_ct]; [done|done|by apply Hne|].
  intros w4. unfold gcp_decrypt_seed, gcp_open_dek, copy_dek, connect, call, unwrap_u32, unwrap, assert_.
  unfold kms_answers, gcp_answers, crc_agrees, mbind, io_bind, lift, mret, io_ret.
  cbn [env_key_id env_dek_ct env_seed_ct]. rewrite strip_prefix_app.
  destruct (gcp_kms_client w4) as [[|] w5]; cbn [andb]; [|done]. specialize (Hdec w5).
  destruct (gcp_decrypt key (ge_ciphertext r) (crc32c (ge_ciphertext r)) (str_bytes AAD) w5) as [[r1|] w6];
    cbn [fst] in *; [|done].
  rewrite (Hdec r1 eq_refl eq_refl). destruct (gd_plaintext_crc32c r1) as [crc'|]; [|done].
  destruct (crc' mod 2 ^ 32 =? crc32c dek)%Z; [|done]. by rewrite Hlen, Nat.eqb_refl, Hopen.
Qed.

(** The decryption of [p]. *)
Definition kms_decrypt {E} (p : Protection) : SeedEnvelope -> io W E Seed :=
  if p is AwsKms then aws_decrypt_seed else gcp_decrypt_seed.

Lemma try_store_seals features p key seed w : kms_enabled features p -> length (seed_value seed) = 32 ->
  kms_seals p key seed w (try_store features p seed key) (kms_decrypt p).
Proof using KL.
  intros Hp Hs. destruct p; try done; cbn [kms_enabled] in Hp; unfold kms_seals; cbn [try_store kms_decrypt];
    unfold try_store_aws_kms, try_store_gcp_kms; rewrite Hp; [by apply aws_kms_seals|by apply gcp_kms_seals].
Qed.

(** Loading is decided by the answer. *)
Lemma kms_envelope_loads features p key seed env text w : kms_enabled features p ->
  kms_envelope (E := StorageError) p key seed env (kms_decrypt p) -> try_decode text = Ok (str_bytes (envelope_to_json env)) ->
  (try_load features p text w).1 = if kms_answers p key (env_dek_ct env) w then Ok seed else Panic.
Proof using DL JL.
  intros Hp [_ H1 H2 Ho] Ht. rewrite <-Ho. destruct p; try done; cbn [kms_enabled] in Hp; cbn [try_load kms_decrypt];
    unfold try_load_aws_kms, try_load_gcp_kms; rewrite Hp; unfold decode_envelope, mbind, io_bind, lift;
    rewrite Ht; cbn [map_err]; rewrite envelope_json; by destruct (env_seed_ct env), (env_dek_ct env).
Qed.

(** C33: A sealed seed opens again, or not at all.  Storing a seed with a KMS key, of
    either cloud and in a build that supports it, succeeds exactly when the KMS
    accepts: it answers the encryption of the fresh data key, and for AWS names the
    key as it was given, for GCP with checksums that agree; otherwise
    [try_store_seed] panics.  From the envelope it returns, written as JSON in any of
    the encodings that [try_decode] reads and behind the protection prefix,
    [try_load_seed] returns the seed at any later time when the KMS answers the
    decryption, and panics when it does not: never another seed, and never an
    error. *)
Theorem kms_store_load features p key seed w :
  kms_enabled features p -> length (seed_value seed) = 32 ->
  match try_store_seed features seed (protection_prefix p +:+ key) w with
  | (Ok env, _) => kms_accepts p key w = true /\ env_key_id env = protection_prefix p +:+ key /\
      forall text w1, try_decode text = Ok (str_bytes (envelope_to_json env)) ->
        (try_load_seed features (protection_prefix p +:+ text) w1).1 =
          if kms_answers p key (env_dek_ct env) w1 then Ok seed else Panic
  | (Err _, _) => False
  | (Panic, _) => kms_accepts p key w = false
  end.
Proof using DL JL KL.
  intros Hp Hs. rewrite try_store_seed_prefix. pose proof (try_store_seals features p key seed w Hp Hs) as H.
  unfold kms_seals in H. destruct (try_store features p seed key w) as [[env|e|] w']; [|done|done].
  destruct H as [Ha He]. split; [exact Ha|]. split; [apply He|]. intros text w1 Ht. rewrite try_load_seed_prefix.
  by apply kms_envelope_loads.
Qed.

(** What a secret manager stores cannot be loaded.  Whenever [try_store_seed]
    has stored a seed in a secret manager, [try_load_seed] refuses the envelope it
    returned as invalid JSON, without asking the secret manager: serialization
    leaves out the envelope's empty texts, and deserialization requires them. *)
Theorem secret_envelope_unloadable features p resource seed w env w' :
  p = AwsSecretManager \/ p = GcpSecretManager ->
  try_store_seed features seed (protection_prefix p +:+ resource) w = (Ok env, w') ->
  forall text w1, try_decode text = Ok (str_bytes (envelope_to_json env)) ->
    try_load_seed features (protection_prefix p +:+ text) w1 = (Err InvalidJson, w1).
Proof using DL JL.
  intros Hp Hst text w1 Htext. rewrite try_store_seed_prefix in Hst. rewrite try_load_seed_prefix.
  assert (env_seed_ct env = []) as Hct.
  { destruct Hp as [-> | ->]; cbn [try_store] in Hst;
      unfold try_store_aws_secret_manager, try_store_gcp_secret_manager, mbind, io_bind in Hst;
      repeat case_match; by inversion Hst. }
  assert (decode_envelope text w1 = (Err InvalidJson, w1)) as Hj.
  { unfold decode_envelope, mbind, io_bind, lift. rewrite Htext. cbn [map_err]. by rewrite envelope_json, Hct. }
  destruct Hp as [-> | ->]; cbn [try_load try_store] in *;
    unfold try_load_aws_secret_manager, try_load_gcp_secret_manager, try_store_aws_secret_manager,
      try_store_gcp_secret_manager in *.
  - destruct (longterm_aws_secret_manager features); [|done]. unfold mbind, io_bind. by rewrite Hj.
  - destruct (longterm_gcp_secret_manager features); [|done]. unfold mbind, io_bind. by rewrite Hj.
Qed.

(** The texts of [try_decode] have no colon, so they have no protection prefix. *)
Lemma text_no_prefix s x : hex_text (str_bytes s) x \/ b64_text (str_bytes s) x -> from_prefix s = None.
Proof using Type.
  intros Ht. destruct (from_prefix s) as [p|] eqn:Hp; [|done]. exfalso.
  apply from_prefix_Some in Hp as [v ->]. rewrite str_bytes_app in Ht.
  assert (Byte.x3a ∈ str_bytes (protection_prefix p) ++ str_bytes v) as Hin.
  { apply elem_of_app. left. apply list_elem_of_In. destruct p; cbn; tauto. }
  destruct Ht as [(f & Hf & Hs)|(f & Hf & Hs)]; rewrite Hs in Hin.
  - eapply hex_symbols in Hin; [|done]. by vm_compute in Hin.
  - eapply b64_symbols in Hin; [|done]. by vm_compute in Hin.
Qed.

(** Plain seeds.  A text that encodes 32 bytes in any of the six ways is loaded
    as these bytes, with the prefix [seed://] or without one, and touches nothing
    outside. *)
Lemma plain_seed_loads features s x w :
  length x = 32 -> hex_text (str_bytes s) x \/ b64_text (str_bytes s) x ->
  try_load_seed features s w = (Ok (mkSeed x), w) /\
  try_load_seed features (protection_prefix Plain +:+ s) w = (Ok (mkSeed x), w).
Proof using DL.
  intros Hx Ht. rewrite try_load_seed_prefix. unfold try_load_seed. rewrite (text_no_prefix s x Ht).
  assert (try_decode s = Ok x) as Hd.
  { apply try_decode_spec. destruct Ht as [?|Hb]; [by left|right]. split; [|done].
    intros y Hy. by eapply hex_b64_distinct. }
  cbn [try_load]. unfold try_load_plain, mbind, io_bind, lift. rewrite Hd. cbn [map_err].
  unfold Seed_new. rewrite Hx. done.
Qed.

End correct.

(** ** An implementation of the parameters *)

Fixpoint bits_string (p : positive) : string :=
  match p with xH => EmptyString | xO q => String "0" (bits_string q) | xI q => String "1" (bits_string q) end.
Fixpoint string_bits (s : string) : positive :=
  match s with
  | EmptyString => xH
  | String c s' => if Ascii.eqb c "0" then xO (string_bits s') else xI (string_bits s')
  end.

Definition toy_json : Json := {|
  print_object o := "{" +:+ bits_string (countable.encode o);
  parse_object bs := s ← strip_prefix "{" (of_bytes bs); countable.decode (string_bits s);
|}.

#[export] Instance toy_json_laws : JsonLaws toy_json.
Proof.
  split.
  - intros o. cbn [parse_object print_object toy_json]. rewrite of_bytes_str_bytes, strip_prefix_app. cbn [mbind option_bind].
    assert (forall p, string_bits (bits_string p) = p) as -> by (induction p as [p IH|p IH|]; cbn; by rewrite ?IH).
    apply decode_encode.
  - intros o. by eexists.
Qed.

(** A cloud without secrets: nothing is encrypted.  AWS names a key by its ARN also
    when it is asked for by an alias, and GCP decrypts only under the name of a key,
    not under that of one of its versions. *)
Definition toy_key_arn (key_id : string) : string :=
  match split_on ":" key_id !! 5 with
  | Some name => if starts_with "alias/" name then "arn:aws:kms:us-east-1:1:key/2" else key_id
  | None => key_id
  end.
Definition toy_cloud : CloudServices unit := {|
  cloud_random w := (zeroes 32, w);
  aead_tag_len := 16;
  aead_nonce_len := 12;
  aead_seal _ _ plaintext w := (Some (plaintext ++ zeroes 16, zeroes 12), w);
  aead_open _ _ _ ciphertext := Some (take (length ciphertext - 16) ciphertext);
  crc32c _ := 0%Z;
  aws_encrypt _ key_id plaintext _ w :=
    (Some (mkAwsEncrypt (Some (toy_key_arn key_id)) (Some (Byte.x00 :: plaintext))), w);
  aws_decrypt _ key_id ciphertext _ w :=
    (Some (mkAwsDecrypt (Some (toy_key_arn key_id)) (Some (tail ciphertext))), w);
  aws_get_secret_value _ _ w := (Some None, w);
  aws_put_secret_value _ _ _ w := (true, w);
  gcp_kms_client w := (true, w);
  gcp_encrypt key_id plaintext _ _ w :=
    (Some (mkGcpEncrypt (key_id +:+ "/1") (Byte.x00 :: plaintext) (Some 0%Z) true), w);
  gcp_decrypt key_id ciphertext _ _ w :=
    (if 4 <? length (split_on "/" key_id) then None else Some (mkGcpDecrypt (tail ciphertext) (Some 0%Z)), w);
  gcp_secret_client w := (true, w);
  gcp_access_secret_version _ w := (Some None, w);
  gcp_add_secret_version parent _ w := (Some (parent +:+ "/versions/1"), w);
|}.

#[export] Instance toy_cloud_laws : CloudLaws toy_cloud.
Proof.
  split; cbn.
  - intros w. apply length_zeroes.
  - intros dek aad plaintext w _. do 3 eexists. split; [reflexivity|]. rewrite !length_app, !length_zeroes.
    split; [done|]. split; [done|]. f_equal. rewrite Nat.add_sub. by apply take_app_length'.
  - intros bs. unfold is_u32. lia.
  - by intros region key_id plaintext context w r ct w1 r1 pt [= <-] [= <-] [= <-] [= <-].
  - by intros region key_id plaintext context w r [= <-].
  - intros key_id plaintext aad w r w1 r1 [= <-]. destruct (4 <? _); [done|]. by intros [= <-].
  - by intros key_id plaintext aad w r [= <-].
Qed.

Definition all_features : Features := mkFeatures true true true true.

(** A key by its ARN is stored and loaded; by an alias, it is refused; and what is
    stored under a version of a key of GCP is never loaded. *)
Lemma kms_store_load_witness :
  let store p key := try_store_seed (K := toy_cloud) all_features (mkSeed (zeroes 32)) (protection_prefix p +:+ key) tt in
  let text env := as_hex (str_bytes (envelope_to_json (D := rfc4648) (J := toy_json) env)) in
  let load p env := (try_load_seed (D := rfc4648) (J := toy_json) (K := toy_cloud) all_features
        (protection_prefix p +:+ text env) tt).1 in
  (exists env, (store AwsKms "arn:aws:kms:us-east-1:1:key/2").1 = Ok env /\ load AwsKms env = Ok (mkSeed (zeroes 32))) /\
  (store AwsKms "arn:aws:kms:us-east-1:1:alias/seed").1 = Panic /\
  (exists env, (store GcpKms "projects/1/keys/2/versions/3").1 = Ok env /\ load GcpKms env = Panic).
Proof.
  intros store text load.
  assert (forall env, try_decode (D := rfc4648) (text env) = Ok (str_bytes (envelope_to_json (D := rfc4648) (J := toy_json) env))) as Ht.
  { intros env. apply (try_decode_spec (D := rfc4648)). left. exists (hex_encode hex_lower).
    split; [apply elem_of_cons; by left|apply str_bytes_of_bytes]. }
  pose proof (fun p key Hp => kms_store_load (D := rfc4648) (J := toy_json) (K := toy_cloud) all_features p key
    (mkSeed (zeroes 32)) tt Hp eq_refl) as H. split; [|split].
  - specialize (H AwsKms "arn:aws:kms:us-east-1:1:key/2" eq_refl). fold (store AwsKms "arn:aws:kms:us-east-1:1:key/2") in H.
    destruct (store AwsKms "arn:aws:kms:us-east-1:1:key/2") as [[env|e|] w]; [|destruct H|vm_compute in H; discriminate H].
    exists env. split; [reflexivity|]. destruct H as (_ & _ & Hl). unfold load. rewrite (Hl _ _ (Ht env)). vm_compute. reflexivity.
  - specialize (H AwsKms "arn:aws:kms:us-east-1:1:alias/seed" eq_refl). fold (store AwsKms "arn:aws:kms:us-east-1:1:alias/seed") in H.
    destruct (store AwsKms "arn:aws:kms:us-east-1:1:alias/seed") as [[env|e|] w]; [|destruct H|reflexivity].
    destruct H as [H _]. vm_compute in H. discriminate H.
  - specialize (H GcpKms "projects/1/keys/2/versions/3" eq_refl). fold (store GcpKms "projects/1/keys/2/versions/3") in H.
    destruct (store GcpKms "projects/1/keys/2/versions/3") as [[env|e|] w]; [|destruct H|vm_compute in H; discriminate H].
    exists env. split; [reflexivity|]. destruct H as (_ & _ & Hl). unfold load. rewrite (Hl _ _ (Ht env)). vm_compute. reflexivity.
Defined.

Lemma secret_envelope_unloadable_witness :
  let env := mkEnvelope "gcp-secret://projects/1/secrets/s/versions/1" [] [] in
  let text := as_hex (str_bytes (envelope_to_json (D := rfc4648) (J := toy_json) env)) in
  try_load_seed (D := rfc4648) (J := toy_json) (K := toy_cloud) all_features
    (protection_prefix GcpSecretManager +:+ text) tt = (Err InvalidJson, tt).
Proof.
  intros env text.
  apply (secret_envelope_unloadable (D := rfc4648) (J := toy_json) (K := toy_cloud) all_features GcpSecretManager
           "projects/1/secrets/s" (mkSeed (zeroes 32)) tt env tt).
  - by right.
  - vm_compute. reflexivity.
  - apply (try_decode_spec (D := rfc4648)). left. exists (hex_encode hex_lower).
    split; [apply elem_of_cons; by left|apply str_bytes_of_bytes].
Defined.

Lemma plain_seed_loads_witness :
  try_load_seed (D := rfc4648) (J := toy_json) (K := toy_cloud) all_features (as_hex (zeroes 32)) tt =
    (Ok (mkSeed (zeroes 32)), tt) /\
  try_load_seed (D := rfc4648) (J := toy_json) (K := toy_cloud) all_features
    (protection_prefix Plain +:+ as_hex (zeroes 32)) tt = (Ok (mkSeed (zeroes 32)), tt).
Proof.
  apply (plain_seed_loads (D := rfc4648) (J := toy_json) (K := toy_cloud)); [reflexivity|]. left.
  exists (hex_encode hex_lower). split; [apply elem_of_cons; by left|apply str_bytes_of_bytes].
Defined.
