(* ===== verification/Files.v ===== *)
(** * A file system to write to

    What the tools do with files: paths, the contents of files, and operations that
    may fail.  An operation gives its result and the states that the file system
    passes through, so that a reader in between, or a crash, is covered: the first
    failed call of a function ends it, and a write is seen byte by byte. *)
From stdpp Require Import gmap strings.
From S2P Require Import Prelude Text.

Inductive node : Type := File (contents : bytes) | Dir.
Abbreviation Files := (gmap string node).

#[export] Instance node_eq_dec : EqDecision node.
Proof. solve_decision. Defined.

(** [Path::join] *)
Definition path_join (path name : string) : string :=
  if starts_with "/" name then name
  else if is_empty path then name
  else if starts_with "/" (of_bytes (rev (str_bytes path))) then path +:+ name
  else path +:+ "/" +:+ name.

(** The result and the states passed through, in order. *)
Definition fio (E A : Type) : Type := Files -> res E A * list Files.

Definition final (fs : Files) (states : list Files) : Files := default fs (last states).

Section fio.
Context {E : Type}.

#[export] Instance fio_ret : MRet (fio E) := fun A a fs => (Ok a, []).
#[export] Instance fio_bind : MBind (fio E) := fun A B k m fs =>
  match m fs with
  | (Ok a, states) => let r := k a (final fs states) in (r.1, states ++ r.2)
  | (Err e, states) => (Err e, states)
  | (Panic, states) => (Panic, states)
  end.
(** A computation that touches no file. *)
Definition pure_res {A} (r : res E A) : fio E A := fun fs => (r, []).

(** [File::create]: an existing file is emptied; [error] is what else may go wrong. *)
Definition file_create (error : option E) (is_dir : E) (path : string) : fio E unit := fun fs =>
  match error, fs !! path with
  | Some e, _ => (Err e, [])
  | None, Some Dir => (Err is_dir, [])
  | None, _ => (Ok tt, [<[path := File []]> fs])
  end.

(** [file.write_all(data)] on an open file; an error comes after some of the bytes. *)
Definition file_write_all (error : option (nat * E)) (path : string) (data : bytes) : fio E unit := fun fs =>
  let n := match error with Some (n, _) => Nat.min n (length data) | None => length data end in
  let old := match fs !! path with Some (File contents) => contents | _ => [] end in
  let states := map (fun k => <[path := File (old ++ take k data)]> fs) (seq 1 n) in
  (match error with Some (_, e) => Err e | None => Ok tt end, states).

(** [file.sync_all()] *)
Definition file_sync_all (error : option E) : fio E unit := fun fs =>
  (match error with Some e => Err e | None => Ok tt end, []).

(** [fs::rename]: one step. *)
Definition file_rename (error : option E) (not_found : E) (from to : string) : fio E unit := fun fs =>
  match error, fs !! from with
  | Some e, _ => (Err e, [])
  | None, Some f => (Ok tt, [<[to := f]> (delete from fs)])
  | None, None => (Err not_found, [])
  end.

(** [fs::remove_file] with its result ignored. *)
Definition file_remove_ignored (error : option E) (path : string) : fio E unit := fun fs =>
  match error, fs !! path with
  | None, Some (File _) => (Ok tt, [delete path fs])
  | _, _ => (Ok tt, [])
  end.

Lemma final_app fs s1 s2 : final fs (s1 ++ s2) = final (final fs s1) s2.
Proof. unfold final. rewrite last_app. by destruct (last s2). Qed.

(** ** States of a run that all satisfy a property *)

(** From a state in [P], the run stays in [P], and what it returns satisfies [Q] of
    the state it ends in. *)
Definition stays {A} (P : Files -> Prop) (m : fio E A) (Q : A -> Files -> Prop) (fs : Files) : Prop :=
  Forall P (m fs).2 /\ forall a, (m fs).1 = Ok a -> Q a (final fs (m fs).2).

Lemma stays_ret {A} P (a : A) (Q : A -> Files -> Prop) fs : Q a fs -> stays P (mret a) Q fs.
Proof. intros HQ. split; [apply Forall_nil_2|]. by intros ? [= <-]. Qed.

Lemma stays_bind {A B} P (m : fio E A) (k : A -> fio E B) (R : A -> Files -> Prop) (Q : B -> Files -> Prop) fs :
  stays P m R fs -> (forall a fs', R a fs' -> stays P (k a) Q fs') -> stays P (a ← m; k a) Q fs.
Proof.
  intros [Hp Hr] Hk. unfold stays, mbind, fio_bind. destruct (m fs) as [[a|e|] states]; cbn [fst snd] in *; [|done|done].
  destruct (Hk a _ (Hr a eq_refl)) as [Hp' Hq]. split; [by apply Forall_app|]. intros b Hb. rewrite final_app. by apply Hq.
Qed.

Lemma stays_weaken {A} P (m : fio E A) (Q Q' : A -> Files -> Prop) fs :
  stays P m Q fs -> (forall a fs', Q a fs' -> Q' a fs') -> stays P m Q' fs.
Proof. intros [Hp Hq] H. split; [done|]. intros a Ha. by apply H, Hq. Qed.
End fio.
