(* ===== verification/KeysCli.v ===== *)
(** * The key tool (crates/roughenough-keys/bin/keys.rs)

    The five commands, from the contents of the input to the text written to the
    output; an error that is only logged writes nothing.  [KeysMain] has the files
    that they read and write. *)
From Stdlib Require Import Ascii.
From S2P Require Import Prelude Text Errors Cursor Wire FixedTags Encoding Versions Crypto Keys Longterm Storage.

Section keys_cli.
Context {D : DataEncoding} {J : Json} {W : Type} {K : CloudServices W} (features : Features).

Abbreviation IO := (io W StorageError).

Definition line_end : string := String (ascii_of_nat 10) EmptyString.

(** [match m { Ok(a) => .., Err(e) => error!(..) }] *)
Definition or_log {A} (m : IO A) (k : A -> IO string) : IO string := fun w =>
  match m w with
  | (Ok a, w') => k a w'
  | (Err _, w') => (Ok EmptyString, w')
  | (Panic, w') => (Panic, w')
  end.

(** [Seed::new_random] *)
Definition Seed_new_random : IO Seed := r ← draw_dek; lift (Seed_new r).

Definition handle_generate (key secret : option string) : IO string :=
  match (match key with Some k => Some k | None => secret end) with
  | None => mret EmptyString
  | Some resource =>
      seed ← Seed_new_random;
      or_log (try_store_seed features seed resource) (fun envelope => mret (envelope_to_json envelope))
  end.

(** [read_to_string] panics on a file that is not UTF-8. *)
Definition handle_get (input : bytes) : IO string :=
  _ ← assert_ (utf8_valid input);
  or_log (try_load_seed features (of_bytes input)) (fun seed => mret (as_hex (seed_value seed) +:+ line_end)).

Definition handle_store (input : bytes) (secret : string) : IO string :=
  if negb (length input =? 32) then mret EmptyString
  else
    seed ← lift (Seed_new input);
    or_log (try_store_seed features seed secret) (fun envelope => mret (envelope_to_json envelope +:+ line_end)).

Definition handle_open (input : bytes) (key : option string) : IO string :=
  envelope ← unwrap (envelope_from_json input);
  let envelope := match key with
                  | Some key_id => mkEnvelope key_id (env_seed_ct envelope) (env_dek_ct envelope)
                  | None => envelope
                  end in
  seed ← Seed_new_random;
  seed ← if longterm_gcp_kms features && starts_with (protection_prefix GcpKms) (env_key_id envelope)
         then gcp_decrypt_seed envelope else mret seed;
  seed ← if longterm_aws_kms features && starts_with (protection_prefix AwsKms) (env_key_id envelope)
         then aws_decrypt_seed envelope else mret seed;
  if negb (longterm_gcp_kms features || longterm_aws_kms features) then mret EmptyString
  else mret (as_hex (seed_value seed) +:+ line_end).

Definition handle_seal (input : bytes) (key : string) : IO string :=
  if negb (length input =? 32) then mret EmptyString
  else
    seed ← lift (Seed_new input);
    or_log (try_store_seed features seed key) (fun envelope => mret (envelope_to_json envelope)).

End keys_cli.

Section cli_correct.
Context {D : DataEncoding} {DL : DataEncodingLaws D} {J : Json} {JL : JsonLaws J}.
Context {W : Type} {K : CloudServices W} {KL : CloudLaws K}.

Lemma Seed_new_random_ok w : Seed_new_random w = (Ok (mkSeed (cloud_random w).1), (cloud_random w).2).
Proof using KL.
  pose proof (cloud_random_length w) as Hlen. unfold Seed_new_random, draw_dek, effect, mbind, io_bind, lift.
  destruct (cloud_random w) as [r w']. cbn in *. unfold Seed_new. by rewrite Hlen.
Qed.

(** Seal, then open.  [seal] with a key of a KMS that the build supports writes an
    envelope if the KMS accepts and panics otherwise; [open] on what it wrote writes
    the seed in hexadecimal if the KMS answers, after a random seed is drawn, and
    panics otherwise. *)
Lemma seal_open_spec features p key seed w :
  kms_enabled features p -> length seed = 32 ->
  if kms_accepts p key w then
    exists env w', handle_seal features seed (protection_prefix p +:+ key) w = (Ok (envelope_to_json env), w') /\
    forall w1, (handle_open features (str_bytes (envelope_to_json env)) None w1).1 =
      if kms_answers p key (env_dek_ct env) (cloud_random w1).2 then Ok (as_hex seed +:+ line_end) else Panic
  else exists w', handle_seal features seed (protection_prefix p +:+ key) w = (Panic, w').
Proof using DL JL KL.
  intros Hp Hs. pose proof (try_store_seals features p key (mkSeed seed) w Hp Hs) as Hst. unfold kms_seals in Hst.
  assert (handle_seal features seed (protection_prefix p +:+ key) w =
    or_log (try_store features p (mkSeed seed) key) (fun envelope => mret (envelope_to_json envelope)) w) as ->.
  { unfold handle_seal, or_log, mbind, io_bind, lift, Seed_new. rewrite Hs. cbn. by rewrite try_store_seed_prefix. }
  unfold or_log. destruct (try_store features p (mkSeed seed) key w) as [[env|e|] w']; [|done|rewrite Hst; by exists w'].
  destruct Hst as [-> [Hk H1 H2 Ho]]. exists env, w'. split; [done|]. intros w1. unfold handle_open. rewrite envelope_json.
  specialize (Ho (cloud_random w1).2).
  destruct (env_seed_ct env) as [|a sct] eqn:Hsct; [done|]. destruct (env_dek_ct env) as [|b dct] eqn:Hdct; [done|].
  unfold unwrap, mbind, io_bind, lift. rewrite Seed_new_random_ok, Hk.
  destruct p; try done; cbn [kms_enabled kms_decrypt] in *; rewrite Hp, starts_with_app.
  - assert (starts_with (protection_prefix GcpKms) (protection_prefix AwsKms +:+ key) = false) as -> by reflexivity.
    rewrite andb_false_r, orb_true_r. cbn [andb negb mret io_ret].
    destruct (aws_decrypt_seed env _) as [r w2]. cbn [fst] in Ho. subst r. by destruct (kms_answers _ _ _ _).
  - assert (starts_with (protection_prefix AwsKms) (protection_prefix GcpKms +:+ key) = false) as -> by reflexivity.
    rewrite andb_false_r. cbn [andb orb negb mret io_ret].
    destruct (gcp_decrypt_seed env _) as [r w2]. cbn [fst] in Ho. subst r. by destruct (kms_answers _ _ _ _).
Qed.

(** [open] can print a seed that is in no envelope.  When the build supports a
    KMS but the envelope's key (or the key given to override it) has the prefix of
    none that it supports, [open] reports no error: it writes a fresh random seed as
    if it were the decrypted one, whatever the envelope holds. *)
Theorem cli_open_random_seed features env key w :
  env_seed_ct env <> [] -> env_dek_ct env <> [] ->
  longterm_gcp_kms features || longterm_aws_kms features = true ->
  let key_id := default (env_key_id env) key in
  longterm_gcp_kms features && starts_with (protection_prefix GcpKms) key_id = false ->
  longterm_aws_kms features && starts_with (protection_prefix AwsKms) key_id = false ->
  exists w', handle_open features (str_bytes (envelope_to_json env)) key w =
    (Ok (as_hex (cloud_random w).1 +:+ line_end), w').
Proof using DL JL KL.
  intros H1 H2 Hf key_id Hg Ha. unfold handle_open. rewrite envelope_json.
  destruct (env_seed_ct env) as [|a sct] eqn:Hsct; [done|]. destruct (env_dek_ct env) as [|b dct] eqn:Hdct; [done|].
  unfold unwrap, mbind, io_bind, lift. rewrite Seed_new_random_ok.
  assert (env_key_id (match key with Some k => mkEnvelope k (env_seed_ct env) (env_dek_ct env) | None => env end) = key_id)
    as -> by by destruct key.
  rewrite Hg, Ha, Hf. by eexists.
Qed.

(** [get] refuses what [store] writes.  On the text that [generate], [seal] or
    [store] wrote for any envelope (with or without the final line end), [get]
    writes nothing and asks no service: the JSON is taken for a plain seed, which
    it never is. *)
Theorem cli_get_refuses features env tail_ w :
  utf8_valid (str_bytes (envelope_to_json env +:+ tail_)) = true ->
  handle_get features (str_bytes (envelope_to_json env +:+ tail_)) w = (Ok EmptyString, w).
Proof using DL JL.
  intros Hu. unfold handle_get, assert_, mbind, io_bind, lift. rewrite Hu, of_bytes_str_bytes.
  destruct (print_brace (envelope_to_fields env)) as [r Hr]. unfold envelope_to_json. rewrite Hr.
  unfold or_log, try_load_seed. change (from_prefix _) with (@None Protection). cbn [try_load].
  set (s := _ +:+ tail_). assert (forall x, try_decode s <> Ok x) as Hn.
  { intros x Hx%try_decode_spec.
    assert (Byte.x7b ∈ str_bytes s) as Hin by (apply elem_of_cons; by left).
    assert (hex_text (str_bytes s) x \/ b64_text (str_bytes s) x) as [(f & Hf & Hs)|(f & Hf & Hs)] by tauto;
      rewrite Hs in Hin; [eapply hex_symbols in Hin; [|done]|eapply b64_symbols in Hin; [|done]]; by vm_compute in Hin. }
  unfold try_load_plain, mbind, io_bind, lift. destruct (try_decode s) as [x|e|] eqn:Hd; [by destruct (Hn x)|done|].
  exfalso. unfold try_decode, of_sum in Hd. by case_match.
Qed.

End cli_correct.

Lemma cli_open_random_seed_witness :
  let env := mkEnvelope "aws-kms://arn:aws:kms:us-east-1:1:key/2" (zeroes 60) (zeroes 40) in
  exists w', handle_open (D := rfc4648) (J := toy_json) (K := toy_cloud) (mkFeatures false true false false)
      (str_bytes (envelope_to_json (D := rfc4648) (J := toy_json) env)) None tt =
    (Ok (as_hex (zeroes 32) +:+ line_end), w').
Proof.
  intros env.
  apply (cli_open_random_seed (D := rfc4648) (J := toy_json) (K := toy_cloud) (mkFeatures false true false false) env None tt);
    [done|done|reflexivity|reflexivity|reflexivity].
Defined.

Lemma cli_get_refuses_witness :
  let env := mkEnvelope "aws-secret://arn:aws:secretsmanager:us-east-1:1:secret:s" [] [] in
  handle_get (D := rfc4648) (J := toy_json) (K := toy_cloud) all_features
    (str_bytes (envelope_to_json (D := rfc4648) (J := toy_json) env +:+ line_end)) tt = (Ok EmptyString, tt).
Proof.
  intros env. apply (cli_get_refuses (D := rfc4648) (J := toy_json) (K := toy_cloud)). vm_compute. reflexivity.
Defined.
