(* ===== verification/KeysMain.v ===== *)
(** * The key tool's commands and files (crates/roughenough-keys/bin/keys.rs)

    [main]: the input file is opened, the output file is created, and only then does
    the command run.  Parsing the arguments and the log are not modelled; writing to
    a file that was opened succeeds. *)
From Stdlib Require Import Ascii.
From stdpp Require Import gmap strings.
From S2P Require Import Prelude Text Errors Cursor Wire FixedTags Encoding Versions Crypto Keys Longterm Storage Files KeysCli.

Inductive Commands : Type :=
| Generate (output key secret : option string)
| Seal (input : string) (output : option string) (key : string)
| Open (input : string) (output key : option string)
| Store (input : string) (output : option string) (secret : string)
| Get (input : string) (output : option string).

Definition cmd_input (c : Commands) : option string :=
  match c with Generate _ _ _ => None | Seal i _ _ | Open i _ _ | Store i _ _ | Get i _ => Some i end.
Definition cmd_output (c : Commands) : option string :=
  match c with Generate o _ _ | Seal _ o _ | Open _ o _ | Store _ o _ | Get _ o => o end.

(** What the tool runs in, and what it has printed. *)
Record ToolState (W : Type) := mkTool { ts_files : Files; ts_stdout : string; ts_world : W }.
Arguments mkTool {W}.
Arguments ts_files {W}.
Arguments ts_stdout {W}.
Arguments ts_world {W}.

Section keys_main.
Context {D : DataEncoding} {J : Json} {W : Type} {K : CloudServices W} (features : Features).
(** Whether the operating system lets the file at a path be made. *)
Context (can_create : string -> bool).

Abbreviation tool A := (io (ToolState W) StorageError A).

(** [File::open]; a directory opens, but reading it fails. *)
Definition infile_from_arg (path : string) : tool node := fun s =>
  match ts_files s !! path with Some f => (Ok f, s) | None => (Panic, s) end.

(** [File::create_new], or the standard output. *)
Definition outfile_from_arg (path : option string) : tool unit := fun s =>
  match path with
  | None => (Ok tt, s)
  | Some p =>
      match ts_files s !! p with
      | Some _ => (Panic, s)
      | None => if can_create p then (Ok tt, mkTool (<[p := File []]> (ts_files s)) (ts_stdout s) (ts_world s)) else (Panic, s)
      end
  end.

(** [input.read_to_end(..).await.unwrap()] *)
Definition read_input (input : node) : tool bytes := lift (match input with File contents => Ok contents | Dir => Panic end).

(** [output.write_all(..)] *)
Definition write_output (path : option string) (text : string) : tool unit := fun s =>
  (Ok tt, match path with
          | None => mkTool (ts_files s) (ts_stdout s +:+ text) (ts_world s)
          | Some p => mkTool (<[p := File (str_bytes text)]> (ts_files s)) (ts_stdout s) (ts_world s)
          end).

(** A handler, which uses the services only, and its output. *)
Definition run_handler (path : option string) (handler : io W StorageError string) : tool unit := fun s =>
  match handler (ts_world s) with
  | (Ok text, w') => write_output path text (mkTool (ts_files s) (ts_stdout s) w')
  | (Err e, w') => (Err e, mkTool (ts_files s) (ts_stdout s) w')
  | (Panic, w') => (Panic, mkTool (ts_files s) (ts_stdout s) w')
  end.

Definition run_command (c : Commands) (input : bytes) : io W StorageError string :=
  match c with
  | Generate _ key secret => handle_generate features key secret
  | Seal _ _ key => handle_seal features input key
  | Open _ _ key => handle_open features input key
  | Store _ _ secret => handle_store features input secret
  | Get _ _ => handle_get features input
  end.

Definition keys_main (c : Commands) : tool unit :=
  match cmd_input c with
  | None =>
      _ ← outfile_from_arg (cmd_output c);
      run_handler (cmd_output c) (run_command c [])
  | Some path =>
      input ← infile_from_arg path;
      _ ← outfile_from_arg (cmd_output c);
      input ← read_input input;
      run_handler (cmd_output c) (run_command c input)
  end.

(** ** What a command does to the files *)

(** Only a file at [path] is new. *)
Definition only_adds (path : option string) (fs fs' : Files) : Prop :=
  forall p, fs' !! p = fs !! p \/ (path = Some p /\ fs !! p = None).

Lemma outfile_adds path s : only_adds path (ts_files s) (ts_files (outfile_from_arg path s).2) /\
  ((outfile_from_arg path s).1 = Panic -> (outfile_from_arg path s).2 = s) /\
  ((outfile_from_arg path s).1 <> Panic ->
    ts_world (outfile_from_arg path s).2 = ts_world s /\
    forall p, path = Some p -> ts_files s !! p = None /\ ts_files (outfile_from_arg path s).2 = <[p := File []]> (ts_files s)).
Proof.
  unfold outfile_from_arg. destruct path as [p|]; [|by split_and!; [by left| |]].
  destruct (ts_files s !! p) as [f|] eqn:Hp; [by split_and!; [by left| |]|].
  destruct (can_create p); cbn [fst snd ts_files ts_world]; [|by split_and!; [by left| |]].
  split_and!; [|done|]; [|intros _; split; [done|by intros ? [= <-]]].
  intros q. destruct (decide (q = p)) as [->|Hq]; [by right|left]. by rewrite lookup_insert_ne.
Qed.

Lemma run_handler_writes path h s : forall p, path <> Some p ->
  ts_files (run_handler path h s).2 !! p = ts_files s !! p.
Proof.
  intros p Hp. unfold run_handler. destruct (h (ts_world s)) as [[text|e|] w']; [|done|done].
  destruct path as [q|]; cbn; [|done]. rewrite lookup_insert_ne; [done|]. by intros ->.
Qed.

(** After the output is made, whatever else happens is confined to it. *)
Lemma keys_main_adds c s : only_adds (cmd_output c) (ts_files s) (ts_files (keys_main c s).2).
Proof.
  assert (forall m : tool unit, (forall s' p, cmd_output c <> Some p -> ts_files (m s').2 !! p = ts_files s' !! p) ->
    only_adds (cmd_output c) (ts_files s) (ts_files ((_ ← outfile_from_arg (cmd_output c); m) s).2)) as Hseq.
  { intros m Hm. destruct (outfile_adds (cmd_output c) s) as (Ha & Hpanic & Hok). unfold mbind, io_bind.
    destruct (outfile_from_arg (cmd_output c) s) as [[u|e|] s'] eqn:Ho; cbn [fst snd] in *; [|exact Ha|exact Ha].
    destruct (Hok ltac:(done)) as [_ Hnew]. intros p. destruct (decide (cmd_output c = Some p)) as [Hp|Hp].
    - right. split; [done|]. by destruct (Hnew p Hp).
    - rewrite Hm by done. apply Ha. }
  unfold keys_main. destruct (cmd_input c) as [path|]; [|apply Hseq; by apply run_handler_writes].
  unfold infile_from_arg, mbind at 1, io_bind at 1. destruct (ts_files s !! path) as [f|]; [|by left].
  apply Hseq. intros s' p Hp. unfold read_input, mbind, io_bind, lift. destruct f; [by apply run_handler_writes|done].
Qed.

(** The output is looked at before any service. *)
Lemma keys_main_occupied c s p f : cmd_output c = Some p -> ts_files s !! p = Some f -> keys_main c s = (Panic, s).
Proof.
  intros Hp Hf. assert (outfile_from_arg (cmd_output c) s = (Panic, s)) as Ho by (unfold outfile_from_arg; by rewrite Hp, Hf).
  unfold keys_main, mbind, io_bind. destruct (cmd_input c) as [path|]; [|by rewrite Ho].
  unfold infile_from_arg. destruct (ts_files s !! path); [by rewrite Ho|done].
Qed.

(** A command from a file to a new one. *)
Lemma keys_main_runs c s input output contents text w' :
  cmd_input c = Some input -> cmd_output c = Some output ->
  ts_files s !! input = Some (File contents) -> ts_files s !! output = None -> can_create output = true ->
  run_command c contents (ts_world s) = (Ok text, w') ->
  keys_main c s = (Ok tt, mkTool (<[output := File (str_bytes text)]> (ts_files s)) (ts_stdout s) w').
Proof.
  intros Hi Ho Hin Hout Hcan Hrun. unfold keys_main. rewrite Hi, Ho. unfold infile_from_arg, mbind, io_bind. rewrite Hin.
  unfold outfile_from_arg at 1. rewrite Hout, Hcan. unfold read_input, lift, run_handler. cbn [ts_world ts_files ts_stdout].
  rewrite Hrun. unfold write_output. cbn [ts_world ts_files ts_stdout]. by rewrite insert_insert_eq.
Qed.

Lemma keys_main_panics c s input output contents w' :
  cmd_input c = Some input -> cmd_output c = Some output ->
  ts_files s !! input = Some (File contents) -> ts_files s !! output = None -> can_create output = true ->
  run_command c contents (ts_world s) = (Panic, w') ->
  keys_main c s = (Panic, mkTool (<[output := File []]> (ts_files s)) (ts_stdout s) w').
Proof.
  intros Hi Ho Hin Hout Hcan Hrun. unfold keys_main. rewrite Hi, Ho. unfold infile_from_arg, mbind, io_bind. rewrite Hin.
  unfold outfile_from_arg at 1. rewrite Hout, Hcan. unfold read_input, lift, run_handler. cbn [ts_world ts_files ts_stdout].
  by rewrite Hrun.
Qed.

(** C34: The tool overwrites nothing.  Whatever the command, its files and the answers
    of the services, the only change to the files is a new one at the output; if
    there is a file there already, the command stops before it asks any service.
    But a command that only logs an error leaves its output empty, and then has to
    be given another: [seal] of an input that is not 32 bytes does. *)
Theorem cli_never_overwrites (c : Commands) (s : ToolState W) :
  only_adds (cmd_output c) (ts_files s) (ts_files (keys_main c s).2) /\
  (forall p f, cmd_output c = Some p -> ts_files s !! p = Some f -> keys_main c s = (Panic, s)) /\
  (forall input output key contents, c = Seal input (Some output) key -> ts_files s !! input = Some (File contents) ->
    length contents <> 32 -> ts_files s !! output = None -> can_create output = true ->
    (keys_main c s).1 = Ok tt /\ ts_files (keys_main c s).2 = <[output := File []]> (ts_files s) /\
    keys_main c (keys_main c s).2 = (Panic, (keys_main c s).2)).
Proof.
  split; [apply keys_main_adds|]. split; [apply keys_main_occupied|].
  intros input output key contents -> Hin Hlen Hout Hcan.
  assert (keys_main (Seal input (Some output) key) s =
    (Ok tt, mkTool (<[output := File []]> (ts_files s)) (ts_stdout s) (ts_world s))) as Hrun.
  { apply (keys_main_runs _ s input output contents EmptyString); try done. cbn [run_command]. unfold handle_seal.
    by rewrite (proj2 (Nat.eqb_neq _ _) Hlen). }
  rewrite Hrun. cbn [fst snd ts_files]. split_and!; [done|done|].
  eapply (keys_main_occupied _ _ output (File [])); [done|]. cbn. apply lookup_insert_eq.
Qed.
End keys_main.

Section sealed.
Context {D : DataEncoding} {DL : DataEncodingLaws D} {J : Json} {JL : JsonLaws J}.
Context {W : Type} {K : CloudServices W} {KL : CloudLaws K} (features : Features) (can_create : string -> bool).

(** C22: A sealed seed can be opened when the KMS answers.  [seal] of a file with a
    seed, under a key of a KMS that the build supports, writes an envelope to a new
    file if the KMS accepts (it answers the encryption, and for AWS names the key as
    it was given: not for an alias), and panics otherwise.  From the file that it
    wrote, [open], at any later time, writes the seed in hexadecimal to another file
    if the KMS then answers the decryption, and panics otherwise.  A command that
    panics leaves its output empty; the seed's own file stays, whatever happens. *)
Theorem sealed_file_opens p key seed input f g (s : ToolState W) :
  kms_enabled features p ->
  length seed = 32 -> ts_files s !! input = Some (File seed) ->
  ts_files s !! f = None -> ts_files s !! g = None -> f <> g -> can_create f = true -> can_create g = true ->
  let (out, s1) := keys_main features can_create (Seal input (Some f) (protection_prefix p +:+ key)) s in
  ts_files s1 !! input = Some (File seed) /\
  if kms_accepts p key (ts_world s)
  then out = Ok tt /\ exists env, ts_files s1 !! f = Some (File (str_bytes (envelope_to_json env))) /\
    forall w1,
      let (out2, s2) := keys_main features can_create (Open f (Some g) None) (mkTool (ts_files s1) (ts_stdout s1) w1) in
      ts_files s2 !! input = Some (File seed) /\
      if kms_answers p key (env_dek_ct env) (cloud_random w1).2
      then out2 = Ok tt /\ ts_files s2 !! g = Some (File (str_bytes (as_hex seed +:+ line_end)))
      else out2 = Panic /\ ts_files s2 !! g = Some (File [])
  else out = Panic /\ ts_files s1 !! f = Some (File []).
Proof using DL JL KL.
  intros Hp Hs Hin Hf Hg Hne Hcf Hcg.
  pose proof (seal_open_spec features p key seed (ts_world s) Hp Hs) as Hseal.
  destruct (kms_accepts p key (ts_world s)).
  - destruct Hseal as (env & w' & Hseal & Hopen).
    rewrite (keys_main_runs features can_create (Seal input (Some f) (protection_prefix p +:+ key)) s input f seed
      (envelope_to_json env) w') by done.
    cbn [ts_files ts_stdout]. split; [rewrite lookup_insert_ne; [done|]; intros ->; congruence|].
    split; [done|]. exists env. split; [apply lookup_insert_eq|]. intros w1. specialize (Hopen w1).
    set (s1 := mkTool (<[f := _]> (ts_files s)) (ts_stdout s) w1).
    assert (ts_files s1 !! f = Some (File (str_bytes (envelope_to_json env)))) as Hin1 by apply lookup_insert_eq.
    assert (ts_files s1 !! g = None) as Hg1 by (unfold s1; cbn [ts_files]; by rewrite lookup_insert_ne).
    assert (forall t, (<[g := File t]> (ts_files s1) : Files) !! input = Some (File seed)) as Hkeep.
    { intros t. unfold s1. cbn [ts_files]. rewrite !lookup_insert_ne; [done|..]; intros ->; congruence. }
    destruct (handle_open features (str_bytes (envelope_to_json env)) None w1) as [r w2] eqn:Ho. cbn [fst] in Hopen. subst r.
    destruct (kms_answers p key (env_dek_ct env) (cloud_random w1).2).
    + rewrite (keys_main_runs features can_create (Open f (Some g) None) s1 f g _ _ w2 eq_refl eq_refl Hin1 Hg1 Hcg Ho).
      cbn [ts_files]. split_and!; [apply Hkeep|done|apply lookup_insert_eq].
    + rewrite (keys_main_panics features can_create (Open f (Some g) None) s1 f g _ w2 eq_refl eq_refl Hin1 Hg1 Hcg Ho).
      cbn [ts_files]. split_and!; [apply Hkeep|done|apply lookup_insert_eq].
  - destruct Hseal as [w' Hseal].
    rewrite (keys_main_panics features can_create (Seal input (Some f) (protection_prefix p +:+ key)) s input f seed w') by done.
    cbn [ts_files]. split_and!; [rewrite lookup_insert_ne; [done|]; intros ->; congruence|done|apply lookup_insert_eq].
Qed.
End sealed.

(** ** Examples, with the toy services *)
Definition sample_tool : ToolState unit := mkTool {[ "seed" := File (zeroes 32); "short" := File (zeroes 31) ]} "" tt.

(** With a key of GCP the seed comes back; with an alias of AWS [seal] panics. *)
#[local] Abbreviation toy_main := (keys_main (D := rfc4648) (J := toy_json) (K := toy_cloud) all_features (fun _ => true)).
Lemma sealed_file_opens_witness :
  (exists s1 s2, toy_main (Seal "seed" (Some "sealed") (protection_prefix GcpKms +:+ "projects/1/keys/2")) sample_tool = (Ok tt, s1) /\
    toy_main (Open "sealed" (Some "opened") None) (mkTool (ts_files s1) (ts_stdout s1) tt) = (Ok tt, s2) /\
    ts_files s2 !! "opened" = Some (File (str_bytes (as_hex (zeroes 32) +:+ line_end)))) /\
  exists s1, toy_main (Seal "seed" (Some "sealed") (protection_prefix AwsKms +:+ "arn:aws:kms:us-east-1:1:alias/seed")) sample_tool =
    (Panic, s1) /\ ts_files s1 !! "sealed" = Some (File []).
Proof.
  split.
  - pose proof (sealed_file_opens (D := rfc4648) (J := toy_json) (K := toy_cloud) all_features (fun _ => true) GcpKms "projects/1/keys/2"
      (zeroes 32) "seed" "sealed" "opened" sample_tool eq_refl eq_refl eq_refl eq_refl eq_refl ltac:(discriminate) eq_refl eq_refl) as H.
    destruct (toy_main _ sample_tool) as [out s1]. destruct H as [_ H].
    replace (kms_accepts _ _ _) with true in H by (vm_compute; reflexivity). destruct H as (-> & env & _ & H).
    exists s1. specialize (H tt). destruct (toy_main (Open _ _ _) _) as [out2 s2]. exists s2. destruct H as [_ H].
    replace (kms_answers _ _ _ _) with true in H by (vm_compute; reflexivity). destruct H as [-> H].
    split; [reflexivity|]. split; [reflexivity|exact H].
  - pose proof (sealed_file_opens (D := rfc4648) (J := toy_json) (K := toy_cloud) all_features (fun _ => true) AwsKms
      "arn:aws:kms:us-east-1:1:alias/seed" (zeroes 32) "seed" "sealed" "opened" sample_tool eq_refl eq_refl eq_refl eq_refl eq_refl
      ltac:(discriminate) eq_refl eq_refl) as H.
    destruct (toy_main _ sample_tool) as [out s1]. exists s1. destruct H as [_ H].
    replace (kms_accepts _ _ _) with false in H by (vm_compute; reflexivity). destruct H as [-> H].
    split; [reflexivity|exact H].
Defined.

Lemma cli_never_overwrites_witness :
  let c := Seal "short" (Some "sealed") "gcp-kms://k" in
  let run := keys_main (D := rfc4648) (J := toy_json) (K := toy_cloud) all_features (fun _ => true) c in
  (run sample_tool).1 = Ok tt /\ run (run sample_tool).2 = (Panic, (run sample_tool).2).
Proof.
  intros c run. destruct (cli_never_overwrites (D := rfc4648) (J := toy_json) (K := toy_cloud) all_features (fun _ => true) c sample_tool)
    as (_ & _ & H).
  destruct (H "short" "sealed" "gcp-kms://k" (zeroes 31) eq_refl) as (H1 & _ & H2);
    [reflexivity|discriminate|reflexivity|reflexivity|]. split; [exact H1|exact H2].
Defined.
