(* ===== verification/Krs.v ===== *)
(** * The kernel keyring backend (crates/roughenough-keys/src/online/linuxkrs.rs)

    [LinuxKrsBackend] sends requests to a thread that owns the thread's keyring and
    waits for each answer, so a request and its handling are one step.  The thread
    is [Some] keyring while it runs; it ends by an error of its set-up or a panic in
    a handler, and then every request fails.  Keyrings are those of linux_keyutils,
    the class [KeyRings]. *)
From S2P Require Import Prelude Errors Cursor Wire FixedTags Versions Crypto Keys.

Class KeyRings := {
  Ring : Type;
  Key : Type;
  thread_keyring : option Ring;
  ring_search : Ring -> string -> KeyError + Key;
  ring_add_key : Ring -> string -> bytes -> KeyError + Key * Ring;
  ring_set_perms : Ring -> Key -> KeyError + Ring;
  ring_read : Ring -> Key -> KeyError + bytes;
  ring_clear : Ring -> KeyError + Ring;
}.

Definition KEY_NAME : string := "roughenough-seed".

Section krs.
Context {C : CryptoLib} {R : KeyRings}.

Record StoreSeedResponse := mkStoreResponse { ssr_public_key : PublicKey; ssr_seed_len : nat }.

Record LinuxKrsBackend := mkKrs {
  krs_thread : option Ring;
  krs_public_key : option PublicKey;
  krs_seed_len : nat;
}.

(** ** The thread *)

Abbreviation OnRing := (io Ring BackendError).

(** [?] on an operation that leaves the keyring as it was, or changes it. *)
Definition key_ok {A} (r : KeyError + A) : res BackendError A := match r with inr a => Ok a | inl e => Err (Krs e) end.
Definition ring_update (f : Ring -> KeyError + Ring) : OnRing unit := fun ring =>
  match f ring with inr ring' => (Ok tt, ring') | inl e => (Err (Krs e), ring) end.
Definition ring_add (name : string) (value : bytes) : OnRing Key := fun ring =>
  match ring_add_key ring name value with inr (key, ring') => (Ok key, ring') | inl e => (Err (Krs e), ring) end.
Definition ring_read_of (key : Key) : OnRing bytes := fun ring => (key_ok (ring_read ring key), ring).

(** [worker_thread] up to its loop: the keyring, or [None] when the thread has
    ended. *)
Definition worker_start : option Ring :=
  match thread_keyring with
  | None => None
  | Some ring =>
      match ring_search ring KEY_NAME with
      | inl KeyDoesNotExist => Some ring
      | inl OtherKeyError => None
      | inr _ => None
      end
  end.

Definition handle_store_seed (seed : Seed) : OnRing StoreSeedResponse := fun ring =>
  match ring_search ring KEY_NAME with
  | inr _ => (Panic, ring)
  | inl _ =>
      (krs_key ← ring_add KEY_NAME (seed_value seed);
       _ ← ring_update (fun r => ring_set_perms r krs_key);
       public_key ← lift (PublicKey_from (ed_public (seed_value seed)));
       mret (mkStoreResponse public_key (length (seed_value seed)))) ring
  end.

(** [nread] is the length of the key, also when [buf], of 32 bytes, cannot hold it. *)
Definition handle_get_seed : OnRing Seed := fun ring =>
  match ring_search ring KEY_NAME with
  | inr seed_key =>
      (value ← ring_read_of seed_key;
       let nread := length value in
       if negb (nread =? 32) then throw (NotFound "Expected 32-byte seed")
       else lift (Seed_new value)) ring
  | inl KeyDoesNotExist => (Err (NotFound KEY_NAME), ring)
  | inl e => (Err (Krs e), ring)
  end.

Definition handle_sign (request_data : bytes) : OnRing bytes :=
  seed ← handle_get_seed;
  mret (ed_sign (seed_value seed) request_data).

(** ** The backend *)

Definition LinuxKrsBackend_new : LinuxKrsBackend := mkKrs worker_start None 0.

Definition set_thread (b : LinuxKrsBackend) (thread : option Ring) : LinuxKrsBackend :=
  mkKrs thread (krs_public_key b) (krs_seed_len b).

(** Send a request and receive its answer.  A handler that panics ends the thread
    and drops the response channel. *)
Definition rpc {A} (handler : OnRing A) : io LinuxKrsBackend BackendError A := fun b =>
  match krs_thread b with
  | None => (Err WorkerDisconnect, b)
  | Some ring =>
      match handler ring with
      | (Ok a, ring') => (Ok a, set_thread b (Some ring'))
      | (Err e, ring') => (Err e, set_thread b (Some ring'))
      | (Panic, _) => (Err WorkerDisconnect, set_thread b None)
      end
  end.

(** [// Update local state] *)
Definition update_local (response : StoreSeedResponse) : io LinuxKrsBackend BackendError unit := fun b =>
  (Ok tt, mkKrs (krs_thread b) (Some (ssr_public_key response)) (ssr_seed_len response)).
Definition krs_store_seed (seed : Seed) : io LinuxKrsBackend BackendError unit :=
  response ← rpc (handle_store_seed seed);
  update_local response.
Definition krs_get_seed : io LinuxKrsBackend BackendError Seed := rpc handle_get_seed.
Definition krs_sign (data : bytes) : io LinuxKrsBackend BackendError bytes := rpc (handle_sign data).

(** [Drop]: the thread clears the keyring and ends; an error is only logged. *)
Definition krs_drop (b : LinuxKrsBackend) : LinuxKrsBackend := set_thread b None.
Definition shutdown (ring : Ring) : Ring := match ring_clear ring with inr ring' => ring' | inl _ => ring end.

(** The trait's methods, without the state that a failing one leaves. *)
#[export] Instance LinuxKrsBackend_SeedBackend : SeedBackend LinuxKrsBackend := {|
  store_seed b seed := match krs_store_seed seed b with (Ok _, b') => Ok b' | (Err e, _) => Err e | (Panic, _) => Panic end;
  get_seed b := (krs_get_seed b).1;
  backend_sign b data := match krs_sign data b with (Ok s, b') => Ok (s, b') | (Err e, _) => Err e | (Panic, _) => Panic end;
  seed_len := krs_seed_len;
  backend_public_key b := match krs_public_key b with Some pk => Ok pk | None => Panic end;
|}.

End krs.

(** ** Laws of keyrings: a keyring holds at most one value by a name. *)

Class KeyRingsLaws (R : KeyRings) : Type := {
  ring_value : Ring -> string -> option bytes;
  search_None r name : ring_value r name = None -> ring_search r name = inl KeyDoesNotExist;
  search_Some r name v : ring_value r name = Some v -> exists k, ring_search r name = inr k /\ ring_read r k = inr v;
  add_value r name v k r' : ring_add_key r name v = inr (k, r') -> ring_value r' name = Some v;
  set_perms_value r k r' name : ring_set_perms r k = inr r' -> ring_value r' name = ring_value r name;
  clear_value r r' name : ring_clear r = inr r' -> ring_value r' name = None;
}.

Section krs_correct.
Context {C : CryptoLib} {CL : CryptoLaws C} {R : KeyRings} {RL : KeyRingsLaws R}.

Definition krs_value (b : LinuxKrsBackend) : option bytes := krs_thread b ≫= fun ring => ring_value ring KEY_NAME.

Lemma get_seed_value ring sk : ring_value ring KEY_NAME = Some sk -> length sk = 32 ->
  handle_get_seed ring = (Ok (mkSeed sk), ring).
Proof using Type.
  intros Hv Hl. destruct (search_Some _ _ _ Hv) as (k & Hs & Hr). unfold handle_get_seed. rewrite Hs.
  unfold ring_read_of, key_ok, mbind, io_bind. rewrite Hr, Hl. cbn. unfold Seed_new. by rewrite Hl.
Qed.

Lemma get_seed_none ring : ring_value ring KEY_NAME = None -> handle_get_seed ring = (Err (NotFound KEY_NAME), ring).
Proof using Type. intros Hv. unfold handle_get_seed. by rewrite search_None. Qed.

(** A keyring with a seed is not written again: the thread panics. *)
Lemma store_seed_twice ring sk seed : ring_value ring KEY_NAME = Some sk -> handle_store_seed seed ring = (Panic, ring).
Proof using Type. intros Hv. destruct (search_Some _ _ _ Hv) as (k & Hs & _). unfold handle_store_seed. by rewrite Hs. Qed.

(** On an empty keyring the seed is stored, or an error is returned; even then the
    seed may be in the keyring. *)
Lemma store_seed_cases ring seed : ring_value ring KEY_NAME = None -> length (seed_value seed) = 32 ->
  (exists ring', handle_store_seed seed ring =
      (Ok (mkStoreResponse (mkFixed (ed_public (seed_value seed))) 32), ring') /\
    ring_value ring' KEY_NAME = Some (seed_value seed)) \/
  (exists e ring', handle_store_seed seed ring = (Err e, ring') /\
    (ring_value ring' KEY_NAME = None \/ ring_value ring' KEY_NAME = Some (seed_value seed))).
Proof using CL.
  intros Hv Hl. unfold handle_store_seed. rewrite search_None by done.
  unfold ring_add, ring_update, mbind, io_bind, lift, mret, io_ret.
  destruct (ring_add_key ring KEY_NAME (seed_value seed)) as [e|[k r1]] eqn:Ha.
  { right. exists (Krs e), ring. split; [done|by left]. }
  pose proof (add_value _ _ _ _ _ Ha) as H1. destruct (ring_set_perms r1 k) as [e|r2] eqn:Hp.
  { right. exists (Krs e), r1. split; [done|by right]. }
  left. exists r2. rewrite (set_perms_value _ _ _ _ Hp), PublicKey_from_ok, Hl by apply ed_public_length. done.
Qed.

(** ** The interface *)

Definition krs_holds (b : LinuxKrsBackend) (sk : bytes) : Prop :=
  length sk = 32 /\ krs_value b = Some sk /\ krs_seed_len b = 32 /\ krs_public_key b = Some (mkFixed (ed_public sk)).

Lemma rpc_get b sk : krs_value b = Some sk -> length sk = 32 -> krs_get_seed b = (Ok (mkSeed sk), b).
Proof using Type.
  unfold krs_value, krs_get_seed, rpc. destruct b as [[ring|] pk n]; [|done]. cbn. intros Hv Hl.
  by rewrite (get_seed_value ring sk).
Qed.

Lemma rpc_sign b sk data : krs_value b = Some sk -> length sk = 32 -> krs_sign data b = (Ok (ed_sign sk data), b).
Proof using Type.
  unfold krs_value, krs_sign, rpc. destruct b as [[ring|] pk n]; [|done]. cbn. intros Hv Hl.
  unfold handle_sign, mbind, io_bind. by rewrite (get_seed_value ring sk).
Qed.

#[export] Instance LinuxKrsBackend_Lawful : LawfulSeedBackend LinuxKrsBackend.
Proof using RL.
  refine {| holds := krs_holds |}.
  - intros b sk (_ & _ & H & _). exact H.
  - intros b sk data (Hl & Hv & H1 & H2). exists b. cbn. by rewrite (rpc_sign b sk).
  - intros b sk (_ & _ & _ & H). cbn. by rewrite H.
Defined.

(** Storing in a new backend: the thread has checked that the keyring is empty. *)
Lemma krs_new_store seed b : length (seed_value seed) = 32 ->
  krs_store_seed seed LinuxKrsBackend_new = (Ok tt, b) -> krs_holds b (seed_value seed).
Proof using CL.
  unfold krs_store_seed, LinuxKrsBackend_new, rpc, mbind, io_bind, update_local. intros Hl. cbn [krs_thread].
  destruct worker_start as [ring|] eqn:Hw; [|done].
  assert (ring_value ring KEY_NAME = None) as Hv.
  { unfold worker_start in Hw. destruct thread_keyring as [r|]; [|done].
    destruct (ring_value r KEY_NAME) as [v|] eqn:Hr.
    - destruct (search_Some _ _ _ Hr) as (k & Hs & _). by rewrite Hs in Hw.
    - rewrite search_None in Hw by done. congruence. }
  destruct (store_seed_cases ring seed Hv Hl) as [(ring' & Hst & Hv')|(e & ring' & Hst & _)]; rewrite Hst; [|done].
  cbn. intros [= <-]. done.
Qed.

(** ** Any sequence of calls *)

Inductive Call : Type := CallStore (seed : Seed) | CallGet | CallSign (data : bytes).
Inductive Outcome : Type :=
| Stored (r : res BackendError unit)
| Got (r : res BackendError Seed)
| Signed (r : res BackendError bytes).

Definition krs_call (c : Call) (b : LinuxKrsBackend) : Outcome * LinuxKrsBackend :=
  match c with
  | CallStore seed => let (r, b') := krs_store_seed seed b in (Stored r, b')
  | CallGet => let (r, b') := krs_get_seed b in (Got r, b')
  | CallSign data => let (r, b') := krs_sign data b in (Signed r, b')
  end.
Fixpoint krs_calls (cs : list Call) (b : LinuxKrsBackend) : list Outcome :=
  match cs with
  | [] => []
  | c :: cs' => let (o, b') := krs_call c b in o :: krs_calls cs' b'
  end.

(** The promise: [Some sk] while the backend holds [sk], [None] when it is dead.  A
    call that stores a seed again kills it. *)
Definition spec_call (c : Call) (s : option bytes) : Outcome * option bytes :=
  match c, s with
  | CallStore _, _ => (Stored (Err WorkerDisconnect), None)
  | CallGet, Some sk => (Got (Ok (mkSeed sk)), s)
  | CallSign data, Some sk => (Signed (Ok (ed_sign sk data)), s)
  | CallGet, None => (Got (Err WorkerDisconnect), None)
  | CallSign _, None => (Signed (Err WorkerDisconnect), None)
  end.
Fixpoint spec_calls (cs : list Call) (s : option bytes) : list Outcome :=
  match cs with
  | [] => []
  | c :: cs' => let (o, s') := spec_call c s in o :: spec_calls cs' s'
  end.

(** The simulation relation. *)
Definition krs_sim (b : LinuxKrsBackend) (s : option bytes) : Prop :=
  match s with
  | Some sk => length sk = 32 /\ krs_value b = Some sk
  | None => krs_thread b = None
  end.

Lemma krs_call_sim c b s : krs_sim b s ->
  (krs_call c b).1 = (spec_call c s).1 /\ krs_sim (krs_call c b).2 (spec_call c s).2.
Proof using Type.
  destruct s as [sk|]; cbn [krs_sim].
  - intros [Hl Hv]. destruct c as [seed| |data]; cbn [krs_call spec_call].
    + unfold krs_value in Hv. unfold krs_store_seed, rpc, mbind, io_bind.
      destruct b as [[ring|] pk n]; [|done]. cbn in *. by rewrite (store_seed_twice ring sk).
    + by rewrite (rpc_get b sk).
    + by rewrite (rpc_sign b sk).
  - intros Hd. destruct c as [seed| |data]; cbn [krs_call spec_call];
      unfold krs_store_seed, krs_get_seed, krs_sign, rpc, mbind, io_bind; by rewrite Hd.
Qed.

Lemma krs_calls_sim cs : forall b s, krs_sim b s -> krs_calls cs b = spec_calls cs s.
Proof using Type.
  induction cs as [|c cs IH]; intros b s Hs; [done|]. cbn.
  destruct (krs_call_sim c b s Hs) as [Ho Hs']. destruct (krs_call c b) as [o b'], (spec_call c s) as [o' s'].
  cbn in *. subst o'. f_equal. by apply IH.
Qed.

(** C21: The keyring backend keeps its promise.  After a seed of 32 bytes has been
    stored in a new backend, any sequence of calls has the outcomes of the abstract
    backend: every [get_seed] returns the seed and every [sign] the signature with
    it, until a second seed is stored; that call, whatever the seed, ends the
    thread, and it and every later call report [WorkerDisconnect]. *)
Theorem krs_backend_refines seed b cs :
  length (seed_value seed) = 32 ->
  krs_store_seed seed LinuxKrsBackend_new = (Ok tt, b) ->
  krs_calls cs b = spec_calls cs (Some (seed_value seed)) /\
  seed_len b = 32 /\ backend_public_key b = Ok (mkFixed (ed_public (seed_value seed))).
Proof using CL RL.
  intros Hl Hst. destruct (krs_new_store seed b Hl Hst) as (_ & Hv & Hn & Hpk).
  split; [by apply krs_calls_sim|]. cbn. by rewrite Hpk.
Qed.

End krs_correct.

(** A keyring that holds one value. *)
Definition one_key_rings : KeyRings := {|
  Ring := option bytes;
  Key := unit;
  thread_keyring := Some None;
  ring_search r _ := match r with Some _ => inr tt | None => inl KeyDoesNotExist end;
  ring_add_key _ _ value := inr (tt, Some value);
  ring_set_perms r _ := inr r;
  ring_read r _ := match r with Some v => inr v | None => inl KeyDoesNotExist end;
  ring_clear _ := inr None;
|}.

#[export] Instance one_key_rings_laws : KeyRingsLaws one_key_rings.
Proof.
  refine {| ring_value (r : @Ring one_key_rings) (_ : string) := r |}; cbn.
  - by intros r _ ->.
  - intros r _ v ->. by exists tt.
  - by intros r _ v k r' [= _ <-].
  - by intros r k r' _ [= <-].
  - by intros r r' _ [= <-].
Defined.

Lemma krs_backend_refines_witness :
  let seed := mkSeed (zeroes 32) in
  let b : LinuxKrsBackend (R := one_key_rings) := mkKrs (R := one_key_rings) (Some (Some (zeroes 32))) (Some (mkFixed (ed_public (zeroes 32)))) 32 in
  krs_calls (C := toy_crypto) [CallGet; CallStore seed; CallGet] b =
    [Got (Ok seed); Stored (Err WorkerDisconnect); Got (Err WorkerDisconnect)].
Proof.
  intros seed b.
  destruct (krs_backend_refines (CL := toy_crypto_laws) (R := one_key_rings) seed b [CallGet; CallStore seed; CallGet])
    as [H _]; [reflexivity|reflexivity|]. rewrite H. reflexivity.
Defined.
