(* ===== verification/Backends.v ===== *)
(** * The backends of other processes and devices (crates/roughenough-keys/src/online)

    sshagent.rs ([SshAgentBackend]) and pkcs11.rs ([Pkcs11Backend]).  The agent's
    connection and the device's session are parameters, [SshAgentLib] and
    [Pkcs11Lib], whose calls return [None] when they fail.  A private key of ssh_key
    is its seed, a public one its 32 bytes. *)
From S2P Require Import Prelude Errors Cursor Wire FixedTags Versions Crypto Keys.

(** ** sshagent.rs *)

Class SshAgentLib := {
  Agent : Type;
  agent_connect : string -> option Agent;
  agent_add_identity : Agent -> bytes -> option Agent;
  agent_sign : Agent -> bytes -> bytes -> option (bytes * Agent);
  agent_remove_all_identities : Agent -> option Agent;
}.

(** [m.ok_or(e)] *)
Definition some_or {E A} (m : option A) (e : E) : res E A := match m with Some a => Ok a | None => Err e end.
(** [m.unwrap()] *)
Definition some_or_panic {E A} (m : option A) : res E A := match m with Some a => Ok a | None => Panic end.

Section ssh_agent.
Context {C : CryptoLib} {L : SshAgentLib}.

Record SshAgentBackend := mkSshAgent {
  ssh_connection : Agent;
  ssh_public_key : option bytes;
  ssh_seed_len : nat;
}.

(** [env_sock] is the variable [SSH_AUTH_SOCK]. *)
Definition SshAgentBackend_new (env_sock sock_path : option string) : res BackendError SshAgentBackend :=
  path ← some_or (match sock_path with Some p => Some p | None => env_sock end)
           (Ssh "no path provided and SSH_AUTH_SOCK not set");
  client ← some_or (agent_connect path) (Ssh "failed connecting to ssh-agent");
  Ok (mkSshAgent client None 0).

(** [key_from_seed]: [try_into().expect("seed is 32 bytes")] *)
Definition key_from_seed {E} (seed : bytes) : res E bytes := if length seed =? 32 then Ok seed else Panic.

(** [Drop]: all identities of the agent are removed, not only this one. *)
Definition ssh_drop (b : SshAgentBackend) : Agent :=
  default (ssh_connection b) (agent_remove_all_identities (ssh_connection b)).

#[export] Instance SshAgentBackend_SeedBackend : SeedBackend SshAgentBackend := {|
  store_seed b seed :=
    private_key ← key_from_seed (seed_value seed);
    connection ← some_or (agent_add_identity (ssh_connection b) private_key) SshAgent;
    Ok (mkSshAgent connection (Some (ed_public private_key)) (length (seed_value seed)));
  get_seed b := Err (NotSupported "get_seed is not supported for ssh-agent backend");
  backend_sign b data :=
    key ← some_or_panic (ssh_public_key b);
    r ← some_or (agent_sign (ssh_connection b) key data) SshAgent;
    if length r.1 =? 64 then Ok (r.1, mkSshAgent r.2 (ssh_public_key b) (ssh_seed_len b)) else Panic;
  seed_len := ssh_seed_len;
  backend_public_key b :=
    edkey ← some_or_panic (ssh_public_key b);
    PublicKey_from edkey;
|}.

(** An agent signs with the identities it was given. *)
Class SshAgentLaws := {
  agent_knows : Agent -> bytes -> Prop;
  agent_add_knows a sk a' : agent_add_identity a sk = Some a' -> agent_knows a' sk;
  agent_sign_knows a sk data : agent_knows a sk ->
    exists a', agent_sign a (ed_public sk) data = Some (ed_sign sk data, a') /\ agent_knows a' sk;
}.

Context {CL : CryptoLaws C} {LL : SshAgentLaws}.

Definition ssh_holds (b : SshAgentBackend) (sk : bytes) : Prop :=
  agent_knows (ssh_connection b) sk /\ ssh_public_key b = Some (ed_public sk) /\ ssh_seed_len b = 32.

#[export] Instance SshAgentBackend_Lawful : LawfulSeedBackend SshAgentBackend.
Proof using CL LL.
  refine {| holds := ssh_holds |}.
  - intros b sk (_ & _ & H). exact H.
  - intros b sk data (Hk & Hp & Hl). destruct (agent_sign_knows _ _ data Hk) as (a' & Ha & Hk').
    eexists. cbn. rewrite Hp. cbn. rewrite Ha. cbn [mbind res_bind some_or fst snd].
    rewrite ed_sign_length. split; [reflexivity|]. by split_and!.
  - intros b sk (_ & Hp & _). cbn. rewrite Hp. cbn. by apply PublicKey_from_ok, ed_public_length.
Defined.

Lemma ssh_store_holds b seed b' : store_seed b seed = Ok b' -> ssh_holds b' (seed_value seed).
Proof using Type.
  cbn. unfold key_from_seed, some_or. destruct (Nat.eqb_spec (length (seed_value seed)) 32) as [Hl|]; [|done].
  cbn. destruct (agent_add_identity _ _) as [a|] eqn:Ha; [|done]. cbn. intros [= <-].
  split_and!; [by eapply agent_add_knows|done|exact Hl].
Qed.

End ssh_agent.

(** ** pkcs11.rs *)

Class Pkcs11Lib := {
  Library : Type;
  Slot : Type;
  Session : Type;
  ObjectHandle : Type;
  (** [Pkcs11::new], [initialize] and [get_library_info] *)
  pkcs11_open : string -> option Library;
  pkcs11_get_all_slots : Library -> option (list Slot);
  pkcs11_get_slot_info : Library -> Slot -> option unit;
  pkcs11_open_ro_session : Library -> Slot -> option Session;
  pkcs11_login : Session -> string -> option unit;
  (** the Ed25519 private keys *)
  pkcs11_find_keys : Session -> option (list ObjectHandle);
  pkcs11_sign : Session -> ObjectHandle -> bytes -> option (bytes * Session);
  (** the first attribute returned, when it is an [EcPoint] *)
  pkcs11_ec_point : Session -> ObjectHandle -> option (option bytes);
}.

Section pkcs11.
Context {C : CryptoLib} {L : Pkcs11Lib}.

Record Pkcs11Backend := mkPkcs11 { p11_session : Session; p11_key_handle : ObjectHandle }.

Definition get_slot (library : Library) (slot_index : nat) : res BackendError Slot :=
  slots ← some_or (pkcs11_get_all_slots library) Pkcs11;
  match slots with
  | [] => Err (NotFound "No PKCS11 slots found (not plugged in?)")
  | _ =>
      selected_slot ← some_or (slots !! slot_index) (NotFound "slot index {} is out of range");
      _ ← some_or (pkcs11_get_slot_info library selected_slot) Pkcs11;
      Ok selected_slot
  end.

Definition get_key_handle (session : Session) : res BackendError ObjectHandle :=
  handles ← some_or (pkcs11_find_keys session) Pkcs11;
  match handles with
  | [] => Err (NotFound "No private keys found on the device")
  | handle :: _ => Ok handle
  end.

Definition Pkcs11Backend_new (lib_path : string) (slot_index : nat) (auth_pin : string)
    : res BackendError Pkcs11Backend :=
  library ← some_or (pkcs11_open lib_path) Pkcs11;
  slot ← get_slot library slot_index;
  session ← some_or (pkcs11_open_ro_session library slot) Pkcs11;
  _ ← some_or (pkcs11_login session auth_pin) Pkcs11;
  key_handle ← get_key_handle session;
  Ok (mkPkcs11 session key_handle).

(** The key of an [EcPoint]: DER (0x04, the length 0x20, then the key), or bare. *)
Definition ec_point_key {E} (point_data : bytes) : res E bytes :=
  if (34 <=? length point_data) && bool_decide (point_data !! 0 = Some Byte.x04) &&
     bool_decide (point_data !! 1 = Some Byte.x20)
  then Ok (take 32 (drop 2 point_data))
  else if length point_data =? 32 then Ok point_data
  else Panic.

Definition p11_public_key_bytes {E} (b : Pkcs11Backend) : res E bytes :=
  attribute ← some_or_panic (pkcs11_ec_point (p11_session b) (p11_key_handle b));
  point_data ← some_or_panic attribute;
  ec_point_key point_data.

#[export] Instance Pkcs11Backend_SeedBackend : SeedBackend Pkcs11Backend := {|
  store_seed _ _ := Err (NotSupported "store_seed is not supported by the SeedPkcs11 backend");
  get_seed _ := Err (NotSupported "get_seed is not supported by the SeedPkcs11 backend");
  backend_sign b data :=
    r ← some_or (pkcs11_sign (p11_session b) (p11_key_handle b) data) Pkcs11;
    if length r.1 =? 64 then Ok (r.1, mkPkcs11 r.2 (p11_key_handle b)) else Panic;
  seed_len _ := 32;
  backend_public_key b := key ← p11_public_key_bytes b; PublicKey_from key;
|}.

(** A session whose key is that of the seed [sk], which never leaves the device. *)
Class Pkcs11Laws := {
  device_holds : Session -> ObjectHandle -> bytes -> Prop;
  device_sign s h sk data : device_holds s h sk ->
    exists s', pkcs11_sign s h data = Some (ed_sign sk data, s') /\ device_holds s' h sk;
  device_point s h sk : device_holds s h sk -> exists point, pkcs11_ec_point s h = Some (Some point) /\
    (point = Byte.x04 :: Byte.x20 :: ed_public sk \/ point = ed_public sk);
}.

Context {CL : CryptoLaws C} {LL : Pkcs11Laws}.

Lemma ec_point_key_ok {E} sk point : point = Byte.x04 :: Byte.x20 :: ed_public sk \/ point = ed_public sk ->
  ec_point_key (E := E) point = Ok (ed_public sk).
Proof using CL.
  pose proof (ed_public_length sk) as Hl. unfold ec_point_key. intros [->| ->].
  - cbn [length]. rewrite Hl. cbn. by rewrite firstn_all2 by (rewrite drop_0, Hl; lia).
  - rewrite Hl. reflexivity.
Qed.

#[export] Instance Pkcs11Backend_Lawful : LawfulSeedBackend Pkcs11Backend.
Proof using CL LL.
  refine {| holds (b : Pkcs11Backend) sk := device_holds (p11_session b) (p11_key_handle b) sk |}.
  - done.
  - intros b sk data Hk. destruct (device_sign _ _ _ data Hk) as (s' & Hs & Hk').
    eexists. cbn. rewrite Hs. cbn [mbind res_bind some_or fst snd]. rewrite ed_sign_length. by split.
  - intros b sk Hk. destruct (device_point _ _ _ Hk) as (point & Hp & Hpt). cbn. unfold p11_public_key_bytes.
    rewrite Hp. cbn [some_or_panic mbind res_bind]. rewrite (ec_point_key_ok sk) by done. cbn.
    by apply PublicKey_from_ok, ed_public_length.
Defined.

End pkcs11.
