(* ===== verification/Floats.v ===== *)
(** * Double-precision numbers

    Rust's [f64] as the Standard Library's [SpecFloat] at 53 bits of precision and
    exponents up to 1024, rounding to nearest even: what the server's metrics use
    of it. *)
From Stdlib Require Import SpecFloat Zpower.
From S2P Require Import Prelude.

Definition f64 : Type := spec_float.

#[export] Instance f64_eq_dec : EqDecision f64.
Proof. unfold f64. solve_decision. Defined.

(** [z as f64] *)
Definition f64_of_Z (z : Z) : f64 := binary_normalize 53 1024 z 0 false.
(** [n as f64] of a [usize] *)
Definition f64_of_nat (n : nat) : f64 := f64_of_Z (Z.of_nat n).
Definition f64_mul (a b : f64) : f64 := SFmul 53 1024 a b.
Definition f64_div (a b : f64) : f64 := SFdiv 53 1024 a b.

(** [a.max(b)]: the other number if one is not a number. *)
Definition f64_max (a b : f64) : f64 :=
  match a, b with
  | S754_nan, _ => b
  | _, S754_nan => a
  | _, _ => if SFltb a b then b else a
  end.

(** [f64::EPSILON], 2^-52 *)
Definition f64_EPSILON : f64 := binary_normalize 53 1024 1 (-52) false.

Definition f64_finite (a : f64) : bool :=
  match a with S754_zero _ | S754_finite _ _ _ => true | S754_infinity _ | S754_nan => false end.

(** A number at least zero, or one above it. *)
Definition f64_nonneg (a : f64) : Prop :=
  match a with S754_zero s | S754_infinity s => s = false | S754_finite s _ _ => s = false | S754_nan => False end.
Definition f64_positive (a : f64) : Prop :=
  match a with S754_finite s _ _ => s = false | _ => False end.

(** ** Rounding *)

Lemma iter_pos_ind {A} (P : A -> Prop) (f : A -> A) : (forall x, P x -> P (f x)) ->
  forall p x, P x -> P (SpecFloat.iter_pos f p x).
Proof. intros Hf. induction p as [p IH|p IH|]; intros x Hx; cbn [SpecFloat.iter_pos]; auto. Qed.

Lemma shr_1_range M mrs : (0 <= shr_m mrs <= M)%Z -> (0 <= shr_m (shr_1 mrs) <= M)%Z.
Proof. destruct mrs as [[|[p|p|]|[p|p|]] r s]; cbn; lia. Qed.

Lemma shr_record_of_loc_m m l : shr_m (shr_record_of_loc m l) = m.
Proof. by destruct l as [|[]]. Qed.

Lemma shr_fexp_range m e l : (0 <= m)%Z ->
  let '(mrs, e') := shr_fexp 53 1024 m e l in
  (0 <= shr_m mrs <= m)%Z /\ (e' <= Z.max e (fexp 53 1024 (Zdigits2 m + e)))%Z.
Proof.
  intros Hm. unfold shr_fexp, shr. set (n := (fexp 53 1024 (Zdigits2 m + e) - e)%Z).
  destruct n as [|p|p] eqn:Hn; rewrite ?shr_record_of_loc_m; [lia| |lia]. split; [|unfold n in Hn; lia].
  apply (iter_pos_ind (fun mrs => (0 <= shr_m mrs <= m)%Z)); [by apply shr_1_range|]. rewrite shr_record_of_loc_m. lia.
Qed.

Lemma round_nearest_even_range m l : (0 <= m)%Z -> (0 <= round_nearest_even m l <= m + 1)%Z.
Proof. destruct l as [|[]]; cbn; [lia|destruct (Z.even m); lia|lia|lia]. Qed.

(** A rounded number is no NaN and keeps its sign. *)
Lemma binary_round_aux_nonneg m e l : (0 <= m)%Z -> f64_nonneg (binary_round_aux 53 1024 false m e l).
Proof.
  intros Hm. unfold binary_round_aux. pose proof (shr_fexp_range m e l Hm) as H1.
  destruct (shr_fexp 53 1024 m e l) as [mrs e']. destruct H1 as [[H1 _] _].
  pose proof (round_nearest_even_range (shr_m mrs) (loc_of_shr_record mrs) H1) as [H2 _].
  pose proof (shr_fexp_range _ e' loc_Exact H2) as H3. destruct (shr_fexp 53 1024 _ e' loc_Exact) as [mrs2 e2].
  destruct H3 as [[H3 _] _]. destruct (shr_m mrs2); [done| |lia]. by destruct (_ <=? _)%Z.
Qed.

Lemma digits2_log2 p : Zpos (digits2_pos p) = (Z.log2 (Zpos p) + 1)%Z.
Proof.
  induction p as [p IH|p IH|]; cbn [digits2_pos]; [| |done].
  - rewrite Pos2Z.inj_succ, IH. change (Zpos (xI p)) with (2 * Zpos p + 1)%Z. rewrite Z.log2_succ_double by done. lia.
  - rewrite Pos2Z.inj_succ, IH. change (Zpos (xO p)) with (2 * Zpos p)%Z. rewrite Z.log2_double by done. lia.
Qed.

Lemma Zdigits2_le m k : (0 <= m < 2 ^ k)%Z -> (0 <= k)%Z -> (Zdigits2 m <= k)%Z.
Proof.
  intros [H0 Hm] Hk. destruct m as [|p|p]; cbn [Zdigits2]; [done| |lia]. rewrite digits2_log2.
  assert (Z.log2 (Zpos p) < k)%Z; [|lia]. apply Z.log2_lt_pow2; lia.
Qed.

(** Up to 64 digits there is room for the exponent. *)
Lemma binary_round_aux_finite m e : (0 <= m < 2 ^ 64)%Z -> (e <= 0)%Z ->
  f64_finite (binary_round_aux 53 1024 false m e loc_Exact) = true.
Proof.
  intros Hm He. unfold binary_round_aux. pose proof (Zdigits2_le m 64 Hm ltac:(done)) as Hd.
  pose proof (shr_fexp_range m e loc_Exact (proj1 Hm)) as H1. destruct (shr_fexp 53 1024 m e loc_Exact) as [mrs e'].
  destruct H1 as [[H1 H1'] He'].
  pose proof (round_nearest_even_range (shr_m mrs) (loc_of_shr_record mrs) H1) as H2.
  set (m2 := round_nearest_even _ _) in *. pose proof (Zdigits2_le m2 65 ltac:(lia) ltac:(done)) as Hd2.
  pose proof (shr_fexp_range m2 e' loc_Exact ltac:(lia)) as H3. destruct (shr_fexp 53 1024 m2 e' loc_Exact) as [mrs2 e2].
  destruct H3 as [[H3 _] He2]. unfold fexp, emin in *.
  destruct (shr_m mrs2); [done| |lia]. rewrite (proj2 (Z.leb_le _ _)) by lia. done.
Qed.

(** ** Conversion of counters and rates *)

Lemma shl_align_range p : (Zpos p < 2 ^ 64)%Z ->
  let '(m, e) := shl_align p 0 (fexp 53 1024 (Zpos (digits2_pos p) + 0)) in (Zpos m < 2 ^ 64)%Z /\ (e <= 0)%Z.
Proof.
  intros Hp. pose proof (Zdigits2_le (Zpos p) 64 ltac:(lia) ltac:(done)) as Hd. cbn [Zdigits2] in Hd.
  unfold shl_align, fexp, emin. rewrite Z.add_0_r, Z.sub_0_r. rewrite digits2_log2 in *.
  destruct (Z.max _ _) as [|q|q] eqn:Hq; [done|done|]. split; [|done].
  change (Pos.iter xO p q) with (shift_pos q p). rewrite shift_pos_correct.
  pose proof (Z.log2_spec (Zpos p) ltac:(done)) as [_ Hlog].
  assert (Z.pow_pos 2 q = 2 ^ Zpos q)%Z as -> by done. pose proof (Z.log2_nonneg (Zpos p)).
  assert (Z.log2 (Zpos p) + 1 = 53 - Zpos q)%Z as Hlq by lia.
  rewrite <- Z.add_1_r, Hlq in Hlog.
  assert (2 ^ Zpos q * 2 ^ (53 - Zpos q) = 2 ^ 53)%Z as Hpow by (rewrite <- Z.pow_add_r by lia; f_equal; lia).
  transitivity (2 ^ 53)%Z; [|done]. rewrite <- Hpow. apply Z.mul_lt_mono_pos_l; lia.
Qed.

Lemma f64_of_Z_nonneg z : (0 <= z)%Z -> f64_nonneg (f64_of_Z z).
Proof.
  intros H0. unfold f64_of_Z, binary_normalize. destruct z as [|p|p]; [done| |lia]. unfold binary_round.
  destruct (shl_align _ _ _) as [m e]. by apply binary_round_aux_nonneg.
Qed.

Lemma f64_of_Z_finite z : is_u64 z -> f64_finite (f64_of_Z z) = true.
Proof.
  intros [H0 Hz]. unfold f64_of_Z, binary_normalize. destruct z as [|p|p]; [done| |lia]. unfold binary_round.
  pose proof (shl_align_range p Hz) as H. destruct (shl_align _ _ _) as [m e]. destruct H as [Hm He].
  apply binary_round_aux_finite; lia.
Qed.

Lemma f64_max_positive a : f64_finite a = true -> f64_nonneg a -> f64_positive (f64_max a f64_EPSILON).
Proof.
  intros Hf Hn. destruct a as [s|s| |s m e]; try done. cbn in Hn. subst s. unfold f64_max.
  by destruct (SFltb _ _).
Qed.

Lemma f64_div_nonneg a b : f64_nonneg a -> f64_positive b -> f64_nonneg (f64_div a b).
Proof.
  intros Ha Hb. destruct b as [ | | |s m e]; try done. cbn in Hb. subst s.
  destruct a as [s|s| |s m' e']; cbn in Ha; try done; subst s; try done.
  unfold f64_div, SFdiv, SFdiv_core_binary. set (m2 := match _ with Z0 => _ | _ => _ end).
  assert (0 <= m2)%Z as Hm2.
  { subst m2. destruct (_ - _ - _)%Z; [done|by apply Z.shiftl_nonneg|done]. }
  pose proof (Z.div_eucl_eq m2 (Zpos m) ltac:(done)) as Hdiv. pose proof (Z.div_pos m2 (Zpos m) Hm2 ltac:(done)) as Hq.
  unfold Z.div in Hq. destruct (Z.div_eucl m2 (Zpos m)) as [q r]. by apply binary_round_aux_nonneg.
Qed.
