(* ===== verification/Metrics.v ===== *)
(** * Server metrics (crates/roughenough-server/src/metrics/types.rs,
    snapshot.rs [calc_aggregated_metrics] and the accumulation of aggregator.rs)

    [usize] counters are [nat]; the [u8] counters of the batch-size histogram are
    [Z] and their additions follow the build profile; rates are [f64]. *)
From stdpp Require Import pretty strings.
From S2P Require Import Prelude Crypto Floats.

Record NetworkMetrics := mkNetwork {
  num_recv_wouldblock : nat;
  num_successful_sends : nat;
  num_failed_sends : nat;
  num_failed_polls : nat;
  num_failed_recvs : nat;
}.
Definition NetworkMetrics_default : NetworkMetrics := mkNetwork 0 0 0 0 0.
(** [+=] *)
Definition network_add (a b : NetworkMetrics) : NetworkMetrics :=
  mkNetwork (num_recv_wouldblock a + num_recv_wouldblock b)
    (num_successful_sends a + num_successful_sends b) (num_failed_sends a + num_failed_sends b)
    (num_failed_polls a + num_failed_polls b) (num_failed_recvs a + num_failed_recvs b).

Record RequestMetrics := mkReqMetrics {
  num_ok_requests : nat;
  num_bad_requests : nat;
  num_runt_requests : nat;
  num_jumbo_requests : nat;
}.
Definition RequestMetrics_default : RequestMetrics := mkReqMetrics 0 0 0 0.
Definition request_add (a b : RequestMetrics) : RequestMetrics :=
  mkReqMetrics (num_ok_requests a + num_ok_requests b) (num_bad_requests a + num_bad_requests b)
    (num_runt_requests a + num_runt_requests b) (num_jumbo_requests a + num_jumbo_requests b).

Record ResponseMetrics := mkRespMetrics {
  num_responses : nat;
  num_bytes_sent : nat;
  batch_sizes : list Z;
}.
Definition MAX_BATCH_SIZE : nat := 64.
Definition ResponseMetrics_default : ResponseMetrics :=
  mkRespMetrics 0 0 (replicate MAX_BATCH_SIZE 0%Z).

Section metrics.
Context {profile : Profile} {E : Type}.

(** [add_batch_size(batch_size: u8)] *)
Definition add_batch_size (m : ResponseMetrics) (batch_size : nat) : res E ResponseMetrics :=
  _ ← debug_assert ((0 <? batch_size) && (batch_size <=? MAX_BATCH_SIZE));
  idx ← usize_sub batch_size 1;
  count ← index (batch_sizes m) idx;
  count' ← u8_add count 1;
  mret (mkRespMetrics (num_responses m + batch_size) (num_bytes_sent m)
          (<[idx := count']> (batch_sizes m))).

Definition add_bytes_sent (m : ResponseMetrics) (num_bytes : nat) : ResponseMetrics :=
  mkRespMetrics (num_responses m) (num_bytes_sent m + num_bytes) (batch_sizes m).

(** [reset_metrics]: the vector is cleared and resized with zeroes. *)
Definition reset_response_metrics (m : ResponseMetrics) : ResponseMetrics :=
  mkRespMetrics 0 0 (replicate MAX_BATCH_SIZE 0%Z).

(** [for (idx, &count) in rhs.batch_sizes.iter().enumerate() { self.batch_sizes[idx] += count }] *)
Fixpoint add_counts (idx : nat) (counts acc : list Z) : res E (list Z) :=
  match counts with
  | [] => Ok acc
  | c :: cs =>
      x ← index acc idx;
      y ← u8_add x c;
      add_counts (S idx) cs (<[idx := y]> acc)
  end.
Definition response_add (a b : ResponseMetrics) : res E ResponseMetrics :=
  counts ← add_counts 0 (batch_sizes b) (batch_sizes a);
  mret (mkRespMetrics (num_responses a + num_responses b) (num_bytes_sent a + num_bytes_sent b) counts).

Record WorkerMetrics := mkWorkerMetrics {
  wm_worker_id : nat;
  wm_network : NetworkMetrics;
  wm_request : RequestMetrics;
  wm_response : ResponseMetrics;
}.

(** [self.aggregated_metrics[worker_id].* += metrics.*] *)
Definition accumulate (agg : list WorkerMetrics) (m : WorkerMetrics) : res E (list WorkerMetrics) :=
  a ← index agg (wm_worker_id m);
  r ← response_add (wm_response a) (wm_response m);
  mret (<[wm_worker_id m := mkWorkerMetrics (wm_worker_id a) (network_add (wm_network a) (wm_network m))
           (request_add (wm_request a) (wm_request m)) r]> agg).

(** [counts_as_string]: the sizes that occurred, with their counts. *)
Definition count_entries (m : ResponseMetrics) : list string :=
  omap (fun sc : nat * Z => if (0 <? sc.2)%Z then Some (pretty (sc.1 + 1) +:+ ": " +:+ pretty sc.2) else None)
    (zip (seq 0 (length (batch_sizes m))) (batch_sizes m)).
Definition counts_as_string (m : ResponseMetrics) : string := String.concat ", " (count_entries m).

Record AggregatedMetrics := mkAggregated {
  am_network : NetworkMetrics;
  am_requests : RequestMetrics;
  am_responses : ResponseMetrics;
  am_total_requests : nat;
  am_responses_per_second : f64;
  am_mbytes_per_second : f64;
}.
(** [x / duration_secs.max(f64::EPSILON)] *)
Definition per_second (x duration_secs : f64) : f64 := f64_div x (f64_max duration_secs f64_EPSILON).
Definition responses_per_second (num_responses : nat) (duration_secs : f64) : f64 :=
  per_second (f64_of_nat num_responses) duration_secs.
Definition mbytes_per_second (num_bytes_sent : nat) (duration_secs : f64) : f64 :=
  per_second (f64_div (f64_of_nat num_bytes_sent) (f64_mul (f64_of_Z 1024) (f64_of_Z 1024))) duration_secs.
Fixpoint sum_workers (ws : list WorkerMetrics) (n : NetworkMetrics) (q : RequestMetrics)
    (r : ResponseMetrics) : res E (NetworkMetrics * RequestMetrics * ResponseMetrics) :=
  match ws with
  | [] => Ok (n, q, r)
  | w :: ws' =>
      r' ← response_add r (wm_response w);
      sum_workers ws' (network_add n (wm_network w)) (request_add q (wm_request w)) r'
  end.
Definition calc_aggregated_metrics (duration_secs : f64) (workers : list WorkerMetrics) : res E AggregatedMetrics :=
  t ← sum_workers workers NetworkMetrics_default RequestMetrics_default ResponseMetrics_default;
  let q := t.1.2 in
  mret (mkAggregated t.1.1 q t.2
          (num_ok_requests q + num_bad_requests q + num_runt_requests q + num_jumbo_requests q)
          (responses_per_second (num_responses t.2) duration_secs)
          (mbytes_per_second (num_bytes_sent t.2) duration_secs)).

(** A rate over whole seconds is a number, at least zero, even when none have passed. *)
Lemma per_second_nonneg x secs : f64_nonneg x -> is_u64 secs -> f64_nonneg (per_second x (f64_of_Z secs)).
Proof.
  intros Hx Hs. apply f64_div_nonneg; [done|].
  apply f64_max_positive; [by apply f64_of_Z_finite|apply f64_of_Z_nonneg, Hs].
Qed.
Lemma responses_per_second_nonneg n secs : is_u64 secs -> f64_nonneg (responses_per_second n (f64_of_Z secs)).
Proof. apply per_second_nonneg. apply f64_of_Z_nonneg. lia. Qed.
Lemma mbytes_per_second_nonneg n secs : is_u64 secs -> f64_nonneg (mbytes_per_second n (f64_of_Z secs)).
Proof. apply per_second_nonneg, f64_div_nonneg; [apply f64_of_Z_nonneg; lia|]. vm_compute. reflexivity. Qed.

(** ** Properties of the histogram *)

Definition metrics_wf (m : ResponseMetrics) : Prop :=
  length (batch_sizes m) = MAX_BATCH_SIZE /\ Forall (fun c => 0 <= c < 256)%Z (batch_sizes m).

Lemma default_metrics_wf : metrics_wf ResponseMetrics_default.
Proof. split; [done|]. apply Forall_replicate. lia. Qed.

Lemma u8_add_range a b c : (0 <= a < 256)%Z -> (0 <= b < 256)%Z ->
  u8_add (E := E) a b = Ok c -> (0 <= c < 256)%Z.
Proof.
  unfold u8_add. intros Ha Hb. destruct (Z.leb_spec (a + b) 255); [intros [= <-]; lia|].
  destruct debug_build; [done|]. intros [= <-]. apply Z.mod_pos_bound. lia.
Qed.

Lemma add_counts_length cs : forall idx acc out, add_counts idx cs acc = Ok out -> length out = length acc.
Proof.
  induction cs as [|c cs IH]; intros idx acc out; cbn; [by intros [= <-]|].
  destruct (index acc idx) as [x|e|]; [|done|done]. cbn.
  destruct (u8_add x c) as [y|e|]; [|done|done]. cbn. intros H%IH. by rewrite length_insert in H.
Qed.

(** The histogram after a batch of [size] requests, and whether its counter could
    take it: what [add_batch_size] does, over any sequence of batches. *)
Definition tally_size (counts : list Z) (size : nat) : list Z :=
  match size with O => counts | S i => alter (fun c => (c + 1) mod 256)%Z i counts end.
Definition size_room (counts : list Z) (size : nat) : bool :=
  match size with
  | O => true
  | S i => match counts !! i with Some c => (c <? 255)%Z | None => true end
  end.
Definition tally_sizes (counts : list Z) (sizes : list nat) : list Z := foldl tally_size counts sizes.
Fixpoint sizes_room (counts : list Z) (sizes : list nat) : bool :=
  match sizes with
  | [] => true
  | size :: sizes' => size_room counts size && sizes_room (tally_size counts size) sizes'
  end.

(** A batch of 1 to 64 is counted, unless its counter is full and the build checks
    overflow. *)
Lemma add_batch_size_eq m b : metrics_wf m -> 1 <= b <= MAX_BATCH_SIZE ->
  add_batch_size m b =
    if debug_build && negb (size_room (batch_sizes m) b) then Panic
    else Ok (mkRespMetrics (num_responses m + b) (num_bytes_sent m) (tally_size (batch_sizes m) b)).
Proof.
  intros [Hl Hf] [Hb1 Hb2]. unfold add_batch_size, debug_assert, usize_sub.
  destruct (Nat.ltb_spec 0 b); [|lia]. destruct (Nat.leb_spec b MAX_BATCH_SIZE); [|lia].
  cbn [andb negb]. rewrite andb_false_r. cbn [mbind res_bind].
  destruct (Nat.leb_spec 1 b); [|lia]. cbn [mbind res_bind].
  destruct b as [|i]; [lia|]. replace (S i - 1) with i by lia. cbn [size_room tally_size].
  destruct (lookup_lt_is_Some_2 (batch_sizes m) i) as [c Hc]; [lia|]. unfold index. rewrite Hc.
  pose proof (Forall_lookup_1 _ _ _ _ Hf Hc) as Hrange. cbn in Hrange.
  cbn [mbind res_bind]. assert (alter (fun c => (c + 1) mod 256)%Z i (batch_sizes m) = <[i := ((c + 1) mod 256)%Z]> (batch_sizes m)) as ->.
  { apply list_eq. intros j. destruct (decide (i = j)) as [<-|Hne].
    - rewrite list_lookup_alter_eq, list_lookup_insert_eq by lia. by rewrite Hc.
    - by rewrite list_lookup_alter_ne, list_lookup_insert_ne. }
  unfold u8_add. destruct (Z.ltb_spec c 255), (Z.leb_spec (c + 1) 255); try lia.
  - rewrite andb_false_r. cbn. rewrite Z.mod_small by lia. done.
  - by destruct debug_build.
Qed.

Lemma tally_size_wf m b : metrics_wf m ->
  metrics_wf (mkRespMetrics (num_responses m + b) (num_bytes_sent m) (tally_size (batch_sizes m) b)).
Proof.
  intros [Hl Hf]. destruct b as [|i]; [done|]. split; cbn; [by rewrite length_alter|].
  apply Forall_alter; [done|]. intros c _ _. apply Z.mod_pos_bound. lia.
Qed.

(** It has room for 255 batches after a publication, whatever their sizes. *)
Lemma tally_size_bounded counts size n : (0 <= n < 255)%Z -> Forall (fun c => 0 <= c <= n)%Z counts ->
  Forall (fun c => 0 <= c <= n + 1)%Z (tally_size counts size).
Proof.
  intros Hn Hf. assert (Forall (fun c => 0 <= c <= n + 1)%Z counts) as Hf1 by (eapply Forall_impl; [exact Hf|]; cbn; lia).
  destruct size as [|i]; [done|]. apply Forall_alter; [done|]. intros c Hc _.
  pose proof (Forall_lookup_1 _ _ _ _ Hf Hc) as Hb. cbn in Hb. rewrite Z.mod_small; lia.
Qed.

Lemma size_room_bounded counts size n : (0 <= n < 255)%Z -> Forall (fun c => 0 <= c <= n)%Z counts ->
  size_room counts size = true.
Proof.
  intros Hn Hf. destruct size as [|i]; [done|]. cbn. destruct (counts !! i) as [c|] eqn:Hc; [|done].
  pose proof (Forall_lookup_1 _ _ _ _ Hf Hc) as Hb. cbn in Hb. apply Z.ltb_lt. lia.
Qed.

Lemma sizes_room_few sizes : forall counts n, Forall (fun c => 0 <= c <= n)%Z counts -> (0 <= n)%Z ->
  (n + Z.of_nat (length sizes) <= 255)%Z -> sizes_room counts sizes = true.
Proof.
  induction sizes as [|size sizes IH]; intros counts n Hf H0 Hn; cbn [sizes_room length] in *; [done|].
  rewrite (size_room_bounded counts size n) by (done || lia). apply (IH _ (n + 1)%Z); [|lia..].
  apply tally_size_bounded; [lia|done].
Qed.

Lemma sizes_room_app xs : forall counts ys,
  sizes_room counts (xs ++ ys) = sizes_room counts xs && sizes_room (tally_sizes counts xs) ys.
Proof.
  induction xs as [|x xs IH]; intros counts ys; cbn [app sizes_room tally_sizes foldl]; [done|].
  by rewrite IH, andb_assoc.
Qed.

(** The batch-size counters overflow.  After 255 batches of one size within a
    reporting interval, the 256th panics in a build with overflow checks, and in a
    release build the counter is back at zero although [num_responses] counts it. *)
Theorem batch_counter_overflow (m : ResponseMetrics) (b : nat) :
  metrics_wf m -> 1 <= b <= MAX_BATCH_SIZE -> batch_sizes m !! (b - 1) = Some 255%Z ->
  if debug_build then add_batch_size m b = Panic
  else exists m', add_batch_size m b = Ok m' /\ batch_sizes m' !! (b - 1) = Some 0%Z /\
    num_responses m' = num_responses m + b.
Proof.
  intros Hm Hb Hc. rewrite (add_batch_size_eq m b) by done. destruct b as [|i]; [lia|].
  replace (S i - 1) with i in * by lia. cbn [size_room tally_size]. rewrite Hc. change (255 <? 255)%Z with false.
  destruct debug_build; [done|]. eexists. split; [reflexivity|]. split; [|done]. cbn.
  by rewrite list_lookup_alter_eq, Hc.
Qed.

End metrics.

Lemma batch_counter_overflow_witness :
  let m := mkRespMetrics 64 0 (replicate 63 0%Z ++ [255%Z]) in
  exists m', add_batch_size (profile := false) (E := unit) m 64 = Ok m' /\
    batch_sizes m' !! 63 = Some 0%Z /\ num_responses m' = num_responses m + 64.
Proof.
  apply (batch_counter_overflow (profile := false) (E := unit)
           (mkRespMetrics 64 0 (replicate 63 0%Z ++ [255%Z])) 64).
  - split; [reflexivity|]. apply Forall_app. split; [apply Forall_replicate; lia|].
    apply Forall_cons. split; [lia|]. by apply Forall_nil.
  - unfold MAX_BATCH_SIZE. lia.
  - reflexivity.
Defined.
