(* ===== verification/Aggregator.v ===== *)
(** * The metrics collector (crates/roughenough-server/src/metrics/aggregator.rs)

    The thread that adds up what the workers publish.  One pass of its loop is
    [collector_pass]: it takes what waits in the channel, and reports when due.  A
    pass is given the snapshots it receives and the clock it reads; the log is the
    list of reports.  [Snapshot] has the JSON file; the layout of the log lines is
    not modelled. *)
From S2P Require Import Prelude Crypto Floats Metrics.

Record MetricsAggregator := mkAggregator {
  ag_metrics : list WorkerMetrics;
  ag_interval : Duration;
  ag_clock : ClockSource;
}.

Definition idle_metrics (worker_id : nat) : WorkerMetrics :=
  mkWorkerMetrics worker_id NetworkMetrics_default RequestMetrics_default ResponseMetrics_default.

Definition MetricsAggregator_new (num_workers : nat) (reporting_interval : Duration) (clock : ClockSource)
    : MetricsAggregator :=
  mkAggregator (map idle_metrics (seq 0 num_workers)) reporting_interval clock.

(** What [report_metrics] logs and writes: the interval, the accumulators and the
    totals. *)
Record Report := mkReport {
  rep_elapsed_secs : f64;
  rep_workers : list WorkerMetrics;
  rep_totals : AggregatedMetrics;
}.

(** The aggregator with the variables of its loop. *)
Record Collector := mkCollector {
  co_aggregator : MetricsAggregator;
  co_next_report : Z;
  co_last_report_time : Z;
}.

(** One pass: the snapshots in the channel and the clock. *)
Record Pass := mkPass { pa_received : list WorkerMetrics; pa_world : World }.

Section aggregator.
Context {profile : Profile} {E : Type}.

(** [while let Ok(metrics) = self.metrics_channel.try_recv()] *)
Fixpoint accumulate_all (agg : list WorkerMetrics) (received : list WorkerMetrics) : res E (list WorkerMetrics) :=
  match received with
  | [] => Ok agg
  | m :: ms => agg' ← accumulate agg m; accumulate_all agg' ms
  end.

Definition report_metrics (a : MetricsAggregator) (elapsed_secs : f64) : res E Report :=
  aggregated ← calc_aggregated_metrics elapsed_secs (ag_metrics a);
  Ok (mkReport elapsed_secs (ag_metrics a) aggregated).

(** [w1] and [w2] are the two reads of the clock. *)
Definition collector_start (w1 w2 : World) (a : MetricsAggregator) : res E Collector :=
  next_report ← u64_add (epoch_seconds w1 (ag_clock a)) (as_secs (ag_interval a));
  Ok (mkCollector a next_report (epoch_seconds w2 (ag_clock a))).

Definition collector_pass (p : Pass) (c : Collector) : res E (Collector * list Report) :=
  let a := co_aggregator c in
  metrics ← accumulate_all (ag_metrics a) (pa_received p);
  let a := mkAggregator metrics (ag_interval a) (ag_clock a) in
  let now := epoch_seconds (pa_world p) (ag_clock a) in
  if (co_next_report c <=? now)%Z then
    elapsed_secs ← u64_sub now (co_last_report_time c);
    report ← report_metrics a (f64_of_Z elapsed_secs);
    next_report ← u64_add now (as_secs (ag_interval a));
    Ok (mkCollector a next_report now, [report])
  else Ok (mkCollector a (co_next_report c) (co_last_report_time c), []).

Fixpoint collector_run (ps : list Pass) (c : Collector) : res E (Collector * list Report) :=
  match ps with
  | [] => Ok (c, [])
  | p :: ps' =>
      r ← collector_pass p c;
      r' ← collector_run ps' r.1;
      Ok (r'.1, r.2 ++ r'.2)
  end.

(** ** Counters *)

(** Every [usize] counter of a snapshot. *)
Definition counters : list (WorkerMetrics -> nat) :=
  [ (fun m => num_recv_wouldblock (wm_network m)); (fun m => num_successful_sends (wm_network m));
    (fun m => num_failed_sends (wm_network m)); (fun m => num_failed_polls (wm_network m));
    (fun m => num_failed_recvs (wm_network m)); (fun m => num_ok_requests (wm_request m));
    (fun m => num_bad_requests (wm_request m)); (fun m => num_runt_requests (wm_request m));
    (fun m => num_jumbo_requests (wm_request m)); (fun m => num_responses (wm_response m));
    (fun m => num_bytes_sent (wm_response m)) ].
(** The counter of batches of [S i] requests. *)
Definition batches (i : nat) (m : WorkerMetrics) : Z := default 0%Z (batch_sizes (wm_response m) !! i).

Definition sum_nat (f : WorkerMetrics -> nat) (ms : list WorkerMetrics) : nat := foldr (fun m n => f m + n) 0 ms.
Definition sum_Z (f : WorkerMetrics -> Z) (ms : list WorkerMetrics) : Z := foldr (fun m n => f m + n)%Z 0%Z ms.

(** [u8] counters are equal when they are equal modulo 256. *)
Definition same_u8 (a b : Z) : Prop := (a mod 256 = b mod 256)%Z.

#[local] Instance same_u8_equivalence : Equivalence same_u8.
Proof. split; [done|by intros a b|intros a b c; unfold same_u8; congruence]. Qed.
#[local] Instance same_u8_add : Proper (same_u8 ==> same_u8 ==> same_u8) Z.add.
Proof.
  unfold same_u8. intros a a' Ha b b' Hb. rewrite (Z.add_mod a b), (Z.add_mod a' b') by lia. congruence.
Qed.
Lemma same_u8_mod a : same_u8 (a mod 256) a.
Proof. unfold same_u8. by rewrite Z.mod_mod. Qed.

Lemma sum_nat_insert f i a b ms : ms !! i = Some a -> sum_nat f (<[i := b]> ms) + f a = sum_nat f ms + f b.
Proof.
  intros Ha. rewrite <- (take_drop_middle ms i a Ha) at 2. rewrite insert_take_drop by by eapply lookup_lt_Some.
  unfold sum_nat. rewrite !foldr_app. cbn. generalize (foldr (fun m n => f m + n) 0 (drop (S i) ms)). intros n.
  induction (take i ms) as [|m l IH]; cbn; lia.
Qed.
Lemma sum_Z_insert f i a b ms : ms !! i = Some a -> (sum_Z f (<[i := b]> ms) + f a = sum_Z f ms + f b)%Z.
Proof.
  intros Ha. rewrite <- (take_drop_middle ms i a Ha) at 2. rewrite insert_take_drop by by eapply lookup_lt_Some.
  unfold sum_Z. rewrite !foldr_app. cbn. generalize (foldr (fun m n => f m + n)%Z 0%Z (drop (S i) ms)). intros n.
  induction (take i ms) as [|m l IH]; cbn; lia.
Qed.

Lemma u8_add_release a b : debug_build = false -> exists c, u8_add (E := E) a b = Ok c /\ same_u8 c (a + b) /\
  ((0 <= a < 256)%Z -> (0 <= b < 256)%Z -> (0 <= c < 256)%Z).
Proof.
  intros Hrel. destruct (u8_add (E := E) a b) as [c|e|] eqn:Hc.
  - exists c. split; [done|]. split; [|intros Ha Hb; exact (u8_add_range a b c Ha Hb Hc)]. unfold u8_add in Hc.
    destruct (Z.leb_spec (a + b) 255); [injection Hc as <-; done|]. rewrite Hrel in Hc. injection Hc as <-.
    apply same_u8_mod.
  - unfold u8_add in Hc. rewrite Hrel in Hc. by destruct (a + b <=? 255)%Z.
  - unfold u8_add in Hc. rewrite Hrel in Hc. by destruct (a + b <=? 255)%Z.
Qed.

(** Adding histograms, in release: each counter is the sum modulo 256. *)
Lemma add_counts_release cs : debug_build = false -> forall idx acc,
  idx + length cs <= length acc ->
  exists out, add_counts (E := E) idx cs acc = Ok out /\ length out = length acc /\
    (forall i, i < idx -> out !! i = acc !! i) /\
    (forall i c, cs !! i = Some c -> exists a o, acc !! (idx + i) = Some a /\ out !! (idx + i) = Some o /\ same_u8 o (a + c)) /\
    (Forall (fun c => 0 <= c < 256)%Z cs -> Forall (fun c => 0 <= c < 256)%Z acc -> Forall (fun c => 0 <= c < 256)%Z out).
Proof.
  intros Hrel. induction cs as [|c cs IH]; intros idx acc Hlen; cbn [add_counts].
  { exists acc. split_and!; try done. }
  cbn in Hlen. destruct (lookup_lt_is_Some_2 acc idx) as [a Ha]; [lia|]. unfold index. rewrite Ha. cbn [mbind res_bind].
  destruct (u8_add_release a c Hrel) as (y & -> & Hy & Hr). cbn [mbind res_bind].
  destruct (IH (S idx) (<[idx := y]> acc)) as (out & -> & Hl & Hlow & Hhi & Hf); [rewrite length_insert; lia|].
  rewrite length_insert in Hl. exists out. split_and!; [done|done| | |].
  - intros i Hi. rewrite Hlow by lia. by rewrite list_lookup_insert_ne by lia.
  - intros [|i] c' Hc'.
    + injection Hc' as <-. exists a, y. rewrite Nat.add_0_r. split_and!; [done| |done].
      rewrite Hlow by lia. apply list_lookup_insert_eq. by eapply lookup_lt_Some.
    + destruct (Hhi i c' Hc') as (a' & o & Ha' & Ho & Hs). exists a', o.
      rewrite list_lookup_insert_ne in Ha' by lia.
      replace (idx + S i) with (S idx + i) by lia. done.
  - intros [Hc Hcs]%Forall_cons Hacc. apply Hf; [done|]. apply Forall_insert; [done|].
    apply Hr; [|done]. exact (Forall_lookup_1 _ _ _ _ Hacc Ha).
Qed.

(** ** What has been received is accounted for *)

(** A snapshot the collector can take. *)
Definition snapshot_wf (num_workers : nat) (m : WorkerMetrics) : Prop :=
  wm_worker_id m < num_workers /\ metrics_wf (wm_response m).
Definition accumulators_wf (ms : list WorkerMetrics) : Prop := Forall (fun m => metrics_wf (wm_response m)) ms.

(** [total] is the sum of [received]: exactly for the [usize] counters, modulo 256
    for the [u8] counters of the histogram. *)
Definition totals (total : list WorkerMetrics) (received : list WorkerMetrics) : Prop :=
  Forall (fun f => sum_nat f total = sum_nat f received) counters /\
  forall i, same_u8 (sum_Z (batches i) total) (sum_Z (batches i) received).
Definition report_totals (r : Report) : WorkerMetrics :=
  mkWorkerMetrics 0 (am_network (rep_totals r)) (am_requests (rep_totals r)) (am_responses (rep_totals r)).

Lemma sum_nat_app f ms ms' : sum_nat f (ms ++ ms') = sum_nat f ms + sum_nat f ms'.
Proof. unfold sum_nat. induction ms as [|m ms IH]; cbn; [done|]. rewrite IH. lia. Qed.
Lemma sum_Z_app f ms ms' : (sum_Z f (ms ++ ms') = sum_Z f ms + sum_Z f ms')%Z.
Proof. unfold sum_Z. induction ms as [|m ms IH]; cbn [app foldr]; [done|]. rewrite IH. lia. Qed.

Lemma sum_nat_one f m : sum_nat f [m] = f m.
Proof. unfold sum_nat. cbn. lia. Qed.
Lemma sum_Z_one f m : sum_Z f [m] = f m.
Proof. unfold sum_Z. cbn. lia. Qed.

Lemma response_add_release (a b : ResponseMetrics) : debug_build = false -> metrics_wf a -> metrics_wf b ->
  exists r, response_add (E := E) a b = Ok r /\ metrics_wf r /\
    num_responses r = num_responses a + num_responses b /\
    num_bytes_sent r = num_bytes_sent a + num_bytes_sent b /\
    (forall i, same_u8 (default 0%Z (batch_sizes r !! i)) (default 0%Z (batch_sizes a !! i) + default 0%Z (batch_sizes b !! i))).
Proof.
  intros Hrel [Hla Hfa] [Hlb Hfb]. unfold response_add.
  destruct (add_counts_release (batch_sizes b) Hrel 0 (batch_sizes a)) as (out & -> & Hl & _ & Hadd & Hf); [lia|].
  cbn [mbind res_bind]. eexists. split; [done|]. split; [split; cbn; [lia|by apply Hf]|]. split_and!; [done|done|].
  intros i. cbn. destruct (batch_sizes b !! i) as [c|] eqn:Hc.
  - destruct (Hadd i c Hc) as (x & o & Hx & Ho & Hs). cbn in Hx, Ho. by rewrite Hx, Ho.
  - apply lookup_ge_None in Hc. rewrite !lookup_ge_None_2 by lia. done.
Qed.

(** One snapshot is added to the accumulator of its worker. *)
Lemma accumulate_release (agg : list WorkerMetrics) (m : WorkerMetrics) : debug_build = false ->
  accumulators_wf agg -> snapshot_wf (length agg) m ->
  exists agg', accumulate (E := E) agg m = Ok agg' /\ accumulators_wf agg' /\ length agg' = length agg /\
    forall received, totals agg received -> totals agg' (received ++ [m]).
Proof.
  intros Hrel Hwf [Hid Hm]. unfold accumulate, index.
  destruct (lookup_lt_is_Some_2 agg _ Hid) as [a Ha]. rewrite Ha. cbn [mbind res_bind].
  destruct (response_add_release (wm_response a) (wm_response m) Hrel) as (r & -> & Hr & Hn & Hb & Hs);
    [exact (Forall_lookup_1 _ _ _ _ Hwf Ha)|done|].
  cbn [mbind res_bind mret res_ret]. eexists. split; [done|].
  set (a' := mkWorkerMetrics _ _ _ _). split_and!.
  - by apply Forall_insert.
  - apply length_insert.
  - intros received [Hc Hh]. split.
    + assert (Forall (fun f => f a' = f a + f m) counters) as Hstep by (repeat constructor; assumption).
      eapply Forall_impl; [apply Forall_and; split; [exact Hc|exact Hstep]|]. cbv beta. intros f [Hsum Hfa].
      pose proof (sum_nat_insert f _ a a' agg Ha) as Hins. rewrite sum_nat_app, sum_nat_one. lia.
    + intros i. pose proof (sum_Z_insert (batches i) _ a a' agg Ha) as Hins. rewrite sum_Z_app, sum_Z_one.
      assert (sum_Z (batches i) (<[wm_worker_id m := a']> agg)
              = sum_Z (batches i) agg + (batches i a' - batches i a))%Z as -> by lia.
      rewrite (Hh i). apply same_u8_add; [done|].
      pose proof (Hs i) as Hi. unfold same_u8 in Hi |- *. unfold batches at 1. cbn.
      rewrite Zminus_mod, Hi, <- Zminus_mod. f_equal. unfold batches. lia.
Qed.

Lemma accumulate_all_release (received : list WorkerMetrics) : debug_build = false -> forall agg before,
  accumulators_wf agg -> Forall (snapshot_wf (length agg)) received -> totals agg before ->
  exists agg', accumulate_all agg received = Ok agg' /\ accumulators_wf agg' /\ length agg' = length agg /\
    totals agg' (before ++ received).
Proof.
  intros Hrel. induction received as [|m ms IH]; intros agg before Hwf Hall Ht; cbn [accumulate_all].
  { exists agg. by rewrite app_nil_r. }
  apply Forall_cons in Hall as [Hm Hms].
  destruct (accumulate_release agg m Hrel Hwf Hm) as (agg1 & -> & Hwf1 & Hl1 & Ht1). cbn [mbind res_bind].
  destruct (IH agg1 (before ++ [m]) Hwf1) as (agg2 & -> & Hwf2 & Hl2 & Ht2); [by rewrite Hl1|by apply Ht1|].
  exists agg2. split_and!; [done|done|lia|]. by rewrite <- app_assoc in Ht2.
Qed.

#[local] Instance totals_equivalence : Equivalence totals.
Proof.
  split.
  - intros l. split; [by apply Forall_true|done].
  - intros l l' [Hc Hh]. split; [by eapply Forall_impl; [exact Hc|]|by intros i].
  - intros l1 l2 l3 [Hc Hh] [Hc' Hh']. split; [|by intros i; rewrite Hh].
    eapply Forall_impl; [apply Forall_and; split; [exact Hc|exact Hc']|]. cbv beta. intros f [-> ->]. done.
Qed.
#[local] Instance totals_app : Proper (totals ==> totals ==> totals) app.
Proof.
  intros l1 l1' [Hc Hh] l2 l2' [Hc' Hh']. split.
  - eapply Forall_impl; [apply Forall_and; split; [exact Hc|exact Hc']|]. cbv beta. intros f [H1 H2].
    rewrite !sum_nat_app. congruence.
  - intros i. rewrite !sum_Z_app. by apply same_u8_add.
Qed.

(** [calc_aggregated_metrics] adds up the workers. *)
Lemma sum_workers_release (ws : list WorkerMetrics) : debug_build = false -> accumulators_wf ws -> forall n q r,
  metrics_wf r ->
  exists n' q' r', sum_workers (E := E) ws n q r = Ok (n', q', r') /\
    totals [mkWorkerMetrics 0 n' q' r'] (mkWorkerMetrics 0 n q r :: ws).
Proof.
  intros Hrel. induction ws as [|w ws IH]; intros Hwf n q r Hr; cbn [sum_workers].
  { by exists n, q, r. }
  apply Forall_cons in Hwf as [Hw Hws].
  destruct (response_add_release r (wm_response w) Hrel Hr Hw) as (r1 & -> & Hr1 & Hn & Hb & Hs). cbn [mbind res_bind].
  destruct (IH Hws (network_add n (wm_network w)) (request_add q (wm_request w)) r1 Hr1) as (n' & q' & r' & -> & Ht).
  exists n', q', r'. split; [done|]. rewrite Ht. change (?x :: ?y :: ws) with ([x; y] ++ ws). change (?x :: ws) with ([x] ++ ws).
  apply totals_app; [|done]. split; [|intros i; unfold sum_Z, batches; cbn; rewrite !Z.add_0_r; exact (Hs i)].
  repeat constructor; unfold sum_nat; cbn; lia.
Qed.

Lemma idle_totals ids : totals (map idle_metrics ids) [].
Proof.
  induction ids as [|i ids IH]; [done|]. change (map idle_metrics (i :: ids)) with ([idle_metrics i] ++ map idle_metrics ids).
  rewrite IH. split; [repeat constructor|]. intros j. change (sum_Z (batches j) ([idle_metrics i] ++ [])) with (batches j (idle_metrics i) + 0)%Z.
  assert (batches j (idle_metrics i) = 0%Z) as ->; [|done]. unfold batches, idle_metrics.
  destruct (batch_sizes _ !! j) as [z|] eqn:Hj; [|done]. by apply lookup_replicate in Hj as [-> _].
Qed.

Definition collector_metrics (c : Collector) : list WorkerMetrics := ag_metrics (co_aggregator c).
Definition received_in (ps : list Pass) : list WorkerMetrics := concat (map pa_received ps).

(** What a report says of the snapshots [received] since the start, [elapsed] seconds
    after the previous report. *)
Record report_of (received : list WorkerMetrics) (elapsed : Z) (r : Report) : Prop := {
  ro_totals : totals [report_totals r] received;
  ro_elapsed : rep_elapsed_secs r = f64_of_Z elapsed;
  ro_responses : am_responses_per_second (rep_totals r) =
    responses_per_second (sum_nat (fun m => num_responses (wm_response m)) received) (rep_elapsed_secs r);
  ro_mbytes : am_mbytes_per_second (rep_totals r) =
    mbytes_per_second (sum_nat (fun m => num_bytes_sent (wm_response m)) received) (rep_elapsed_secs r);
}.

Lemma report_metrics_release (a : MetricsAggregator) (elapsed : Z) (received : list WorkerMetrics) : debug_build = false ->
  accumulators_wf (ag_metrics a) -> totals (ag_metrics a) received ->
  exists r, report_metrics a (f64_of_Z elapsed) = Ok r /\ report_of received elapsed r.
Proof.
  intros Hrel Hwf Ht. unfold report_metrics, calc_aggregated_metrics.
  destruct (sum_workers_release (ag_metrics a) Hrel Hwf NetworkMetrics_default RequestMetrics_default ResponseMetrics_default)
    as (n & q & r & -> & Hr); [apply default_metrics_wf|].
  cbn [mbind res_bind mret res_ret fst snd]. eexists. split; [reflexivity|].
  assert (totals [mkWorkerMetrics 0 n q r] received) as Hrt.
  { rewrite <- Ht, Hr. change (?x :: ag_metrics a) with (map idle_metrics [0] ++ ag_metrics a). by rewrite idle_totals. }
  split; cbn [rep_totals rep_elapsed_secs am_responses_per_second am_mbytes_per_second]; [exact Hrt|done| |];
    destruct Hrt as [Hc _]; unfold counters in Hc; repeat (apply Forall_cons in Hc as [? Hc]);
    rewrite !sum_nat_one in *; cbn [wm_response] in *; congruence.
Qed.

Lemma collector_pass_release (p : Pass) (c : Collector) (before : list WorkerMetrics) : debug_build = false ->
  accumulators_wf (collector_metrics c) -> Forall (snapshot_wf (length (collector_metrics c))) (pa_received p) ->
  totals (collector_metrics c) before ->
  let now := epoch_seconds (pa_world p) (ag_clock (co_aggregator c)) in
  exists c' reports, collector_pass p c = Ok (c', reports) /\
    accumulators_wf (collector_metrics c') /\ length (collector_metrics c') = length (collector_metrics c) /\
    totals (collector_metrics c') (before ++ pa_received p) /\
    Forall (fun r => totals [report_totals r] (before ++ pa_received p)) reports /\
    ((co_next_report c <= now)%Z -> (co_last_report_time c <= now)%Z ->
      exists r, reports = [r] /\ report_of (before ++ pa_received p) (now - co_last_report_time c) r /\
        co_last_report_time c' = now).
Proof.
  intros Hrel Hwf Hall Ht now. unfold collector_pass, collector_metrics in *.
  destruct (accumulate_all_release (pa_received p) Hrel _ before Hwf Hall Ht) as (agg & -> & Hwf' & Hl & Ht').
  cbn [mbind res_bind ag_clock ag_interval]. fold now.
  destruct (Z.leb_spec (co_next_report c) now); [|eexists _, []; split_and!; [done|done|done|done|by apply Forall_nil|lia]].
  edestruct (u64_sub_ok (E := E)) as (elapsed & -> & Hel); [by left|]. cbn [mbind res_bind].
  destruct (report_metrics_release (mkAggregator agg (ag_interval (co_aggregator c)) (ag_clock (co_aggregator c))) elapsed
    (before ++ pa_received p) Hrel Hwf' Ht') as (r & -> & Hr). cbn [mbind res_bind].
  edestruct (u64_add_ok (E := E)) as (next & -> & _); [by left|]. cbn [mbind res_bind].
  eexists _, _. split; [done|]. split_and!; [done|done|done|by apply Forall_singleton, Hr|].
  intros _ Hlast. exists r. rewrite Hel in Hr by done. done.
Qed.

(** The run from any state, by induction on its passes. *)
Lemma collector_run_release (ps : list Pass) : debug_build = false -> forall c before,
  accumulators_wf (collector_metrics c) -> Forall (snapshot_wf (length (collector_metrics c))) (received_in ps) ->
  totals (collector_metrics c) before ->
  exists c' reports, collector_run ps c = Ok (c', reports) /\
    accumulators_wf (collector_metrics c') /\ length (collector_metrics c') = length (collector_metrics c) /\
    totals (collector_metrics c') (before ++ received_in ps) /\
    Forall (fun r => exists k, 0 < k <= length ps /\
      totals [report_totals r] (before ++ received_in (take k ps))) reports.
Proof.
  intros Hrel. induction ps as [|p ps IH]; intros c before Hwf Hall Ht; cbn [collector_run].
  { exists c, []. split_and!; [done|done|done| |done]. unfold received_in. cbn. by rewrite app_nil_r. }
  unfold received_in in Hall. cbn in Hall. apply Forall_app in Hall as [Hp Hps].
  destruct (collector_pass_release p c before Hrel Hwf Hp Ht) as (c1 & r1 & -> & Hwf1 & Hl1 & Ht1 & Hr1 & _).
  cbn [mbind res_bind fst]. rewrite <- Hl1 in Hps.
  destruct (IH c1 _ Hwf1 Hps Ht1) as (c2 & r2 & -> & Hwf2 & Hl2 & Ht2 & Hr2). cbn [mbind res_bind fst snd].
  eexists _, _. split; [done|]. unfold received_in in *. cbn [map concat]. rewrite <- app_assoc in Ht2.
  split; [done|]. split; [congruence|]. split; [done|].
  apply Forall_app. split.
  - eapply Forall_impl; [exact Hr1|]. cbv beta. intros r Hr. exists 1. split; [cbn; lia|]. cbn. by rewrite take_0, app_nil_r.
  - eapply Forall_impl; [exact Hr2|]. cbv beta. intros r (k & Hk & Hr). exists (S k). split; [cbn; lia|].
    cbn. by rewrite <- app_assoc in Hr.
Qed.

(** The states a run reaches. *)
Lemma collector_reaches (w1 w2 : World) (num_workers : nat) (interval : Duration) (clock : ClockSource) (ps : list Pass) :
  debug_build = false -> Forall (snapshot_wf num_workers) (received_in ps) ->
  exists c0 c reports, collector_start w1 w2 (MetricsAggregator_new num_workers interval clock) = Ok c0 /\
    collector_run ps c0 = Ok (c, reports) /\
    accumulators_wf (collector_metrics c) /\ length (collector_metrics c) = num_workers /\
    totals (collector_metrics c) (received_in ps) /\
    Forall (fun r => exists k, 0 < k <= length ps /\ totals [report_totals r] (received_in (take k ps))) reports.
Proof.
  intros Hrel Hall. unfold collector_start.
  edestruct (u64_add_ok (E := E)) as (next & -> & _); [by left|]. cbn [mbind res_bind]. eexists.
  set (c0 := mkCollector _ _ _).
  assert (length (collector_metrics c0) = num_workers) as Hl by (unfold collector_metrics; cbn; by rewrite length_map, length_seq).
  destruct (collector_run_release ps Hrel c0 []) as (c & reports & Hrun & Hwf & Hlen & Ht & Hr).
  - unfold collector_metrics. cbn. apply Forall_fmap, Forall_true. intros i. apply default_metrics_wf.
  - by rewrite Hl.
  - apply idle_totals.
  - exists c, reports. split_and!; [reflexivity|exact Hrun|exact Hwf|by rewrite Hlen|exact Ht|exact Hr].
Qed.

(** C27: The collector loses no snapshot.  In a release build a run of its loop never
    panics on snapshots of known workers, whatever they count and whatever the clock
    does; the accumulators then hold the sum of all that was received, and the totals
    of every report are the sum of all that was received up to it: exactly for the
    [usize] counters, and modulo 256 for the histogram of batch sizes. *)
Theorem collector_accounts (w1 w2 : World) (num_workers : nat) (interval : Duration) (clock : ClockSource)
    (ps : list Pass) :
  debug_build = false -> Forall (snapshot_wf num_workers) (received_in ps) ->
  exists c0 c reports, collector_start w1 w2 (MetricsAggregator_new num_workers interval clock) = Ok c0 /\
    collector_run ps c0 = Ok (c, reports) /\
    totals (collector_metrics c) (received_in ps) /\
    Forall (fun r => exists k, 0 < k <= length ps /\ totals [report_totals r] (received_in (take k ps))) reports.
Proof.
  intros Hrel Hall. destruct (collector_reaches w1 w2 num_workers interval clock ps Hrel Hall) as
    (c0 & c & reports & Hs & Hrun & _ & _ & Ht & Hr). by exists c0, c, reports.
Qed.

(** The rates mix two periods.  After any run, a pass that is due makes one
    report, and its rates divide the responses and the bytes of all snapshots
    received since the start by the seconds since the previous report, not those of
    that period: they grow with the age of the server.  They are numbers, at least
    zero, even when no second has passed. *)
Theorem report_rates_cumulative (w1 w2 : World) (num_workers : nat) (interval : Duration) (clock : ClockSource)
    (ps : list Pass) (p : Pass) :
  debug_build = false -> Forall (snapshot_wf num_workers) (received_in (ps ++ [p])) ->
  world_wf (pa_world p) ->
  exists c0 c reports, collector_start w1 w2 (MetricsAggregator_new num_workers interval clock) = Ok c0 /\
    collector_run ps c0 = Ok (c, reports) /\
    let now := epoch_seconds (pa_world p) (ag_clock (co_aggregator c)) in
    let elapsed := f64_of_Z (now - co_last_report_time c) in
    (co_next_report c <= now)%Z -> (0 <= co_last_report_time c <= now)%Z ->
    exists c' r, collector_pass p c = Ok (c', [r]) /\ co_last_report_time c' = now /\
      am_responses_per_second (rep_totals r) =
        responses_per_second (sum_nat (fun m => num_responses (wm_response m)) (received_in (ps ++ [p]))) elapsed /\
      am_mbytes_per_second (rep_totals r) =
        mbytes_per_second (sum_nat (fun m => num_bytes_sent (wm_response m)) (received_in (ps ++ [p]))) elapsed /\
      f64_nonneg (am_responses_per_second (rep_totals r)) /\ f64_nonneg (am_mbytes_per_second (rep_totals r)).
Proof.
  intros Hrel Hall Hw. unfold received_in in Hall |- *. rewrite map_app, concat_app in Hall |- *. cbn [map concat] in *.
  rewrite app_nil_r in *. apply Forall_app in Hall as [Hps Hp].
  destruct (collector_reaches w1 w2 num_workers interval clock ps Hrel Hps) as
    (c0 & c & reports & Hs & Hrun & Hwf & Hl & Ht & _).
  exists c0, c, reports. split; [done|]. split; [done|]. cbv zeta.
  set (now := epoch_seconds _ _). intros Hdue Hlast. rewrite <- Hl in Hp.
  destruct (collector_pass_release p c (received_in ps) Hrel Hwf Hp Ht) as (c' & reports' & Hpass & _ & _ & _ & _ & Hrep).
  destruct (Hrep Hdue (proj2 Hlast)) as (r & -> & [_ He Hres Hmb] & Hc'). rewrite He in Hres, Hmb.
  assert (is_u64 (now - co_last_report_time c)) as Hu.
  { pose proof (epoch_seconds_u64 (pa_world p) (ag_clock (co_aggregator c)) Hw) as [H0 H1]. fold now in H0, H1. unfold is_u64. lia. }
  exists c', r. split_and!; [done|done|done|done| |].
  - rewrite Hres. by apply responses_per_second_nonneg.
  - rewrite Hmb. by apply mbytes_per_second_nonneg.
Qed.
End aggregator.

(** Two workers, three passes: the histogram's counter of worker 1 wraps. *)
Definition sample_snapshot (worker_id n : nat) (count : Z) : WorkerMetrics :=
  mkWorkerMetrics worker_id (mkNetwork 1 n 0 0 0) (mkReqMetrics n 1 2 0)
    (mkRespMetrics n (2 * n) (count :: replicate 63 0%Z)).
Definition sample_passes : list Pass :=
  [ mkPass [sample_snapshot 0 3 3; sample_snapshot 1 200 200] (mkWorld 1005 ∅);
    mkPass [sample_snapshot 1 100 100] (mkWorld 1011 ∅);
    mkPass [] (mkWorld 1022 ∅) ].

Lemma sample_passes_wf : Forall (snapshot_wf 2) (received_in sample_passes).
Proof.
  assert (forall i n c, i < 2 -> (0 <= c < 256)%Z -> snapshot_wf 2 (sample_snapshot i n c)) as Hs.
  { intros i n c Hi Hc. split; [exact Hi|]. split; [done|]. cbn. apply Forall_cons. split; [exact Hc|].
    repeat (apply Forall_cons; split; [lia|]). by apply Forall_nil. }
  unfold received_in, sample_passes. cbn [map concat pa_received app].
  repeat (apply Forall_cons; split; [apply Hs; lia|]). by apply Forall_nil.
Qed.

Lemma collector_accounts_witness :
  exists c0 c reports,
    collector_start (profile := false) (E := unit) (mkWorld 1000 ∅) (mkWorld 1000 ∅) (MetricsAggregator_new 2 (from_secs 10) System) = Ok c0 /\
    collector_run (profile := false) (E := unit) sample_passes c0 = Ok (c, reports) /\
    totals (collector_metrics c) (received_in sample_passes) /\
    Forall (fun r => exists k, 0 < k <= length sample_passes /\
      totals [report_totals r] (received_in (take k sample_passes))) reports.
Proof.
  apply (collector_accounts (profile := false) (E := unit) (mkWorld 1000 ∅) (mkWorld 1000 ∅) 2 (from_secs 10) System sample_passes).
  - reflexivity.
  - exact sample_passes_wf.
Defined.

(** The third pass reports the rate of the second again, although nothing was sent
    in between. *)
Lemma report_rates_cumulative_witness :
  exists c0 c c' r reports,
    collector_start (profile := false) (E := unit) (mkWorld 1000 ∅) (mkWorld 1000 ∅) (MetricsAggregator_new 2 (from_secs 10) System) = Ok c0 /\
    collector_run (profile := false) (E := unit) (take 2 sample_passes) c0 = Ok (c, reports) /\
    collector_pass (profile := false) (E := unit) (mkPass [] (mkWorld 1022 ∅)) c = Ok (c', [r]) /\
    am_responses_per_second (rep_totals r) = responses_per_second 303 (f64_of_Z 11).
Proof.
  destruct (report_rates_cumulative (profile := false) (E := unit) (mkWorld 1000 ∅) (mkWorld 1000 ∅) 2 (from_secs 10) System
    (take 2 sample_passes) (mkPass [] (mkWorld 1022 ∅))) as (c0 & c & reports & Hs & Hrun & Hrep).
  - reflexivity.
  - exact sample_passes_wf.
  - split; [split; [discriminate|reflexivity]|]. intros i n Hi. discriminate Hi.
  - exists c0, c. pose proof Hs as Hs'. vm_compute in Hs'. injection Hs' as <-.
    pose proof Hrun as Hrun'. vm_compute in Hrun'. injection Hrun' as <- <-.
    destruct Hrep as (c' & r & Hp & _ & Hr & _); [vm_compute; discriminate|vm_compute; split; discriminate|].
    exists c', r. eexists. split; [exact Hs|]. split; [exact Hrun|]. split; [exact Hp|]. rewrite Hr. vm_compute. reflexivity.
Defined.
Example sample_run_reports :
  match collector_start (profile := false) (E := unit) (mkWorld 1000 ∅) (mkWorld 1000 ∅) (MetricsAggregator_new 2 (from_secs 10) System) with
  | Ok c0 => match collector_run (profile := false) (E := unit) sample_passes c0 with
             | Ok (_, reports) => map (fun r => (am_responses_per_second (rep_totals r), am_total_requests (rep_totals r), head (batch_sizes (am_responses (rep_totals r))))) reports
             | _ => []
             end
  | _ => []
  end = let rate := responses_per_second 303 (f64_of_Z 11) in [(rate, 312, Some 47%Z); (rate, 312, Some 47%Z)].
Proof. vm_compute. reflexivity. Qed.

(** The histogram counts since the start: two intervals of 200 batches of one request
    fill the [u8] counter of a worker. *)
Definition busy_interval : WorkerMetrics :=
  mkWorkerMetrics 0 NetworkMetrics_default RequestMetrics_default (mkRespMetrics 200 0 (200%Z :: replicate 63 0%Z)).
Example collector_counts_since_start :
  accumulate_all (profile := true) (E := unit) [idle_metrics 0] [busy_interval; busy_interval] = Panic /\
  match accumulate_all (profile := false) (E := unit) [idle_metrics 0] [busy_interval; busy_interval] with
  | Ok agg => map (batches 0) agg = [144%Z] /\ map (fun m => num_responses (wm_response m)) agg = [400]
  | _ => False
  end.
Proof. vm_compute. done. Qed.
