(* ===== verification/Snapshot.v ===== *)
(** * The metrics file (crates/roughenough-server/src/metrics/snapshot.rs, and the
      end of [report_metrics] in aggregator.rs)

    A report is written as JSON to a temporary file in the metrics directory, which
    is then renamed.  The JSON text, the date in the file's name and the outcomes of
    the calls to the operating system are parameters. *)
From stdpp Require Import gmap strings.
From S2P Require Import Prelude Text Crypto Floats Files Metrics Aggregator.

Record MetricsSnapshot := mkSnapshot {
  ms_timestamp : Z;
  ms_duration_secs : f64;
  ms_workers : list WorkerMetrics;
  ms_totals : AggregatedMetrics;
}.

(** The crates [time_format] and [serde_json]: [from_system_time], [strftime_utc]
    and [to_string]. *)
Class SnapshotFormat := {
  from_system_time : Z -> option Z;
  strftime_utc : string -> Z -> option string;
  snapshot_json : MetricsSnapshot -> option string;
}.

(** The kinds of error that the model tells apart. *)
Inductive IoError : Type := IsADirectory | NotFound | JsonError | OtherError.

(** The outcomes of the calls of [write_to_file]: the error of each, if any; a failed
    write has written some bytes. *)
Record WriteIo := mkWriteIo {
  io_create : option IoError;
  io_write : option (nat * IoError);
  io_sync : option IoError;
  io_rename : option IoError;
}.

Section snapshot.
Context {SF : SnapshotFormat}.

Abbreviation fio := (fio IoError).

(** [now] is the system's clock. *)
Definition MetricsSnapshot_new (now : Z) (duration_secs : f64) (workers : list WorkerMetrics) (totals : AggregatedMetrics)
    : res IoError MetricsSnapshot :=
  match from_system_time now with
  | Some timestamp => Ok (mkSnapshot timestamp duration_secs workers totals)
  | None => Panic
  end.

Definition FILE_NAME_PATTERN : string := "roughenough-metrics-%Y%m%d-%H%M%S.json".
Definition temp_name (filename : string) : string := "." +:+ filename +:+ ".tmp".

Definition write_to_file (io : WriteIo) (snapshot : MetricsSnapshot) (metrics_path : string) : fio string :=
  filename ← pure_res (match strftime_utc FILE_NAME_PATTERN (ms_timestamp snapshot) with Some f => Ok f | None => Panic end);
  let file_path := path_join metrics_path filename in
  let temp_path := path_join metrics_path (temp_name filename) in
  _ ← file_create (io_create io) IsADirectory temp_path;
  json_data ← pure_res (match snapshot_json snapshot with Some j => Ok j | None => Err JsonError end);
  _ ← file_write_all (io_write io) temp_path (str_bytes json_data);
  _ ← file_sync_all (io_sync io);
  _ ← file_rename (io_rename io) NotFound temp_path file_path;
  mret filename.

(** The end of [report_metrics]: an error is only logged. *)
Definition write_report (io : WriteIo) (now : Z) (metrics_path : option string) (r : Report) : fio unit := fun fs =>
  match metrics_path with
  | None => (Ok tt, [])
  | Some path =>
      match MetricsSnapshot_new now (rep_elapsed_secs r) (rep_workers r) (rep_totals r) with
      | Ok snapshot =>
          let out := write_to_file io snapshot path fs in
          (match out.1 with Panic => Panic | _ => Ok tt end, out.2)
      | _ => (Panic, [])
      end
  end.

(** The reports of a collector, each with the clock and the outcomes of its calls. *)
Fixpoint write_reports (metrics_path : option string) (reports : list (Report * Z * WriteIo)) : fio unit :=
  match reports with
  | [] => mret tt
  | (r, now, io) :: rest => _ ← write_report io now metrics_path r; write_reports metrics_path rest
  end.

(** ** The directory *)

Inductive MetricsPathError : Type := DoesNotExist | NotADirectory | NotWritable (e : IoError).

(** [create] is what else may be wrong with creating the test file. *)
Definition validate_metrics_directory (create remove : option IoError) (path : string) (fs : Files)
    : res MetricsPathError unit * list Files :=
  match fs !! path with
  | None => (Err DoesNotExist, [])
  | Some (File _) => (Err NotADirectory, [])
  | Some Dir =>
      let test_file := path_join path ".write_test" in
      match file_create create IsADirectory test_file fs with
      | (Ok _, states) => let r := file_remove_ignored (E := IoError) remove test_file (final fs states) in (Ok tt, states ++ r.2)
      | (Err e, states) => (Err (NotWritable e), states)
      | (Panic, states) => (Panic, states)
      end
  end.

(** ** A reader never sees part of a report *)

Lemma length_app_str (a b : string) : String.length (a +:+ b) = String.length a + String.length b.
Proof.
  induction a as [|c a IH]; [done|]. change (String c a +:+ b) with (String c (a +:+ b)).
  cbn [String.length]. by rewrite IH.
Qed.

(** The temporary file is another file. *)
Lemma temp_path_longer path name : String.length (path_join path name) < String.length (path_join path (temp_name name)).
Proof.
  assert (starts_with "/" (temp_name name) = false) as Ht by reflexivity.
  unfold path_join. rewrite Ht. unfold temp_name. destruct (starts_with "/" name), (is_empty path);
    try destruct (starts_with "/" (of_bytes (rev (str_bytes path)))); rewrite ?length_app_str; cbn; lia.
Qed.

Lemma temp_path_differs path name : path_join path (temp_name name) <> path_join path name.
Proof. intros He. pose proof (temp_path_longer path name). rewrite He in *. lia. Qed.

(** Where [s] differs from [fs] it is at [temp], or has a whole file. *)
Definition whole (fs : Files) (temp : string) (final_path : string) (json : option string) (s : Files) : Prop :=
  forall p, p <> temp -> s !! p = fs !! p \/ (p = final_path /\ exists j, json = Some j /\ s !! p = Some (File (str_bytes j))).

Lemma write_all_content {E} (error : option (nat * E)) path data fs : fs !! path = Some (File []) ->
  stays (fun s => forall p, p <> path -> s !! p = fs !! p) (file_write_all error path data)
    (fun _ s => s !! path = Some (File data) /\ forall p, p <> path -> s !! p = fs !! p) fs.
Proof.
  intros Hf. unfold stays, file_write_all. rewrite Hf. cbn [app fst snd]. split.
  - apply Forall_forall. intros s (k & -> & _)%list_elem_of_fmap p Hp. by rewrite lookup_insert_ne.
  - intros [] Hok. destruct error as [[n e]|]; [done|]. unfold final. rewrite fmap_last.
    destruct (length data) as [|n] eqn:Hl.
    + destruct data; [|done]. by split.
    + rewrite seq_S, last_snoc. cbn -[take seq]. split.
      * rewrite lookup_insert_eq. by rewrite <- Hl, firstn_all.
      * intros p Hp. by rewrite lookup_insert_ne.
Qed.

(** At every moment of the call, and whichever call fails, the directory holds the
    files it held, the temporary one and, once renamed, the whole report. *)
Lemma write_to_file_whole io snapshot path fs name : strftime_utc FILE_NAME_PATTERN (ms_timestamp snapshot) = Some name ->
  let temp := path_join path (temp_name name) in
  let dest := path_join path name in
  stays (whole fs temp dest (snapshot_json snapshot)) (write_to_file io snapshot path)
    (fun n s => n = name /\ exists j, snapshot_json snapshot = Some j /\ s !! dest = Some (File (str_bytes j)) /\
      s !! temp = None) fs.
Proof.
  intros Hname temp dest. unfold write_to_file. rewrite Hname.
  assert (temp <> dest) as Hne by apply temp_path_differs.
  set (unchanged := fun s : Files => forall p, p <> temp -> s !! p = fs !! p).
  assert (forall s, unchanged s -> whole fs temp dest (snapshot_json snapshot) s) as Hun by (intros s Hs p Hp; left; by apply Hs).
  eapply stays_bind with (R := fun n s => n = name /\ s = fs).
  { split; [apply Forall_nil_2|]. by intros ? [= <-]. }
  intros ? ? [-> ->]. cbv zeta. fold temp dest.
  eapply stays_bind with (R := fun _ s => s !! temp = Some (File []) /\ unchanged s).
  { unfold stays, file_create. destruct (io_create io); [by split; [apply Forall_nil_2|]|].
    assert (unchanged (<[temp := File []]> fs)) as Hu by (intros p Hp; by rewrite lookup_insert_ne).
    destruct (fs !! temp) as [[]|]; cbn [fst snd].
    2: by split; [apply Forall_nil_2|].
    1, 2: split; [apply Forall_singleton; by apply Hun|intros _ _; split; [apply lookup_insert_eq|exact Hu]]. }
  intros _ s [Hs Hu]. destruct (snapshot_json snapshot) as [j|]; [|by split; [apply Forall_nil_2|]].
  eapply stays_bind with (R := fun j' s' => j' = j /\ s' = s).
  { split; [apply Forall_nil_2|]. by intros ? [= <-]. }
  intros ? ? [-> ->].
  eapply stays_bind with (R := fun _ s => s !! temp = Some (File (str_bytes j)) /\ unchanged s).
  { destruct (write_all_content (io_write io) temp (str_bytes j) s Hs) as [Hst Hok]. split.
    - eapply Forall_impl; [exact Hst|]. intros s' Hs'. apply Hun. intros p Hp. rewrite Hs' by done. by apply Hu.
    - intros a Ha. destruct (Hok a Ha) as [Hc Hs']. split; [exact Hc|]. intros p Hp. rewrite Hs' by done. by apply Hu. }
  intros _ s' [Hs' Hu'].
  eapply stays_bind with (R := fun _ s'' => s'' = s').
  { split; [apply Forall_nil_2|]. intros a Ha. done. }
  intros _ ? ->.
  eapply stays_bind with (R := fun _ s => s !! dest = Some (File (str_bytes j)) /\ s !! temp = None).
  { unfold stays, file_rename. destruct (io_rename io); [by split; [apply Forall_nil_2|]|]. rewrite Hs'. cbn [fst snd]. split.
    - apply Forall_singleton. intros p Hp. destruct (decide (p = dest)) as [->|Hd].
      + right. split; [done|]. exists j. split; [done|]. apply lookup_insert_eq.
      + left. rewrite lookup_insert_ne, lookup_delete_ne by done. by apply Hu'.
    - intros _ _. cbn. split; [apply lookup_insert_eq|]. rewrite lookup_insert_ne by done. apply lookup_delete_eq. }
  intros _ s'' [Hd Ht]. apply stays_ret. split; [done|]. by exists j.
Qed.

Lemma write_to_file_succeeds snapshot path fs name j :
  strftime_utc FILE_NAME_PATTERN (ms_timestamp snapshot) = Some name -> snapshot_json snapshot = Some j ->
  fs !! path_join path (temp_name name) <> Some Dir ->
  (write_to_file (mkWriteIo None None None None) snapshot path fs).1 = Ok name.
Proof.
  intros Hname Hj Hdir. set (temp := path_join path (temp_name name)) in *. unfold write_to_file.
  rewrite Hname, Hj. unfold mbind, fio_bind, pure_res. cbn [fst]. fold temp.
  change (final fs []) with fs. unfold file_create at 1. cbn [io_create io_write io_sync io_rename].
  assert (match fs !! temp with Some Dir => (Err IsADirectory, []) | _ => (Ok tt, [<[temp := File []]> fs]) end =
    (Ok (E := IoError) tt, [<[temp := File []]> fs])) as -> by (destruct (fs !! temp) as [[]|]; done).
  change (final fs [_]) with (<[temp := File []]> fs). set (fs1 := <[temp := File []]> fs). change (final fs1 []) with fs1.
  pose proof (write_all_content (E := IoError) None temp (str_bytes j) fs1 (lookup_insert_eq _ _ _)) as [_ Hw].
  unfold file_write_all in Hw |- *. cbn [fst snd] in *. destruct (Hw tt eq_refl) as [Hw' _].
  unfold file_sync_all. cbn [fst snd]. set (fs2 := final fs1 _) in *. change (final fs2 []) with fs2.
  unfold file_rename. by rewrite Hw'.
Qed.

(** [p] is a name of a temporary file. *)
Definition temp_file (path p : string) : Prop := exists name, p = path_join path (temp_name name).

(** At [p] is the whole JSON of a report. *)
Definition report_file (path : string) (reports : list (Report * Z * WriteIo)) (p : string) (s : Files) : Prop :=
  exists r now io snapshot name j, (r, now, io) ∈ reports /\
    MetricsSnapshot_new now (rep_elapsed_secs r) (rep_workers r) (rep_totals r) = Ok snapshot /\
    strftime_utc FILE_NAME_PATTERN (ms_timestamp snapshot) = Some name /\ p = path_join path name /\
    snapshot_json snapshot = Some j /\ s !! p = Some (File (str_bytes j)).

Definition only_whole (path : string) (reports : list (Report * Z * WriteIo)) (fs s : Files) : Prop :=
  forall p, ~ temp_file path p -> s !! p = fs !! p \/ report_file path reports p s.

Lemma report_file_cons path reports x p s : report_file path reports p s -> report_file path (x :: reports) p s.
Proof. intros (r & now & io & snap & name & j & Hin & H). exists r, now, io, snap, name, j. split; [by right|done]. Qed.

Lemma write_report_whole path r now io fs :
  stays (only_whole path [(r, now, io)] fs) (write_report io now (Some path) r) (fun _ => only_whole path [(r, now, io)] fs) fs.
Proof.
  assert (only_whole path [(r, now, io)] fs fs) as Hfs by (intros p _; by left).
  unfold write_report. destruct (MetricsSnapshot_new _ _ _ _) as [snap|e|] eqn:Hs; [|by split; [apply Forall_nil_2|]..].
  destruct (strftime_utc FILE_NAME_PATTERN (ms_timestamp snap)) as [name|] eqn:Hn; cycle 1.
  { split; unfold write_to_file; rewrite Hn; [apply Forall_nil_2|done]. }
  destruct (write_to_file_whole io snap path fs name Hn) as [Hall _].
  assert (Forall (only_whole path [(r, now, io)] fs) (write_to_file io snap path fs).2) as Hall'.
  { eapply Forall_impl; [exact Hall|]. intros s Hw p Hp. destruct (Hw p) as [?|(-> & j & Hj & Hsp)]; [|by left|].
    - intros ->. apply Hp. by exists name.
    - right. exists r, now, io, snap, name, j. split_and!; try done. by left. }
  split; cbn [fst snd]; [exact Hall'|]. intros a _. unfold final.
  destruct (last (write_to_file io snap path fs).2) as [s|] eqn:Hl; [|exact Hfs].
  exact (proj1 (Forall_forall _ _) Hall' s (last_Some_elem_of _ _ Hl)).
Qed.

Lemma only_whole_trans path x reports fs s s' :
  only_whole path [x] fs s -> only_whole path reports s s' -> only_whole path (x :: reports) fs s'.
Proof.
  intros H1 H2 p Hp. destruct (H2 p Hp) as [Heq|Hr]; [|right; by apply report_file_cons].
  destruct (H1 p Hp) as [Heq'|Hr]; [left; congruence|right].
  destruct Hr as (r & now & io & snap & name & j & Hin & H3 & H4 & H5 & H6 & H7).
  exists r, now, io, snap, name, j. rewrite Heq. split_and!; try done.
  apply list_elem_of_singleton in Hin as ->. by left.
Qed.

Lemma only_whole_later path x reports fs s : only_whole path [x] fs s -> only_whole path (x :: reports) fs s.
Proof. intros H. eapply only_whole_trans; [exact H|]. intros p _. by left. Qed.

Lemma write_reports_whole path reports : forall fs,
  Forall (only_whole path reports fs) (write_reports (Some path) reports fs).2.
Proof.
  induction reports as [|[[r now] io] reports IH]; intros fs; cbn [write_reports]; [apply Forall_nil_2|].
  apply (stays_bind _ _ _ (fun _ => only_whole path [(r, now, io)] fs) (fun _ _ => True)).
  - destruct (write_report_whole path r now io fs) as [Hall Hq]. split; [|done].
    eapply Forall_impl; [exact Hall|]. intros s. apply only_whole_later.
  - intros _ s Hs. split; [|done]. eapply Forall_impl; [apply IH|]. intros s' Hs'. by eapply only_whole_trans.
Qed.

(** The metrics files are whole.  While the collector writes its reports, and
    whichever calls to the operating system fail, however far a write got, a reader
    of the directory at any moment (or after a crash) finds in every file other than
    a temporary one either what it held before or the whole JSON of a report.  When
    no call fails, a report is written and its file is there and the temporary one
    is gone. *)
Theorem metrics_files_whole (path : string) (reports : list (Report * Z * WriteIo)) (fs : Files) :
  Forall (only_whole path reports fs) (write_reports (Some path) reports fs).2 /\
  forall snapshot name j, strftime_utc FILE_NAME_PATTERN (ms_timestamp snapshot) = Some name ->
    snapshot_json snapshot = Some j -> fs !! path_join path (temp_name name) <> Some Dir ->
    let r := write_to_file (mkWriteIo None None None None) snapshot path fs in
    r.1 = Ok name /\ final fs r.2 !! path_join path name = Some (File (str_bytes j)) /\
    final fs r.2 !! path_join path (temp_name name) = None.
Proof.
  split; [apply write_reports_whole|]. intros snapshot name j Hn Hj Hd r.
  pose proof (write_to_file_succeeds snapshot path fs name j Hn Hj Hd) as Hok. split; [exact Hok|].
  destruct (write_to_file_whole (mkWriteIo None None None None) snapshot path fs name Hn) as [_ Hq].
  destruct (Hq name Hok) as (_ & j' & Hj' & Hdest & Htemp). rewrite Hj in Hj'. injection Hj' as <-. done.
Qed.

(** The check of the directory leaves it as it was, if the test file is not there. *)
Lemma validate_metrics_directory_clean create fs path : fs !! path = Some Dir ->
  fs !! path_join path ".write_test" = None ->
  let r := validate_metrics_directory create None path fs in
  final fs r.2 = fs /\ (r.1 = Ok tt <-> create = None).
Proof.
  intros Hp Ht. unfold validate_metrics_directory. rewrite Hp. unfold file_create. rewrite Ht.
  destruct create; [done|]. change (final fs [?x]) with x. unfold file_remove_ignored. rewrite lookup_insert_eq.
  split; [|done]. change (delete (path_join path ".write_test") (<[path_join path ".write_test" := File []]> fs) = fs).
  rewrite delete_insert_eq. by apply delete_id.
Qed.
End snapshot.

(** ** Example: the second write fails after three bytes *)
#[export] Instance toy_format : SnapshotFormat := {|
  from_system_time now := Some now;
  strftime_utc _ t := Some (if (t =? 0)%Z then "a.json" else "b.json");
  snapshot_json _ := Some "{'n':1}"%string;
|}.
Definition sample_totals : AggregatedMetrics :=
  mkAggregated NetworkMetrics_default RequestMetrics_default ResponseMetrics_default 0 (f64_of_Z 0) (f64_of_Z 0).
Definition sample_report : Report := mkReport (f64_of_Z 60) [] sample_totals.

Example sample_files :
  let fs : Files := {[ "m" := Dir ]} in
  final fs (write_reports (Some "m") [(sample_report, 0%Z, mkWriteIo None None None None);
    (sample_report, 1%Z, mkWriteIo None (Some (3, OtherError)) None None)] fs).2 =
  {[ "m" := Dir; "m/a.json" := File (str_bytes "{'n':1}"); "m/.b.json.tmp" := File (str_bytes "{'n") ]}.
Proof. vm_compute. reflexivity. Qed.

Lemma metrics_files_whole_witness :
  let fs : Files := {[ "m" := Dir ]} in
  let r := write_to_file (mkWriteIo None None None None) (mkSnapshot 0 (f64_of_Z 60) [] sample_totals) "m" fs in
  r.1 = Ok "a.json"%string /\ final fs r.2 !! path_join "m" "a.json" = Some (File (str_bytes "{'n':1}")).
Proof.
  intros fs r. destruct (metrics_files_whole "m" [] fs) as [_ H].
  destruct (H (mkSnapshot 0 (f64_of_Z 60) [] sample_totals) "a.json"%string "{'n':1}"%string eq_refl eq_refl) as (H1 & H2 & _).
  { vm_compute. discriminate. }
  split; [exact H1|exact H2].
Defined.
