(* ===== verification/Watcher.v ===== *)
(** * The metrics watcher (crates/roughenough-server/examples/metrics_watcher.rs)

    A program that shows the files of a metrics directory as they appear, while the
    collector writes them ([Snapshot]).  The directory changes between its calls:
    each looks at a state of the file system of its own. *)
From Stdlib Require Import Ascii.
From stdpp Require Import gmap strings.
From S2P Require Import Prelude Text Crypto Floats Files Metrics Aggregator Snapshot.

(** [serde_json::from_str::<MetricsSnapshot>] *)
Class SnapshotParse := { snapshot_parse : string -> option MetricsSnapshot }.

(** [path.extension()] of an entry's path, from the entry's name *)
Definition extension (name : string) : option string :=
  match split_on "."%char name with
  | [] | [_] | [EmptyString; _] => None
  | pieces => last pieces
  end.

(** What a pass over the directory meets: the entries that it lists, those with an
    error as [None], and the states in which it looks at an entry and reads a file. *)
Record Pass := mkPass {
  pa_entries : option (list (option string));
  pa_stat : string -> Files;
  pa_read : string -> option Files;
}.

Section watcher.
Context {SP : SnapshotParse}.

Inductive WatchExit : Type := WatchCode (code : Z).

(** [main] up to its loop; [args] includes the program's name. *)
Definition watcher_start (args : list string) (fs : Files) : res WatchExit string :=
  match args with
  | [_; dir] => match fs !! dir with Some Dir => Ok dir | _ => Err (WatchCode 1) end
  | _ => Err (WatchCode 1)
  end.

Definition get_json_files (dir : string) (p : Pass) : option (list string) :=
  entries ← pa_entries p;
  Some (List.filter (fun name =>
    match pa_stat p name !! path_join dir name with Some (File _) => true | _ => false end &&
    bool_decide (extension name = Some "json"%string)) (omap id entries)).

(** [fs::read_to_string] *)
Definition read_to_string (dir filename : string) (p : Pass) : option string :=
  fs ← pa_read p filename;
  match fs !! path_join dir filename with
  | Some (File bs) => if utf8_valid bs then Some (of_bytes bs) else None
  | _ => None
  end.

(** What is displayed: the file's name and the metrics; errors are only printed. *)
Definition process_metrics_file (dir filename : string) (p : Pass) : list (string * MetricsSnapshot) :=
  match read_to_string dir filename p with
  | None => []
  | Some contents => match snapshot_parse contents with Some metrics => [(filename, metrics)] | None => [] end
  end.

Fixpoint process_files (dir : string) (p : Pass) (files : list string) (seen_files : gset string)
    : gset string * list (string * MetricsSnapshot) :=
  match files with
  | [] => (seen_files, [])
  | filename :: files' =>
      if bool_decide (filename ∈ seen_files) then process_files dir p files' seen_files
      else
        let shown := process_metrics_file dir filename p in
        let r := process_files dir p files' ({[ filename ]} ∪ seen_files) in
        (r.1, shown ++ r.2)
  end.
Definition process_new_metrics_files (dir : string) (p : Pass) (seen_files : gset string)
    : gset string * list (string * MetricsSnapshot) :=
  match get_json_files dir p with
  | None => (seen_files, [])
  | Some json_files => process_files dir p json_files seen_files
  end.

(** The loop, for as many passes as it makes. *)
Fixpoint watch (dir : string) (passes : list Pass) (seen_files : gset string) : gset string * list (string * MetricsSnapshot) :=
  match passes with
  | [] => (seen_files, [])
  | p :: passes' =>
      let r := process_new_metrics_files dir p seen_files in
      let rs := watch dir passes' r.1 in
      (rs.1, r.2 ++ rs.2)
  end.

(** The summary of [display_metrics] per worker: the workers that were active, with
    their requests and responses, if there are several. *)
Definition worker_total (m : WorkerMetrics) : nat :=
  num_ok_requests (wm_request m) + num_bad_requests (wm_request m) +
  num_runt_requests (wm_request m) + num_jumbo_requests (wm_request m).
Definition worker_summary (metrics : MetricsSnapshot) : list (nat * nat * nat) :=
  if 1 <? length (ms_workers metrics) then
    omap (fun m => if (0 <? worker_total m) || (0 <? num_responses (wm_response m))
                   then Some (wm_worker_id m, worker_total m, num_responses (wm_response m)) else None)
      (ms_workers metrics)
  else [].

(** ** The watcher shows whole reports *)

Context {SF : SnapshotFormat}.

Lemma split_on_ne c s : split_on c s <> [].
Proof using Type. destruct s as [|a s]; [done|]. cbn. destruct (Ascii.eqb a c); [done|]. by destruct (split_on c s). Qed.

(** The last piece is that after the last separator. *)
Lemma split_on_last c s t : last (split_on c (s +:+ String c t)) = last (split_on c t) /\
  2 <= length (split_on c (s +:+ String c t)).
Proof using Type.
  induction s as [|a s [IH1 IH2]].
  - change (EmptyString +:+ String c t) with (String c t). cbn [split_on]. rewrite Ascii.eqb_refl.
    pose proof (split_on_ne c t) as Hne. destruct (split_on c t) as [|x l]; [congruence|].
    split; [reflexivity|cbn; lia].
  - rewrite append_cons. cbn [split_on]. rewrite <-IH1.
    destruct (split_on c (s +:+ String c t)) as [|x [|y l]]; cbn [length] in IH2; [lia|lia|].
    destruct (Ascii.eqb a c); (split; [reflexivity|cbn; lia]).
Qed.

(** A temporary file is not taken for a report. *)
Lemma temp_extension name : extension (temp_name name) = Some "tmp"%string.
Proof using Type.
  unfold extension, temp_name. rewrite append_cons. cbn [split_on]. rewrite Ascii.eqb_refl.
  change (EmptyString +:+ name +:+ ".tmp") with (name +:+ String "."%char "tmp").
  destruct (split_on_last "." name "tmp") as [Hl Hn].
  destruct (split_on "." (name +:+ String "."%char "tmp")) as [|x [|y l]]; cbn [length] in Hn; [lia|lia|exact Hl].
Qed.

Lemma path_join_inj dir a b : starts_with "/" a = false -> starts_with "/" b = false ->
  path_join dir a = path_join dir b -> a = b.
Proof using Type.
  intros Ha Hb. unfold path_join. rewrite Ha, Hb. destruct (is_empty dir); [done|].
  destruct (starts_with "/" (of_bytes (rev (str_bytes dir)))); [by intros ?%(inj _)|].
  intros ?%(inj _). by apply (inj (String.append "/")).
Qed.

(** Names shown are new, and seen afterwards. *)
Definition shows_once (seen : gset string) (r : gset string * list (string * MetricsSnapshot)) : Prop :=
  (forall name, name ∈ seen -> name ∈ r.1) /\ NoDup (map fst r.2) /\
  forall name, name ∈ map fst r.2 -> (name ∉ seen) /\ (name ∈ r.1).

Lemma shows_once_app seen r1 r2 : shows_once seen r1 -> shows_once r1.1 r2 -> shows_once seen (r2.1, r1.2 ++ r2.2).
Proof using Type.
  intros (Hs1 & Hn1 & Hi1) (Hs2 & Hn2 & Hi2). split_and!; cbn [fst snd]; [by auto| |].
  - rewrite map_app. apply NoDup_app. split_and!; [done| |done]. intros x Hx Hx'. apply Hi1 in Hx as [_ Hx].
    apply Hi2 in Hx' as [Hx' _]. done.
  - intros name. rewrite map_app, elem_of_app. intros [Hx|Hx]; [apply Hi1 in Hx as [? ?]|apply Hi2 in Hx as [? ?]];
      split; auto.
Qed.

Lemma process_metrics_file_once dir filename p seen : filename ∉ seen ->
  shows_once seen ({[ filename ]} ∪ seen, process_metrics_file dir filename p).
Proof using Type.
  intros Hf. unfold process_metrics_file.
  assert (forall name, name ∈ seen -> name ∈ ({[ filename ]} ∪ seen : gset string)) as Hs by set_solver.
  assert (shows_once seen ({[ filename ]} ∪ seen, [])) as Hnone.
  { split_and!; [exact Hs|apply NoDup_nil_2|]. intros name Hn. by apply not_elem_of_nil in Hn. }
  destruct (read_to_string dir filename p) as [contents|]; [|done].
  destruct (snapshot_parse contents) as [metrics|]; [|done].
  split_and!; [exact Hs|apply NoDup_singleton|]. intros name Hn%list_elem_of_singleton. cbn in Hn |- *. subst name. split; [done|set_solver].
Qed.

Lemma process_files_once dir p files : forall seen, shows_once seen (process_files dir p files seen).
Proof using Type.
  induction files as [|filename files IH]; intros seen; cbn [process_files].
  { split_and!; [done|apply NoDup_nil_2|by intros name ?%not_elem_of_nil]. }
  destruct (bool_decide_reflect (filename ∈ seen)); [apply IH|].
  apply (shows_once_app seen ({[ filename ]} ∪ seen, process_metrics_file dir filename p)); [by apply process_metrics_file_once|apply IH].
Qed.

Lemma watch_once dir passes : forall seen, shows_once seen (watch dir passes seen).
Proof using Type.
  induction passes as [|p passes IH]; intros seen; cbn [watch].
  { split_and!; [done|apply NoDup_nil_2|by intros name ?%not_elem_of_nil]. }
  apply shows_once_app; [|apply IH]. unfold process_new_metrics_files.
  destruct (get_json_files dir p); [apply process_files_once|]. split_and!; [done|apply NoDup_nil_2|by intros name ?%not_elem_of_nil].
Qed.

(** What is shown comes from a file that was listed as a report. *)
Definition shown_from (dir : string) (p : Pass) (x : string * MetricsSnapshot) : Prop :=
  exists contents, Some x.1 ∈ default [] (pa_entries p) /\ extension x.1 = Some "json"%string /\
    read_to_string dir x.1 p = Some contents /\ snapshot_parse contents = Some x.2.

Lemma process_files_from dir p files x : forall seen,
  (forall name, name ∈ files -> Some name ∈ default [] (pa_entries p) /\ extension name = Some "json"%string) ->
  x ∈ (process_files dir p files seen).2 -> shown_from dir p x.
Proof using Type.
  induction files as [|filename files IH]; intros seen Hf; cbn [process_files]; [by intros ?%not_elem_of_nil|].
  assert (forall name, name ∈ files -> Some name ∈ default [] (pa_entries p) /\ extension name = Some "json"%string) as Hf'
    by (intros name Hn; apply Hf; by right).
  destruct (bool_decide (filename ∈ seen)); [by apply IH|]. cbn [snd]. rewrite elem_of_app.
  intros [Hx|Hx]; [|by eapply IH]. unfold process_metrics_file in Hx.
  destruct (read_to_string dir filename p) as [contents|] eqn:Hr; [|by apply not_elem_of_nil in Hx].
  destruct (snapshot_parse contents) as [m|] eqn:Hm; [|by apply not_elem_of_nil in Hx].
  apply list_elem_of_singleton in Hx as ->. destruct (Hf filename) as [He Hj]; [by left|]. by exists contents.
Qed.

Lemma watch_from dir passes x : forall seen, x ∈ (watch dir passes seen).2 -> exists p, p ∈ passes /\ shown_from dir p x.
Proof using Type.
  induction passes as [|p passes IH]; intros seen; cbn [watch snd]; [by intros ?%not_elem_of_nil|].
  rewrite elem_of_app. intros [Hx|Hx]; cycle 1.
  { destruct (IH _ Hx) as (q & Hq & Hs). exists q. split; [by right|done]. }
  exists p. split; [by left|]. unfold process_new_metrics_files, get_json_files in Hx.
  destruct (pa_entries p) as [entries|] eqn:He; [|by apply not_elem_of_nil in Hx]. cbn in Hx.
  eapply process_files_from; [|exact Hx]. intros name Hn. apply list_elem_of_In, filter_In in Hn as [Hn Hj].
  apply andb_prop in Hj as [_ Hj]. apply bool_decide_eq_true in Hj. split; [|done]. rewrite He. cbn.
  apply list_elem_of_In, list_elem_of_omap in Hn as (o & Ho & Hid). by rewrite <-Hid.
Qed.

(** The states of the file system while the collector writes. *)
Definition moments (dir : string) (reports : list (Report * Z * WriteIo)) (fs : Files) : list Files :=
  fs :: (write_reports (Some dir) reports fs).2.
Record pass_during (dir : string) (reports : list (Report * Z * WriteIo)) (fs : Files) (p : Pass) : Prop := {
  pd_names : forall name, Some name ∈ default [] (pa_entries p) -> starts_with "/" name = false;
  pd_read : forall name s, pa_read p name = Some s -> s ∈ moments dir reports fs;
}.

Lemma final_moment dir reports fs : final fs (write_reports (Some dir) reports fs).2 ∈ moments dir reports fs.
Proof using Type.
  unfold final, moments. destruct (last _) as [s|] eqn:Hl; [right; by apply last_Some_elem_of|by left].
Qed.

(** C28: The watcher shows whole reports.  It runs against the collector, each of its
    calls at any moment of the collector's writing, whichever calls of either fail:
    if the directory held no reports before, everything the watcher shows is what
    serde parses from the whole JSON of a report that the collector wrote under that
    name, never a part of one, and it shows no name twice. *)
Theorem watcher_shows_reports dir reports fs passes :
  (forall name, extension name = Some "json"%string -> fs !! path_join dir name = None) ->
  Forall (pass_during dir reports fs) passes ->
  let shown := (watch dir passes ∅).2 in
  NoDup (map fst shown) /\
  forall name metrics, (name, metrics) ∈ shown ->
    exists r now io snapshot report_name json, (r, now, io) ∈ reports /\
      MetricsSnapshot_new now (rep_elapsed_secs r) (rep_workers r) (rep_totals r) = Ok snapshot /\
      strftime_utc FILE_NAME_PATTERN (ms_timestamp snapshot) = Some report_name /\
      path_join dir name = path_join dir report_name /\
      snapshot_json snapshot = Some json /\ snapshot_parse json = Some metrics.
Proof using Type.
  intros Hempty Hpasses shown. split; [apply watch_once|]. intros name metrics Hin.
  destruct (watch_from _ _ _ _ Hin) as (p & Hp & contents & Hlisted & Hext & Hread & Hparse). cbn [fst snd] in *.
  pose proof (proj1 (Forall_forall _ _) Hpasses p Hp) as [Hnames Hmoment].
  unfold read_to_string in Hread. destruct (pa_read p name) as [s|] eqn:Hs; [|done]. cbn in Hread.
  apply Hmoment in Hs. destruct (s !! path_join dir name) as [[bs|]|] eqn:Hfile; [|done|done].
  destruct (utf8_valid bs); [|done]. injection Hread as <-.
  assert (only_whole dir reports fs s) as Hwhole.
  { apply elem_of_cons in Hs as [->|Hs]; [by intros q _; left|].
    exact (proj1 (Forall_forall _ _) (write_reports_whole dir reports fs) s Hs). }
  destruct (Hwhole (path_join dir name)) as [Hsame|Hreport].
  - intros (n & Hn). apply path_join_inj in Hn; [|by apply Hnames|done].
    rewrite Hn, temp_extension in Hext. done.
  - by rewrite Hsame, Hempty in Hfile.
  - destruct Hreport as (r & now & io & snapshot & report_name & j & H1 & H2 & H3 & H4 & H5 & H6).
    rewrite Hfile in H6. injection H6 as ->. rewrite of_bytes_str_bytes in Hparse.
    by exists r, now, io, snapshot, report_name, j.
Qed.
End watcher.

(** ** Example: the second report is being written *)

#[export] Instance toy_parse : SnapshotParse := {|
  snapshot_parse text := if String.eqb text "{'n':1}" then Some (mkSnapshot 0 (f64_of_Z 60) [] sample_totals) else None
|}.
Definition sample_writes : list (Report * Z * WriteIo) :=
  [(sample_report, 0%Z, mkWriteIo None None None None); (sample_report, 1%Z, mkWriteIo None (Some (3, OtherError)) None None)].
Definition watched : Files := {[ "m" := Dir ]}.
(** A pass at the end, and one more. *)
Definition sample_pass : Pass :=
  let s := final watched (write_reports (Some "m"%string) sample_writes watched).2 in
  mkPass (Some [Some "a.json"; Some ".b.json.tmp"; None]%string) (fun _ => s) (fun _ => Some s).

Lemma watcher_shows_reports_witness :
  map fst (watch "m" [sample_pass; sample_pass] ∅).2 = ["a.json"%string] /\
  NoDup (map fst (watch "m" [sample_pass; sample_pass] ∅).2).
Proof.
  split; [vm_compute; reflexivity|].
  apply (watcher_shows_reports "m" sample_writes watched [sample_pass; sample_pass]).
  - intros name _. unfold watched. apply lookup_singleton_ne. unfold path_join. cbn [is_empty].
    destruct (starts_with "/" name) eqn:Hn; [|discriminate]. intros <-. discriminate Hn.
  - assert (pass_during "m" sample_writes watched sample_pass) as Hp.
    { split.
      - intros name. cbn. rewrite !elem_of_cons. intros [[= ->]|[[= ->]|[|Hn]]]; [done|done|done|by apply not_elem_of_nil in Hn].
      - intros name s Hs. unfold sample_pass, pa_read in Hs. apply (inj Some) in Hs as <-. apply final_moment. }
    repeat (apply Forall_cons; split); [exact Hp|exact Hp|by apply Forall_nil].
Defined.
