(* ===== verification/Responses.v ===== *)
(** * The response handler (crates/roughenough-server/src/responses.rs)

    A batch of requests: [add_request] pushes a leaf per request,
    [process_responses] computes the root, signs it and hands one framed response
    per request to its callback (modelled as the list of its calls, in order).
    The online key's random seed and the clock are arguments. *)
From stdpp Require Import gmap.
From S2P Require Import Prelude Errors Cursor Wire Tags Header FixedTags Versions Path Cert Srep.
From S2P Require Import Request Response Merkle Crypto Keys Metrics.

Section responses.
Context {C : CryptoLib} {profile : Profile} {B : Type} `{!SeedBackend B}.
(** [SocketAddr]: never inspected. *)
Context {Addr : Type}.

Record PendingRequest := mkPending { pending_request : Request; src_addr : Addr }.

Inductive OnlineKey : Type :=
| OkDraft14 (key : OnlineKeyDraft14)
| OkDraft08 (key : OnlineKeyDraft08).

Record ResponseHandler := mkHandler {
  rh_batch_size : nat;
  rh_tree : MerkleTree;
  rh_path : MerklePath;
  rh_key_source : KeySource (B := B);
  rh_online_key : OnlineKey;
  rh_metrics : ResponseMetrics;
  rh_requests : list PendingRequest;
  rh_buf : bytes;
  rh_version : ProtocolVersion;
}.

(** The [match protocol_version] that makes an online key. *)
Definition make_online_key {E} (w : World) (ks : KeySource) (version : ProtocolVersion) (signer : bytes)
    : res E (OnlineKey * KeySource (B := B)) :=
  match version with
  | RfcDraft08 => r ← ks_make_online_key_draft08 w ks signer; mret (OkDraft08 r.1, r.2)
  | RfcDraft14 => r ← ks_make_online_key_draft14 w ks signer; mret (OkDraft14 r.1, r.2)
  end.

Definition ResponseHandler_new {E} (w : World) (batch_size : nat) (key_source : KeySource)
    (protocol_version : ProtocolVersion) (signer : bytes) : res E ResponseHandler :=
  r ← make_online_key w key_source protocol_version signer;
  mret (mkHandler batch_size (reserve tree_new batch_size) MerklePath_default r.2 r.1
          ResponseMetrics_default [] (zeroes 1024) protocol_version).

Definition add_request {E} (h : ResponseHandler) (request_bytes : bytes) (request : Request) (src : Addr)
    : res E ResponseHandler :=
  _ ← debug_assert (length (rh_requests h) <? rh_batch_size h);
  tree ← match rh_version h with
         | RfcDraft08 => push_leaf sha512 (rh_tree h) (fixed_bytes (req_nonc request))
         | RfcDraft14 => push_leaf sha512 (rh_tree h) request_bytes
         end;
  mret (mkHandler (rh_batch_size h) tree (rh_path h) (rh_key_source h) (rh_online_key h)
          (rh_metrics h) (rh_requests h ++ [mkPending request src]) (rh_buf h) (rh_version h)).

Definition replace_online_key {E} (w : World) (h : ResponseHandler) (signer : bytes) : res E ResponseHandler :=
  r ← make_online_key w (rh_key_source h) (rh_version h) signer;
  mret (mkHandler (rh_batch_size h) (rh_tree h) (rh_path h) r.2 r.1 (rh_metrics h)
          (rh_requests h) (rh_buf h) (rh_version h)).

(** The state the loops over the requests change. *)
Record SendState := mkSend {
  ss_path : MerklePath;
  ss_buf : bytes;
  ss_metrics : ResponseMetrics;
  ss_sent : list (Addr * bytes);
}.

(** [response.to_frame(&mut ParseCursor::new(&mut response_buf)).expect(..)], the
    metrics, and the callback on [&response_buf[..frame_size]]. *)
Definition send_frame {E R} `{!ToWire R} (response : R) (src : Addr) (st : SendState) (path : MerklePath)
    : res E SendState :=
  match to_frame response (new (ss_buf st)) with
  | (Ok _, c) =>
      let size := frame_size response in
      if size <=? length (data c) then
        Ok (mkSend path (data c) (add_bytes_sent (ss_metrics st) size)
              (ss_sent st ++ [(src, take size (data c))]))
      else Panic
  | (Err _, _) | (Panic, _) => Panic
  end.

(** [merkle_path.clear(); merkle_tree.get_paths_to(index, &mut merkle_path)] *)
Definition next_path {E} (tree : MerkleTree) (index : nat) (path : MerklePath) : res E MerklePath :=
  get_paths_to tree index (path_clear path).

Fixpoint send_draft14 {E} (tree : MerkleTree) (response_common : Response) (index : nat)
    (pending : list PendingRequest) (st : SendState) : res E SendState :=
  match pending with
  | [] => Ok st
  | p :: ps =>
      path ← next_path tree index (ss_path st);
      let response := copy_path response_common path in
      let response := set_nonc response (req_nonc (pending_request p)) in
      let response := set_indx response (as_u32 index) in
      st' ← send_frame response (src_addr p) st path;
      send_draft14 tree response_common (S index) ps st'
  end.

Fixpoint send_draft08 {E} (tree : MerkleTree) (response_common : ResponseDraft08) (index : nat)
    (pending : list PendingRequest) (st : SendState) : res E SendState :=
  match pending with
  | [] => Ok st
  | p :: ps =>
      path ← next_path tree index (ss_path st);
      let response := copy_path08 response_common path in
      let response := set_indx08 response (as_u32 index) in
      st' ← send_frame response (src_addr p) st path;
      send_draft08 tree response_common (S index) ps st'
  end.

Definition process_responses_draft14 {E} (w : World) (h : ResponseHandler) (root : MerkleRoot)
    : res E (ResponseHandler * list (Addr * bytes)) :=
  match rh_online_key h with
  | OkDraft08 _ => Panic
  | OkDraft14 key =>
      let cert := ok14_cert key in
      _ ← debug_assert (negb (bool_decide (cert = Certificate_default)));
      r ← make_srep14 w key root;
      let '(srep, sig, key') := r in
      let common := set_cert Response_default cert in
      let common := set_srep common srep in
      let common := set_sig common sig in
      st ← send_draft14 (rh_tree h) common 0 (rh_requests h)
             (mkSend (rh_path h) (rh_buf h) (rh_metrics h) []);
      mret (mkHandler (rh_batch_size h) (rh_tree h) (ss_path st) (rh_key_source h) (OkDraft14 key')
              (ss_metrics st) (rh_requests h) (ss_buf st) (rh_version h), ss_sent st)
  end.

Definition process_responses_draft08 {E} (w : World) (h : ResponseHandler) (root : MerkleRoot)
    : res E (ResponseHandler * list (Addr * bytes)) :=
  match rh_online_key h with
  | OkDraft14 _ => Panic
  | OkDraft08 key =>
      let cert := ok08_cert key in
      _ ← debug_assert (negb (bool_decide (cert = Certificate_default)));
      r ← make_srep08 w key root;
      let '(srep, sig, key') := r in
      let common := set_cert08 ResponseDraft08_default cert in
      let common := set_srep08 common srep in
      let common := set_sig08 common sig in
      st ← send_draft08 (rh_tree h) common 0 (rh_requests h)
             (mkSend (rh_path h) (rh_buf h) (rh_metrics h) []);
      mret (mkHandler (rh_batch_size h) (rh_tree h) (ss_path st) (rh_key_source h) (OkDraft08 key')
              (ss_metrics st) (rh_requests h) (ss_buf st) (rh_version h), ss_sent st)
  end.

(** [process_responses]; [requests.len() as u8] wraps at 256. *)
Definition process_responses {E} (w : World) (h : ResponseHandler)
    : res E (ResponseHandler * list (Addr * bytes)) :=
  match rh_requests h with
  | [] => Ok (h, [])
  | _ =>
      metrics ← add_batch_size (rh_metrics h) (length (rh_requests h) mod 256);
      r ← compute_root sha512 (rh_tree h);
      let h' := mkHandler (rh_batch_size h) r.2 (rh_path h) (rh_key_source h) (rh_online_key h)
                  metrics (rh_requests h) (rh_buf h) (rh_version h) in
      match rh_version h with
      | RfcDraft08 => process_responses_draft08 w h' (mkFixed r.1)
      | RfcDraft14 => process_responses_draft14 w h' (mkFixed r.1)
      end
  end.

Definition rh_public_key {E} (h : ResponseHandler) : res E PublicKey :=
  match rh_online_key h with
  | OkDraft14 key => PublicKey_from (ok14_public_key_bytes key)
  | OkDraft08 key => PublicKey_from (ok08_public_key_bytes key)
  end.

Definition rh_clear (h : ResponseHandler) : ResponseHandler :=
  mkHandler (rh_batch_size h) (tree_clear (rh_tree h)) (rh_path h) (rh_key_source h) (rh_online_key h)
    (rh_metrics h) [] (rh_buf h) (rh_version h).

Definition rh_reset_metrics (h : ResponseHandler) : ResponseHandler :=
  mkHandler (rh_batch_size h) (rh_tree h) (rh_path h) (rh_key_source h) (rh_online_key h)
    (reset_response_metrics (rh_metrics h)) (rh_requests h) (rh_buf h) (rh_version h).

Definition key_cert (key : OnlineKey) : Certificate :=
  match key with OkDraft14 k => ok14_cert k | OkDraft08 k => ok08_cert k end.
Definition rh_cert (h : ResponseHandler) : Certificate := key_cert (rh_online_key h).

(** ** Correctness *)

(** What processing a batch leaves as it was. *)
Record same_config (h h' : ResponseHandler) : Prop := {
  sc_batch_size : rh_batch_size h' = rh_batch_size h;
  sc_version : rh_version h' = rh_version h;
  sc_key_source : rh_key_source h' = rh_key_source h;
  sc_cert : rh_cert h' = rh_cert h;
}.

(** The certificate's delegation starts at [now] and lasts [validity] seconds. *)
Definition window (cert : Certificate) (now validity : Z) : Prop :=
  min_time (cert_delegation cert) = now /\
  max_time (cert_delegation cert) = u64_saturating_add now validity.

Context {CL : CryptoLaws C} `{!LawfulSeedBackend B}.
#[local] Set Default Proof Using "Type*".

(** The 1024-byte buffer takes every frame of at most 1024 bytes. *)
Lemma send_frame_ok {E R} `{!ToWire R} `{!Encode R} `{!LawfulWrite R} (r : R) src st path :
  wf r -> length (ss_buf st) = 1024 -> wire_size r + 12 <= 1024 ->
  exists buf, send_frame (E := E) r src st path =
      Ok (mkSend path buf (add_bytes_sent (ss_metrics st) (frame_size r))
            (ss_sent st ++ [(src, frame_bytes (encode r))])) /\ length buf = 1024.
Proof.
  intros Hr Hb Hsz. pose proof (wire_size_encode r Hr) as Hw.
  assert (length (frame_bytes (encode r)) = wire_size r + 12) as Hl.
  { rewrite length_frame_bytes, Hw. done. }
  unfold send_frame. rewrite <-(take_drop (wire_size r + 12) (ss_buf st)).
  change (new ?b) with (at_cursor [] b).
  rewrite (to_frame_writes r Hr) by (rewrite length_take, Hl, Hb; lia).
  cbn [data at_cursor app]. unfold frame_size, FRAME_OVERHEAD. rewrite length_app, length_drop, Hl, Hb.
  destruct (Nat.leb_spec (wire_size r + 12) (wire_size r + 12 + (1024 - (wire_size r + 12)))); [|lia].
  rewrite take_app_length' by done. eexists. split; [reflexivity|].
  rewrite length_app, length_drop, Hl, Hb. lia.
Qed.

Definition leaves (datas : list bytes) : list bytes := map (hash_leaf sha512) datas.

Lemma length_leaves datas : length (leaves datas) = length datas.
Proof using Type. apply length_map. Qed.

(** What the [i]-th request, with Merkle leaf data [d], is answered with. *)
Record answer14 (common : Response) (datas : list bytes) (i : nat) (nonce : Nonce) (d : bytes)
    (r : Response) : Prop := {
  an_wf : resp_wf r;
  an_consistent : consistent r;
  an_nonce : resp_nonce r = nonce;
  an_index : resp_index r = Z.of_nat i;
  an_srep : resp_srep r = resp_srep common;
  an_sig : resp_signature r = resp_signature common;
  an_cert : resp_cert r = resp_cert common;
  an_root : root_from_paths sha512 i d (resp_path r) = merkle_root sha512 (leaves datas);
}.

Record answer08 (common : ResponseDraft08) (datas : list bytes) (i : nat) (d : bytes)
    (r : ResponseDraft08) : Prop := {
  a8_wf : resp08_wf r;
  a8_consistent : consistent08 r;
  a8_index : resp08_index r = Z.of_nat i;
  a8_version : resp08_version r = resp08_version common;
  a8_srep : resp08_srep r = resp08_srep common;
  a8_sig : resp08_signature r = resp08_signature common;
  a8_cert : resp08_cert r = resp08_cert common;
  a8_root : root_from_paths sha512 i d (resp08_path r) = merkle_root sha512 (leaves datas);
}.

Lemma root_from_paths_equiv i d p q :
  path_equiv p q -> root_from_paths sha512 i d p = root_from_paths sha512 i d q.
Proof using Type. intros Hpq. unfold root_from_paths. by rewrite Hpq. Qed.

Lemma next_path_ok {E} tree datas i d path :
  tree_of sha512 (levels tree) (leaves datas) -> datas !! i = Some d -> length datas <= 256 ->
  path_wf path ->
  exists p, next_path (E := E) tree i path = Ok p /\ path_wf p /\ num_paths p <= 8 /\
    root_from_paths sha512 i d p = merkle_root sha512 (leaves datas).
Proof.
  intros Ht Hi Hmax Hp. assert (length datas <= 2 ^ 32) as Hmax2.
  { transitivity (2 ^ 8); [done|]. apply Nat.pow_le_mono_r; lia. }
  destruct (batch_path sha512 sha512_length (E := E) tree datas i d (path_clear path))
    as (p & Hg & Hw & Hn & Hr); [done|done|done|by apply clear_wf|done|].
  exists p. split_and!; try done. rewrite Hn. unfold tree_depth.
  rewrite length_map. transitivity (Nat.log2_up 256); [by apply Nat.log2_up_le_mono|]. done.
Qed.

Lemma add_request_ok {E} h bs req src l rest :
  levels (rh_tree h) = l :: rest -> length (rh_requests h) < rh_batch_size h ->
  exists d, d = match rh_version h with RfcDraft08 => fixed_bytes (req_nonc req) | RfcDraft14 => bs end /\
  add_request (E := E) h bs req src =
    Ok (mkHandler (rh_batch_size h) (mkTree ((l ++ [hash_leaf sha512 d]) :: rest)) (rh_path h)
          (rh_key_source h) (rh_online_key h) (rh_metrics h)
          (rh_requests h ++ [mkPending req src]) (rh_buf h) (rh_version h)).
Proof.
  intros Hl Hlt. eexists. split; [reflexivity|]. unfold add_request, debug_assert.
  destruct (Nat.ltb_spec (length (rh_requests h)) (rh_batch_size h)); [|lia].
  cbn [negb]. rewrite andb_false_r. cbn [mbind res_bind].
  unfold push_leaf, set_level, index. rewrite Hl. by destruct (rh_version h).
Qed.

(** Response [j] of the loop answers request [index + j]. *)
Definition answered {R} `{!Encode R} (answers : nat -> PendingRequest -> bytes -> R -> Prop)
    (datas : list bytes) (index : nat) (ps : list PendingRequest) (frames : list (Addr * bytes)) : Prop :=
  length frames = length ps /\
  forall j p d, ps !! j = Some p -> datas !! (index + j) = Some d ->
    exists r, frames !! j = Some (src_addr p, frame_bytes (encode r)) /\ answers (index + j) p d r.

Lemma answered_cons {R} `{!Encode R} answers datas index p ps frames (r : R) d :
  datas !! index = Some d -> answers index p d r ->
  answered answers datas (S index) ps frames ->
  answered answers datas index (p :: ps) ((src_addr p, frame_bytes (encode r)) :: frames).
Proof using Type.
  intros Hd Ha [Hl Hf]. split; [cbn; by f_equal|]. intros [|j] p' d' Hp Hd'.
  - rewrite Nat.add_0_r in *. injection Hp as <-. rewrite Hd in Hd'. injection Hd' as <-. by exists r.
  - rewrite Nat.add_succ_r in *. apply (Hf j p' d' Hp Hd').
Qed.

Record send_inv (st : SendState) : Prop := {
  si_path : path_wf (ss_path st);
  si_buf : length (ss_buf st) = 1024;
  si_metrics : metrics_wf (ss_metrics st);
}.

Lemma copy_path_answer14 common datas i nonce d path :
  resp_ready common -> length (versions (srep_versions (resp_srep common))) = 1 ->
  path_wf path -> num_paths path <= 8 -> wf (A := FixedTag 32) nonce -> i < 256 ->
  root_from_paths sha512 i d path = merkle_root sha512 (leaves datas) ->
  let r := set_indx (set_nonc (copy_path common path) nonce) (as_u32 i) in
  answer14 common datas i nonce d r /\ wire_size r + 12 <= 1024.
Proof using Type.
  intros Hcm Hv Hp Hn Hnonce Hi Hroot r. pose proof (rr_srep _ Hcm) as Hsr. destruct Hcm.
  set (r0 := mkResponse (resp_header common) (resp_signature common) nonce (resp_msg_type common)
    (copy_from (resp_path common) path) (resp_srep common) (resp_cert common) (as_u32 i)).
  assert (resp_ready r0) as H0.
  { split; try done; [by apply copy_from_wf|]. cbn. rewrite as_u32_small by lia. unfold is_u32. lia. }
  change r with (update_offsets r0). destruct (update_offsets_wf r0 H0) as [Hw Hc]. split.
  - split; try done; [apply as_u32_small; lia|].
    etransitivity; [|exact Hroot]. by apply root_from_paths_equiv, copy_from_equiv.
  - rewrite Response_wire_size. destruct (srep_wire_size _ Hsr) as [Hss _].
    cbn [resp_path resp_srep update_offsets r0 copy_from num_paths]. rewrite Hss, Hv. lia.
Qed.

Lemma copy_path_answer08 common datas i d path :
  resp08_ready common -> path_wf path -> num_paths path <= 8 -> i < 256 ->
  root_from_paths sha512 i d path = merkle_root sha512 (leaves datas) ->
  let r := set_indx08 (copy_path08 common path) (as_u32 i) in
  answer08 common datas i d r /\ wire_size r + 12 <= 1024.
Proof using Type.
  intros [] Hp Hn Hi Hroot r.
  set (r0 := mkResponse08 (resp08_header common) (resp08_signature common) (resp08_version common)
    (copy_from (resp08_path common) path) (resp08_srep common) (resp08_cert common) (as_u32 i)).
  assert (resp08_ready r0) as H0.
  { split; try done; [by apply copy_from_wf|]. cbn. rewrite as_u32_small by lia. unfold is_u32. lia. }
  change r with (update_offsets08 r0). destruct (update_offsets08_wf r0 H0) as [Hw Hc]. split.
  - split; try done; [apply as_u32_small; lia|].
    etransitivity; [|exact Hroot]. by apply root_from_paths_equiv, copy_from_equiv.
  - rewrite Response08_wire_size. unfold resp08_wire_size.
    cbn [resp08_path update_offsets08 r0 copy_from num_paths]. lia.
Qed.

Lemma send_draft14_ok {E} tree common datas :
  tree_of sha512 (levels tree) (leaves datas) -> length datas <= 256 ->
  resp_ready common -> length (versions (srep_versions (resp_srep common))) = 1 ->
  forall ps index st, index + length ps = length datas ->
    Forall (fun p => wf (A := FixedTag 32) (req_nonc (pending_request p))) ps -> send_inv st ->
    exists st' frames, send_draft14 (E := E) tree common index ps st = Ok st' /\ send_inv st' /\
      ss_sent st' = ss_sent st ++ frames /\ batch_sizes (ss_metrics st') = batch_sizes (ss_metrics st) /\
      answered (fun i p d r => answer14 common datas i (req_nonc (pending_request p)) d r)
        datas index ps frames.
Proof.
  intros Ht Hmax Hcm Hv. induction ps as [|p ps IH]; intros index st Hlen Hn Hst.
  { exists st, []. rewrite app_nil_r. split_and!; done. }
  cbn [length] in Hlen. apply Forall_cons in Hn as [Hnp Hn]. destruct Hst as [Hp Hb Hm].
  destruct (lookup_lt_is_Some_2 datas index) as [d Hd]; [lia|].
  destruct (next_path_ok (E := E) tree datas index d (ss_path st) Ht Hd Hmax Hp)
    as (path & Hnext & Hpw & Hpn & Hroot).
  destruct (copy_path_answer14 common datas index (req_nonc (pending_request p)) d path)
    as [Ha Hsz]; try done; [lia|].
  cbn [send_draft14]. rewrite Hnext. cbn [mbind res_bind].
  destruct (send_frame_ok (E := E) (set_indx (set_nonc (copy_path common path)
    (req_nonc (pending_request p))) (as_u32 index)) (src_addr p) st path)
    as (buf & -> & Hbuf); [apply Ha|done|done|]. cbn [mbind res_bind].
  edestruct (IH (S index)) as (st' & frames & Hs & Hinv & Hsent & Hbs & Hans); [lia|done|
    |rewrite Hs].
  { split; [done|done|]. exact Hm. }
  eexists st', (_ :: frames). split_and!; [done|done| |done|].
  - rewrite Hsent. cbn [ss_sent]. by rewrite <-app_assoc.
  - by eapply answered_cons.
Qed.

Lemma send_draft08_ok {E} tree common datas :
  tree_of sha512 (levels tree) (leaves datas) -> length datas <= 256 -> resp08_ready common ->
  forall ps index st, index + length ps = length datas -> send_inv st ->
    exists st' frames, send_draft08 (E := E) tree common index ps st = Ok st' /\ send_inv st' /\
      ss_sent st' = ss_sent st ++ frames /\ batch_sizes (ss_metrics st') = batch_sizes (ss_metrics st) /\
      answered (fun i p d r => answer08 common datas i d r) datas index ps frames.
Proof.
  intros Ht Hmax Hcm. induction ps as [|p ps IH]; intros index st Hlen Hst.
  { exists st, []. rewrite app_nil_r. split_and!; done. }
  cbn [length] in Hlen. destruct Hst as [Hp Hb Hm].
  destruct (lookup_lt_is_Some_2 datas index) as [d Hd]; [lia|].
  destruct (next_path_ok (E := E) tree datas index d (ss_path st) Ht Hd Hmax Hp)
    as (path & Hnext & Hpw & Hpn & Hroot).
  destruct (copy_path_answer08 common datas index d path) as [Ha Hsz]; try done; [lia|].
  cbn [send_draft08]. rewrite Hnext. cbn [mbind res_bind].
  destruct (send_frame_ok (E := E) (set_indx08 (copy_path08 common path) (as_u32 index))
    (src_addr p) st path) as (buf & -> & Hbuf); [apply Ha|done|done|]. cbn [mbind res_bind].
  edestruct (IH (S index)) as (st' & frames & Hs & Hinv & Hsent & Hbs & Hans); [lia|
    |rewrite Hs].
  { split; [done|done|]. exact Hm. }
  eexists st', (_ :: frames). split_and!; [done|done| |done|].
  - rewrite Hsent. cbn [ss_sent]. by rewrite <-app_assoc.
  - by eapply answered_cons.
Qed.

(** ** The handler's invariant *)

Definition key_ok (sk : bytes) (clock : ClockSource) (validity : Z) (v : ProtocolVersion) (key : OnlineKey)
    : Prop :=
  match v, key with
  | RfcDraft14, OkDraft14 k =>
      ok14_inv k /\ ok14_clock k = clock /\ srep_version (ok14_template k) = RfcDraft14 /\
      versions (srep_versions (ok14_template k)) = [RfcDraft14] /\
      exists now, certified (ed_public sk) (dele_prefix RfcDraft14) (ok14_cert k) (ok14_signer k) now validity
  | RfcDraft08, OkDraft08 k =>
      ok08_inv k /\ ok08_clock k = clock /\
      exists now, certified (ed_public sk) (dele_prefix RfcDraft08) (ok08_cert k) (ok08_signer k) now validity
  | _, _ => False
  end.

(** The key source holds the identity [sk] for the handler's protocol version. *)
Record source_ok (sk : bytes) (v : ProtocolVersion) (ks : KeySource (B := B)) : Prop := {
  so_holds : holds (id_seed (ks_identity ks)) sk;
  so_version : id_version (ks_identity ks) = v;
  so_validity : (0 < as_secs (ks_validity ks) < 2 ^ 64)%Z;
}.

(** [datas] are the Merkle leaf data of the pending requests. *)
Record handler_inv (sk : bytes) (h : ResponseHandler) (datas : list bytes) : Prop := {
  hi_batch : 1 <= rh_batch_size h <= MAX_BATCH_SIZE;
  hi_len : length (rh_requests h) = length datas;
  hi_room : length datas <= rh_batch_size h;
  hi_tree : exists rest, levels (rh_tree h) = leaves datas :: rest;
  hi_path : path_wf (rh_path h);
  hi_buf : length (rh_buf h) = 1024;
  hi_metrics : metrics_wf (rh_metrics h);
  hi_nonces : Forall (fun p => wf (A := FixedTag 32) (req_nonc (pending_request p))) (rh_requests h);
  hi_source : source_ok sk (rh_version h) (rh_key_source h);
  hi_key : key_ok sk (ks_clock (rh_key_source h)) (as_secs (ks_validity (rh_key_source h)))
             (rh_version h) (rh_online_key h);
}.

(** The histogram has room for the batch, or overflow wraps. *)
Definition metrics_room (h : ResponseHandler) : Prop :=
  debug_build = false \/ size_room (batch_sizes (rh_metrics h)) (length (rh_requests h)) = true.

Lemma cert_not_default lt prefix cert signer now validity :
  certified lt prefix cert signer now validity -> (0 < validity)%Z -> is_u64 now ->
  cert <> Certificate_default.
Proof using Type.
  intros [_ _ _ Hm _] Hv Hn ->. cbn in Hm. unfold u64_saturating_add, u64_max, is_u64 in *. lia.
Qed.

Lemma certified_now lt prefix cert signer now validity :
  certified lt prefix cert signer now validity -> is_u64 now.
Proof using Type. intros [Hc _ <- _ _]. apply (dw_mint _ (cw_dele _ Hc)). Qed.

Lemma debug_assert_true {E} b : b = true -> debug_assert (E := E) b = Ok tt.
Proof using Type. intros ->. unfold debug_assert. by rewrite andb_false_r. Qed.

Lemma make_online_key_ok {E} w sk v ks signer :
  source_ok sk v ks -> world_wf w ->
  exists key ks', make_online_key (E := E) w ks v signer = Ok (key, ks') /\ source_ok sk v ks' /\
    key_ok sk (ks_clock ks') (as_secs (ks_validity ks')) v key /\
    ks_clock ks' = ks_clock ks /\ ks_validity ks' = ks_validity ks /\
    window (key_cert key) (epoch_seconds w (ks_clock ks)) (as_secs (ks_validity ks)).
Proof.
  intros [Hh Hv [Hp Hmax]] Hw. assert (is_u64 (as_secs (ks_validity ks))) as Hu by (unfold is_u64; lia).
  destruct v; cbn [make_online_key]; unfold ks_make_online_key_draft08, ks_make_online_key_draft14.
  - destruct (make_online_key_draft08_spec (E := E) w _ sk (ks_clock ks) (ks_validity ks) signer Hh Hw Hu)
      as (k & id' & -> & Hi & Hs & Hcl & Hce & Hh' & Hv'). cbn.
    eexists _, _. split; [reflexivity|]. rewrite <-Hs in Hce.
    pose proof (conj (ce_mint _ _ _ _ _ _ Hce) (ce_maxt _ _ _ _ _ _ Hce)) as Hwin.
    split; [split; cbn; [done|congruence|done]|]. cbn. eauto 10.
  - destruct (make_online_key_draft14_spec (E := E) w _ sk (ks_clock ks) (ks_validity ks) signer Hh Hw Hu)
      as (k & id' & -> & Hi & Hs & Hcl & Ht1 & Ht2 & Hce & Hh' & Hv'). cbn.
    eexists _, _. split; [reflexivity|]. rewrite Hv in *. rewrite <-Hs in Hce.
    pose proof (conj (ce_mint _ _ _ _ _ _ Hce) (ce_maxt _ _ _ _ _ _ Hce)) as Hwin.
    split; [split; cbn; [done|congruence|done]|]. cbn. eauto 12.
Qed.

(** What the batch is answered with: the root of its tree, signed by a key that
    the identity [sk] has certified. *)
Record signed_batch14 (sk : bytes) (w : World) (h : ResponseHandler) (datas : list bytes)
    (common : Response) : Prop := {
  sb_root : srep_merkle_root (resp_srep common) = mkFixed (merkle_root sha512 (leaves datas));
  sb_midpoint : srep_midpoint (resp_srep common) = epoch_seconds w (ks_clock (rh_key_source h));
  sb_radius : srep_radius (resp_srep common) = DEFAULT_RADI_SECONDS;
  sb_version : srep_version (resp_srep common) = RfcDraft14;
  sb_versions : versions (srep_versions (resp_srep common)) = [RfcDraft14];
  sb_cert : resp_cert common = rh_cert h;
  sb_sig : exists signer now,
    certified (ed_public sk) (dele_prefix RfcDraft14) (resp_cert common) signer now
      (as_secs (ks_validity (rh_key_source h))) /\
    ed_verify (ed_public signer) (srep_prefix RfcDraft14 ++ encode (resp_srep common))
      (fixed_bytes (resp_signature common)) = true;
}.

Record signed_batch08 (sk : bytes) (w : World) (h : ResponseHandler) (datas : list bytes)
    (common : ResponseDraft08) : Prop := {
  sb8_root : srep08_merkle_root (resp08_srep common) = mkFixed (merkle_root sha512 (leaves datas));
  sb8_offsets : offsets (srep08_header (resp08_srep common)) = SREP08_OFFSETS;
  sb8_midpoint : srep08_midpoint (resp08_srep common) = epoch_seconds w (ks_clock (rh_key_source h));
  sb8_radius : srep08_radius (resp08_srep common) = DEFAULT_RADI_SECONDS;
  sb8_cert : resp08_cert common = rh_cert h;
  sb8_sig : exists signer now,
    certified (ed_public sk) (dele_prefix RfcDraft08) (resp08_cert common) signer now
      (as_secs (ks_validity (rh_key_source h))) /\
    ed_verify (ed_public signer) (srep_prefix RfcDraft08 ++ encode (resp08_srep common))
      (fixed_bytes (resp08_signature common)) = true;
}.

Lemma process_draft14_spec {E} sk w h datas :
  handler_inv sk h datas -> rh_version h = RfcDraft14 -> world_wf w ->
  forall t metrics, tree_of sha512 (levels t) (leaves datas) -> metrics_wf metrics -> 1 <= length datas ->
  exists h' common frames,
    process_responses_draft14 (E := E) w
      (mkHandler (rh_batch_size h) t (rh_path h) (rh_key_source h) (rh_online_key h) metrics
        (rh_requests h) (rh_buf h) (rh_version h)) (mkFixed (merkle_root sha512 (leaves datas))) =
      Ok (h', frames) /\
    signed_batch14 sk w h datas common /\
    answered (fun i p d r => answer14 common datas i (req_nonc (pending_request p)) d r)
      datas 0 (rh_requests h) frames /\
    handler_inv sk (rh_clear h') [] /\ same_config h (rh_clear h') /\
    batch_sizes (rh_metrics h') = batch_sizes metrics.
Proof.
  intros Hinv Hv Hw t metrics Ht Hm H1. destruct Hinv as [Hb Hlen Hroom _ Hp Hbuf _ Hn Hso Hk].
  rewrite Hv in Hk. unfold process_responses_draft14. cbn [rh_online_key].
  destruct (rh_online_key h) as [k|k] eqn:Hok; [|done].
  destruct Hk as (Hi & Hcl & Htv & Htvs & now & Hce).
  rewrite debug_assert_true; cycle 1.
  { apply negb_true_iff, bool_decide_eq_false_2. eapply cert_not_default; [done|apply Hso|].
    by eapply certified_now. }
  cbn [mbind res_bind].
  destruct (make_srep14_spec (E := E) w k (mkFixed (merkle_root sha512 (leaves datas))) Hi Hw)
    as (srep & sig & k' & -> & Hs & Hr & Hmp & Hra & Hve & Hvs & Hsig & Hver & Hi' & Hk1 & Hk2 & Hk3 & Hk4).
  { cbn. apply length_merkle_root; [apply sha512_length|by rewrite length_leaves|].
    apply leaves_all_hashes, sha512_length. }
  cbn [mbind res_bind].
  set (common := set_sig (set_srep (set_cert Response_default (ok14_cert k)) srep) sig).
  assert (resp_ready common) as Hcm by (split; try done; [apply default_wf|apply Hce]).
  cbn [rh_tree rh_requests rh_path rh_buf rh_metrics].
  destruct (send_draft14_ok (E := E) t common datas Ht) with (ps := rh_requests h) (index := 0)
    (st := mkSend (rh_path h) (rh_buf h) metrics [])
    as (st' & frames & -> & [Hp' Hb' Hm'] & Hsent & Hbs & Hans); try done.
  { unfold MAX_BATCH_SIZE in Hb. lia. }
  { cbn. by rewrite Hvs, Htvs. }
  cbn [mbind res_bind]. eexists _, common, frames. cbn [app ss_sent] in Hsent. rewrite Hsent.
  split; [reflexivity|]. split; [|split; [done|split; [|split]]].
  - split; [exact Hr|rewrite <-Hcl; exact Hmp|exact Hra|rewrite <-Htv; exact Hve| | |].
    + rewrite <-Htvs, <-Hvs. done.
    + unfold rh_cert. by rewrite Hok.
    + exists (ok14_signer k), now. split; [exact Hce|exact Hver].
  - split; [exact Hb|done|cbn; lia| |exact Hp'|exact Hb'|exact Hm'|by apply Forall_nil|exact Hso|].
    + exists (map (fun _ => []) (tail (levels t))). cbn [rh_tree rh_clear tree_clear levels].
      destruct (levels t); [inversion Ht|done].
    + cbn [rh_version rh_clear rh_online_key]. rewrite Hv. split; [exact Hi'|]. split; [by rewrite Hk3|].
      split; [by rewrite Hk4|]. split; [by rewrite Hk4|]. exists now. rewrite Hk1, Hk2. exact Hce.
  - split; [reflexivity..|]. unfold rh_cert. rewrite Hok. cbn. exact Hk2.
  - exact Hbs.
Qed.

Lemma process_draft08_spec {E} sk w h datas :
  handler_inv sk h datas -> rh_version h = RfcDraft08 -> world_wf w ->
  forall t metrics, tree_of sha512 (levels t) (leaves datas) -> metrics_wf metrics -> 1 <= length datas ->
  exists h' common frames,
    process_responses_draft08 (E := E) w
      (mkHandler (rh_batch_size h) t (rh_path h) (rh_key_source h) (rh_online_key h) metrics
        (rh_requests h) (rh_buf h) (rh_version h)) (mkFixed (merkle_root sha512 (leaves datas))) =
      Ok (h', frames) /\
    signed_batch08 sk w h datas common /\
    answered (fun i p d r => answer08 common datas i d r) datas 0 (rh_requests h) frames /\
    handler_inv sk (rh_clear h') [] /\ same_config h (rh_clear h') /\
    batch_sizes (rh_metrics h') = batch_sizes metrics.
Proof.
  intros Hinv Hv Hw t metrics Ht Hm H1. destruct Hinv as [Hb Hlen Hroom _ Hp Hbuf _ Hn Hso Hk].
  rewrite Hv in Hk. unfold process_responses_draft08. cbn [rh_online_key].
  destruct (rh_online_key h) as [k|k] eqn:Hok; [done|].
  destruct Hk as (Hi & Hcl & now & Hce).
  rewrite debug_assert_true; cycle 1.
  { apply negb_true_iff, bool_decide_eq_false_2. eapply cert_not_default; [done|apply Hso|].
    by eapply certified_now. }
  cbn [mbind res_bind].
  destruct (make_srep08_spec (E := E) w k (mkFixed (merkle_root sha512 (leaves datas))) Hi Hw)
    as (srep & sig & k' & -> & Hs & Hoff & Hr & Hmp & Hra & Hsig & Hver & Hi' & Hk1 & Hk2 & Hk3).
  { cbn. apply length_merkle_root; [apply sha512_length|by rewrite length_leaves|].
    apply leaves_all_hashes, sha512_length. }
  cbn [mbind res_bind].
  set (common := set_sig08 (set_srep08 (set_cert08 ResponseDraft08_default (ok08_cert k)) srep) sig).
  assert (resp08_ready common) as Hcm by (split; try done; [apply default_wf|apply Hce]).
  cbn [rh_tree rh_requests rh_path rh_buf rh_metrics].
  destruct (send_draft08_ok (E := E) t common datas Ht) with (ps := rh_requests h) (index := 0)
    (st := mkSend (rh_path h) (rh_buf h) metrics [])
    as (st' & frames & -> & [Hp' Hb' Hm'] & Hsent & Hbs & Hans); try done.
  { unfold MAX_BATCH_SIZE in Hb. lia. }
  cbn [mbind res_bind]. eexists _, common, frames. cbn [app ss_sent] in Hsent. rewrite Hsent.
  split; [reflexivity|]. split; [|split; [done|split; [|split]]].
  - split; [exact Hr|exact Hoff|rewrite <-Hcl; exact Hmp|exact Hra|unfold rh_cert; by rewrite Hok|].
    exists (ok08_signer k), now. split; [exact Hce|exact Hver].
  - split; [exact Hb|done|cbn; lia| |exact Hp'|exact Hb'|exact Hm'|by apply Forall_nil|exact Hso|].
    + exists (map (fun _ => []) (tail (levels t))). cbn [rh_tree rh_clear tree_clear levels].
      destruct (levels t); [inversion Ht|done].
    + cbn [rh_version rh_clear rh_online_key]. rewrite Hv. split; [exact Hi'|]. split; [by rewrite Hk3|].
      exists now. rewrite Hk1, Hk2. exact Hce.
  - split; [reflexivity..|]. unfold rh_cert. rewrite Hok. cbn. exact Hk2.
  - exact Hbs.
Qed.

(** The replies to a whole batch, for the handler's version. *)
Definition batch_replies (sk : bytes) (w : World) (h : ResponseHandler) (datas : list bytes)
    (frames : list (Addr * bytes)) : Prop :=
  match rh_version h with
  | RfcDraft14 => exists common, signed_batch14 sk w h datas common /\
      answered (fun i p d r => answer14 common datas i (req_nonc (pending_request p)) d r)
        datas 0 (rh_requests h) frames
  | RfcDraft08 => exists common, signed_batch08 sk w h datas common /\
      answered (fun i p d r => answer08 common datas i d r) datas 0 (rh_requests h) frames
  end.

(** A batch of the invariant's sizes is always answered while the histogram has
    room, and the handler is ready for the next batch after [clear]. *)
Lemma process_responses_spec {E} sk w h datas :
  handler_inv sk h datas -> world_wf w -> metrics_room h -> 1 <= length datas ->
  exists h' frames, process_responses (E := E) w h = Ok (h', frames) /\
    batch_replies sk w h datas frames /\ handler_inv sk (rh_clear h') [] /\ same_config h (rh_clear h') /\
    batch_sizes (rh_metrics h') = tally_size (batch_sizes (rh_metrics h)) (length datas).
Proof.
  intros Hinv Hw Hroom H1. pose proof Hinv as [[Hb1 Hb2] Hlen Hr [rest Ht] _ _ Hm _ _ _].
  unfold MAX_BATCH_SIZE in *. unfold process_responses.
  destruct (rh_requests h) as [|p0 ps0] eqn:Hreq; [cbn in Hlen; lia|]. rewrite <-Hreq in *.
  rewrite Nat.mod_small by lia. rewrite add_batch_size_eq by (done || unfold MAX_BATCH_SIZE; lia).
  assert (debug_build && negb (size_room (batch_sizes (rh_metrics h)) (length (rh_requests h))) = false) as ->.
  { destruct Hroom as [->| ->]; [done|apply andb_false_r]. }
  pose proof (tally_size_wf _ (length (rh_requests h)) Hm) as Hmw.
  cbn [mbind res_bind]. destruct (rh_tree h) as [ls]. cbn in Ht. subst ls.
  destruct (compute_root_spec sha512 (E := E) (leaves datas) rest) as (ls & -> & Htree).
  { by rewrite length_leaves. }
  cbn [mbind res_bind fst snd]. unfold batch_replies. rewrite <-Hlen. destruct (rh_version h) eqn:Hv.
  - edestruct (process_draft08_spec (E := E) sk w h datas Hinv Hv Hw (mkTree ls) _ Htree Hmw H1)
      as (h' & common & frames & Hp & Hs & Ha & Hi & Hsc & Hbs). rewrite Hv in Hp. eauto 14.
  - edestruct (process_draft14_spec (E := E) sk w h datas Hinv Hv Hw (mkTree ls) _ Htree Hmw H1)
      as (h' & common & frames & Hp & Hs & Ha & Hi & Hsc & Hbs). rewrite Hv in Hp. eauto 14.
Qed.

(** A build with overflow checks does not survive a batch whose counter is full. *)
Lemma process_responses_overflow {E} sk w h datas :
  debug_build = true -> handler_inv sk h datas ->
  size_room (batch_sizes (rh_metrics h)) (length datas) = false -> process_responses (E := E) w h = Panic.
Proof using Type.
  intros Hd [[Hb1 Hb2] Hlen Hr _ _ _ Hm _ _ _] Hroom. unfold process_responses.
  destruct (rh_requests h) as [|p0 ps0] eqn:Hreq; [cbn in Hlen; by rewrite <-Hlen in Hroom|]. rewrite <-Hreq in *.
  assert (1 <= length (rh_requests h)) by (rewrite Hreq; cbn; lia).
  unfold MAX_BATCH_SIZE in *. rewrite Nat.mod_small by lia.
  rewrite add_batch_size_eq by (done || unfold MAX_BATCH_SIZE; lia). by rewrite Hd, Hlen, Hroom.
Qed.

Lemma ResponseHandler_new_inv {E} sk w batch_size ks v signer :
  1 <= batch_size <= MAX_BATCH_SIZE -> source_ok sk v ks -> world_wf w ->
  exists h, ResponseHandler_new (E := E) w batch_size ks v signer = Ok h /\ handler_inv sk h [] /\
    rh_batch_size h = batch_size /\ rh_requests h = [] /\ rh_version h = v /\
    ks_clock (rh_key_source h) = ks_clock ks /\ ks_validity (rh_key_source h) = ks_validity ks /\
    window (rh_cert h) (epoch_seconds w (ks_clock ks)) (as_secs (ks_validity ks)) /\
    rh_metrics h = ResponseMetrics_default.
Proof.
  intros Hb Hso Hw. unfold ResponseHandler_new.
  destruct (make_online_key_ok (E := E) w sk v ks signer Hso Hw) as (key & ks' & -> & Hso' & Hk & Hc1 & Hc2 & Hwin).
  cbn [mbind res_bind]. eexists. split; [reflexivity|]. split; [|by split_and!].
  split; [exact Hb|done|cbn; lia| |apply default_wf|apply length_zeroes|apply default_metrics_wf|
    by apply Forall_nil|exact Hso'|exact Hk].
  destruct (reserve_clear_cons tree_new batch_size) as [rest Hr]; [done|].
  exists rest. cbn [rh_tree]. change (tree_clear tree_new) with tree_new in Hr. by rewrite Hr.
Qed.

Lemma add_request_inv {E} sk h datas bs req src :
  handler_inv sk h datas -> length datas < rh_batch_size h -> wf (A := FixedTag 32) (req_nonc req) ->
  exists h' d, add_request (E := E) h bs req src = Ok h' /\ handler_inv sk h' (datas ++ [d]) /\
    d = match rh_version h with RfcDraft08 => fixed_bytes (req_nonc req) | RfcDraft14 => bs end /\
    rh_requests h' = rh_requests h ++ [mkPending req src] /\
    same_config h h' /\ rh_metrics h' = rh_metrics h.
Proof.
  intros Hinv Hlt Hn. pose proof Hinv as [Hb Hlen Hr [rest Ht] Hp Hbuf Hm Hf Hso Hk].
  destruct (add_request_ok (E := E) h bs req src _ _ Ht) as (d & Hd & Ha); [lia|].
  eexists _, d. split; [exact Ha|]. split_and!; try done.
  split; try done; cbn.
  - rewrite !length_app, Hlen. done.
  - rewrite length_app. cbn. lia.
  - exists rest. unfold leaves. by rewrite map_app.
  - apply Forall_app. split; [done|]. by apply Forall_singleton.
Qed.

Lemma replace_online_key_inv {E} sk w h datas signer :
  handler_inv sk h datas -> world_wf w ->
  exists h', replace_online_key (E := E) w h signer = Ok h' /\ handler_inv sk h' datas /\
    rh_requests h' = rh_requests h /\ rh_version h' = rh_version h /\ rh_batch_size h' = rh_batch_size h /\
    rh_metrics h' = rh_metrics h /\
    ks_clock (rh_key_source h') = ks_clock (rh_key_source h) /\
    ks_validity (rh_key_source h') = ks_validity (rh_key_source h) /\
    window (rh_cert h') (epoch_seconds w (ks_clock (rh_key_source h))) (as_secs (ks_validity (rh_key_source h))).
Proof.
  intros [] Hw. unfold replace_online_key.
  destruct (make_online_key_ok (E := E) w sk (rh_version h) (rh_key_source h) signer) as (key & ks' & -> & Hso' & Hk' & Hrest);
    [done|done|].
  cbn [mbind res_bind]. eexists. split; [reflexivity|]. split; [by split|]. by split_and!; try apply Hrest.
Qed.

End responses.

(** ** A server to try things on: the memory backend with the all-zero seed (the
    seed of a server started without one) and the toy library. *)

Definition sample_seed : bytes := zeroes 32.
Definition sample_backend : MemoryBackend :=
  mkMemory (Some (mkSeed sample_seed)) (Some (mkFixed (ed_public sample_seed))).
Definition sample_source (v : ProtocolVersion) : KeySource (B := MemoryBackend) :=
  mkKeySource (mkIdentity sample_backend v) (from_secs 86400) System.
Definition sample_world (now : Z) : World := mkWorld now ∅.

#[export] Instance sample_backend_lawful : LawfulSeedBackend MemoryBackend :=
  MemoryBackend_Lawful (CL := toy_crypto_laws).

Lemma sample_source_ok v : source_ok sample_seed v (sample_source v).
Proof. split; [|done|cbn; lia]. by split. Qed.

Lemma sample_world_wf now : is_u64 now -> world_wf (sample_world now).
Proof. intros H. split; [exact H|]. intros i x. cbn. by rewrite lookup_empty. Qed.
