(* ===== verification/Validation.v ===== *)
(** * Response validation (crates/roughenough-client/src/validation.rs)

    The draft-14 and draft-08 checks in the order the code makes them, and the
    causality check over measurements.  Error messages built with [format!] are
    not modelled: their constructors carry no text. *)
From S2P Require Import Prelude Errors Cursor Wire Tags Header FixedTags Versions Path Cert Srep.
From S2P Require Import Request Response Merkle Crypto.

Inductive ValidationError : Type :=
| InvalidMidpoint
| BadSignature
| FailedProof
| InvalidMessage (e : Error)
| VersionMismatch (v : ProtocolVersion)
| InvalidRadius.

Section validation.
Context {C : CryptoLib}.

(** [ResponseValidator { pub_key }] *)
Record ResponseValidator := mkValidator { pub_key : option bytes }.

Definition validator_new : ResponseValidator := mkValidator None.
Definition new_with_key (key : PublicKey) : ResponseValidator := mkValidator (Some (fixed_bytes key)).

(** [if b { return Err(e) }] *)
Definition reject (b : bool) (e : ValidationError) : res ValidationError unit :=
  if b then Err e else Ok tt.

Definition check_dele_signature_with_key (key : bytes) (cert : Certificate) (version : ProtocolVersion)
    : res ValidationError unit :=
  let dele := cert_delegation cert in
  let prefix := dele_prefix version in
  dele_bytes ← map_err InvalidMessage (fill_buffer (wire_size dele) (to_wire dele));
  reject (negb (ed_verify key (prefix ++ dele_bytes) (fixed_bytes (cert_signature cert)))) BadSignature.

Definition check_vers_contains_ver (response : Response) : res ValidationError unit :=
  let ver := srep_version (resp_srep response) in
  reject (negb (is_supported (srep_versions (resp_srep response)) ver)) (VersionMismatch ver).

Definition verify_srep_signature (prefix srep_bytes : bytes) (sig : Signature) (pubk : PublicKey)
    : res ValidationError unit :=
  reject (negb (ed_verify (fixed_bytes pubk) (prefix ++ srep_bytes) (fixed_bytes sig))) BadSignature.

(** [&bytes[lo..hi]] of a slice *)
Definition sub_slice {E} (bs : bytes) (lo hi : nat) : res E bytes :=
  if (lo <=? hi) && (hi <=? length bs) then Ok (take (hi - lo) (drop lo bs)) else Panic.

Definition FRAME_HEADER_SIZE : nat := 12.
Definition MSG_HEADER_SIZE_7_TAGS : nat := 56.
Definition MSG_HEADER_SIZE_6_TAGS : nat := 48.

(** SREP is taken from the response bytes at the offsets of the header. *)
Definition check_srep_signature_draft14 (response : Response) (response_bytes : bytes)
    : res ValidationError unit :=
  let prefix := srep_prefix (srep_version (resp_srep response)) in
  let values_start := FRAME_HEADER_SIZE + MSG_HEADER_SIZE_7_TAGS in
  o3 ← index (offsets (resp_header response)) 3;
  o4 ← index (offsets (resp_header response)) 4;
  let srep_start := values_start + Z.to_nat o3 in
  let srep_end := values_start + Z.to_nat o4 in
  _ ← reject (length response_bytes <? srep_end) BadSignature;
  srep_bytes ← sub_slice response_bytes srep_start srep_end;
  verify_srep_signature prefix srep_bytes (resp_signature response)
    (dele_public_key (cert_delegation (resp_cert response))).

Definition check_srep_signature_draft08 (response : ResponseDraft08) (response_bytes : bytes)
    : res ValidationError unit :=
  let prefix := srep_prefix RfcDraft08 in
  let values_start := FRAME_HEADER_SIZE + MSG_HEADER_SIZE_6_TAGS in
  o2 ← index (offsets (resp08_header response)) 2;
  o3 ← index (offsets (resp08_header response)) 3;
  let srep_start := values_start + Z.to_nat o2 in
  let srep_end := values_start + Z.to_nat o3 in
  _ ← reject (length response_bytes <? srep_end) BadSignature;
  srep_bytes ← sub_slice response_bytes srep_start srep_end;
  verify_srep_signature prefix srep_bytes (resp08_signature response)
    (dele_public_key (cert_delegation (resp08_cert response))).

Definition check_midpoint_inner (midpoint mint maxt : Z) : res ValidationError unit :=
  _ ← reject (midpoint <? mint)%Z InvalidMidpoint;
  reject (maxt <? midpoint)%Z InvalidMidpoint.

Definition check_radius (radius : Z) : res ValidationError unit := reject (radius =? 0)%Z InvalidRadius.

Definition check_merkle_proof_inner (leaf_data : bytes) (path : MerklePath) (idx : nat) (root : bytes)
    : res ValidationError unit :=
  reject (negb (bool_decide (root_from_paths sha512 idx leaf_data path = root))) FailedProof.

Definition check_merkle_proof_draft14 (request : bytes) (response : Response) : res ValidationError unit :=
  check_merkle_proof_inner request (resp_path response) (Z.to_nat (resp_index response))
    (fixed_bytes (srep_merkle_root (resp_srep response))).

Definition check_merkle_proof_draft08 (request : bytes) (response : ResponseDraft08)
    : res ValidationError unit :=
  let nonce_end := FRAMED_NONCE_OFFSET + 32 in
  _ ← reject (length request <? nonce_end) (InvalidMessage (BufferTooSmall nonce_end (length request)));
  nonce ← sub_slice request FRAMED_NONCE_OFFSET nonce_end;
  check_merkle_proof_inner nonce (resp08_path response) (Z.to_nat (resp08_index response))
    (fixed_bytes (srep08_merkle_root (resp08_srep response))).

(** [if let Some(ref pub_key) = self.pub_key { self.check_dele_signature_with_key(..)?; }] *)
Definition check_dele (v : ResponseValidator) (cert : Certificate) (version : ProtocolVersion)
    : res ValidationError unit :=
  match pub_key v with
  | Some key => check_dele_signature_with_key key cert version
  | None => Ok tt
  end.

Definition validate_draft14 (v : ResponseValidator) (request : bytes) (response : Response)
    (response_bytes : bytes) : res ValidationError Z :=
  let srep := resp_srep response in
  let dele := cert_delegation (resp_cert response) in
  _ ← check_dele v (resp_cert response) (srep_version srep);
  _ ← check_vers_contains_ver response;
  _ ← check_midpoint_inner (srep_midpoint srep) (min_time dele) (max_time dele);
  _ ← check_radius (srep_radius srep);
  _ ← check_merkle_proof_draft14 request response;
  _ ← check_srep_signature_draft14 response response_bytes;
  Ok (srep_midpoint srep).

Definition validate_draft08 (v : ResponseValidator) (request : bytes) (response : ResponseDraft08)
    (response_bytes : bytes) : res ValidationError Z :=
  let srep := resp08_srep response in
  let dele := cert_delegation (resp08_cert response) in
  _ ← check_dele v (resp08_cert response) RfcDraft08;
  _ ← check_midpoint_inner (srep08_midpoint srep) (min_time dele) (max_time dele);
  _ ← check_radius (srep08_radius srep);
  _ ← check_merkle_proof_draft08 request response;
  _ ← check_srep_signature_draft08 response response_bytes;
  Ok (srep08_midpoint srep).

(** ** What validation checks *)

(** The check [m] decides [P], reporting [e] when it does not hold. *)
Definition decides (m : res ValidationError unit) (e : ValidationError) (P : Prop) : Prop :=
  (m = Ok tt /\ P) \/ (m = Err e /\ ~ P).

(** The bytes between two offsets of a header, [start] bytes into a frame. *)
Definition offset_slice {N} (start : nat) (h : Header N) (i : nat) (bs : bytes) : option bytes :=
  lo ← offsets h !! i; hi ← offsets h !! S i;
  if (start + Z.to_nat hi <=? length bs)
  then Some (take (Z.to_nat hi - Z.to_nat lo) (drop (start + Z.to_nat lo) bs)) else None.

(** The bytes the signature checks read. *)
Definition signed_slice (r : Response) (bs : bytes) : option bytes := offset_slice 68 (resp_header r) 3 bs.
Definition signed_slice08 (r : ResponseDraft08) (bs : bytes) : option bytes :=
  offset_slice 60 (resp08_header r) 2 bs.

(** [key] signed [prefix ++ body] for the bytes [body]. *)
Definition signed_with (key : PublicKey) (prefix : bytes) (body : option bytes) (sig : Signature) : Prop :=
  exists sb, body = Some sb /\ ed_verify (fixed_bytes key) (prefix ++ sb) (fixed_bytes sig) = true.

(** The long-term key, if the validator has one, signed the delegation. *)
Definition cert_valid (v : ResponseValidator) (cert : Certificate) (version : ProtocolVersion) : Prop :=
  forall key, pub_key v = Some key ->
    ed_verify key (dele_prefix version ++ encode (cert_delegation cert)) (fixed_bytes (cert_signature cert)) = true.

Definition srep_valid (r : Response) (bs : bytes) : Prop :=
  signed_with (dele_public_key (cert_delegation (resp_cert r))) (srep_prefix (srep_version (resp_srep r)))
    (signed_slice r bs) (resp_signature r).
Definition srep_valid08 (r : ResponseDraft08) (bs : bytes) : Prop :=
  signed_with (dele_public_key (cert_delegation (resp08_cert r))) (srep_prefix RfcDraft08)
    (signed_slice08 r bs) (resp08_signature r).

Lemma reject_decides b e : decides (reject b e) e (b = false).
Proof. destruct b; cbn; [right|left]; done. Qed.

Lemma decides_iff m e P Q : decides m e P -> (P <-> Q) -> decides m e Q.
Proof. intros H HPQ. unfold decides. by rewrite <-HPQ. Qed.

(** [m?; k] when [m] decides [P]. *)
Lemma decides_seq {A} m e P (k : res ValidationError A) (Q : res ValidationError A -> Prop) :
  decides m e P -> (P -> Q k) -> (~ P -> Q (Err e)) -> Q (_ ← m; k).
Proof. intros [[-> HP]|[-> HP]] Hk He; cbn; [by apply Hk|by apply He]. Qed.

Lemma check_dele_decides v cert version : dele_wf (cert_delegation cert) ->
  decides (check_dele v cert version) BadSignature (cert_valid v cert version).
Proof.
  intros Hd. unfold check_dele, cert_valid. destruct (pub_key v) as [key|]; [|by left].
  unfold check_dele_signature_with_key. change (fill_buffer _ _) with (as_bytes (cert_delegation cert)).
  rewrite (as_bytes_encode (cert_delegation cert)) by done. cbn [map_err mbind res_bind].
  eapply decides_iff; [apply reject_decides|]. rewrite negb_false_iff.
  split; [by intros ? ? [= <-]|]. intros H. by apply H.
Qed.

Lemma is_supported_In l v : is_supported l v = true <-> In v (versions l).
Proof.
  unfold is_supported. rewrite existsb_exists. split.
  - by intros (x & Hx & ->%bool_decide_eq_true).
  - intros Hv. exists v. by rewrite bool_decide_eq_true.
Qed.

Lemma check_vers_decides r :
  decides (check_vers_contains_ver r) (VersionMismatch (srep_version (resp_srep r)))
    (In (srep_version (resp_srep r)) (versions (srep_versions (resp_srep r)))).
Proof. eapply decides_iff; [apply reject_decides|]. rewrite negb_false_iff. apply is_supported_In. Qed.

Lemma check_midpoint_decides m lo hi : decides (check_midpoint_inner m lo hi) InvalidMidpoint (lo <= m <= hi)%Z.
Proof.
  unfold check_midpoint_inner, reject, decides. destruct (Z.ltb_spec m lo), (Z.ltb_spec hi m); cbn.
  all: first [left; split; [done|lia]|right; split; [done|lia]].
Qed.

Lemma check_radius_decides n : decides (check_radius n) InvalidRadius (n <> 0%Z).
Proof. eapply decides_iff; [apply reject_decides|]. apply Z.eqb_neq. Qed.

Lemma check_proof_decides leaf path idx root :
  decides (check_merkle_proof_inner leaf path idx root) FailedProof (root_from_paths sha512 idx leaf path = root).
Proof. eapply decides_iff; [apply reject_decides|]. by rewrite negb_false_iff, bool_decide_eq_true. Qed.

(** The common tail of the signature checks. *)
Lemma check_slice_decides {N} (h : Header N) i start bs prefix sig pubk :
  header_wf h -> S i < N - 1 ->
  decides
    (lo ← index (offsets h) i; hi ← index (offsets h) (S i);
     _ ← reject (length bs <? start + Z.to_nat hi) BadSignature;
     srep_bytes ← sub_slice bs (start + Z.to_nat lo) (start + Z.to_nat hi);
     verify_srep_signature prefix srep_bytes sig pubk)
    BadSignature (signed_with pubk prefix (offset_slice start h i bs) sig).
Proof.
  intros [_ _ Hl _ Hok _] Hi. unfold index, offset_slice.
  destruct (lookup_lt_is_Some_2 (offsets h) (S i)) as [hi Hhi]; [by rewrite Hl|].
  destruct (lookup_lt_is_Some_2 (offsets h) i) as [lo Hlo]; [lia|].
  pose proof (offsets_okb_lookup 0 (offsets h) i (S i) lo hi Hok ltac:(lia) Hlo Hhi) as Hle.
  rewrite Hlo, Hhi. cbn [mbind res_bind option_bind]. unfold reject at 1, sub_slice, signed_with.
  destruct (Nat.ltb_spec (length bs) (start + Z.to_nat hi)), (Nat.leb_spec (start + Z.to_nat hi) (length bs));
    try lia; cbn [mbind res_bind].
  { right. split; [done|]. by intros (? & ? & _). }
  destruct (Nat.leb_spec (start + Z.to_nat lo) (start + Z.to_nat hi)); [|lia]. cbn [andb mbind res_bind].
  replace (start + Z.to_nat hi - (start + Z.to_nat lo)) with (Z.to_nat hi - Z.to_nat lo) by lia.
  eapply decides_iff; [apply reject_decides|]. rewrite negb_false_iff. split; [by eexists|].
  by intros (sb & [= <-] & ?).
Qed.

Lemma check_srep_decides r bs : header_wf (resp_header r) ->
  decides (check_srep_signature_draft14 r bs) BadSignature (srep_valid r bs).
Proof. intros Hh. apply (check_slice_decides (resp_header r) 3 68); [done|lia]. Qed.

Lemma check_srep08_decides r bs : header_wf (resp08_header r) ->
  decides (check_srep_signature_draft08 r bs) BadSignature (srep_valid08 r bs).
Proof. intros Hh. apply (check_slice_decides (resp08_header r) 2 60); [done|lia]. Qed.

(** ** Draft-14 *)

Record valid14 (v : ResponseValidator) (request : bytes) (r : Response) (bs : bytes) (m : Z) : Prop := {
  v14_cert : cert_valid v (resp_cert r) (srep_version (resp_srep r));
  v14_vers : In (srep_version (resp_srep r)) (versions (srep_versions (resp_srep r)));
  v14_delegation : (min_time (cert_delegation (resp_cert r)) <= m <= max_time (cert_delegation (resp_cert r)))%Z;
  v14_radius : srep_radius (resp_srep r) <> 0%Z;
  v14_root : root_from_paths sha512 (Z.to_nat (resp_index r)) request (resp_path r) =
    fixed_bytes (srep_merkle_root (resp_srep r));
  v14_signature : srep_valid r bs;
  v14_midpoint : m = srep_midpoint (resp_srep r);
}.

(** The check an error reports to have failed. *)
Definition cause14 (v : ResponseValidator) (request : bytes) (r : Response) (bs : bytes)
    (e : ValidationError) : Prop :=
  let srep := resp_srep r in
  let dele := cert_delegation (resp_cert r) in
  match e with
  | InvalidMidpoint => ~ (min_time dele <= srep_midpoint srep <= max_time dele)%Z
  | BadSignature => ~ cert_valid v (resp_cert r) (srep_version srep) \/ ~ srep_valid r bs
  | FailedProof =>
      root_from_paths sha512 (Z.to_nat (resp_index r)) request (resp_path r) <> fixed_bytes (srep_merkle_root srep)
  | VersionMismatch ver => ver = srep_version srep /\ ~ In ver (versions (srep_versions srep))
  | InvalidRadius => srep_radius srep = 0%Z
  | InvalidMessage _ => False
  end.

(** What the outcome of a validation says of the checks. *)
Definition outcome_spec (valid : Z -> Prop) (cause : ValidationError -> Prop) (out : res ValidationError Z) : Prop :=
  match out with
  | Ok m => valid m
  | Err e => cause e /\ forall m, ~ valid m
  | Panic => False
  end.

Lemma validate_draft14_outcome v request r bs :
  header_wf (resp_header r) -> dele_wf (cert_delegation (resp_cert r)) ->
  outcome_spec (valid14 v request r bs) (cause14 v request r bs) (validate_draft14 v request r bs).
Proof.
  intros Hh Hd. unfold validate_draft14, check_merkle_proof_draft14.
  eapply decides_seq; [by apply check_dele_decides| |intros Hn; split; [by left|by intros ? []]]. intros H1.
  eapply decides_seq; [apply check_vers_decides| |intros Hn; split; [done|by intros ? []]]. intros H2.
  eapply decides_seq; [apply check_midpoint_decides| |intros Hn; split; [done|]].
  2:{ intros m []. subst m. done. }
  intros H3.
  eapply decides_seq; [apply check_radius_decides| |intros Hn; split; [cbn; lia|by intros ? []]]. intros H4.
  eapply decides_seq; [apply check_proof_decides| |intros Hn; split; [done|by intros ? []]]. intros H5.
  eapply decides_seq; [by apply check_srep_decides| |intros Hn; split; [by right|by intros ? []]]. intros H6.
  by split.
Qed.

Lemma valid14_ok v request r bs m :
  header_wf (resp_header r) -> dele_wf (cert_delegation (resp_cert r)) ->
  valid14 v request r bs m -> validate_draft14 v request r bs = Ok m.
Proof.
  intros Hh Hd Hv. pose proof (validate_draft14_outcome v request r bs Hh Hd) as Ho.
  destruct (validate_draft14 _ _ _ _) as [m'|e|]; [|by destruct Ho as [_ Ho]; destruct (Ho m)|done].
  f_equal. rewrite (v14_midpoint _ _ _ _ _ Ho). symmetry. apply Hv.
Qed.

(** C6: Validation of a draft-14 response decides its checks.  For a frame that
    [Response::from_frame] accepts, [validate_draft14] never panics.  It returns a
    time exactly when the long-term key (if the validator has one) verifies the
    delegation, VER is among VERS, MIDP is that time and within MINT..MAXT, RADI
    is not zero, INDX and PATH lead from the whole framed request to ROOT, and the
    delegated key verifies the bytes at the header's SREP offsets; an error names
    a check that failed. *)
Theorem validate_draft14_decides v request bs r c :
  from_frame (A := Response) (new bs) = (Ok r, c) ->
  outcome_spec (valid14 v request r bs) (cause14 v request r bs) (validate_draft14 v request r bs).
Proof.
  intros Hf. change (new bs) with (at_cursor [] bs) in Hf.
  pose proof (from_frame_parses _ Response_parses [] bs) as H. rewrite Hf in H.
  destruct H as (b & rest & _ & _ & len & msg & _ & _ & []).
  apply validate_draft14_outcome; [done|]. by destruct rp_cert.
Qed.

(** ** Draft-08 *)

(** The part of a framed request that is the leaf of the tree. *)
Definition request_nonce (request : bytes) : bytes := take 32 (drop FRAMED_NONCE_OFFSET request).

Record valid08 (v : ResponseValidator) (request : bytes) (r : ResponseDraft08) (bs : bytes) (m : Z) : Prop := {
  v8_cert : cert_valid v (resp08_cert r) RfcDraft08;
  v8_delegation : (min_time (cert_delegation (resp08_cert r)) <= m <= max_time (cert_delegation (resp08_cert r)))%Z;
  v8_radius : srep08_radius (resp08_srep r) <> 0%Z;
  v8_nonce : FRAMED_NONCE_OFFSET + 32 <= length request;
  v8_root : root_from_paths sha512 (Z.to_nat (resp08_index r)) (request_nonce request) (resp08_path r) =
    fixed_bytes (srep08_merkle_root (resp08_srep r));
  v8_signature : srep_valid08 r bs;
  v8_midpoint : m = srep08_midpoint (resp08_srep r);
}.

Definition cause08 (v : ResponseValidator) (request : bytes) (r : ResponseDraft08) (bs : bytes)
    (e : ValidationError) : Prop :=
  let srep := resp08_srep r in
  let dele := cert_delegation (resp08_cert r) in
  match e with
  | InvalidMidpoint => ~ (min_time dele <= srep08_midpoint srep <= max_time dele)%Z
  | BadSignature => ~ cert_valid v (resp08_cert r) RfcDraft08 \/ ~ srep_valid08 r bs
  | FailedProof =>
      root_from_paths sha512 (Z.to_nat (resp08_index r)) (request_nonce request) (resp08_path r) <>
        fixed_bytes (srep08_merkle_root srep)
  | VersionMismatch _ => False
  | InvalidRadius => srep08_radius srep = 0%Z
  | InvalidMessage err =>
      err = BufferTooSmall (FRAMED_NONCE_OFFSET + 32) (length request) /\
      length request < FRAMED_NONCE_OFFSET + 32
  end.

Lemma check_proof08_cases request r :
  match check_merkle_proof_draft08 request r with
  | Ok _ => FRAMED_NONCE_OFFSET + 32 <= length request /\
      root_from_paths sha512 (Z.to_nat (resp08_index r)) (request_nonce request) (resp08_path r) =
        fixed_bytes (srep08_merkle_root (resp08_srep r))
  | Err (InvalidMessage err) =>
      err = BufferTooSmall (FRAMED_NONCE_OFFSET + 32) (length request) /\
      length request < FRAMED_NONCE_OFFSET + 32
  | Err e => e = FailedProof /\
      root_from_paths sha512 (Z.to_nat (resp08_index r)) (request_nonce request) (resp08_path r) <>
        fixed_bytes (srep08_merkle_root (resp08_srep r))
  | Panic => False
  end.
Proof.
  unfold check_merkle_proof_draft08, reject at 1, sub_slice.
  destruct (Nat.ltb_spec (length request) (FRAMED_NONCE_OFFSET + 32)); cbn [mbind res_bind]; [done|].
  destruct (Nat.leb_spec FRAMED_NONCE_OFFSET (FRAMED_NONCE_OFFSET + 32)); [|lia].
  destruct (Nat.leb_spec (FRAMED_NONCE_OFFSET + 32) (length request)); [|lia]. cbn [andb mbind res_bind].
  rewrite Nat.add_comm, Nat.add_sub. fold (request_nonce request).
  by destruct (check_proof_decides (request_nonce request) (resp08_path r) (Z.to_nat (resp08_index r))
    (fixed_bytes (srep08_merkle_root (resp08_srep r)))) as [[-> ?]|[-> ?]].
Qed.

Lemma validate_draft08_outcome v request r bs :
  header_wf (resp08_header r) -> dele_wf (cert_delegation (resp08_cert r)) ->
  outcome_spec (valid08 v request r bs) (cause08 v request r bs) (validate_draft08 v request r bs).
Proof.
  intros Hh Hd. unfold validate_draft08.
  eapply decides_seq; [by apply check_dele_decides| |intros Hn; split; [by left|by intros ? []]]. intros H1.
  eapply decides_seq; [apply check_midpoint_decides| |intros Hn; split; [done|]].
  2:{ intros m []. subst m. done. }
  intros H3.
  eapply decides_seq; [apply check_radius_decides| |intros Hn; split; [cbn; lia|by intros ? []]]. intros H4.
  pose proof (check_proof08_cases request r) as H5.
  destruct (check_merkle_proof_draft08 request r) as [[]|[]|]; try done; try (by destruct H5 as [[=] _]);
    cbn [mbind res_bind].
  - destruct H5 as [H5 H6].
    eapply decides_seq; [by apply check_srep08_decides| |intros Hn; split; [by right|by intros ? []]]. intros H7.
    by split.
  - destruct H5 as [_ H5]. split; [done|by intros ? []].
  - split; [done|]. intros m []. lia.
Qed.

Lemma valid08_ok v request r bs m :
  header_wf (resp08_header r) -> dele_wf (cert_delegation (resp08_cert r)) ->
  valid08 v request r bs m -> validate_draft08 v request r bs = Ok m.
Proof.
  intros Hh Hd Hv. pose proof (validate_draft08_outcome v request r bs Hh Hd) as Ho.
  destruct (validate_draft08 _ _ _ _) as [m'|e|]; [|by destruct Ho as [_ Ho]; destruct (Ho m)|done].
  f_equal. rewrite (v8_midpoint _ _ _ _ _ Ho). symmetry. apply Hv.
Qed.

(** C20: The same for draft-08, where the leaf is the 32 bytes of the framed request
    at [FRAMED_NONCE_OFFSET] and there is no VERS; [InvalidMessage] is reported
    exactly for a request too short to hold them. *)
Theorem validate_draft08_decides v request bs r c :
  from_frame (A := ResponseDraft08) (new bs) = (Ok r, c) ->
  outcome_spec (valid08 v request r bs) (cause08 v request r bs) (validate_draft08 v request r bs).
Proof.
  intros Hf. change (new bs) with (at_cursor [] bs) in Hf.
  pose proof (from_frame_parses _ ResponseDraft08_parses [] bs) as H. rewrite Hf in H.
  destruct H as (b & rest & _ & _ & len & msg & _ & _ & Hw & _).
  apply validate_draft08_outcome; [apply Hw|apply (r8_cert _ Hw)].
Qed.

(** ** The bytes under the signature *)

Lemma offset_slice_middle {N} (h : Header N) i start lo hi (bs pre mid post : bytes) :
  bs = pre ++ mid ++ post ->
  offsets h !! i = Some lo -> offsets h !! S i = Some hi -> (0 <= lo)%Z ->
  length pre = start + Z.to_nat lo -> (hi = lo + Z.of_nat (length mid))%Z ->
  offset_slice start h i bs = Some mid.
Proof.
  intros -> Hlo Hhi H0 Hpre ->. unfold offset_slice. rewrite Hlo, Hhi. cbn [mbind option_bind].
  rewrite Z2Nat.inj_add, Nat2Z.id by lia. rewrite !length_app.
  destruct (Nat.leb_spec (start + (Z.to_nat lo + length mid)) (length pre + (length mid + length post))); [|lia].
  f_equal. rewrite drop_app_length' by done. replace (_ - _) with (length mid) by lia. apply take_app_length.
Qed.

Lemma signed_slice_consistent r msg len rest : is_u32 len -> resp_parsed r msg -> consistent r ->
  exists sb, srep_parsed (resp_srep r) sb /\
    signed_slice r (to_be_bytes 8 FRAME_MAGIC ++ to_le_bytes 4 len ++ msg ++ rest) = Some sb.
Proof.
  intros Hlen [Hh _ _ Hs Hn _ Hp _ _ (sb & Hsb & ->)] Hc. exists sb. split; [done|]. unfold consistent in Hc.
  eapply (offset_slice_middle _ _ _ _ _ _
    (to_be_bytes 8 FRAME_MAGIC ++ to_le_bytes 4 len ++ encode (resp_header r) ++
      encode (A := FixedTag 64) (resp_signature r) ++ encode (A := FixedTag 32) (resp_nonce r) ++
      encode (resp_msg_type r) ++ encode (resp_path r)) sb
    (encode (resp_cert r) ++ to_le_bytes 4 (resp_index r) ++ rest));
    [by rewrite <-!app_assoc|by rewrite Hc|by rewrite Hc|lia| |].
  - rewrite !length_app, (length_encode_header _ Hh), length_to_be_bytes, length_to_le_bytes,
      (length_encode_FixedTag 64), (length_encode_FixedTag 32), length_encode_MessageType by done.
    cbn [encode MerklePath_Encode]. rewrite (length_paths _ Hp). cbn. unfold ELEMENT_SIZE. lia.
  - rewrite (srep_parsed_length _ _ Hsb). lia.
Qed.

Lemma signed_slice08_consistent r msg len rest : is_u32 len -> resp08_parsed r msg -> consistent08 r ->
  signed_slice08 r (to_be_bytes 8 FRAME_MAGIC ++ to_le_bytes 4 len ++ msg ++ rest) = Some (encode (resp08_srep r)).
Proof.
  intros Hlen [[Hh _ _ Hs Hp Hsr _ _] (vb & Hvb%length_version_bytes & ->)] Hc. unfold consistent08 in Hc.
  eapply (offset_slice_middle _ _ _ _ _ _
    (to_be_bytes 8 FRAME_MAGIC ++ to_le_bytes 4 len ++ encode (resp08_header r) ++
      encode (A := FixedTag 64) (resp08_signature r) ++ vb ++ encode (resp08_path r)) _
    (encode (resp08_cert r) ++ to_le_bytes 4 (resp08_index r) ++ rest));
    [by rewrite <-!app_assoc|by rewrite Hc|by rewrite Hc|lia| |].
  - rewrite !length_app, (length_encode_header _ Hh), length_to_be_bytes, length_to_le_bytes,
      (length_encode_FixedTag 64), Hvb by done.
    cbn [encode MerklePath_Encode]. rewrite (length_paths _ Hp). cbn. unfold ELEMENT_SIZE. lia.
  - rewrite (length_encode_srep08 _ Hsr). lia.
Qed.

(** The same for a frame made from a response. *)
Lemma signed_slice_own r : resp_wf r -> consistent r ->
  signed_slice r (frame_bytes (encode r)) = Some (encode (resp_srep r)).
Proof.
  intros [Hh _ _ Hs Hn _ Hp Hsr _ _] Hc. unfold consistent in Hc.
  unfold frame_bytes. cbn [encode Response_Encode]. unfold resp_body.
  eapply (offset_slice_middle _ _ _ _ _ _
    (to_be_bytes 8 FRAME_MAGIC ++ to_le_bytes 4 _ ++ encode (resp_header r) ++
      encode (A := FixedTag 64) (resp_signature r) ++ encode (A := FixedTag 32) (resp_nonce r) ++
      encode (resp_msg_type r) ++ encode (resp_path r)) _
    (encode (resp_cert r) ++ to_le_bytes 4 (resp_index r)));
    [by rewrite <-!app_assoc|by rewrite Hc|by rewrite Hc|lia| |].
  - rewrite !length_app, (length_encode_header _ Hh), length_to_be_bytes, length_to_le_bytes,
      (length_encode_FixedTag 64), (length_encode_FixedTag 32), length_encode_MessageType by done.
    cbn [encode MerklePath_Encode]. rewrite (length_paths _ Hp). cbn. unfold ELEMENT_SIZE. lia.
  - destruct (srep_wire_size _ Hsr) as [-> _]. rewrite (length_encode_srep _ Hsr). lia.
Qed.

Lemma signed_slice08_own r : resp08_wf r -> consistent08 r ->
  signed_slice08 r (frame_bytes (encode r)) = Some (encode (resp08_srep r)).
Proof.
  intros [Hh _ _ Hs Hp Hsr _ _] Hc. unfold consistent08 in Hc.
  unfold frame_bytes. cbn [encode ResponseDraft08_Encode].
  eapply (offset_slice_middle _ _ _ _ _ _
    (to_be_bytes 8 FRAME_MAGIC ++ to_le_bytes 4 _ ++ encode (resp08_header r) ++
      encode (A := FixedTag 64) (resp08_signature r) ++ encode (resp08_version r) ++ encode (resp08_path r)) _
    (encode (resp08_cert r) ++ to_le_bytes 4 (resp08_index r)));
    [by rewrite <-!app_assoc|by rewrite Hc|by rewrite Hc|lia| |].
  - rewrite !length_app, (length_encode_header _ Hh), length_to_be_bytes, length_to_le_bytes,
      (length_encode_FixedTag 64) by done.
    cbn [encode MerklePath_Encode ProtocolVersion_Encode].
    rewrite length_to_le_bytes, (length_paths _ Hp). cbn. unfold ELEMENT_SIZE. lia.
  - rewrite (length_encode_srep08 _ Hsr). lia.
Qed.

(** An accepted time is signed, if the offsets of the header describe the
    message: then the bytes that the delegated key verified are the bytes that SREP
    was parsed from, so that their MIDP field is the returned time. *)
Theorem consistent_response_authentic v request bs r c m :
  from_frame (A := Response) (new bs) = (Ok r, c) -> consistent r ->
  validate_draft14 v request r bs = Ok m ->
  exists sb, srep_parsed (resp_srep r) sb /\
    ed_verify (fixed_bytes (dele_public_key (cert_delegation (resp_cert r))))
      (srep_prefix (srep_version (resp_srep r)) ++ sb) (fixed_bytes (resp_signature r)) = true /\
    take 8 (drop 48 sb) = to_le_bytes 8 m.
Proof.
  intros Hf Hc Hv. change (new bs) with (at_cursor [] bs) in Hf.
  pose proof (from_frame_parses _ Response_parses [] bs) as H. rewrite Hf in H.
  destruct H as (b & rest & -> & _ & len & msg & Hlen & -> & Hr).
  pose proof (fun bs => validate_draft14_outcome v request r bs (rp_header _ _ Hr) (cw_dele _ (rp_cert _ _ Hr))) as Ho.
  specialize (Ho ((to_be_bytes 8 FRAME_MAGIC ++ to_le_bytes 4 len ++ msg) ++ rest)). rewrite Hv in Ho. destruct Ho as [_ _ _ _ _ (sb & Hsb & Hsig) Hm].
  destruct (signed_slice_consistent r msg len rest Hlen Hr Hc) as (sb' & Hp & Hsb').
  rewrite <-!app_assoc in Hsb. rewrite Hsb in Hsb'. injection Hsb' as <-.
  exists sb. subst m. split_and!; [done|done|by apply srep_parsed_midp].
Qed.

(** *** A response the server did not sign

    The parser reads SREP where the preceding fields end; the signature check reads
    it at the header's offsets, and nothing compares the two.  [forged_response]
    carries an SREP of the sender's choice as its fields and a signed one, [srep0]
    of any earlier response, behind its last field, where the offsets point. *)

Definition forged_srep (request : bytes) (m : Z) : SignedResponse :=
  let s := set_ver (set_vers SignedResponse_default (VersionList_new [RfcDraft14])) RfcDraft14 in
  set_midp (set_radi (set_root s (mkFixed (hash_leaf sha512 request))) DEFAULT_RADI_SECONDS) m.

Definition forged_response (cert : Certificate) (sig : Signature) (srep0 : SignedResponse)
    (request : bytes) (m : Z) : Response :=
  let s := (348 + Z.of_nat (wire_size srep0))%Z in
  mkResponse (mkHeader 7 [64; 96; 348; 348; s; s]%Z RESP_TAGS) sig Nonce_default MessageType.Response
    MerklePath_default (forged_srep request m) cert 0.

Definition forged_frame (cert : Certificate) (sig : Signature) (srep0 : SignedResponse)
    (request : bytes) (m : Z) : bytes :=
  frame_bytes (encode (forged_response cert sig srep0 request m) ++ encode srep0).

Context {CL : CryptoLaws C}.

Lemma forged_srep_wf request m : is_u64 m -> srep_wf (forged_srep request m).
Proof using CL.
  intros Hm. unfold forged_srep.
  assert (srep_wf (set_vers SignedResponse_default (VersionList_new [RfcDraft14]))) as H0.
  { apply set_vers_wf; [apply SignedResponse_default_ready| |cbn; lia].
    split; [unfold MAX_VERSIONS; cbn; lia|done]. }
  destruct (setters_wf _ RfcDraft14 0%Z 0%Z (mkFixed (zeroes 32)) H0) as (H1 & _); try done.
  assert (wf (A := FixedTag 32) (mkFixed (hash_leaf sha512 request))) as Hr
    by (apply length_hash; intros; apply sha512_length).
  destruct (setters_wf _ RfcDraft14 0%Z 0%Z _ H1 ltac:(done) ltac:(done) Hr) as (_ & _ & _ & H2).
  destruct (setters_wf _ RfcDraft14 DEFAULT_RADI_SECONDS 0%Z _ H2 ltac:(done) ltac:(done) Hr) as (_ & H3 & _).
  by destruct (setters_wf _ RfcDraft14 0%Z m _ H3 ltac:(done) Hm Hr) as (_ & _ & H4 & _).
Qed.

Section forged.
Context (cert : Certificate) (sig : Signature) (srep0 : SignedResponse) (request : bytes) (m : Z).
Context (Hcert : cert_wf cert) (Hsig : wf (A := FixedTag 64) sig) (Hsrep0 : srep_wf srep0) (Hm : is_u64 m).
Let r := forged_response cert sig srep0 request m.

Lemma forged_wf : resp_wf r.
Proof using All.
  destruct (srep_wire_size _ Hsrep0) as [Hs Hn]. unfold MAX_VERSIONS in Hn.
  split; try done.
  - unfold r, forged_response. cbn [resp_header]. rewrite Hs.
    split; cbn [num_tags offsets tags]; try done; [lia|].
    cbn [offsets_okb]. rewrite !andb_true_r.
    repeat (apply andb_true_iff; split);
      first [done|apply Z.leb_le; lia|apply Z.ltb_lt; lia|apply Z.eqb_eq; Z.div_mod_to_equations; lia].
  - by exists 348%Z.
  - apply default_wf.
  - by apply forged_srep_wf.
Qed.

Lemma forged_body : length (resp_body r) = 348.
Proof using All.
  rewrite (length_resp_body r forged_wf).
  destruct (srep_wire_size _ (forged_srep_wf request m Hm)) as [Hs _].
  unfold r. cbn [resp_path resp_srep forged_response]. rewrite Hs. reflexivity.
Qed.

(** The parser takes the chosen fields and leaves [srep0] behind them. *)
Lemma forged_parsed : exists c,
  from_frame (A := Response) (new (forged_frame cert sig srep0 request m)) = (Ok (resp_normalize r), c).
Proof using All.
  destruct (srep_wire_size _ Hsrep0) as [Hs Hn]. unfold MAX_VERSIONS in Hn.
  pose proof (length_encode_srep srep0 Hsrep0) as Hl0. pose proof forged_body as Hb.
  assert (length (encode r) = 404) as Hl.
  { rewrite (length_encode_Response r forged_wf), Response_wire_size.
    destruct (srep_wire_size _ (forged_srep_wf request m Hm)) as [Hs' _].
    unfold r. cbn [resp_path resp_srep forged_response]. rewrite Hs'. reflexivity. }
  assert (small (encode r ++ encode srep0)) as Hsm by (unfold small; rewrite length_app; lia).
  pose proof (from_frame_reads_padded (A := Response) (encode r) (encode srep0) [] (resp_normalize r)) as H.
  rewrite !app_nil_r in H. specialize (H ltac:(
    apply reads_Response; [apply forged_wf| |done]; rewrite length_app, Hb, Hl0;
    unfold r; cbn [resp_header offsets forged_response]; rewrite Hs; repeat constructor; lia)).
  specialize (H ltac:(unfold MINIMUM_FRAME_SIZE; rewrite length_app; lia) Hsm []).
  unfold forged_frame, frame_bytes. fold r. rewrite <-!app_assoc in H. by eexists.
Qed.

(** The signature check reads [srep0]. *)
Lemma forged_slice : signed_slice (resp_normalize r) (forged_frame cert sig srep0 request m) = Some (encode srep0).
Proof using All.
  destruct (srep_wire_size _ Hsrep0) as [Hs Hn]. pose proof (length_encode_srep srep0 Hsrep0) as Hl0.
  pose proof forged_body as Hb. unfold forged_frame, frame_bytes. fold r.
  eapply (offset_slice_middle _ _ _ _ _ _ (to_be_bytes 8 FRAME_MAGIC ++
    to_le_bytes 4 (as_u32 (length (encode r ++ encode srep0))) ++ encode r) _ []);
    [by rewrite app_nil_r, <-!app_assoc|reflexivity|reflexivity|done| |].
  - rewrite !length_app, length_to_be_bytes, length_to_le_bytes. cbn [encode Response_Encode].
    rewrite length_app, Hb, (length_encode_header _ (rw_header _ forged_wf)). reflexivity.
  - rewrite Hs. lia.
Qed.

(** C7: A signed response can be rewritten to any time.  Whoever holds one genuine
    certificate and one genuine SREP with its signature (a response the server once
    sent, to any request) can make, for any other request and any time within the
    delegation, a frame that the client parses and validates against the server's
    long-term key as a response with that time. *)
Theorem forged_response_accepted key :
  ed_verify (fixed_bytes key) (dele_prefix RfcDraft14 ++ encode (cert_delegation cert))
    (fixed_bytes (cert_signature cert)) = true ->
  ed_verify (fixed_bytes (dele_public_key (cert_delegation cert))) (srep_prefix RfcDraft14 ++ encode srep0)
    (fixed_bytes sig) = true ->
  (min_time (cert_delegation cert) <= m <= max_time (cert_delegation cert))%Z ->
  exists forged c,
    from_frame (A := Response) (new (forged_frame cert sig srep0 request m)) = (Ok forged, c) /\
    validate_draft14 (new_with_key key) request forged (forged_frame cert sig srep0 request m) = Ok m.
Proof using All.
  intros Hkey Hsg Hd. destruct forged_parsed as [c Hp]. exists (resp_normalize r), c. split; [done|].
  apply valid14_ok; [apply forged_wf|apply Hcert|].
  split; [by intros ? [= <-]|by left|exact Hd|discriminate|reflexivity| |reflexivity].
  exists (encode srep0). split; [apply forged_slice|exact Hsg].
Qed.
End forged.
End validation.

(** ** Examples, with the toy library *)

Definition sample_key : PublicKey := mkFixed (zeroes 32).
Definition sample_dele : Delegation := Delegation_new (mkFixed (zeroes 32)) 0 1000.
Definition sample_cert : Certificate :=
  Certificate_new (mkFixed (ed_sign (zeroes 32) (dele_prefix RfcDraft14 ++ encode sample_dele))) sample_dele.

(** A response to [request] alone, signed at time [m]. *)
Definition sample_response (request : bytes) (m : Z) : Response :=
  let srep := forged_srep request m in
  update_offsets (mkResponse (resp_header Response_default)
    (mkFixed (ed_sign (zeroes 32) (srep_prefix RfcDraft14 ++ encode srep)))
    Nonce_default MessageType.Response MerklePath_default srep sample_cert 0).

Lemma sample_cert_wf : cert_wf sample_cert.
Proof.
  split; [done|apply toy_digest_length|]. split; [done..|]. unfold is_u64. cbn. unfold u64_saturating_add, u64_max. lia.
Qed.

Lemma sample_response_wf request m : is_u64 m ->
  resp_wf (sample_response request m) /\ consistent (sample_response request m).
Proof.
  intros Hm. apply update_offsets_wf. split; try done.
  - apply default_wf.
  - by apply (forged_srep_wf (CL := toy_crypto_laws)).
Qed.

Lemma sample_response_valid request m : (0 <= m <= 1000)%Z ->
  exists c, let bs := frame_bytes (encode (sample_response request m)) in
    let r := resp_normalize (sample_response request m) in
    from_frame (A := Response) (new bs) = (Ok r, c) /\ consistent r /\
    validate_draft14 (new_with_key sample_key) request r bs = Ok m.
Proof.
  intros Hm. destruct (sample_response_wf request m) as [Hw Hc]; [unfold is_u64; lia|].
  destruct (from_frame_Response _ Hw Hc) as [c Hf]. exists c. split_and!; [done|done|].
  apply valid14_ok; [apply Hw|apply sample_cert_wf|].
  split; [|by left|done|discriminate|reflexivity| |reflexivity].
  - intros ? [= <-]. by apply bool_decide_eq_true.
  - exists (encode (forged_srep request m)). split; [by apply (signed_slice_own _ Hw)|].
    by apply bool_decide_eq_true.
Qed.

Lemma consistent_response_authentic_witness :
  exists bs r c sb, from_frame (A := Response) (new bs) = (Ok r, c) /\ consistent r /\
    validate_draft14 (new_with_key sample_key) [] r bs = Ok 7%Z /\
    srep_parsed (resp_srep r) sb /\ take 8 (drop 48 sb) = to_le_bytes 8 7.
Proof.
  destruct (sample_response_valid [] 7 ltac:(lia)) as (c & Hf & Hc & Hv).
  destruct (consistent_response_authentic _ _ _ _ _ _ Hf Hc Hv) as (sb & Hp & _ & Ht).
  do 4 eexists. split_and!; [exact Hf|exact Hc|exact Hv|exact Hp|exact Ht].
Defined.

Lemma validate_draft14_decides_witness :
  exists bs r c, from_frame (A := Response) (new bs) = (Ok r, c) /\
    outcome_spec (valid14 (new_with_key sample_key) [] r bs) (cause14 (new_with_key sample_key) [] r bs)
      (validate_draft14 (new_with_key sample_key) [] r bs).
Proof.
  destruct (sample_response_valid [] 7 ltac:(lia)) as (c & Hf & _).
  do 3 eexists. split; [exact Hf|]. eapply validate_draft14_decides. exact Hf.
Defined.

(** A genuine response to the empty request at time 7 becomes one to another
    request at time 900. *)
Lemma forged_response_accepted_witness :
  let srep0 := forged_srep [] 7 in
  let sig := resp_signature (sample_response [] 7) in
  let request := b_lit "another request" in
  exists forged c,
    from_frame (A := Response) (new (forged_frame sample_cert sig srep0 request 900)) = (Ok forged, c) /\
    validate_draft14 (new_with_key sample_key) request forged
      (forged_frame sample_cert sig srep0 request 900) = Ok 900%Z.
Proof.
  intros srep0 sig request.
  apply (forged_response_accepted (CL := toy_crypto_laws)).
  - apply sample_cert_wf.
  - done.
  - by apply (forged_srep_wf (CL := toy_crypto_laws)).
  - done.
  - by apply bool_decide_eq_true.
  - by apply bool_decide_eq_true.
  - done.
Defined.

Lemma validate_draft08_decides_witness :
  let r := update_offsets08 ResponseDraft08_default in
  let bs := frame_bytes (encode r) in
  exists c, from_frame (A := ResponseDraft08) (new bs) = (Ok (resp08_normalize r), c) /\
    outcome_spec (valid08 validator_new [] (resp08_normalize r) bs) (cause08 validator_new [] (resp08_normalize r) bs)
      (validate_draft08 validator_new [] (resp08_normalize r) bs).
Proof.
  intros r bs. destruct (update_offsets08_wf ResponseDraft08_default) as [Hw Hc].
  { split; try done; [apply default_wf|]. split; try done. split; cbn; try done; lia. }
  destruct (from_frame_Response08 r Hw Hc) as [c Hf]; [done|]. exists c. split; [exact Hf|].
  eapply validate_draft08_decides. exact Hf.
Defined.
