(* ===== verification/Measurement.v ===== *)
(** * Measurements and causality (crates/roughenough-client/src/measurement.rs, and
    [CausalityViolation], [validate_causality] of validation.rs)

    The arithmetic on times is [u64] in the build profile; [causal] is the
    condition the documentation states, over the integers. *)
From S2P Require Import Prelude Errors Cursor Wire FixedTags Versions Path Cert Srep Request Response.
From S2P Require Import Crypto Validation.

Inductive ClientError : Type :=
| ServerTimeout
| BadResponse (e : Error)
| BadPublicKey
| IoError
| ValidationFailed (e : ValidationError)
| InvalidConfiguration
| DnsLookupFailed.

Record Measurement := mkMeasurement {
  meas_server : SocketAddr;
  meas_hostname : string;
  meas_public_key : option PublicKey;
  meas_request : Request;
  meas_response : Response;
  meas_rand_value : option bytes;
  meas_prior_response : option Response;
}.

(** [MeasurementBuilder]: the fields set so far. *)
Record MeasurementBuilder := mkBuilder {
  mb_server : option SocketAddr;
  mb_hostname : option string;
  mb_public_key : option PublicKey;
  mb_request : option Request;
  mb_response : option Response;
  mb_rand_value : option bytes;
  mb_prior_response : option Response;
}.

Definition MeasurementBuilder_new : MeasurementBuilder := mkBuilder None None None None None None None.
Definition mb_set_server (server : SocketAddr) (b : MeasurementBuilder) : MeasurementBuilder :=
  mkBuilder (Some server) (mb_hostname b) (mb_public_key b) (mb_request b) (mb_response b)
    (mb_rand_value b) (mb_prior_response b).
Definition mb_set_hostname (hostname : string) (b : MeasurementBuilder) : MeasurementBuilder :=
  mkBuilder (mb_server b) (Some hostname) (mb_public_key b) (mb_request b) (mb_response b)
    (mb_rand_value b) (mb_prior_response b).
Definition mb_set_public_key (public_key : option PublicKey) (b : MeasurementBuilder) : MeasurementBuilder :=
  mkBuilder (mb_server b) (mb_hostname b) public_key (mb_request b) (mb_response b)
    (mb_rand_value b) (mb_prior_response b).
Definition mb_set_request (request : Request) (b : MeasurementBuilder) : MeasurementBuilder :=
  mkBuilder (mb_server b) (mb_hostname b) (mb_public_key b) (Some request) (mb_response b)
    (mb_rand_value b) (mb_prior_response b).
Definition mb_set_response (response : Response) (b : MeasurementBuilder) : MeasurementBuilder :=
  mkBuilder (mb_server b) (mb_hostname b) (mb_public_key b) (mb_request b) (Some response)
    (mb_rand_value b) (mb_prior_response b).
Definition mb_set_rand_value (rand_value : option bytes) (b : MeasurementBuilder) : MeasurementBuilder :=
  mkBuilder (mb_server b) (mb_hostname b) (mb_public_key b) (mb_request b) (mb_response b)
    rand_value (mb_prior_response b).
Definition mb_set_prior_response (prior_response : option Response) (b : MeasurementBuilder) : MeasurementBuilder :=
  mkBuilder (mb_server b) (mb_hostname b) (mb_public_key b) (mb_request b) (mb_response b)
    (mb_rand_value b) prior_response.

(** [x.ok_or_else(|| e)] *)
Definition ok_or {E A} (x : option A) (e : E) : res E A := match x with Some a => Ok a | None => Err e end.

Definition builder_build (b : MeasurementBuilder) : res ClientError Measurement :=
  server ← ok_or (mb_server b) InvalidConfiguration;
  request ← ok_or (mb_request b) InvalidConfiguration;
  response ← ok_or (mb_response b) InvalidConfiguration;
  Ok (mkMeasurement server (default "unknown"%string (mb_hostname b)) (mb_public_key b) request response
        (mb_rand_value b) (mb_prior_response b)).

Definition midpoint (m : Measurement) : Z := srep_midpoint (resp_srep (meas_response m)).
Definition radius (m : Measurement) : Z := srep_radius (resp_srep (meas_response m)).

Record CausalityViolation := mkViolation {
  measurement_i : Measurement;
  measurement_j : Measurement;
  lower_bound_i : Z;
  upper_bound_j : Z;
}.

Section causality.
Context {P : Profile}.

Definition CausalityViolation_new {E} (mi mj : Measurement) : res E CausalityViolation :=
  lower_bound_i ← u64_sub (midpoint mi) (radius mi);
  upper_bound_j ← u64_add (midpoint mj) (radius mj);
  if negb (upper_bound_j <? lower_bound_i)%Z then Panic
  else Ok (mkViolation mi mj lower_bound_i upper_bound_j).

(** [for i in lo..lo + n { body }] over an accumulator *)
Fixpoint for_range {E A} (n lo : nat) (body : nat -> A -> res E A) (acc : A) : res E A :=
  match n with
  | O => Ok acc
  | S n' => acc' ← body lo acc; for_range n' (S lo) body acc'
  end.

(** The body of the two loops. *)
Definition check_pair {E} (measurements : list Measurement) (i j : nat)
    (violations : list CausalityViolation) : res E (list CausalityViolation) :=
  mi ← index measurements i;
  lower_bound_i ← u64_sub (midpoint mi) (radius mi);
  mj ← index measurements j;
  upper_bound_j ← u64_add (midpoint mj) (radius mj);
  if (upper_bound_j <? lower_bound_i)%Z then
    violation ← CausalityViolation_new mi mj; Ok (violations ++ [violation])
  else Ok violations.

Definition validate_causality {E} (measurements : list Measurement) : res E (list CausalityViolation) :=
  if length measurements <? 2 then Ok []
  else for_range (length measurements) 0 (fun i =>
    for_range (length measurements - (i + 1)) (i + 1) (check_pair measurements i)) [].

(** ** Specification *)

(** A measurement whose interval does not leave the range of [u64]. *)
Definition in_range (m : Measurement) : Prop :=
  (0 <= radius m <= midpoint m)%Z /\ (midpoint m + radius m <= u64_max)%Z.

(** The violation of a pair, if it is one: [MIDP_i - RADI_i > MIDP_j + RADI_j]. *)
Definition pair_violation (mi mj : Measurement) : option CausalityViolation :=
  let lower := (midpoint mi - radius mi)%Z in
  let upper := (midpoint mj + radius mj)%Z in
  if (upper <? lower)%Z then Some (mkViolation mi mj lower upper) else None.

(** All violations, by pairs in order. *)
Fixpoint violations_of (ms : list Measurement) : list CausalityViolation :=
  match ms with
  | [] => []
  | mi :: ms' => omap (pair_violation mi) ms' ++ violations_of ms'
  end.

Lemma CausalityViolation_new_ok {E} mi mj v : in_range mi -> in_range mj ->
  pair_violation mi mj = Some v -> CausalityViolation_new (E := E) mi mj = Ok v.
Proof.
  intros [Hi _] [_ Hj]. unfold pair_violation, CausalityViolation_new, u64_sub, u64_add.
  destruct (Z.ltb_spec (midpoint mj + radius mj) (midpoint mi - radius mi)) as [Hlt|]; [|done].
  intros [= <-]. rewrite (proj2 (Z.leb_le _ _)) by lia. rewrite (proj2 (Z.leb_le _ _)) by lia.
  cbn [mbind res_bind]. by rewrite (proj2 (Z.ltb_lt _ _) Hlt).
Qed.

Lemma check_pair_ok {E} ms i j mi mj acc : ms !! i = Some mi -> ms !! j = Some mj ->
  in_range mi -> in_range mj ->
  check_pair (E := E) ms i j acc = Ok (acc ++ option_list (pair_violation mi mj)).
Proof.
  intros Hi Hj Hri Hrj. pose proof (CausalityViolation_new_ok (E := E) mi mj) as Hn.
  unfold check_pair, index. rewrite Hi, Hj. cbn [mbind res_bind].
  assert (u64_sub (E := E) (midpoint mi) (radius mi) = Ok (midpoint mi - radius mi)%Z) as ->.
  { unfold u64_sub. by rewrite (proj2 (Z.leb_le _ _)) by apply Hri. }
  assert (u64_add (E := E) (midpoint mj) (radius mj) = Ok (midpoint mj + radius mj)%Z) as ->.
  { unfold u64_add. by rewrite (proj2 (Z.leb_le _ _)) by apply Hrj. }
  cbn [mbind res_bind]. revert Hn. unfold pair_violation.
  destruct (Z.ltb_spec (midpoint mj + radius mj) (midpoint mi - radius mi)) as [Hlt|]; cbn [option_list].
  - intros Hn. by rewrite (Hn _ Hri Hrj eq_refl).
  - intros _. by rewrite app_nil_r.
Qed.

(** A loop over the indices of the end [suf] of a list. *)
Lemma for_range_suffix {E A B} (f : A -> list B) (body : nat -> list B -> res E (list B)) :
  forall (suf : list A) lo acc,
  (forall k x acc, suf !! k = Some x -> body (lo + k) acc = Ok (acc ++ f x)) ->
  for_range (length suf) lo body acc = Ok (acc ++ concat (map f suf)).
Proof.
  induction suf as [|x suf IH]; intros lo acc Hb; cbn [length for_range map concat]; [by rewrite app_nil_r|].
  rewrite <-(Nat.add_0_r lo), (Hb 0 x) by done. cbn [mbind res_bind]. rewrite Nat.add_0_r, IH.
  - by rewrite app_assoc.
  - intros k y acc' Hk. rewrite Nat.add_succ_comm. by apply Hb.
Qed.

Lemma omap_concat {A B} (f : A -> option B) l : concat (map (fun x => option_list (f x)) l) = omap f l.
Proof. induction l as [|x l IH]; cbn; [done|]. rewrite IH. by destruct (f x). Qed.

Lemma causality_rows {E} ms : Forall in_range ms -> forall suf pre acc, ms = pre ++ suf ->
  for_range (length suf) (length pre) (fun i =>
    for_range (length ms - (i + 1)) (i + 1) (check_pair (E := E) ms i)) acc = Ok (acc ++ violations_of suf).
Proof.
  intros Hr. induction suf as [|mi suf IH]; intros pre acc Hms; cbn [length for_range violations_of];
    [by rewrite app_nil_r|].
  assert (ms !! length pre = Some mi) as Hi by (rewrite Hms; by apply list_lookup_middle).
  replace (length ms - (length pre + 1)) with (length suf) by (rewrite Hms, length_app; cbn; lia).
  rewrite (for_range_suffix (fun mj => option_list (pair_violation mi mj))).
  - cbn [mbind res_bind]. rewrite omap_concat. specialize (IH (pre ++ [mi])).
    rewrite length_app, Nat.add_1_r in IH. rewrite IH by (by rewrite Hms, <-app_assoc). by rewrite app_assoc.
  - intros k mj acc' Hk.
    assert (ms !! (length pre + 1 + k) = Some mj) as Hj.
    { rewrite Hms, lookup_app_r by lia. by replace (length pre + 1 + k - length pre) with (S k) by lia. }
    apply check_pair_ok; [done|done|..]; by eapply Forall_lookup_1.
Qed.

Lemma violations_of_pairs ms v :
  v ∈ violations_of ms <->
  exists i j mi mj, i < j /\ ms !! i = Some mi /\ ms !! j = Some mj /\ pair_violation mi mj = Some v.
Proof.
  induction ms as [|m ms IH]; cbn [violations_of].
  { split; [by intros ?%not_elem_of_nil|]. intros (i & j & mi & mj & _ & Hi & _). by rewrite lookup_nil in Hi. }
  rewrite elem_of_app, list_elem_of_omap, IH. split.
  - intros [(mj & [j Hj]%list_elem_of_lookup & Hv)|(i & j & mi & mj & Hij & Hi & Hj & Hv)].
    + exists 0, (S j), m, mj. split_and!; [lia|done|done|done].
    + exists (S i), (S j), mi, mj. split_and!; [lia|done|done|done].
  - intros (i & j & mi & mj & Hij & Hi & Hj & Hv). destruct j as [|j]; [lia|]. cbn in Hj.
    destruct i as [|i]; cbn in Hi.
    + injection Hi as ->. left. exists mj. split; [by eapply list_elem_of_lookup_2|done].
    + right. exists i, j, mi, mj. split_and!; [lia|done|done|done].
Qed.

Lemma validate_causality_violations {E} (ms : list Measurement) :
  Forall in_range ms -> validate_causality (E := E) ms = Ok (violations_of ms).
Proof.
  intros Hr. unfold validate_causality. destruct (Nat.ltb_spec (length ms) 2) as [Hlt|].
  - destruct ms as [|m [|]]; cbn in *; [done|done|lia].
  - by apply (causality_rows ms Hr ms [] []).
Qed.

(** C35: Causality over measurements in range.  If no interval leaves the range of
    [u64], [validate_causality] never panics and returns the violations in order:
    exactly the pairs [i < j] with [MIDP_i - RADI_i > MIDP_j + RADI_j], each with
    these two bounds. *)
Theorem validate_causality_ok {E} (ms : list Measurement) :
  Forall in_range ms ->
  validate_causality (E := E) ms = Ok (violations_of ms) /\
  forall v, v ∈ violations_of ms <->
    exists i j mi mj, i < j /\ ms !! i = Some mi /\ ms !! j = Some mj /\ pair_violation mi mj = Some v.
Proof.
  intros Hr. split; [by apply validate_causality_violations|apply violations_of_pairs].
Qed.

(** The lower bound underflows.  If the first of two measurements has a radius
    larger than its midpoint (its interval reaches back before the epoch, so it can
    violate nothing), the development build panics, and the release build reports a
    violation with a lower bound near [2^64], unless the second measurement's own
    upper bound is as large. *)
Theorem causality_underflow {E} (m1 m2 : Measurement) :
  (0 <= midpoint m1 < radius m1)%Z -> is_u32 (radius m1) -> (0 <= midpoint m2)%Z -> (0 <= radius m2)%Z ->
  (midpoint m2 + radius m2 < 2 ^ 64 - 2 ^ 32)%Z ->
  violations_of [m1; m2] = [] /\
  validate_causality (E := E) [m1; m2] =
    if debug_build then Panic
    else Ok [mkViolation m1 m2 (midpoint m1 - radius m1 + 2 ^ 64) (midpoint m2 + radius m2)].
Proof.
  intros H1 Hr1 Hm2 Hr2 H2. unfold is_u32 in Hr1. split.
  { cbn. unfold pair_violation. by rewrite (proj2 (Z.ltb_ge _ _)) by lia. }
  cbn [validate_causality length Nat.ltb Nat.leb Nat.sub Nat.add for_range].
  unfold validate_causality. change (length [m1; m2] <? 2) with false. cbn [length Nat.sub Nat.add for_range].
  unfold check_pair at 1, index. cbn [lookup list_lookup mbind res_bind].
  assert (u64_sub (E := E) (midpoint m1) (radius m1) =
    if debug_build then Panic else Ok (midpoint m1 - radius m1 + 2 ^ 64)%Z) as Hs.
  { unfold u64_sub. rewrite (proj2 (Z.leb_gt _ _)) by lia. destruct debug_build; [done|]. f_equal.
    rewrite <-(Z.mod_add _ 1) by done. apply Z.mod_small. lia. }
  assert (u64_add (E := E) (midpoint m2) (radius m2) = Ok (midpoint m2 + radius m2)%Z) as Ha.
  { unfold u64_add, u64_max. by rewrite (proj2 (Z.leb_le _ _)) by lia. }
  rewrite Hs, Ha. destruct debug_build eqn:Hd; cbn [mbind res_bind]; [done|].
  assert ((midpoint m2 + radius m2 <? midpoint m1 - radius m1 + 2 ^ 64)%Z = true) as Hlt by (apply Z.ltb_lt; lia).
  unfold CausalityViolation_new. rewrite Hs, Ha. cbn [mbind res_bind]. by rewrite !Hlt.
Qed.
End causality.

(** ** Examples *)

Definition sample_measurement (midp radi : Z) : Measurement :=
  mkMeasurement (V4 0 2002) "unknown"%string None (new_draft14 (mkFixed (zeroes 32)))
    (set_srep Response_default (set_radi (set_midp sample_srep midp) radi)) None None.

Lemma validate_causality_ok_witness :
  let ms := [sample_measurement 100 5; sample_measurement 50 5] in
  Forall in_range ms /\
  validate_causality (P := false) (E := unit) ms =
    Ok [mkViolation (sample_measurement 100 5) (sample_measurement 50 5) 95 55].
Proof.
  intros ms.
  assert (Forall in_range ms) as Hr
    by (repeat constructor; unfold midpoint, radius, u64_max; cbn; lia).
  split; [exact Hr|]. exact (proj1 (validate_causality_ok (P := false) ms Hr)).
Defined.

Lemma causality_underflow_witness :
  let ms := [sample_measurement 0 10; sample_measurement 1000 10] in
  violations_of ms = [] /\
  validate_causality (P := false) (E := unit) ms =
    Ok [mkViolation (sample_measurement 0 10) (sample_measurement 1000 10) (2 ^ 64 - 10) 1010] /\
  validate_causality (P := true) (E := unit) ms = Panic.
Proof.
  intros ms.
  destruct (causality_underflow (P := false) (E := unit) (sample_measurement 0 10) (sample_measurement 1000 10))
    as [H1 H2]; [unfold is_u32, midpoint, radius; cbn; lia..|].
  destruct (causality_underflow (P := true) (E := unit) (sample_measurement 0 10) (sample_measurement 1000 10))
    as [_ H3]; [unfold is_u32, midpoint, radius; cbn; lia..|].
  split; [exact H1|]. split; [exact H2|exact H3].
Defined.
