(* ===== verification/Requests.v ===== *)
(** * Collecting requests (crates/roughenough-server/src/requests.rs, network.rs)

    [RequestHandler] sorts datagrams by length and content and queues the good
    ones; [NetworkHandler] reads up to a batch of them from a socket.  A socket is
    the list of the outcomes its next reads have; a read of the empty list would
    block.  Sends take their outcomes from a list of booleans, and succeed when it
    is exhausted. *)
From S2P Require Import Prelude Errors Cursor Wire Tags FixedTags Versions Request Response Merkle.
From S2P Require Import Crypto Keys Metrics Responses.

Section requests.
Context {C : CryptoLib} {profile : Profile} {B : Type} `{!SeedBackend B} {Addr : Type}.

Abbreviation ResponseHandler := (ResponseHandler (B := B) (Addr := Addr)).

Record RequestHandler := mkRequestHandler {
  responder : ResponseHandler;
  rq_metrics : RequestMetrics;
}.

Definition RequestHandler_new (handler : ResponseHandler) : RequestHandler :=
  mkRequestHandler handler RequestMetrics_default.

(** [self.metrics.num_*_requests += 1] *)
Definition count_ok (m : RequestMetrics) : RequestMetrics :=
  mkReqMetrics (S (num_ok_requests m)) (num_bad_requests m) (num_runt_requests m) (num_jumbo_requests m).
Definition count_bad (m : RequestMetrics) : RequestMetrics :=
  mkReqMetrics (num_ok_requests m) (S (num_bad_requests m)) (num_runt_requests m) (num_jumbo_requests m).
Definition count_runt (m : RequestMetrics) : RequestMetrics :=
  mkReqMetrics (num_ok_requests m) (num_bad_requests m) (S (num_runt_requests m)) (num_jumbo_requests m).
Definition count_jumbo (m : RequestMetrics) : RequestMetrics :=
  mkReqMetrics (num_ok_requests m) (num_bad_requests m) (num_runt_requests m) (S (num_jumbo_requests m)).

Definition collect_request {E} (h : RequestHandler) (request_bytes : bytes) (src : Addr)
    : res E RequestHandler :=
  if length request_bytes <? REQUEST_SIZE then
    Ok (mkRequestHandler (responder h) (count_runt (rq_metrics h)))
  else if REQUEST_SIZE <? length request_bytes then
    Ok (mkRequestHandler (responder h) (count_jumbo (rq_metrics h)))
  else
    match from_frame (A := Request) (new request_bytes) with
    | (Ok request, c) =>
        responder' ← add_request (responder h) (data c) request src;
        Ok (mkRequestHandler responder' (count_ok (rq_metrics h)))
    | (Err _, c) => Ok (mkRequestHandler (responder h) (count_bad (rq_metrics h)))
    | (Panic, _) => Panic
    end.

(** [generate_responses]: the list is the calls of the callback. *)
Definition generate_responses {E} (w : World) (h : RequestHandler)
    : res E (RequestHandler * list (Addr * bytes)) :=
  r ← process_responses w (responder h);
  Ok (mkRequestHandler (rh_clear r.1) (rq_metrics h), r.2).

Definition rq_replace_online_key {E} (w : World) (h : RequestHandler) (signer : bytes) : res E RequestHandler :=
  responder' ← replace_online_key w (responder h) signer;
  Ok (mkRequestHandler responder' (rq_metrics h)).

Definition rq_public_key {E} (h : RequestHandler) : res E PublicKey := rh_public_key (responder h).

Definition rq_reset_metrics (h : RequestHandler) : RequestHandler :=
  mkRequestHandler (rh_reset_metrics (responder h)) RequestMetrics_default.

Definition rq_response_metrics (h : RequestHandler) : ResponseMetrics := rh_metrics (responder h).

(** ** The network handler *)

Inductive recv_outcome : Type :=
| Received (datagram : bytes) (src : Addr)
| WouldBlock
| RecvError.

Inductive CollectResult : Type := Empty | MoreData.

Record NetworkHandler := mkNetworkHandler { nh_batch_size : nat; nh_metrics : NetworkMetrics }.

Definition NetworkHandler_new (batch_size : nat) : NetworkHandler :=
  mkNetworkHandler batch_size NetworkMetrics_default.

Definition RECV_BUFFER_SIZE : nat := 1024.

Definition count_wouldblock (m : NetworkMetrics) : NetworkMetrics :=
  mkNetwork (S (num_recv_wouldblock m)) (num_successful_sends m) (num_failed_sends m)
    (num_failed_polls m) (num_failed_recvs m).
Definition count_failed_recv (m : NetworkMetrics) : NetworkMetrics :=
  mkNetwork (num_recv_wouldblock m) (num_successful_sends m) (num_failed_sends m)
    (num_failed_polls m) (S (num_failed_recvs m)).
Definition count_send (ok : bool) (m : NetworkMetrics) : NetworkMetrics :=
  if ok then mkNetwork (num_recv_wouldblock m) (S (num_successful_sends m)) (num_failed_sends m)
               (num_failed_polls m) (num_failed_recvs m)
  else mkNetwork (num_recv_wouldblock m) (num_successful_sends m) (S (num_failed_sends m))
         (num_failed_polls m) (num_failed_recvs m).
Definition record_failed_poll (n : NetworkHandler) : NetworkHandler :=
  let m := nh_metrics n in
  mkNetworkHandler (nh_batch_size n)
    (mkNetwork (num_recv_wouldblock m) (num_successful_sends m) (num_failed_sends m)
      (S (num_failed_polls m)) (num_failed_recvs m)).
Definition reset_network_metrics (n : NetworkHandler) : NetworkHandler :=
  mkNetworkHandler (nh_batch_size n) NetworkMetrics_default.

(** [sock.recv_from(&mut buf)]: what does not fit the buffer is dropped. *)
Definition recv_from (sock : list recv_outcome) : recv_outcome * list recv_outcome :=
  match sock with
  | [] => (WouldBlock, [])
  | Received d src :: sock' => (Received (take RECV_BUFFER_SIZE d) src, sock')
  | o :: sock' => (o, sock')
  end.

(** [for _ in 0..self.batch_size { .. }] with the callback's state threaded. *)
Fixpoint collect_loop {E S} (n : nat) (callback : S -> bytes -> Addr -> res E S) (sock : list recv_outcome)
    (m : NetworkMetrics) (s : S) : res E (CollectResult * list recv_outcome * NetworkMetrics * S) :=
  match n with
  | O => Ok (MoreData, sock, m, s)
  | Datatypes.S n' =>
      match recv_from sock with
      | (Received d src, sock') => s' ← callback s d src; collect_loop n' callback sock' m s'
      | (WouldBlock, sock') => Ok (Empty, sock', count_wouldblock m, s)
      | (RecvError, sock') => Ok (MoreData, sock', count_failed_recv m, s)
      end
  end.

Definition nh_collect_requests {E S} (n : NetworkHandler) (callback : S -> bytes -> Addr -> res E S)
    (sock : list recv_outcome) (s : S) : res E (CollectResult * list recv_outcome * NetworkHandler * S) :=
  r ← collect_loop (nh_batch_size n) callback sock (nh_metrics n) s;
  let '(result, sock', m, s') := r in
  Ok (result, sock', mkNetworkHandler (nh_batch_size n) m, s').

(** [send_response]: the outcome of [sock.send_to] is the head of [sends]. *)
Definition send_response (n : NetworkHandler) (ok : bool) : NetworkHandler :=
  mkNetworkHandler (nh_batch_size n) (count_send ok (nh_metrics n)).
Fixpoint send_responses (n : NetworkHandler) (sends : list bool) (frames : list (Addr * bytes)) : NetworkHandler :=
  match frames with
  | [] => n
  | _ :: fs => send_responses (send_response n (default true (head sends))) (tail sends) fs
  end.

(** ** What is accepted *)

(** The request a datagram of the right size holds. *)
Definition accept (d : bytes) : option Request :=
  if length d =? REQUEST_SIZE then
    match from_frame (A := Request) (new d) with (Ok r, _) => Some r | _ => None end
  else None.

(** The counter a datagram increments. *)
Definition count_datagram (d : bytes) : RequestMetrics -> RequestMetrics :=
  if length d <? REQUEST_SIZE then count_runt
  else if REQUEST_SIZE <? length d then count_jumbo
  else match accept d with Some _ => count_ok | None => count_bad end.

(** The leaf that a request contributes to the batch's Merkle tree. *)
Definition leaf_data (v : ProtocolVersion) (d : bytes) (r : Request) : bytes :=
  match v with RfcDraft08 => fixed_bytes (req_nonc r) | RfcDraft14 => d end.

(** An accepted datagram with its request and sender. *)
Record Accepted := mkAccepted { acc_datagram : bytes; acc_request : Request; acc_src : Addr }.

Definition accept_from (ds : bytes * Addr) : option Accepted :=
  match accept ds.1 with Some r => Some (mkAccepted ds.1 r ds.2) | None => None end.

Context {CL : CryptoLaws C} `{!LawfulSeedBackend B}.
#[local] Set Default Proof Using "Type*".

(** The pending requests are those of [batch]. *)
Record pending_inv (sk : bytes) (h : ResponseHandler) (batch : list Accepted) : Prop := {
  pi_handler : handler_inv sk h (map (fun a => leaf_data (rh_version h) (acc_datagram a) (acc_request a)) batch);
  pi_requests : rh_requests h = map (fun a => mkPending (acc_request a) (acc_src a)) batch;
  pi_accepted : Forall (fun a => accept (acc_datagram a) = Some (acc_request a)) batch;
}.

Lemma parse_cases (bs : bytes) :
  match from_frame (A := Request) (new bs) with
  | (Ok r, c) => data c = bs /\ wf (A := FixedTag 32) (req_nonc r)
  | (Err _, c) => data c = bs
  | (Panic, _) => False
  end.
Proof using Type.
  change (new bs) with (at_cursor [] bs).
  pose proof (from_frame_parses _ Request_parses [] bs) as H.
  destruct (from_frame (at_cursor [] bs)) as [[r|e|] c]; [|done|done].
  destruct H as (b & rest & -> & -> & len & msg & _ & _ & Hr & _). done.
Qed.

(** A datagram is counted once, and queued exactly when it is accepted. *)
Lemma collect_request_spec {E} sk h batch d src :
  pending_inv sk (responder h) batch -> length batch < rh_batch_size (responder h) ->
  exists h', collect_request (E := E) h d src = Ok h' /\
    rq_metrics h' = count_datagram d (rq_metrics h) /\
    pending_inv sk (responder h') (batch ++ option_list (accept_from (d, src))) /\
    same_config (responder h) (responder h') /\ rh_metrics (responder h') = rh_metrics (responder h).
Proof.
  intros Hinv Hlt. unfold collect_request, count_datagram, accept_from, accept. cbn [fst snd].
  destruct (Nat.ltb_spec (length d) REQUEST_SIZE).
  { destruct (Nat.eqb_spec (length d) REQUEST_SIZE); [lia|]. rewrite app_nil_r. by eexists. }
  destruct (Nat.ltb_spec REQUEST_SIZE (length d)).
  { destruct (Nat.eqb_spec (length d) REQUEST_SIZE); [lia|]. rewrite app_nil_r. by eexists. }
  destruct (Nat.eqb_spec (length d) REQUEST_SIZE) as [Hd|]; [|lia].
  pose proof (parse_cases d) as Hp. destruct (from_frame (new d)) as [[r|e|] c] eqn:Hf; [|
    by rewrite app_nil_r; eexists|done].
  destruct Hp as [-> Hn]. destruct Hinv as [Hh Hr Ha].
  destruct (add_request_inv (E := E) sk (responder h) _ d r src Hh) as
    (h' & leaf & -> & Hh' & Hleaf & Hr' & Hsc & Hm); [by rewrite length_map|done|].
  cbn [mbind res_bind option_list]. eexists. split; [reflexivity|]. split_and!; try done. split; cbn [responder].
  - rewrite (sc_version _ _ Hsc), map_app. cbn [map acc_datagram acc_request]. unfold leaf_data at 2.
    destruct (rh_version (responder h)); by subst leaf.
  - rewrite Hr', Hr, map_app. done.
  - apply Forall_app. split; [done|]. apply Forall_cons. split; [|by apply Forall_nil].
    cbn. unfold accept. rewrite Hd. change (REQUEST_SIZE =? REQUEST_SIZE) with true. by rewrite Hf.
Qed.

Lemma same_config_refl (h : ResponseHandler) : same_config h h.
Proof using Type. done. Qed.

Lemma same_config_trans (h1 h2 h3 : ResponseHandler) :
  same_config h1 h2 -> same_config h2 h3 -> same_config h1 h3.
Proof using Type. intros [] []. split; congruence. Qed.

(** The datagrams that a batch of [n] reads delivers, and where it stops. *)
Fixpoint taken (n : nat) (sock : list recv_outcome) : list (bytes * Addr) :=
  match n with
  | O => []
  | Datatypes.S n' =>
      match recv_from sock with
      | (Received d src, sock') => (d, src) :: taken n' sock'
      | _ => []
      end
  end.
Fixpoint stopped (n : nat) (sock : list recv_outcome) : CollectResult * list recv_outcome :=
  match n with
  | O => (MoreData, sock)
  | Datatypes.S n' =>
      match recv_from sock with
      | (Received _ _, sock') => stopped n' sock'
      | (WouldBlock, sock') => (Empty, sock')
      | (RecvError, sock') => (MoreData, sock')
      end
  end.

Lemma taken_size n : forall sock, length (taken n sock) <= n.
Proof using Type.
  induction n as [|n IH]; intros sock; cbn; [done|].
  destruct (recv_from sock) as [[d src| |] sock']; cbn; [|lia|lia]. specialize (IH sock'). lia.
Qed.

Lemma taken_clipped n : forall sock, Forall (fun ds => length ds.1 <= RECV_BUFFER_SIZE) (taken n sock).
Proof using Type.
  induction n as [|n IH]; intros sock; cbn [taken]; [by apply Forall_nil|].
  destruct sock as [|[d src| |] sock]; cbn [recv_from]; try by apply Forall_nil.
  apply Forall_cons. split; [|done]. cbn [fst]. rewrite length_take. lia.
Qed.

Definition count_datagrams (ds : list (bytes * Addr)) (m : RequestMetrics) : RequestMetrics :=
  fold_left (fun m d => count_datagram d.1 m) ds m.

Lemma collect_loop_spec {E} sk n : forall sock m h batch,
  pending_inv sk (responder h) batch -> length batch + n <= rh_batch_size (responder h) ->
  exists m' h', collect_loop (E := E) n collect_request sock m h =
      Ok ((stopped n sock).1, (stopped n sock).2, m', h') /\
    pending_inv sk (responder h') (batch ++ omap accept_from (taken n sock)) /\
    rq_metrics h' = count_datagrams (taken n sock) (rq_metrics h) /\
    same_config (responder h) (responder h') /\ rh_metrics (responder h') = rh_metrics (responder h).
Proof.
  induction n as [|n IH]; intros sock m h batch Hinv Hroom; cbn [collect_loop taken stopped].
  { eexists _, _. split; [reflexivity|]. cbn. by rewrite app_nil_r. }
  destruct (recv_from sock) as [[d src| |] sock'] eqn:Hs.
  2, 3: eexists _, _; split; [reflexivity|]; cbn; by rewrite app_nil_r.
  destruct (collect_request_spec (E := E) sk h batch d src Hinv) as (h1 & -> & Hm1 & Hinv1 & Hsc1 & Hr1); [lia|].
  cbn [mbind res_bind].
  destruct (IH sock' m h1 _ Hinv1) as (m' & h' & -> & Hinv' & Hm' & Hsc' & Hr').
  { rewrite length_app, (sc_batch_size _ _ Hsc1).
    assert (length (option_list (accept_from (d, src))) <= 1) by (destruct (accept_from _); cbn; lia). lia. }
  eexists _, _. split; [reflexivity|]. split_and!.
  - cbn [omap list_omap]. rewrite <-app_assoc in Hinv'. destruct (accept_from (d, src)); exact Hinv'.
  - rewrite Hm', Hm1. reflexivity.
  - by eapply same_config_trans.
  - congruence.
Qed.

(** Every counter but the one for jumbo requests. *)
Lemma count_datagrams_total ds : forall m, Forall (fun d => length d.1 <= RECV_BUFFER_SIZE) ds ->
  let m' := count_datagrams ds m in
  num_jumbo_requests m' = num_jumbo_requests m /\
  num_ok_requests m' = num_ok_requests m + length (omap accept_from ds) /\
  num_ok_requests m' + num_bad_requests m' + num_runt_requests m' =
    num_ok_requests m + num_bad_requests m + num_runt_requests m + length ds.
Proof using Type.
  induction ds as [|[d src] ds IH]; intros m Hf; [cbn; lia|].
  apply Forall_cons in Hf as [Hd Hf]. cbn [fst] in Hd. specialize (IH (count_datagram d m) Hf).
  cbn zeta in *. change (count_datagrams ((d, src) :: ds) m) with (count_datagrams ds (count_datagram d m)).
  destruct IH as (IH1 & IH2 & IH3). cbn [omap list_omap length]. rewrite IH1, IH3, IH2.
  unfold count_datagram, accept_from, accept. cbn [fst snd].
  unfold RECV_BUFFER_SIZE in Hd. unfold REQUEST_SIZE.
  destruct (Nat.ltb_spec (length d) 1024), (Nat.eqb_spec (length d) 1024), (Nat.ltb_spec 1024 (length d)); try lia.
  - cbn [num_jumbo_requests num_ok_requests num_bad_requests num_runt_requests count_runt]. lia.
  - destruct (from_frame (new d)) as [[r|err|] c];
      cbn [num_jumbo_requests num_ok_requests num_bad_requests num_runt_requests count_ok count_bad length]; lia.
Qed.

Definition batch_leaves (v : ProtocolVersion) (batch : list Accepted) : list bytes :=
  map (fun a => leaf_data v (acc_datagram a) (acc_request a)) batch.

(** A batch is answered in order and the handler is empty again. *)
Lemma generate_responses_spec {E} sk w h batch :
  pending_inv sk (responder h) batch -> world_wf w -> metrics_room (responder h) ->
  exists h' frames, generate_responses (E := E) w h = Ok (h', frames) /\
    pending_inv sk (responder h') [] /\ same_config (responder h) (responder h') /\
    rq_metrics h' = rq_metrics h /\ length frames = length batch /\
    (batch <> [] ->
      batch_replies sk w (responder h) (batch_leaves (rh_version (responder h)) batch) frames) /\
    batch_sizes (rq_response_metrics h') = tally_size (batch_sizes (rq_response_metrics h)) (length batch).
Proof.
  intros [Hh Hr Ha] Hw Hroom. unfold generate_responses. destruct batch as [|a batch].
  - unfold process_responses. rewrite Hr. cbn [map mbind res_bind fst snd].
    eexists _, []. split; [reflexivity|]. split; [|done].
    destruct Hh as [Hb _ _ [rest Ht] Hp Hbuf Hm _ Hso Hk]. split; [|done|by apply Forall_nil].
    split; try done; [cbn; lia|]. change (levels (rh_tree (responder _))) with (map (fun _ : list bytes => @nil bytes) (levels (rh_tree (responder h)))). rewrite Ht. by eexists.
  - destruct (process_responses_spec (E := E) sk w (responder h) _ Hh Hw Hroom) as
      (h' & frames & -> & Hrep & Hh' & Hsc & Hbs); [rewrite length_map; cbn; lia|].
    cbn [mbind res_bind fst snd]. eexists _, frames. split; [reflexivity|].
    split_and!; try done; [|by rewrite length_map in Hbs]. unfold batch_replies in Hrep. rewrite <-(length_map (fun a => mkPending (acc_request a) (acc_src a)) (a :: batch)), <-Hr.
    destruct (rh_version (responder h)); destruct Hrep as (common & _ & Hans & _); exact Hans.
Qed.

Lemma generate_responses_overflow {E} sk w h batch :
  debug_build = true -> pending_inv sk (responder h) batch ->
  size_room (batch_sizes (rq_response_metrics h)) (length batch) = false ->
  generate_responses (E := E) w h = Panic.
Proof using Type.
  intros Hd [Hh _ _] Hroom. unfold generate_responses.
  rewrite (process_responses_overflow (E := E) sk w (responder h) _ Hd Hh); [done|by rewrite length_map].
Qed.

(** C15: Collecting a batch.  From an idle handler, a call of [collect_requests] on
    any socket contents never panics, in either profile.  The pending requests are
    the accepted datagrams among those read, in order and at most [batch_size] of
    them; each datagram read is counted once, as ok exactly when it is queued.
    Because the receive buffer has the size of a request, none is ever counted as
    jumbo: a longer datagram arrives cut to 1024 bytes. *)
Theorem collect_requests_batch {E} sk n h sock :
  pending_inv sk (responder h) [] -> nh_batch_size n = rh_batch_size (responder h) ->
  let ds := taken (nh_batch_size n) sock in
  exists n' h', nh_collect_requests (E := E) n collect_request sock h =
      Ok ((stopped (nh_batch_size n) sock).1, (stopped (nh_batch_size n) sock).2, n', h') /\
    pending_inv sk (responder h') (omap accept_from ds) /\
    length (rh_requests (responder h')) <= nh_batch_size n /\
    num_jumbo_requests (rq_metrics h') = num_jumbo_requests (rq_metrics h) /\
    num_ok_requests (rq_metrics h') = num_ok_requests (rq_metrics h) + length (rh_requests (responder h')) /\
    num_ok_requests (rq_metrics h') + num_bad_requests (rq_metrics h') + num_runt_requests (rq_metrics h') =
      num_ok_requests (rq_metrics h) + num_bad_requests (rq_metrics h) + num_runt_requests (rq_metrics h) + length ds.
Proof.
  intros Hinv Hb ds. unfold nh_collect_requests.
  destruct (collect_loop_spec (E := E) sk (nh_batch_size n) sock (nh_metrics n) h [] Hinv) as
    (m' & h' & -> & Hinv' & Hm & Hsc & _); [cbn; lia|].
  cbn [mbind res_bind]. eexists _, h'. split; [reflexivity|]. cbn [app] in Hinv'.
  split; [exact Hinv'|]. rewrite Hm. rewrite (pi_requests _ _ _ Hinv'), length_map.
  pose proof (count_datagrams_total (taken (nh_batch_size n) sock) (rq_metrics h) (taken_clipped _ sock))
    as (H1 & H2 & H3).
  split_and!; try done. pose proof (taken_size (nh_batch_size n) sock).
  assert (forall l : list (bytes * Addr), length (omap accept_from l) <= length l) as Hom.
  { intros l. induction l as [|x l IH]; cbn -[accept_from]; [done|]. destruct (accept_from x); cbn -[accept_from]; lia. }
  specialize (Hom (taken (nh_batch_size n) sock)). subst ds. etransitivity; [exact Hom|done].
Qed.
End requests.

Lemma sample_handler_pending {Addr : Type} (v : ProtocolVersion) :
  exists h : RequestHandler (B := MemoryBackend) (Addr := Addr),
    pending_inv (Addr := Addr) sample_seed (responder h) [] /\
    rh_batch_size (responder h) = 64 /\ rh_version (responder h) = v.
Proof.
  destruct (ResponseHandler_new_inv (CL := toy_crypto_laws) (Addr := Addr) (E := unit) sample_seed
    (sample_world 1700000000) 64 (sample_source v) v (zeroes 32)) as (h & _ & Hh & Hb & Hr & Hv & _).
  - unfold MAX_BATCH_SIZE. lia.
  - apply sample_source_ok.
  - by apply sample_world_wf.
  - exists (RequestHandler_new h). split; [|by split]. split; [exact Hh|exact Hr|by apply Forall_nil].
Qed.

Lemma collect_requests_batch_witness :
  let sock := [Received [] 1; Received (zeroes 2000) 2; RecvError] in
  exists (h h' : RequestHandler (B := MemoryBackend) (Addr := nat)) n',
    nh_collect_requests (E := unit) (NetworkHandler_new 64)
      (collect_request (profile := true)) sock h =
      Ok (MoreData, [], n', h') /\
    num_jumbo_requests (rq_metrics h') = num_jumbo_requests (rq_metrics h).
Proof.
  intros sock. destruct (sample_handler_pending (Addr := nat) RfcDraft14) as (h & Hh & Hb & _).
  destruct (collect_requests_batch (CL := toy_crypto_laws) (profile := true) (E := unit) sample_seed
    (NetworkHandler_new 64) h sock Hh (eq_sym Hb)) as (n' & h' & Hc & _ & _ & Hj & _).
  exists h, h', n'. split; [exact Hc|exact Hj].
Defined.
