(* ===== verification/EndToEnd.v ===== *)
(** * Server against client

    What responses.rs sends for a batch is what validation.rs of the client
    accepts: the two sides meet only in the bytes of the frames. *)
From S2P Require Import Prelude Errors Cursor Wire Tags Header FixedTags Versions Path Cert Srep.
From S2P Require Import Request Response Merkle Crypto Keys Metrics Responses Requests Validation.

Section end_to_end.
Context {C : CryptoLib} {CL : CryptoLaws C} {profile : Profile}.
Context {B : Type} `{!SeedBackend B} `{!LawfulSeedBackend B} {Addr : Type}.
#[local] Set Default Proof Using "Type*".

(** The public key of the identity with seed [sk]. *)
Definition identity_key (sk : bytes) : PublicKey := mkFixed (ed_public sk).

(** A client with the long-term key [key] parses [frame], and validating it as the
    answer to [request] gives [out]. *)
Definition client_verdict14 (key : PublicKey) (request frame : bytes) (nonce : Nonce)
    (out : res ValidationError Z) : Prop :=
  exists r c, from_frame (A := Response) (new frame) = (Ok r, c) /\ resp_nonce r = nonce /\
    validate_draft14 (new_with_key key) request r frame = out.
Definition client_verdict08 (key : PublicKey) (request frame : bytes) (out : res ValidationError Z) : Prop :=
  exists r c, from_frame (A := ResponseDraft08) (new frame) = (Ok r, c) /\
    validate_draft08 (new_with_key key) request r frame = out.

(** The time is within the delegation. *)
Definition within (cert : Certificate) (t : Z) : Prop :=
  (min_time (cert_delegation cert) <= t <= max_time (cert_delegation cert))%Z.

Lemma normalize_root i d p : path_wf p ->
  root_from_paths sha512 i d (normalize p) = root_from_paths sha512 i d p.
Proof using Type. intros Hp. apply root_from_paths_equiv. by apply normalize_equiv. Qed.

(** The checks that hold of a reply whatever the time is. *)
Record reply14_checks (v : ResponseValidator) (request : bytes) (r : Response) (bs : bytes) : Prop := {
  rc_cert : cert_valid v (resp_cert r) (srep_version (resp_srep r));
  rc_vers : In (srep_version (resp_srep r)) (versions (srep_versions (resp_srep r)));
  rc_radius : srep_radius (resp_srep r) <> 0%Z;
  rc_root : root_from_paths sha512 (Z.to_nat (resp_index r)) request (resp_path r) =
    fixed_bytes (srep_merkle_root (resp_srep r));
  rc_signature : srep_valid r bs;
}.

Record reply08_checks (v : ResponseValidator) (request : bytes) (r : ResponseDraft08) (bs : bytes) : Prop := {
  rc8_cert : cert_valid v (resp08_cert r) RfcDraft08;
  rc8_radius : srep08_radius (resp08_srep r) <> 0%Z;
  rc8_nonce : FRAMED_NONCE_OFFSET + 32 <= length request;
  rc8_root : root_from_paths sha512 (Z.to_nat (resp08_index r)) (request_nonce request) (resp08_path r) =
    fixed_bytes (srep08_merkle_root (resp08_srep r));
  rc8_signature : srep_valid08 r bs;
}.

Lemma reply14_checked sk w (h : ResponseHandler (B := B) (Addr := Addr)) datas common i nonce d r :
  signed_batch14 sk w h datas common -> answer14 common datas i nonce d r ->
  reply14_checks (new_with_key (identity_key sk)) d (resp_normalize r) (frame_bytes (encode r)).
Proof.
  intros [Hroot Hmid Hrad Hver Hvers Hcert (signer & now & Hce & Hsig)] [Hw Hc Hn Hi Hs Hsg Hrc Hpath].
  split; cbn [resp_srep resp_cert resp_index resp_path resp_normalize].
  - intros key [= <-]. rewrite Hs, Hver, Hrc. apply Hce.
  - rewrite Hs, Hver, Hvers. by left.
  - by rewrite Hs, Hrad.
  - by rewrite normalize_root, Hi, Nat2Z.id, Hpath, Hs, Hroot by apply Hw.
  - exists (encode (resp_srep r)). split; [by apply (signed_slice_own r)|].
    cbn [resp_srep resp_cert resp_signature resp_normalize].
    rewrite Hs, Hver, Hsg, Hrc, (ce_key _ _ _ _ _ _ Hce). exact Hsig.
Qed.

Lemma reply08_checked sk w (h : ResponseHandler (B := B) (Addr := Addr)) datas common i request r :
  signed_batch08 sk w h datas common -> answer08 common datas i (request_nonce request) r ->
  FRAMED_NONCE_OFFSET + 32 <= length request ->
  reply08_checks (new_with_key (identity_key sk)) request (resp08_normalize r) (frame_bytes (encode r)).
Proof.
  intros [Hroot Hoff Hmid Hrad Hcert (signer & now & Hce & Hsig)] [Hw Hc Hi _ Hs Hsg Hrc Hpath] Hlen.
  split; cbn [resp08_srep resp08_cert resp08_index resp08_path resp08_normalize].
  - intros key [= <-]. rewrite Hrc. apply Hce.
  - by rewrite Hs, Hrad.
  - exact Hlen.
  - by rewrite normalize_root, Hi, Nat2Z.id, Hpath, Hs, Hroot by apply Hw.
  - exists (encode (resp08_srep r)). split; [by apply (signed_slice08_own r)|].
    cbn [resp08_srep resp08_cert resp08_signature resp08_normalize].
    rewrite Hs, Hsg, Hrc, (ce_key _ _ _ _ _ _ Hce). exact Hsig.
Qed.

(** The time decides: within the delegation the reply is accepted, outside it is
    refused for its midpoint. *)
Lemma reply14_verdict sk w (h : ResponseHandler (B := B) (Addr := Addr)) datas common i nonce d r :
  signed_batch14 sk w h datas common -> answer14 common datas i nonce d r ->
  let t := epoch_seconds w (ks_clock (rh_key_source h)) in
  exists r' c, from_frame (A := Response) (new (frame_bytes (encode r))) = (Ok r', c) /\ resp_nonce r' = nonce /\
    (within (rh_cert h) t ->
      validate_draft14 (new_with_key (identity_key sk)) d r' (frame_bytes (encode r)) = Ok t) /\
    (~ within (rh_cert h) t ->
      validate_draft14 (new_with_key (identity_key sk)) d r' (frame_bytes (encode r)) = Err InvalidMidpoint).
Proof.
  intros Hb Ha t. destruct (reply14_checked sk w h datas common i nonce d r Hb Ha) as [H1 H2 H3 H4 H5].
  destruct Hb as [_ Hmid _ _ _ Hcert _], Ha as [Hw Hc Hn _ Hs _ Hrc _].
  destruct (from_frame_Response r Hw Hc) as [c Hf]. exists (resp_normalize r), c. split_and!; [done|done| |].
  - intros Hwin. apply valid14_ok; [apply Hw|apply (cw_dele _ (rw_cert _ Hw))|].
    split; try done; cbn [resp_cert resp_srep resp_normalize]; [by rewrite Hrc, Hcert|by rewrite Hs, Hmid].
  - intros Hout. pose proof (validate_draft14_outcome (new_with_key (identity_key sk)) d (resp_normalize r)
      (frame_bytes (encode r)) (rw_header _ Hw) (cw_dele _ (rw_cert _ Hw))) as Ho.
    destruct (validate_draft14 _ _ _ _) as [m|e|]; [|f_equal|done].
    + destruct Ho as [_ _ Hd _ _ _ ->]. destruct Hout.
      cbn [resp_cert resp_srep resp_normalize] in Hd. by rewrite Hrc, Hcert, Hs, Hmid in Hd.
    + destruct Ho as [Hcause _], e; cbn in Hcause; try done; [|by destruct Hcause as [-> []]].
      by destruct Hcause as [[]|[]].
Qed.

Lemma reply08_verdict sk w (h : ResponseHandler (B := B) (Addr := Addr)) datas common i request r :
  signed_batch08 sk w h datas common -> answer08 common datas i (request_nonce request) r ->
  FRAMED_NONCE_OFFSET + 32 <= length request ->
  let t := epoch_seconds w (ks_clock (rh_key_source h)) in
  exists r' c, from_frame (A := ResponseDraft08) (new (frame_bytes (encode r))) = (Ok r', c) /\
    (within (rh_cert h) t ->
      validate_draft08 (new_with_key (identity_key sk)) request r' (frame_bytes (encode r)) = Ok t) /\
    (~ within (rh_cert h) t ->
      validate_draft08 (new_with_key (identity_key sk)) request r' (frame_bytes (encode r)) = Err InvalidMidpoint).
Proof.
  intros Hb Ha Hlen t. destruct (reply08_checked sk w h datas common i request r Hb Ha Hlen) as [H1 H2 H3 H4 H5].
  destruct Hb as [_ Hoff Hmid _ Hcert _], Ha as [Hw Hc _ _ Hs _ Hrc _].
  destruct (from_frame_Response08 r Hw Hc) as [c Hf]; [by rewrite Hs|].
  exists (resp08_normalize r), c. split_and!; [done| |].
  - intros Hwin. apply valid08_ok; [apply Hw|apply (cw_dele _ (r8_cert _ Hw))|].
    split; try done; cbn [resp08_cert resp08_srep resp08_normalize]; [by rewrite Hrc, Hcert|by rewrite Hs, Hmid].
  - intros Hout. pose proof (validate_draft08_outcome (new_with_key (identity_key sk)) request (resp08_normalize r)
      (frame_bytes (encode r)) (r8_header _ Hw) (cw_dele _ (r8_cert _ Hw))) as Ho.
    destruct (validate_draft08 _ _ _ _) as [m|e|]; [|f_equal|done].
    + destruct Ho as [_ Hd _ _ _ _ ->]. destruct Hout.
      cbn [resp08_cert resp08_srep resp08_normalize] in Hd. by rewrite Hrc, Hcert, Hs, Hmid in Hd.
    + destruct Ho as [Hcause _], e; cbn in Hcause; try done; [by destruct Hcause as [[]|[]]|].
      destruct Hcause. unfold FRAMED_NONCE_OFFSET in *. lia.
Qed.

Definition client_verdict (v : ProtocolVersion) (key : PublicKey) (a : Accepted (Addr := Addr)) (frame : bytes)
    (out : res ValidationError Z) : Prop :=
  match v with
  | RfcDraft14 => client_verdict14 key (acc_datagram a) frame (req_nonc (acc_request a)) out
  | RfcDraft08 => client_verdict08 key (acc_datagram a) frame out
  end.

(** A request the client of the version makes: the draft-08 client finds its nonce
    at a fixed place, behind a list of one version. *)
Definition suits (v : ProtocolVersion) (a : Accepted (Addr := Addr)) : Prop :=
  v = RfcDraft08 -> exists r, acc_request a = Draft08 r /\ length (versions (r08_version r)) = 1.

(** The version of the client that makes a request. *)
Definition request_version (r : Request) : ProtocolVersion :=
  match r with Draft08 _ => RfcDraft08 | Draft14 _ | Draft14Srv _ => RfcDraft14 end.

(** A request as the client of version [v] makes it: in the layout of that version,
    and with one version in its list if that is draft-08. *)
Definition made_by (v : ProtocolVersion) (a : Accepted (Addr := Addr)) : Prop :=
  request_version (acc_request a) = v /\ suits v a.

(** The parser of a client of version [v] reports an error. *)
Definition client_refuses (v : ProtocolVersion) (frame : bytes) : Prop :=
  match v with
  | RfcDraft14 => exists e c, from_frame (A := Response) (new frame) = (Err e, c)
  | RfcDraft08 => exists e c, from_frame (A := ResponseDraft08) (new frame) = (Err e, c)
  end.

(** The number of tags is the first field after the frame header: 7 in a draft-14
    reply and 6 in a draft-08 reply, so neither parser takes the other's. *)
Lemma frame_num_tags {N} (h : Header N) len rest :
  take 4 (drop 12 (to_be_bytes 8 FRAME_MAGIC ++ to_le_bytes 4 len ++ encode h ++ rest)) =
    to_le_bytes 4 (Z.of_nat N).
Proof using Type.
  rewrite app_assoc, drop_app_length' by (by rewrite length_app, length_to_be_bytes, length_to_le_bytes).
  cbn [encode Header_Encode]. rewrite <-app_assoc.
  by rewrite take_app_length' by (by rewrite length_to_le_bytes).
Qed.

Lemma reply14_refused r : client_refuses RfcDraft08 (frame_bytes (encode (A := Response) r)).
Proof using Type.
  unfold client_refuses. change (new ?d) with (at_cursor [] d).
  pose proof (from_frame_parses _ ResponseDraft08_parses [] (frame_bytes (encode r))) as Hp.
  destruct (from_frame (at_cursor [] _)) as [[r'|e|] c]; [|by exists e, c|done].
  destruct Hp as (b & rest & Hb & _ & len & msg & _ & -> & _ & vb & _ & ->).
  apply (f_equal (fun l => take 4 (drop 12 l))) in Hb. unfold frame_bytes in Hb.
  cbn [encode Response_Encode] in Hb. rewrite <-!app_assoc in Hb. by rewrite !frame_num_tags in Hb.
Qed.

Lemma reply08_refused r : client_refuses RfcDraft14 (frame_bytes (encode (A := ResponseDraft08) r)).
Proof using Type.
  unfold client_refuses. change (new ?d) with (at_cursor [] d).
  pose proof (from_frame_parses _ Response_parses [] (frame_bytes (encode r))) as Hp.
  destruct (from_frame (at_cursor [] _)) as [[r'|e|] c]; [|by exists e, c|done].
  destruct Hp as (b & rest & Hb & _ & len & msg & _ & -> & [_ _ _ _ _ _ _ _ _ (sb & _ & ->)]).
  apply (f_equal (fun l => take 4 (drop 12 l))) in Hb. unfold frame_bytes in Hb.
  cbn [encode ResponseDraft08_Encode] in Hb. rewrite <-!app_assoc in Hb. by rewrite !frame_num_tags in Hb.
Qed.

(** What a reply of a server of version [v], at time [t] and with the certificate
    [cert], is to the client that sent the request.  Of the server's own version,
    that client gets the time while the certificate covers it and refuses the reply
    for its midpoint otherwise; of the other version, its parser refuses the
    frame. *)
Record reply_fate (sk : bytes) (v : ProtocolVersion) (cert : Certificate) (t : Z)
    (a : Accepted (Addr := Addr)) (frame : bytes) : Prop := {
  rf_within : suits v a -> within cert t -> client_verdict v (identity_key sk) a frame (Ok t);
  rf_outside : suits v a -> ~ within cert t -> client_verdict v (identity_key sk) a frame (Err InvalidMidpoint);
  rf_other : request_version (acc_request a) <> v -> client_refuses (request_version (acc_request a)) frame;
}.

Lemma accept_parsed d r : accept d = Some r -> length d = REQUEST_SIZE /\
  exists len msg pad, is_u32 len /\ request_parsed r msg /\
    d = to_be_bytes 8 FRAME_MAGIC ++ to_le_bytes 4 len ++ msg ++ pad.
Proof using Type.
  unfold accept. destruct (Nat.eqb_spec (length d) REQUEST_SIZE) as [Hl|]; [|done].
  change (new d) with (at_cursor [] d). pose proof (from_frame_parses _ Request_parses [] d) as H.
  destruct (from_frame (at_cursor [] d)) as [[r'|err|] c]; [|done|done]. intros [= <-]. split; [done|].
  destruct H as (b & rest & -> & _ & len & msg & Hlen & -> & Hr). exists len, msg, rest.
  by rewrite <-!app_assoc.
Qed.

Lemma draft08_nonce d r : accept d = Some (Draft08 r) -> length (versions (r08_version r)) = 1 ->
  fixed_bytes (r08_nonce r) = request_nonce d.
Proof using Type.
  intros [_ (len & msg & pad & _ & (Hn & _ & lb & (Hh & _ & _ & Hlb & _) & _ & ->) & ->)]%accept_parsed Hv.
  unfold request_nonce, FRAMED_NONCE_OFFSET. rewrite <-!app_assoc. do 3 rewrite (app_assoc _ _ (_ ++ _)).
  rewrite drop_app_length'.
  - rewrite take_app_length'; [done|symmetry; exact Hn].
  - rewrite !length_app, (length_encode_header _ Hh), length_to_be_bytes, length_to_le_bytes, Hlb, Hv. done.
Qed.

(** The fate of the replies to a batch. *)
Lemma batch_verdict sk w (h : ResponseHandler) batch frames :
  pending_inv sk h batch ->
  batch_replies sk w h (batch_leaves (rh_version h) batch) frames ->
  let t := epoch_seconds w (ks_clock (rh_key_source h)) in
  forall i a, batch !! i = Some a ->
  exists frame, frames !! i = Some (acc_src a, frame) /\ reply_fate sk (rh_version h) (rh_cert h) t a frame.
Proof.
  intros [_ Hr Hacc] Hrep t i a Hi.
  pose proof (Forall_lookup_1 _ _ _ _ Hacc Hi) as Ha. cbn in Ha.
  assert (rh_requests h !! i = Some (mkPending (acc_request a) (acc_src a))) as Hp.
  { rewrite Hr, list_lookup_fmap, Hi. done. }
  assert (batch_leaves (rh_version h) batch !! i =
    Some (leaf_data (rh_version h) (acc_datagram a) (acc_request a))) as Hd.
  { unfold batch_leaves. rewrite list_lookup_fmap, Hi. done. }
  unfold batch_replies in *. destruct (rh_version h); cbn [leaf_data] in *.
  - destruct Hrep as (common & Hs & _ & Hans). destruct (Hans i _ _ Hp Hd) as (r & Hf & Hr').
    exists (frame_bytes (encode r)). split; [exact Hf|].
    assert (suits RfcDraft08 a -> exists r' c, from_frame (A := ResponseDraft08) (new (frame_bytes (encode r))) = (Ok r', c) /\
      (within (rh_cert h) t -> validate_draft08 (new_with_key (identity_key sk)) (acc_datagram a) r' (frame_bytes (encode r)) = Ok t) /\
      (~ within (rh_cert h) t -> validate_draft08 (new_with_key (identity_key sk)) (acc_datagram a) r' (frame_bytes (encode r)) = Err InvalidMidpoint)) as Hver.
    { intros Hsuit. destruct (Hsuit eq_refl) as (rq & Hrq & Hv). rewrite Hrq in *.
      cbn [req_nonc] in Hr'. rewrite (draft08_nonce _ _ Ha Hv) in Hr'.
      apply (reply08_verdict sk w h _ _ _ _ _ Hs Hr').
      apply accept_parsed in Ha as [-> _]. unfold FRAMED_NONCE_OFFSET, REQUEST_SIZE. lia. }
    split; [intros Hsuit Hwin; destruct (Hver Hsuit) as (r' & c & H1 & H2 & H3); exists r', c; auto..|].
    intros Hne. destruct (request_version (acc_request a)); [done|apply reply08_refused].
  - destruct Hrep as (common & Hs & _ & Hans). destruct (Hans i _ _ Hp Hd) as (r & Hf & Hr').
    exists (frame_bytes (encode r)). split; [exact Hf|].
    destruct (reply14_verdict sk w h _ _ _ _ _ _ Hs Hr') as (r' & c & H1 & H2 & H3 & H4).
    split; [intros _ Hwin; exists r', c; auto..|].
    intros Hne. destruct (request_version (acc_request a)); [apply reply14_refused|done].
Qed.

(** C3: What the server answers, the client of its version accepts, and the other
    refuses.  For a batch of accepted datagrams, in either profile while the
    histogram has room, [generate_responses] returns one frame per request, in
    order and to its sender, and leaves the handler empty.  A server accepts
    requests of either version.  If the request is of the server's own version (for
    draft-08, with one version in its list, as the client makes it), then the
    client that sent it, holding the server's long-term public key, parses the frame
    and validates it, and the time it gets is the server's clock, whenever that
    clock is within the online key's delegation, and refuses the frame for its
    midpoint otherwise.  If the request is of the other version, the parser of the
    client that sent it refuses the frame, whatever the time is. *)
Theorem served_batch_validates {E} sk w (h : RequestHandler) (batch : list Accepted) :
  pending_inv sk (responder h) batch -> world_wf w -> metrics_room (responder h) ->
  let t := epoch_seconds w (ks_clock (rh_key_source (responder h))) in
  let v := rh_version (responder h) in
  exists h' frames, generate_responses (E := E) w h = Ok (h', frames) /\
    length frames = length batch /\ pending_inv sk (responder h') [] /\
    forall i a, batch !! i = Some a ->
      exists frame, frames !! i = Some (acc_src a, frame) /\
        (made_by v a -> within (rh_cert (responder h)) t -> client_verdict v (identity_key sk) a frame (Ok t)) /\
        (made_by v a -> ~ within (rh_cert (responder h)) t ->
          client_verdict v (identity_key sk) a frame (Err InvalidMidpoint)) /\
        (request_version (acc_request a) <> v -> client_refuses (request_version (acc_request a)) frame).
Proof.
  intros Hinv Hw Hroom t v.
  destruct (generate_responses_spec (E := E) sk w h batch Hinv Hw Hroom) as
    (h' & frames & Hg & Hinv' & _ & _ & Hl & Hrep).
  exists h', frames. split_and!; [done|done|done|]. intros i a Hi.
  destruct (batch_verdict sk w (responder h) batch frames Hinv) with (i := i) (a := a) as (frame & Hf & [H1 H2 H3]);
    [apply Hrep; intros ->; by rewrite lookup_nil in Hi|done|].
  exists frame. split; [exact Hf|]. split_and!; [intros [_ Hs]; by apply H1|intros [_ Hs]; by apply H2|exact H3].
Qed.
End end_to_end.

(** ** Example: a draft-14 and a draft-08 server, each with one request. *)

Definition sample_datagram (v : ProtocolVersion) : bytes :=
  frame_bytes (encode (match v with
    | RfcDraft08 => new_draft08 (mkFixed (zeroes 32))
    | RfcDraft14 => new_draft14 (mkFixed (zeroes 32)) end)).

(** The frame of a client's own request is accepted as that request. *)
Lemma own_request_accepted r : wf r -> wire_size r = 1012 -> accept (frame_bytes (encode r)) = Some r.
Proof.
  intros Hr Hsz. unfold accept. rewrite length_frame_bytes, (length_encode_Request r Hr), Hsz.
  change (1012 + FRAME_OVERHEAD =? REQUEST_SIZE) with true. cbv iota.
  by rewrite (from_frame_Request r Hr Hsz).
Qed.

Lemma sample_datagram_accepted v : exists r, accept (sample_datagram v) = Some r /\
  made_by (Addr := nat) v (mkAccepted (sample_datagram v) r 7).
Proof.
  destruct (new_request_wf (mkFixed (zeroes 32)) (mkSrv (zeroes 32))) as ((H8 & H8s) & (H14 & H14s) & _);
    [done|done|].
  destruct v; (eexists; split; [by apply own_request_accepted|]); (split; [done|]); intros Hv; [|done].
  by eexists.
Qed.

(** A server at time 1700000000 that has collected one datagram. *)
Lemma sample_pending v d r : accept d = Some r ->
  let w := sample_world 1700000000 in
  exists (h : RequestHandler (B := MemoryBackend) (Addr := nat)),
    pending_inv sample_seed (responder h) [mkAccepted d r 7] /\
    rh_version (responder h) = v /\ world_wf w /\ metrics_room (profile := false) (responder h) /\
    epoch_seconds w (ks_clock (rh_key_source (responder h))) = 1700000000%Z /\
    within (rh_cert (responder h)) 1700000000.
Proof.
  intros Ha w. assert (world_wf w) as Hw by (by apply sample_world_wf).
  destruct (ResponseHandler_new_inv (CL := toy_crypto_laws) (Addr := nat) (E := unit) sample_seed
    w 64 (sample_source v) v (zeroes 32)) as (h0 & _ & Hh & Hb & Hr & Hv & Hc1 & _ & [Hmin Hmax] & _);
    [unfold MAX_BATCH_SIZE; lia|apply sample_source_ok|done|].
  destruct (collect_request_spec (CL := toy_crypto_laws) (profile := false) (E := unit) sample_seed
    (RequestHandler_new h0) [] d 7) as (h & _ & _ & Hinv & Hsc & _).
  { split; [exact Hh|exact Hr|by apply Forall_nil]. }
  { cbn. rewrite Hb. lia. }
  unfold accept_from in Hinv. cbn [fst snd] in Hinv. rewrite Ha in Hinv.
  exists h. destruct Hsc as [Hs1 Hs2 Hs3 Hs4]. cbn [responder RequestHandler_new] in *.
  split_and!; [exact Hinv|congruence|done|by left| |].
  - by rewrite Hs3, Hc1.
  - unfold within. rewrite Hs4, Hmin, Hmax. by vm_compute.
Qed.

(** A server of version [v] that has collected the datagram of a client of
    version [v']. *)
Lemma sample_batch v v' :
  let w := sample_world 1700000000 in
  exists (h : RequestHandler (B := MemoryBackend) (Addr := nat)) a,
    pending_inv sample_seed (responder h) [a] /\ acc_datagram a = sample_datagram v' /\
    made_by v' a /\ rh_version (responder h) = v /\ world_wf w /\ metrics_room (profile := false) (responder h) /\
    epoch_seconds w (ks_clock (rh_key_source (responder h))) = 1700000000%Z /\
    within (rh_cert (responder h)) 1700000000.
Proof.
  destruct (sample_datagram_accepted v') as (r & Ha & Hs).
  destruct (sample_pending v (sample_datagram v') r Ha) as (h & Hinv & Hrest).
  by exists h, (mkAccepted (sample_datagram v') r 7).
Qed.

(** What the server answers to a datagram that is alone in its batch. *)
Definition sample_answer (now : Z) (v : ProtocolVersion) (d : bytes) : bytes :=
  match ResponseHandler_new (B := MemoryBackend) (Addr := nat) (E := unit) (sample_world now) 64 (sample_source v) v (zeroes 32) with
  | Ok h0 =>
      match collect_request (profile := false) (E := unit) (RequestHandler_new h0) d 7 with
      | Ok h =>
          match generate_responses (profile := false) (E := unit) (sample_world now) h with
          | Ok (_, (_, frame) :: _) => frame
          | _ => []
          end
      | _ => []
      end
  | _ => []
  end.

Definition sample_served (v v' : ProtocolVersion) : Prop :=
  exists (h h' : RequestHandler (B := MemoryBackend) (Addr := nat)) a frames frame,
    acc_datagram a = sample_datagram v' /\
    generate_responses (profile := false) (E := unit) (sample_world 1700000000) h = Ok (h', frames) /\
    frames !! 0 = Some (acc_src a, frame) /\
    (if decide (v = v') then client_verdict v (identity_key sample_seed) a frame (Ok 1700000000%Z)
     else client_refuses v' frame).

Lemma served_batch_validates_witness :
  sample_served RfcDraft08 RfcDraft08 /\ sample_served RfcDraft14 RfcDraft14 /\
  sample_served RfcDraft08 RfcDraft14 /\ sample_served RfcDraft14 RfcDraft08.
Proof.
  assert (forall v v', sample_served v v') as H; [|split_and!; apply H].
  intros v v'. destruct (sample_batch v v') as (h & a & Hinv & Hd & [Hq Hs] & Hv & Hw & Hr & Ht & Hwin).
  destruct (served_batch_validates (CL := toy_crypto_laws) (profile := false) (E := unit) sample_seed _ h [a]
    Hinv Hw Hr) as (h' & frames & Hg & _ & _ & Hf).
  destruct (Hf 0 a eq_refl) as (frame & Hf0 & Hacc & _ & Href). rewrite Ht, Hv in *.
  exists h, h', a, frames, frame. split; [exact Hd|]. split; [exact Hg|]. split; [exact Hf0|].
  destruct (decide (v = v')) as [<-|Hne].
  - exact (Hacc (conj Hq Hs) Hwin).
  - rewrite Hq in Href. exact (Href (fun He => Hne (eq_sym He))).
Defined.
