(* ===== verification/TestUtils.v ===== *)
(** * Test contexts (crates/roughenough-server/src/test_utils.rs)

    [TestContext] drives the server's response handler under a mock clock, for the
    tests of the client; [Draft08TestContext] answers draft-08 requests with a loop
    of its own.  The bytes drawn (nonces, online seeds) are arguments, the shared
    clock cell is in the [World]. *)
From stdpp Require Import gmap.
From S2P Require Import Prelude Errors Cursor Wire Tags Header FixedTags Versions Path Cert Srep.
From S2P Require Import Request Response Merkle Crypto Keys Metrics Responses Validation Requests EndToEnd.

Section contexts.
Context {C : CryptoLib} {profile : Profile} {Addr : Type}.
(** What "127.0.0.1:8080" parses to. *)
Context (sock_addr : Addr).

Abbreviation Handler := (ResponseHandler (B := MemoryBackend) (Addr := Addr)).
Abbreviation Source := (KeySource (B := MemoryBackend)).

(** [&[42u8; 32]], and [Duration::from_secs(8_000_000)] *)
Definition TEST_SEED : bytes := replicate 32 Byte.x2a.
Definition approx_90_days : Duration := from_secs 8000000.

Record TestContext := mkTestContext {
  tc_batch_size : nat;
  tc_clock : ClockSource;
  tc_response_handler : Handler;
  tc_key_source : Source;
}.

(** A mock clock at the system's time, and a key source on the test seed. *)
Definition test_source {E} (w : World) (version : ProtocolVersion) (key_validity : Duration)
    : res E (ClockSource * Source * World) :=
  let now := epoch_seconds w System in
  let '(clock, w) := new_mock w now in
  seed ← expect (MemoryBackend_from_value TEST_SEED);
  key_source ← KeySource_new version seed clock key_validity;
  mret (clock, key_source, w).

Definition with_key_validity {E} (w : World) (batch_size : nat) (key_validity : Duration) (signer : bytes)
    : res E (TestContext * World) :=
  s ← test_source w RfcDraft14 key_validity;
  let '(clock, key_source, w) := s in
  response_handler ← ResponseHandler_new w batch_size key_source RfcDraft14 signer;
  mret (mkTestContext batch_size clock response_handler key_source, w).

Definition TestContext_new {E} (w : World) (batch_size : nat) (signer : bytes) : res E (TestContext * World) :=
  with_key_validity w batch_size approx_90_days signer.

Definition new_response_handler {E} (w : World) (signer : bytes) : res E Handler :=
  r ← TestContext_new w 64 signer;
  mret (tc_response_handler r.1).

Definition set_handler (tc : TestContext) (h : Handler) : TestContext :=
  mkTestContext (tc_batch_size tc) (tc_clock tc) h (tc_key_source tc).

Definition rotate_key {E} (w : World) (signer : bytes) (tc : TestContext) : res E TestContext :=
  h ← replace_online_key w (tc_response_handler tc) signer;
  mret (set_handler tc h).

(** The callback: each frame is parsed, and kept with its bytes. *)
Fixpoint parse_frames {E} `{!FromWire R} (frames : list (Addr * bytes)) : res E (list (R * bytes)) :=
  match frames with
  | [] => Ok []
  | (_, response_bytes) :: frames' =>
      response ← expect (from_frame (A := R) (new response_bytes)).1;
      rest ← parse_frames frames';
      mret ((response, response_bytes) :: rest)
  end.

(** [assert_eq!(responses.len(), 1)], and [responses.pop().unwrap()] *)
Definition single_response {E A} (responses : list A) : res E A :=
  match responses with [r] => Ok r | _ => Panic end.

Definition create_interaction_pair_with_nonce_and_bytes {E} (w : World) (tc : TestContext) (midpoint : Z)
    (nonce : Nonce) : res E (TestContext * World * (Request * Response * bytes)) :=
  w ← set_time w (tc_clock tc) midpoint;
  let request := new_draft14 nonce in
  request_bytes ← expect (as_frame_bytes request);
  h ← add_request (tc_response_handler tc) request_bytes request sock_addr;
  r ← process_responses w h;
  responses ← parse_frames (R := Response) r.2;
  response ← single_response responses;
  mret (set_handler tc (rh_clear r.1), w, (request, response.1, response.2)).

Definition create_interaction_pair_with_nonce {E} (w : World) (tc : TestContext) (midpoint : Z) (nonce : Nonce)
    : res E (TestContext * World * (Request * Response)) :=
  r ← create_interaction_pair_with_nonce_and_bytes w tc midpoint nonce;
  mret (r.1, r.2.1).

(** [val] are the random bytes drawn. *)
Definition create_interaction_pair_with_bytes {E} (w : World) (tc : TestContext) (midpoint : Z) (val : bytes)
    : res E (TestContext * World * (Request * Response * bytes)) :=
  nonce ← Nonce_from val;
  create_interaction_pair_with_nonce_and_bytes w tc midpoint nonce.

Definition create_interaction_pair {E} (w : World) (tc : TestContext) (midpoint : Z) (val : bytes)
    : res E (TestContext * World * (Request * Response)) :=
  r ← create_interaction_pair_with_bytes w tc midpoint val;
  mret (r.1, r.2.1).

(** ** The draft-08 context *)

Record Draft08TestContext := mkTestContext08 {
  t8_batch_size : nat;
  t8_clock : ClockSource;
  t8_key_source : Source;
  t8_merkle_tree : MerkleTree;
  t8_merkle_path : MerklePath;
  t8_requests : list (RequestDraft08 * Addr);
  t8_response_buf : bytes;
}.

Definition Draft08TestContext_new {E} (w : World) (batch_size : nat) : res E (Draft08TestContext * World) :=
  s ← test_source w RfcDraft08 approx_90_days;
  let '(clock, key_source, w) := s in
  mret (mkTestContext08 batch_size clock key_source (reserve tree_new batch_size) MerklePath_default []
          (zeroes 1024), w).

Definition t8_add_request {E} (c : Draft08TestContext) (request : RequestDraft08) (src : Addr)
    : res E Draft08TestContext :=
  tree ← push_leaf sha512 (t8_merkle_tree c) (fixed_bytes (r08_nonce request));
  mret (mkTestContext08 (t8_batch_size c) (t8_clock c) (t8_key_source c) tree (t8_merkle_path c)
          (t8_requests c ++ [(request, src)]) (t8_response_buf c)).

(** The loop over the requests: the path, the buffer and the calls of the callback. *)
Fixpoint t8_send {E} (tree : MerkleTree) (response_common : ResponseDraft08) (index : nat)
    (requests : list (RequestDraft08 * Addr)) (path : MerklePath) (buf : bytes) (sent : list (Addr * bytes))
    : res E (MerklePath * bytes * list (Addr * bytes)) :=
  match requests with
  | [] => Ok (path, buf, sent)
  | (_, src) :: requests' =>
      path ← get_paths_to tree index (path_clear path);
      let response := copy_path08 response_common path in
      let response := set_indx08 response (as_u32 index) in
      let '(r, cursor) := to_frame response (new buf) in
      _ ← expect r;
      let size := frame_size response in
      if size <=? length (data cursor)
      then t8_send tree response_common (S index) requests' path (data cursor) (sent ++ [(src, take size (data cursor))])
      else Panic
  end.

Definition t8_process_responses {E} (w : World) (signer : bytes) (c : Draft08TestContext)
    : res E (Draft08TestContext * list (Addr * bytes)) :=
  match t8_requests c with
  | [] => Ok (c, [])
  | _ =>
      root ← compute_root sha512 (t8_merkle_tree c);
      k ← ks_make_online_key_draft08 w (t8_key_source c) signer;
      let cert := ok08_cert k.1 in
      s ← make_srep08 w k.1 (mkFixed root.1);
      let '(srep, sig, _) := s in
      let common := set_cert08 ResponseDraft08_default cert in
      let common := set_srep08 common srep in
      let common := set_sig08 common sig in
      r ← t8_send root.2 common 0 (t8_requests c) (t8_merkle_path c) (t8_response_buf c) [];
      mret (mkTestContext08 (t8_batch_size c) (t8_clock c) k.2 root.2 r.1.1 (t8_requests c) r.1.2, r.2)
  end.

(** [self.merkle_tree.clear(); self.requests.clear()] *)
Definition t8_clear (c : Draft08TestContext) : Draft08TestContext :=
  mkTestContext08 (t8_batch_size c) (t8_clock c) (t8_key_source c) (tree_clear (t8_merkle_tree c))
    (t8_merkle_path c) [] (t8_response_buf c).

Definition t8_create_interaction_pair_with_nonce {E} (w : World) (signer : bytes) (c : Draft08TestContext)
    (midpoint : Z) (nonce : Nonce) : res E (Draft08TestContext * World * (RequestDraft08 * ResponseDraft08)) :=
  w ← set_time w (t8_clock c) midpoint;
  let request := RequestDraft08_new nonce in
  c ← t8_add_request c request sock_addr;
  r ← t8_process_responses w signer c;
  responses ← parse_frames (R := ResponseDraft08) r.2;
  response ← single_response responses;
  mret (t8_clear r.1, w, (request, response.1)).

Definition t8_create_interaction_pair {E} (w : World) (signer : bytes) (c : Draft08TestContext) (midpoint : Z)
    (val : bytes) : res E (Draft08TestContext * World * (RequestDraft08 * ResponseDraft08)) :=
  nonce ← Nonce_from val;
  t8_create_interaction_pair_with_nonce w signer c midpoint nonce.

(** ** The draft-08 context answers as the server does *)

(** The context's fields are those of a draft-08 handler, whose requests have the
    same senders. *)
Record t8_sim (c : Draft08TestContext) (h : Handler) : Prop := {
  sim_version : rh_version h = RfcDraft08;
  sim_source : rh_key_source h = t8_key_source c;
  sim_tree : rh_tree h = t8_merkle_tree c;
  sim_path : rh_path h = t8_merkle_path c;
  sim_buf : rh_buf h = t8_response_buf c;
  sim_requests : map src_addr (rh_requests h) = map snd (t8_requests c);
}.

Inductive ContextOp : Type :=
| AddRequest (request_bytes : bytes) (request : RequestDraft08) (src : Addr)
| ProcessResponses (w : World) (signer : bytes)
| Clear.

Definition t8_op {E} (op : ContextOp) (c : Draft08TestContext) : res E (Draft08TestContext * list (Addr * bytes)) :=
  match op with
  | AddRequest _ request src => c ← t8_add_request c request src; mret (c, [])
  | ProcessResponses w signer => t8_process_responses w signer c
  | Clear => mret (t8_clear c, [])
  end.

(** The same calls of the server's handler; the context makes an online key for
    every batch, so the handler replaces its key before one. *)
Definition server_op {E} (op : ContextOp) (h : Handler) : res E (Handler * list (Addr * bytes)) :=
  match op with
  | AddRequest request_bytes request src => h ← add_request h request_bytes (Draft08 request) src; mret (h, [])
  | ProcessResponses w signer =>
      match rh_requests h with
      | [] => mret (h, [])
      | _ => h ← replace_online_key w h signer; process_responses w h
      end
  | Clear => mret (rh_clear h, [])
  end.

Fixpoint run_ops {E S} (step : ContextOp -> S -> res E (S * list (Addr * bytes))) (ops : list ContextOp) (s : S)
    : res E (S * list (list (Addr * bytes))) :=
  match ops with
  | [] => Ok (s, [])
  | op :: ops' =>
      r ← step op s;
      rs ← run_ops step ops' r.1;
      mret (rs.1, r.2 :: rs.2)
  end.

Lemma t8_send_sim {E} tree common : forall ps requests index (st st' : SendState (Addr := Addr)),
  map src_addr ps = map snd requests -> send_draft08 (E := E) tree common index ps st = Ok st' ->
  t8_send (E := E) tree common index requests (ss_path st) (ss_buf st) (ss_sent st) =
    Ok (ss_path st', ss_buf st', ss_sent st').
Proof.
  induction ps as [|p ps IH]; intros [|[r src] requests] index st st' Hm; try done; cbn [send_draft08 t8_send].
  { by intros [= <-]. }
  cbn [map snd] in Hm. injection Hm as Hsrc Hm. unfold next_path.
  destruct (get_paths_to tree index (path_clear (ss_path st))) as [path|e|]; [|done|done]. cbn [mbind res_bind].
  unfold send_frame. destruct (to_frame _ (new (ss_buf st))) as [[u|e|] cursor]; [|done|done].
  cbn [expect mbind res_bind]. destruct (_ <=? _); [|done]. cbn [mbind res_bind]. rewrite Hsrc.
  intros Hs. exact (IH requests (S index) _ _ Hm Hs).
Qed.

Lemma process_sim {E} w signer c (h : Handler) h' frames : t8_sim c h ->
  server_op (E := E) (ProcessResponses w signer) h = Ok (h', frames) ->
  exists c', t8_process_responses (E := E) w signer c = Ok (c', frames) /\ t8_sim c' h'.
Proof.
  intros [Hv Hs Ht Hp Hb Hr]. cbn [server_op]. unfold t8_process_responses.
  destruct (rh_requests h) as [|p ps] eqn:Hreq, (t8_requests c) as [|q qs] eqn:Hqs; try done.
  { intros [= <- <-]. exists c. split; [done|]. split; rewrite ?Hreq, ?Hqs; done. }
  unfold replace_online_key. rewrite Hv, Hs. cbn [make_online_key].
  destruct (ks_make_online_key_draft08 w (t8_key_source c) signer) as [[k ks]|e|]; [|done|done].
  cbn [mbind res_bind mret res_ret fst snd]. unfold process_responses. cbn [rh_requests rh_metrics rh_tree rh_version].
  rewrite Hreq. destruct (add_batch_size _ _) as [m|e|]; [|done|done]. cbn [mbind res_bind].
  rewrite Ht. destruct (compute_root sha512 (t8_merkle_tree c)) as [[root tree]|e|]; [|done|done].
  cbn [mbind res_bind fst snd]. unfold process_responses_draft08. cbn [rh_online_key].
  destruct (debug_assert _) as [u|e|]; [|done|done]. cbn [mbind res_bind].
  destruct (make_srep08 w k (mkFixed root)) as [[[srep sig] k']|e|]; [|done|done]. cbn [mbind res_bind].
  destruct (send_draft08 _ _ _ _ _) as [st|e|] eqn:Hsend; [|done|done]. cbn [mbind res_bind mret res_ret].
  intros [= <- <-]. apply (t8_send_sim _ _ _ (q :: qs)) in Hsend; [|exact Hr].
  cbn [rh_path rh_buf rh_tree rh_requests ss_path ss_buf ss_sent] in Hsend. rewrite Hp, Hb in Hsend. rewrite Hsend.
  cbn [mbind res_bind fst snd]. eexists. split; [reflexivity|]. by split.
Qed.

Lemma op_sim {E} op c (h : Handler) h' frames : t8_sim c h -> server_op (E := E) op h = Ok (h', frames) ->
  exists c', t8_op (E := E) op c = Ok (c', frames) /\ t8_sim c' h'.
Proof.
  intros Hsim. destruct op as [bs r src|w signer|]; [|by apply process_sim|]; cbn [server_op t8_op]; destruct Hsim as [Hv Hs Ht Hp Hb Hr].
  - unfold add_request, t8_add_request. rewrite Hv, Ht. cbn [req_nonc].
    destruct (debug_assert _) as [u|e|]; [|done|done]. cbn [mbind res_bind].
    destruct (push_leaf _ _ _) as [tree|e|]; [|done|done]. cbn [mbind res_bind mret res_ret]. intros [= <- <-].
    eexists. split; [reflexivity|]. split; try done. cbn. by rewrite !map_app, Hr.
  - intros [= <- <-]. eexists. split; [reflexivity|]. split; try done. cbn. by rewrite Ht.
Qed.

(** C36: The draft-08 test context refines the server's handler.  The context has its
    own copy of the draft-08 response loop; from states with the same tree, path,
    buffer, key source and senders, any sequence of requests, batches and clears
    that a draft-08 [ResponseHandler] completes with a fresh online key per batch,
    the context completes with the same frames, to the same senders, in the same
    order, so that what the client's tests accept is what the server sends. *)
Theorem draft08_context_refines {E} ops c (h : Handler) h' frames :
  t8_sim c h -> run_ops (E := E) server_op ops h = Ok (h', frames) ->
  exists c', run_ops (E := E) t8_op ops c = Ok (c', frames) /\ t8_sim c' h'.
Proof.
  revert c h h' frames. induction ops as [|op ops IH]; intros c h h' frames Hsim; cbn [run_ops].
  { intros [= <- <-]. by exists c. }
  destruct (server_op op h) as [[h1 fs]|e|] eqn:Hop; [|done|done]. cbn [mbind res_bind fst snd].
  destruct (op_sim op c h h1 fs Hsim Hop) as (c1 & -> & Hsim1). cbn [mbind res_bind fst snd].
  destruct (run_ops server_op ops h1) as [[h2 fss]|e|] eqn:Hrun; [|done|done]. cbn [mbind res_bind mret res_ret fst snd].
  intros [= <- <-]. destruct (IH c1 h1 h2 fss Hsim1 Hrun) as (c2 & -> & Hsim2). by exists c2.
Qed.

(** ** The pairs that the draft-14 context makes *)

Context {CL : CryptoLaws C}.

#[local] Existing Instance MemoryBackend_Lawful.

(** The context is between pairs, under a mock clock that its handler shares. *)
Record tc_inv (tc : TestContext) : Prop := {
  ti_pending : pending_inv TEST_SEED (tc_response_handler tc) [];
  ti_version : rh_version (tc_response_handler tc) = RfcDraft14;
  ti_clock : ks_clock (rh_key_source (tc_response_handler tc)) = tc_clock tc;
  ti_mock : exists cell, tc_clock tc = Mock cell;
  ti_public : forall E, ks_public_key (E := E) (tc_key_source tc) = Ok (identity_key TEST_SEED);
}.

Lemma set_time_wf {E} w cell t : world_wf w -> is_u64 t ->
  exists w', set_time (E := E) w (Mock cell) t = Ok w' /\ world_wf w' /\ epoch_seconds w' (Mock cell) = t.
Proof using Type.
  intros [Hs Hm] Ht. eexists. split; [reflexivity|]. split; [split; [done|]|].
  - by apply map_Forall_insert_2.
  - cbn. by rewrite lookup_insert_eq.
Qed.

(** The handler with the one request pending. *)
Lemma add_own_request {E} h request src : pending_inv TEST_SEED (B := MemoryBackend) (Addr := Addr) h [] ->
  wf request -> wire_size request = 1012 -> wf (A := FixedTag 32) (req_nonc request) ->
  exists h', add_request (E := E) h (frame_bytes (encode request)) request src = Ok h' /\
    pending_inv TEST_SEED h' [mkAccepted (frame_bytes (encode request)) request src] /\
    same_config h h' /\ rh_metrics h' = rh_metrics h.
Proof.
  intros [Hh Hr _] Hwf Hsz Hn. pose proof (hi_batch _ _ _ Hh) as Hb. cbn [map] in Hh.
  destruct (add_request_inv (E := E) TEST_SEED h [] (frame_bytes (encode request)) request src Hh) as
    (h' & d & Ha & Hh' & Hd & Hr' & Hsc & Hm); [cbn; lia|done|].
  exists h'. split_and!; [done| |done|done]. split.
  - rewrite (sc_version _ _ Hsc). cbn [map acc_datagram acc_request]. subst d. unfold leaf_data.
    by destruct (rh_version h).
  - by rewrite Hr', Hr.
  - apply Forall_singleton. cbn. by apply own_request_accepted.
Qed.

(** C37: What the client's tests rely on.  In either profile, while the histogram of
    batch sizes has room, a pair made for any midpoint and nonce is the framed
    request and the server's framed response to it, parsed: a client that holds the
    context's public key validates the pair, and measures the midpoint, exactly when the midpoint is within the delegation of the context's
    online key; otherwise it refuses the response for its midpoint and for nothing
    else.  The context is ready for the next pair, with the same key. *)
Theorem interaction_pair_validates {E} w tc midpoint nonce :
  tc_inv tc -> world_wf w -> is_u64 midpoint -> wf (A := FixedTag 32) nonce ->
  debug_build = false \/ size_room (batch_sizes (rh_metrics (tc_response_handler tc))) 1 = true ->
  let cert := rh_cert (tc_response_handler tc) in
  exists tc' w' response response_bytes,
    create_interaction_pair_with_nonce_and_bytes (E := E) w tc midpoint nonce =
      Ok (tc', w', (new_draft14 nonce, response, response_bytes)) /\
    tc_inv tc' /\ rh_cert (tc_response_handler tc') = cert /\ resp_nonce response = nonce /\
    exists request_bytes, as_frame_bytes (new_draft14 nonce) = Ok request_bytes /\
    (within cert midpoint ->
      validate_draft14 (new_with_key (identity_key TEST_SEED)) request_bytes response response_bytes = Ok midpoint) /\
    (~ within cert midpoint ->
      validate_draft14 (new_with_key (identity_key TEST_SEED)) request_bytes response response_bytes =
        Err InvalidMidpoint).
Proof.
  intros [Hp Hv Hcl [cell Hcell] Hpk] Hw Ht Hn Hroom cert. unfold create_interaction_pair_with_nonce_and_bytes.
  rewrite Hcell. destruct (set_time_wf (E := E) w cell midpoint Hw Ht) as (w' & -> & Hw' & Hnow). cbn [mbind res_bind].
  destruct (new_request_wf nonce (mkSrv (zeroes 32)) Hn) as (_ & (Hwf & Hsz) & _); [done|].
  rewrite (as_frame_bytes_encode _ Hwf). cbn [expect mbind res_bind].
  destruct (add_own_request (E := E) _ (new_draft14 nonce) sock_addr Hp Hwf Hsz Hn) as (h1 & -> & Hp1 & Hsc1 & Hm1).
  cbn [mbind res_bind].
  destruct (generate_responses_spec (E := E) TEST_SEED w' (mkRequestHandler h1 RequestMetrics_default) _ Hp1 Hw') as
    (q & frames & Hg & Hq & Hsc2 & _ & Hl & Hrep & _).
  { unfold metrics_room. cbn [responder]. by rewrite Hm1, (pi_requests _ _ _ Hp1). }
  unfold generate_responses in Hg. cbn [responder] in *.
  destruct (process_responses w' h1) as [[h2 fs]|e|]; [|done|done]. cbn [mbind res_bind fst snd] in *.
  injection Hg as <- ->. destruct frames as [|[src frame] [|? ?]]; [done| |done].
  pose proof (batch_verdict TEST_SEED w' h1 _ _ Hp1 (Hrep ltac:(done)) 0 _ eq_refl) as Hver.
  destruct Hsc1 as [_ Hv1 Hk1 Hc1]. rewrite Hv1, Hk1, Hc1, Hv, Hcl, Hcell, Hnow in Hver.
  destruct Hver as (frame' & Hf & [Hin Hout _]). injection Hf as <- <-.
  specialize (Hin ltac:(by intros)). specialize (Hout ltac:(by intros)).
  unfold client_verdict, client_verdict14 in Hin, Hout. cbn [acc_datagram acc_request req_nonc new_draft14] in Hin, Hout.
  set (request_bytes := frame_bytes (encode (new_draft14 nonce))) in *.
  set (key := new_with_key (identity_key TEST_SEED)) in *.
  assert (exists response c, from_frame (A := Response) (new frame) = (Ok response, c) /\ resp_nonce response = nonce /\
    (within cert midpoint -> validate_draft14 key request_bytes response frame = Ok midpoint) /\
    (~ within cert midpoint -> validate_draft14 key request_bytes response frame = Err InvalidMidpoint))
    as (response & c & Hparse & Hnonce & Hok & Herr).
  { destruct (decide (within cert midpoint)) as [Hwin|Hwin];
      [destruct (Hin Hwin) as (r & c & Hr & Hrn & Hval)|destruct (Hout Hwin) as (r & c & Hr & Hrn & Hval)];
      exists r, c; by split_and!. }
  cbn [parse_frames]. rewrite Hparse. cbn [fst expect mbind res_bind mret res_ret single_response snd].
  eexists _, w', response, frame. split; [reflexivity|].
  destruct Hsc2 as [_ Hv2 Hk2 Hc2]. split_and!; [|exact (eq_trans Hc2 Hc1)|done|by exists request_bytes].
  split; cbn [set_handler tc_response_handler tc_clock tc_key_source];
    [done|exact (eq_trans Hv2 (eq_trans Hv1 Hv))| |by exists cell|done].
  exact (eq_trans (f_equal ks_clock (eq_trans Hk2 Hk1)) Hcl).
Qed.

(** *** Making a context *)

Lemma test_source_ok {E} w v validity : world_wf w -> (0 < as_secs validity < 2 ^ 64)%Z ->
  exists cell ks w', test_source (E := E) w v validity = Ok (Mock cell, ks, w') /\ world_wf w' /\
    source_ok TEST_SEED v ks /\ ks_clock ks = Mock cell /\ ks_validity ks = validity /\
    epoch_seconds w' (Mock cell) = system_now w /\
    (forall E, ks_public_key (E := E) ks = Ok (identity_key TEST_SEED)).
Proof.
  intros [Hs Hm] Hval. unfold test_source, new_mock. cbn [epoch_seconds].
  destruct (MemoryBackend_from_value_spec TEST_SEED) as (b & -> & Hb); [done|]. cbn [expect mbind res_bind].
  unfold KeySource_new, duration_is_zero.
  destruct (Z.eqb_spec (as_secs validity) 0) as [|_]; [lia|]. unfold LongTermIdentity_new.
  assert (seed_len b = 32) as -> by (cbn; by destruct Hb as (_ & -> & _)).
  cbn [andb Nat.eqb mbind res_bind mret res_ret].
  eexists _, _, _. split; [reflexivity|]. split_and!; try done.
  - split; [done|]. by apply map_Forall_insert_2.
  - cbn. by rewrite lookup_insert_eq.
  - intros E'. unfold ks_public_key, id_public_key. cbn. destruct Hb as (_ & _ & ->). done.
Qed.

(** A new context is ready, with a key that its validity covers from the system's time. *)
Lemma with_key_validity_ready {E} w batch_size validity signer :
  world_wf w -> 1 <= batch_size <= MAX_BATCH_SIZE -> (0 < as_secs validity < 2 ^ 64)%Z ->
  exists tc w', with_key_validity (E := E) w batch_size validity signer = Ok (tc, w') /\ tc_inv tc /\ world_wf w' /\
    window (rh_cert (tc_response_handler tc)) (system_now w) (as_secs validity) /\
    rh_metrics (tc_response_handler tc) = ResponseMetrics_default.
Proof.
  intros Hw Hb Hval. unfold with_key_validity.
  destruct (test_source_ok (E := E) w RfcDraft14 validity Hw Hval) as (cell & ks & w' & -> & Hw' & Hso & Hc & Hv & Hnow & Hpk).
  cbn [mbind res_bind].
  destruct (ResponseHandler_new_inv (E := E) (Addr := Addr) TEST_SEED w' batch_size ks RfcDraft14 signer Hb Hso Hw') as
    (h & -> & Hh & _ & Hr & Hvr & Hc1 & _ & Hwin & Hmet).
  cbn [mbind res_bind mret res_ret]. eexists _, w'. split; [reflexivity|]. rewrite Hc, Hnow, Hv in Hwin.
  split_and!; [|done|done|done]. split; cbn [tc_response_handler tc_clock tc_key_source]; [|done|congruence|by exists cell|done].
  split; [exact Hh|exact Hr|by apply Forall_nil].
Qed.

(** [rotate_key] moves the window to the mock clock's time. *)
Lemma rotate_key_ready {E} w signer tc : tc_inv tc -> world_wf w ->
  exists tc', rotate_key (E := E) w signer tc = Ok tc' /\ tc_inv tc' /\
    window (rh_cert (tc_response_handler tc')) (epoch_seconds w (tc_clock tc))
      (as_secs (ks_validity (rh_key_source (tc_response_handler tc)))).
Proof.
  intros [[Hh Hr Ha] Hv Hcl Hmock Hpk] Hw. unfold rotate_key.
  destruct (replace_online_key_inv (E := E) TEST_SEED w (tc_response_handler tc) _ signer Hh Hw) as
    (h' & -> & Hh' & Hr' & Hv' & _ & _ & Hc' & _ & Hwin).
  cbn [mbind res_bind mret res_ret]. eexists. split; [reflexivity|]. rewrite Hcl in Hwin. split; [|exact Hwin].
  split; cbn [set_handler tc_response_handler tc_clock tc_key_source]; [|congruence|congruence|done|done].
  split; [exact Hh'|by rewrite Hr'|done].
Qed.
(** A draft-08 handler completes an exchange with one client. *)
Definition exchange (bs : bytes) (request : RequestDraft08) (src : Addr) (w : World) (signer : bytes) : list ContextOp :=
  [AddRequest bs request src; ProcessResponses w signer; Clear].

Lemma exchange_served {E} (h : Handler) bs request src w signer :
  handler_inv TEST_SEED h [] -> rh_version h = RfcDraft08 -> rh_requests h = [] ->
  rh_metrics h = ResponseMetrics_default -> world_wf w -> wf (A := FixedTag 32) (r08_nonce request) ->
  exists h' frame, run_ops (E := E) server_op (exchange bs request src w signer) h = Ok (h', [[]; [(src, frame)]; []]).
Proof.
  intros Hh Hv Hr Hm Hw Hn. cbn [run_ops exchange server_op]. pose proof (hi_batch _ _ _ Hh) as Hb.
  destruct (add_request_inv (E := E) TEST_SEED h [] bs (Draft08 request) src Hh) as
    (h1 & d & -> & Hh1 & _ & Hr1 & Hsc1 & Hm1); [cbn; lia|done|].
  rewrite Hr in Hr1. cbn [mbind res_bind mret res_ret fst snd app] in *. rewrite Hr1.
  destruct (replace_online_key_inv (E := E) TEST_SEED w h1 [d] signer Hh1 Hw) as
    (h2 & -> & Hh2 & Hr2 & Hv2 & _ & Hm2 & _).
  cbn [mbind res_bind]. rewrite Hr1 in Hr2.
  destruct (process_responses_spec (E := E) TEST_SEED w h2 [d] Hh2 Hw) as (h3 & frames & -> & Hrep & _); [|done|].
  { right. by rewrite Hm2, Hm1, Hm, Hr2. }
  cbn [mbind res_bind mret res_ret fst snd]. unfold batch_replies in Hrep.
  rewrite Hv2, (sc_version _ _ Hsc1), Hv, Hr2 in Hrep. destruct Hrep as (common & _ & Hl & Hans).
  destruct (Hans 0 _ d eq_refl eq_refl) as (r & Hf & _).
  destruct frames as [|f [|? ?]]; [done| |done]. injection Hf as ->. by eexists _, _.
Qed.
End contexts.

(** ** Examples: a context at time 1700000000 *)

Definition sample_nonce : Nonce := mkFixed (zeroes 32).

Lemma interaction_pair_validates_witness :
  exists (tc tc' : TestContext (Addr := nat)) w w' response response_bytes request_bytes,
    create_interaction_pair_with_nonce_and_bytes (profile := true) (E := unit) 7 w tc 1700003600 sample_nonce =
      Ok (tc', w', (new_draft14 sample_nonce, response, response_bytes)) /\
    validate_draft14 (new_with_key (identity_key TEST_SEED)) request_bytes response response_bytes =
      Ok 1700003600%Z.
Proof.
  destruct (with_key_validity_ready (CL := toy_crypto_laws) (Addr := nat) (E := unit) (sample_world 1700000000) 64
    approx_90_days (zeroes 32)) as (tc & w & _ & Hinv & Hw & [Hmin Hmax] & Hmet);
    [by apply sample_world_wf|unfold MAX_BATCH_SIZE; lia|cbn; lia|].
  destruct (interaction_pair_validates (CL := toy_crypto_laws) (profile := true) (E := unit) 7 w tc 1700003600 sample_nonce
    Hinv Hw) as (tc' & w' & r & bs & Hpair & _ & _ & _ & rq & _ & Hok & _); [done|done|right; by rewrite Hmet|].
  exists tc, tc', w, w', r, bs, rq. split; [exact Hpair|]. apply Hok.
  unfold within. rewrite Hmin, Hmax. vm_compute. done.
Defined.

(** A context like a handler that has just been made. *)
Definition context_of (h : ResponseHandler (B := MemoryBackend) (Addr := nat)) : Draft08TestContext (Addr := nat) :=
  mkTestContext08 64 System (rh_key_source h) (rh_tree h) (rh_path h) [] (rh_buf h).

Lemma draft08_context_refines_witness :
  let ops := exchange [] (RequestDraft08_new sample_nonce) 7 (sample_world 1700000000) (zeroes 32) in
  exists (c c' : Draft08TestContext (Addr := nat)) frame,
    run_ops (t8_op (profile := true) (E := unit)) ops c = Ok (c', [[]; [(7, frame)]; []]).
Proof.
  intros ops.
  destruct (test_source_ok (CL := toy_crypto_laws) (E := unit) (sample_world 1700000000) RfcDraft08 approx_90_days)
    as (cell & ks & w & _ & Hw & Hso & _); [by apply sample_world_wf|cbn; lia|].
  destruct (ResponseHandler_new_inv (CL := toy_crypto_laws) (Addr := nat) (E := unit) TEST_SEED w 64 ks RfcDraft08
    (zeroes 32)) as (h & _ & Hh & _ & Hr & Hv & _ & _ & _ & Hm); [unfold MAX_BATCH_SIZE; lia|done|done|].
  destruct (exchange_served (CL := toy_crypto_laws) (profile := true) (E := unit) h [] (RequestDraft08_new sample_nonce) 7
    (sample_world 1700000000) (zeroes 32) Hh Hv Hr Hm) as (h' & frame & Hrun); [by apply sample_world_wf|done|].
  assert (t8_sim (context_of h) h) as Hsim by (split; [done..|by rewrite Hr]).
  destruct (draft08_context_refines (profile := true) (E := unit) ops (context_of h) h h' _ Hsim Hrun) as (c' & Hc & _).
  exists (context_of h), c', frame. exact Hc.
Defined.
