(* ===== verification/Args.v ===== *)
(** * Server arguments (crates/roughenough-server/src/args.rs, and [choose_clock] of main.rs)

    The values that clap's derived parser leaves in [Args]; the ranges it enforces
    (by the field types and [value_parser]) are [args_ok]. *)
From S2P Require Import Prelude Errors Cursor Wire Versions Crypto.

Inductive ProtocolVersionArg : Type := V08 | V14.
Inductive SeedBackendArg : Type := ArgMemory | ArgKrs | ArgSshAgent.

#[export] Instance ProtocolVersionArg_eq_dec : EqDecision ProtocolVersionArg.
Proof. solve_decision. Defined.
#[export] Instance SeedBackendArg_eq_dec : EqDecision SeedBackendArg.
Proof. solve_decision. Defined.

Record Args := mkArgs {
  arg_batch_size : nat;
  arg_interface : string;
  arg_port : Z;
  arg_num_threads : nat;
  arg_protocol : ProtocolVersionArg;
  arg_fixed_offset : Z;
  arg_quiet : bool;
  arg_rotation_interval : Z;
  arg_metrics_interval : Z;
  arg_seed : string;
  arg_seed_backend : SeedBackendArg;
  arg_metrics_output : option string;
  arg_verbose : Z;
}.

Definition args_ok (a : Args) : Prop :=
  1 <= arg_batch_size a <= 64 /\ (Z.of_nat (arg_num_threads a) < 2 ^ 16)%Z /\
  (- 2 ^ 15 <= arg_fixed_offset a < 2 ^ 15)%Z /\ (0 <= arg_rotation_interval a < 2 ^ 16)%Z /\
  (0 <= arg_metrics_interval a < 2 ^ 64)%Z.

(** [available_parallelism().unwrap().get() as u16] *)
Definition default_num_threads {E} (available_parallelism : option nat) : res E nat :=
  match available_parallelism with
  | Some n => Ok (Z.to_nat (Z.of_nat n mod 2 ^ 16))
  | None => Panic
  end.

(** The defaults of the attributes. *)
Definition Args_default {E} (available_parallelism : option nat) : res E Args :=
  num_threads ← default_num_threads available_parallelism;
  Ok (mkArgs 64 "0.0.0.0" 2003 num_threads V14 0 false 24 60 "" ArgMemory None 0).

Definition SeedBackendArg_to_string (b : SeedBackendArg) : string :=
  match b with ArgMemory => "memory" | ArgKrs => "krs" | ArgSshAgent => "ssh-agent" end.

(** [parse_ip] is [str::parse::<IpAddr>]. *)
Definition udp_socket_addr {E} (parse_ip : string -> option IpAddr) (a : Args) : res E SocketAddr :=
  match parse_ip (arg_interface a) with
  | Some addr => Ok (SocketAddr_new addr (arg_port a))
  | None => Panic
  end.

Definition args_version (a : Args) : ProtocolVersion :=
  match arg_protocol a with V08 => RfcDraft08 | V14 => RfcDraft14 end.

(** [Duration::from_secs(self.rotation_interval as u64 * 60 * 60)] *)
Definition rotation_interval (a : Args) : Duration := from_secs (arg_rotation_interval a * 60 * 60).

Definition choose_clock (a : Args) : ClockSource :=
  if (arg_fixed_offset a =? 0)%Z then System else FixedOffset (arg_fixed_offset a).
