(* ===== verification/Worker.v ===== *)
(** * The worker (crates/roughenough-server/src/worker.rs, and [worker_task] of main.rs)

    One pass of [Worker::run]'s loop is [iteration]: publish the metrics when due,
    replace the online key when due, poll, and per readable event serve batches
    until the socket is drained.  What the pass reads of its surroundings (clocks,
    random values, what the socket holds, which sends fail) is an [Iteration].
    The log records, per batch, the clock, the datagrams read and the frames sent. *)
From S2P Require Import Prelude Errors Cursor Wire Tags FixedTags Versions Cert Srep Request Response Merkle.
From S2P Require Import Crypto Keys Metrics Responses Requests Validation EndToEnd Args.

Section worker.
Context {C : CryptoLib} {profile : Profile} {B : Type} `{!SeedBackend B} {Addr : Type}.

Record Worker := mkWorker {
  wk_id : nat;
  wk_clock : ClockSource;
  wk_net : NetworkHandler;
  wk_req : RequestHandler (B := B) (Addr := Addr);
  wk_published : list WorkerMetrics;
  wk_key_interval : Duration;
  wk_metrics_interval : Duration;
  wk_next_key : Z;
  wk_next_metrics : Z;
}.

Definition Worker_new {E} (w : World) (worker_id : nat) (args : Args)
    (responder : ResponseHandler (B := B) (Addr := Addr)) (clock : ClockSource) (metrics_interval : Duration)
    : res E Worker :=
  let now := epoch_seconds w clock in
  next ← u64_add now (as_secs metrics_interval);
  Ok (mkWorker worker_id clock (NetworkHandler_new (arg_batch_size args)) (RequestHandler_new responder) []
        (rotation_interval args) metrics_interval now next).

(** [worker_task] up to the call of [run]; [w_key] and [w] are what the two reads of
    the clock see. *)
Definition worker_task {E} (w_key w : World) (idx : nat) (key_source : KeySource (B := B)) (args : Args)
    (clock : ClockSource) (signer : bytes) : res E Worker :=
  responder ← ResponseHandler_new w_key (arg_batch_size args) key_source (args_version args) signer;
  Worker_new w idx args responder clock (from_secs (arg_metrics_interval args)).

(** A readable event: what the socket holds until it would block, and for each
    batch the clock and the outcomes of its sends. *)
Record Event := mkEvent {
  ev_incoming : list (recv_outcome (Addr := Addr));
  ev_world : nat -> World;
  ev_sends : nat -> list bool;
}.

Record Iteration := mkIteration {
  it_now : World;
  it_room : bool;
  it_publish : World;
  it_key : World;
  it_signer : bytes;
  it_jitter : Z;
  it_poll_failed : bool;
  it_events : list Event;
}.

Record Batch := mkBatch {
  ba_world : World;
  ba_received : list (bytes * Addr);
  ba_sent : list (Addr * bytes);
}.

Definition set_handlers (wk : Worker) (net : NetworkHandler) (req : RequestHandler (B := B) (Addr := Addr)) : Worker :=
  mkWorker (wk_id wk) (wk_clock wk) net req (wk_published wk) (wk_key_interval wk) (wk_metrics_interval wk)
    (wk_next_key wk) (wk_next_metrics wk).

(** [publish_metrics]: the snapshot is dropped if the channel has no room. *)
Definition publish_metrics {E} (room : bool) (w : World) (wk : Worker) : res E Worker :=
  let snapshot := mkWorkerMetrics (wk_id wk) (nh_metrics (wk_net wk)) (rq_metrics (wk_req wk))
    (rq_response_metrics (wk_req wk)) in
  let published := if room then wk_published wk ++ [snapshot] else wk_published wk in
  next ← u64_add (epoch_seconds w (wk_clock wk)) (as_secs (wk_metrics_interval wk));
  Ok (mkWorker (wk_id wk) (wk_clock wk) (reset_network_metrics (wk_net wk)) (rq_reset_metrics (wk_req wk))
        published (wk_key_interval wk) (wk_metrics_interval wk) (wk_next_key wk) next).

(** [replace_online_key]; [jitter] is [fastrand::u8(0..u8::MAX)], so 0 to 254. *)
Definition wk_replace_online_key {E} (w : World) (signer : bytes) (jitter : Z) (wk : Worker) : res E Worker :=
  req ← rq_replace_online_key w (wk_req wk) signer;
  _ ← rq_public_key req;
  delay ← u64_sub (as_secs (wk_key_interval wk)) jitter;
  next ← u64_add (wk_next_key wk) delay;
  Ok (mkWorker (wk_id wk) (wk_clock wk) (wk_net wk) req (wk_published wk) (wk_key_interval wk)
        (wk_metrics_interval wk) next (wk_next_metrics wk)).

(** One turn of the loop over a readable socket: collect, answer, send. *)
Definition serve_batch {E} (w : World) (sends : list bool) (sock : list recv_outcome) (wk : Worker)
    : res E (CollectResult * list recv_outcome * Worker * Batch) :=
  r ← nh_collect_requests (wk_net wk) collect_request sock (wk_req wk);
  let '(result, sock', net, req) := r in
  g ← generate_responses w req;
  Ok (result, sock', set_handlers wk (send_responses net sends g.2) g.1,
      mkBatch w (taken (nh_batch_size (wk_net wk)) sock) g.2).

(** [loop { .. if collect_result == Empty { break } }] *)
Fixpoint drain {E} (fuel i : nat) (ev : Event) (sock : list recv_outcome) (wk : Worker)
    : option (res E (Worker * list Batch)) :=
  match fuel with
  | O => None
  | S fuel' =>
      match serve_batch (E := E) (ev_world ev i) (ev_sends ev i) sock wk with
      | Ok (Empty, _, wk', b) => Some (Ok (wk', [b]))
      | Ok (MoreData, sock', wk', b) =>
          match drain fuel' (S i) ev sock' wk' with
          | Some (Ok (wk'', bs)) => Some (Ok (wk'', b :: bs))
          | out => out
          end
      | Err e => Some (Err e)
      | Panic => Some Panic
      end
  end.

(** Enough turns: each one but the last takes something off the socket. *)
Definition drain_fuel (ev : Event) : nat := S (length (ev_incoming ev)).

Fixpoint serve_events {E} (evs : list Event) (wk : Worker) : option (res E (Worker * list Batch)) :=
  match evs with
  | [] => Some (Ok (wk, []))
  | ev :: evs' =>
      match drain (drain_fuel ev) 0 ev (ev_incoming ev) wk with
      | Some (Ok (wk', bs)) =>
          match serve_events evs' wk' with
          | Some (Ok (wk'', bs')) => Some (Ok (wk'', bs ++ bs'))
          | out => out
          end
      | out => out
      end
  end.

(** The body of [while keep_running]. *)
Definition prepare {E} (it : Iteration) (wk : Worker) : res E Worker :=
  let now := epoch_seconds (it_now it) (wk_clock wk) in
  wk ← (if (wk_next_metrics wk <=? now)%Z then publish_metrics (it_room it) (it_publish it) wk else Ok wk);
  wk ← (if (wk_next_key wk <=? now)%Z
        then wk_replace_online_key (it_key it) (it_signer it) (it_jitter it) wk else Ok wk);
  Ok (if it_poll_failed it then set_handlers wk (record_failed_poll (wk_net wk)) (wk_req wk) else wk).

Definition iteration {E} (it : Iteration) (wk : Worker) : option (res E (Worker * list Batch)) :=
  match prepare it wk with
  | Ok wk' => serve_events (it_events it) wk'
  | Err e => Some (Err e)
  | Panic => Some Panic
  end.

(** [run]: the passes until [keep_running] is cleared. *)
Fixpoint run {E} (its : list Iteration) (wk : Worker) : option (res E (Worker * list Batch)) :=
  match its with
  | [] => Some (Ok (wk, []))
  | it :: its' =>
      match iteration it wk with
      | Some (Ok (wk', bs)) =>
          match run its' wk' with
          | Some (Ok (wk'', bs')) => Some (Ok (wk'', bs ++ bs'))
          | out => out
          end
      | out => out
      end
  end.

(** ** Correctness *)

Context {CL : CryptoLaws C} `{!LawfulSeedBackend B}.
#[local] Set Default Proof Using "Type*".

Definition wk_handler (wk : Worker) : ResponseHandler (B := B) (Addr := Addr) := responder (wk_req wk).

(** What holds between batches. *)
Record worker_inv (sk : bytes) (v : ProtocolVersion) (wk : Worker) : Prop := {
  wi_pending : pending_inv sk (wk_handler wk) [];
  wi_version : rh_version (wk_handler wk) = v;
  wi_batch : nh_batch_size (wk_net wk) = rh_batch_size (wk_handler wk);
  wi_clock : ks_clock (rh_key_source (wk_handler wk)) = wk_clock wk;
  wi_validity : as_secs (ks_validity (rh_key_source (wk_handler wk))) = as_secs (wk_key_interval wk);
}.

(** What a batch does for its clients: one frame per accepted datagram, to the
    address it came from, with the fate of a reply of this certificate. *)
Definition batch_served (sk : bytes) (v : ProtocolVersion) (clock : ClockSource) (cert : Certificate)
    (b : Batch) : Prop :=
  let accepted := omap accept_from (ba_received b) in
  let t := epoch_seconds (ba_world b) clock in
  length (ba_sent b) = length accepted /\
  forall i a, accepted !! i = Some a ->
    exists frame, ba_sent b !! i = Some (acc_src a, frame) /\ reply_fate sk v cert t a frame.

(** The frames of a batch are the replies of a handler, whose certificate is [cert],
    to the requests accepted in it. *)
Definition batch_answered (sk : bytes) (v : ProtocolVersion) (clock : ClockSource) (b : Batch) : Prop :=
  let accepted := omap accept_from (ba_received b) in
  length (ba_sent b) = length accepted /\
  (accepted <> [] ->
  exists h : ResponseHandler (B := B) (Addr := Addr), rh_version h = v /\ ks_clock (rh_key_source h) = clock /\
    rh_requests h = map (fun a => mkPending (acc_request a) (acc_src a)) accepted /\
    batch_replies sk (ba_world b) h (batch_leaves v accepted) (ba_sent b)).

Definition batch_kept (sk : bytes) (v : ProtocolVersion) (clock : ClockSource) (cert : Certificate) (b : Batch) : Prop :=
  batch_served sk v clock cert b /\ batch_answered sk v clock b.

(** The datagrams a socket delivers until a read would block. *)
Fixpoint readable (sock : list (recv_outcome (Addr := Addr))) : list (bytes * Addr) :=
  match sock with
  | [] | WouldBlock :: _ => []
  | Received d src :: sock' => (take RECV_BUFFER_SIZE d, src) :: readable sock'
  | RecvError :: sock' => readable sock'
  end.

(** The batches that a socket's contents make, [n] at most in each, and their sizes. *)
Fixpoint turns (fuel n : nat) (sock : list (recv_outcome (Addr := Addr))) : list (list (bytes * Addr)) :=
  match fuel with
  | O => []
  | S fuel' =>
      taken n sock :: match stopped n sock with
                      | (MoreData, sock') => turns fuel' n sock'
                      | (Empty, _) => []
                      end
  end.
Definition accepted_size (ds : list (bytes * Addr)) : nat := length (omap accept_from ds).
Definition turn_sizes (fuel n : nat) (sock : list (recv_outcome (Addr := Addr))) : list nat :=
  map accepted_size (turns fuel n sock).
Definition events_sizes (n : nat) (evs : list Event) : list nat :=
  concat (map (fun ev => turn_sizes (drain_fuel ev) n (ev_incoming ev)) evs).

(** The histogram of batch sizes, which overflow checks watch. *)
Definition wk_counts (wk : Worker) : list Z := batch_sizes (rq_response_metrics (wk_req wk)).
Definition roomy (counts : list Z) (sizes : list nat) : Prop :=
  debug_build = false \/ sizes_room counts sizes = true.

(** What serving batches of these sizes does to the metrics and their timer. *)
Record tallied_sizes (wk wk' : Worker) (sizes : list nat) : Prop := {
  ts_counts : wk_counts wk' = tally_sizes (wk_counts wk) sizes;
  ts_next : wk_next_metrics wk' = wk_next_metrics wk;
}.

Lemma tallied_sizes_app wk1 wk2 wk3 xs ys :
  tallied_sizes wk1 wk2 xs -> tallied_sizes wk2 wk3 ys -> tallied_sizes wk1 wk3 (xs ++ ys).
Proof using Type.
  intros [H1 H2] [H3 H4]. split; [|congruence]. unfold tally_sizes in *. by rewrite foldl_app, <-H1.
Qed.

Lemma roomy_cons counts size sizes : roomy counts (size :: sizes) ->
  (debug_build = false \/ size_room counts size = true) /\ roomy (tally_size counts size) sizes.
Proof using Type. intros [?|H]; [by split; left|]. apply andb_prop in H as [H1 H2]. by split; right. Qed.

Lemma roomy_app counts xs ys : roomy counts (xs ++ ys) ->
  roomy counts xs /\ roomy (tally_sizes counts xs) ys.
Proof using Type.
  intros [?|H]; [by split; left|]. rewrite sizes_room_app in H. apply andb_prop in H as [H1 H2]. by split; right.
Qed.

(** What serving leaves as it was. *)
Record same_worker (wk wk' : Worker) : Prop := {
  sw_config : same_config (wk_handler wk) (wk_handler wk');
  sw_clock : wk_clock wk' = wk_clock wk;
  sw_interval : wk_key_interval wk' = wk_key_interval wk;
  sw_next : wk_next_key wk' = wk_next_key wk;
  sw_metrics : wk_metrics_interval wk' = wk_metrics_interval wk;
}.

Lemma same_worker_refl wk : same_worker wk wk.
Proof using Type. done. Qed.

Lemma same_worker_trans wk1 wk2 wk3 : same_worker wk1 wk2 -> same_worker wk2 wk3 -> same_worker wk1 wk3.
Proof using Type. intros [] []. split; [by eapply same_config_trans|congruence..]. Qed.

Lemma same_worker_inv sk v wk wk' : same_worker wk wk' -> worker_inv sk v wk ->
  pending_inv sk (wk_handler wk') [] -> nh_batch_size (wk_net wk') = rh_batch_size (wk_handler wk') ->
  worker_inv sk v wk'.
Proof using Type.
  intros [[Hb Hv Hk Hc] Hcl Hi _ _] [_ H2 H3 H4 H5] Hp Hn. split; [done|congruence|done| |]; rewrite Hk; congruence.
Qed.

Lemma send_responses_batch_size (frames : list (Addr * bytes)) : forall n sends,
  nh_batch_size (send_responses n sends frames) = nh_batch_size n.
Proof using Type. induction frames as [|f frames IH]; intros n sends; cbn; [done|]. by rewrite IH. Qed.

Lemma same_worker_batch sk v wk wk' : same_worker wk wk' -> worker_inv sk v wk -> worker_inv sk v wk' ->
  nh_batch_size (wk_net wk') = nh_batch_size (wk_net wk).
Proof using Type.
  intros Hs Hi Hi'. rewrite (wi_batch _ _ _ Hi), (wi_batch _ _ _ Hi'). apply (sc_batch_size _ _ (sw_config _ _ Hs)).
Qed.

Lemma serve_batch_spec {E} sk v w sends sock wk :
  let n := nh_batch_size (wk_net wk) in
  debug_build = false \/ size_room (wk_counts wk) (accepted_size (taken n sock)) = true ->
  worker_inv sk v wk -> world_wf w ->
  exists wk' b, serve_batch (E := E) w sends sock wk = Ok ((stopped n sock).1, (stopped n sock).2, wk', b) /\
    worker_inv sk v wk' /\ same_worker wk wk' /\ nh_batch_size (wk_net wk') = n /\
    ba_world b = w /\ ba_received b = taken n sock /\
    batch_kept sk v (wk_clock wk) (rh_cert (wk_handler wk)) b /\
    tallied_sizes wk wk' [accepted_size (taken n sock)].
Proof.
  intros n Hrel Hinv Hw. pose proof Hinv as [Hp Hv Hb Hc Hval]. unfold serve_batch, nh_collect_requests.
  destruct (collect_loop_spec (E := E) sk n sock (nh_metrics (wk_net wk)) (wk_req wk) [] Hp) as
    (m' & req & Hcol & Hp' & Hm & Hsc & Hrm); [cbn; unfold n, wk_handler in *; lia|].
  fold n. rewrite Hcol. cbn [mbind res_bind app] in *.
  destruct (generate_responses_spec (E := E) sk w req _ Hp' Hw) as
    (req' & frames & Hg & Hp'' & Hsc' & Hm' & Hl & Hrep & Hbs).
  { unfold metrics_room. rewrite Hrm, (pi_requests _ _ _ Hp'), length_map. exact Hrel. }
  rewrite Hg. cbn [mbind res_bind fst snd]. eexists _, _. split; [reflexivity|].
  assert (same_worker wk (set_handlers wk (send_responses (mkNetworkHandler n m') sends frames) req')) as Hsame.
  { split; [|done..]. by eapply same_config_trans. }
  assert (nh_batch_size (send_responses (mkNetworkHandler n m') sends frames) = n) as Hn
    by apply send_responses_batch_size.
  split_and!; try done.
  - eapply same_worker_inv; [exact Hsame|exact Hinv|exact Hp''|]. cbn [set_handlers wk_net]. rewrite Hn.
    rewrite (sc_batch_size _ _ (sw_config _ _ Hsame)). exact Hb.
  - split; (split; [exact Hl|]); cbn [ba_received ba_sent ba_world]; [intros i a Hi|intros Hne].
    { pose proof (batch_verdict sk w (responder req) _ frames Hp') as Hver.
    destruct Hsc as [Hs1 Hs2 Hs3 Hs4]. unfold wk_handler in *.
    rewrite Hs2, Hs3, Hs4, Hv, Hc in Hver. rewrite Hs2, Hv in Hrep. cbn zeta in Hver.
    apply Hver; [apply Hrep|done]. intros He. by rewrite He, lookup_nil in Hi. }
    exists (responder req).
    destruct Hsc as [Hs1 Hs2 Hs3 Hs4]. unfold wk_handler in *. rewrite Hs2, Hv in Hrep.
    rewrite Hs2, Hs3. split_and!; [done|done|apply Hp'|by apply Hrep].
  - split; [|done]. unfold wk_counts. cbn [set_handlers wk_req]. rewrite Hbs. unfold rq_response_metrics. by rewrite Hrm.
Qed.

Lemma stopped_length n : forall sock, length (stopped (Addr := Addr) n sock).2 <= length sock.
Proof using Type.
  induction n as [|n IH]; intros sock; cbn [stopped]; [done|].
  destruct sock as [|[d src| |] sock]; cbn [recv_from snd length]; try lia. specialize (IH sock). lia.
Qed.

Lemma stopped_progress n sock : 1 <= n -> (stopped (Addr := Addr) n sock).1 = MoreData ->
  length (stopped n sock).2 < length sock.
Proof using Type.
  intros Hn. destruct n as [|n]; [lia|]. cbn [stopped].
  destruct sock as [|[d src| |] sock]; cbn [recv_from fst snd length]; try done; [|lia].
  intros _. pose proof (stopped_length n sock). lia.
Qed.

Lemma readable_stopped n : forall sock,
  readable sock = taken n sock ++ match (stopped n sock).1 with
                                  | MoreData => readable (stopped n sock).2 | Empty => [] end.
Proof using Type.
  induction n as [|n IH]; intros sock; cbn [taken stopped fst snd]; [done|].
  destruct sock as [|[d src| |] sock]; cbn [recv_from readable fst snd]; try done.
  by rewrite (IH sock).
Qed.

(** A readable socket is drained: with fuel for each outcome it holds, the loop
    ends, having batched every datagram once, and every batch is served under the
    certificate the worker had when it began. *)
Lemma drain_spec {E} sk v ev : (forall j, world_wf (ev_world ev j)) ->
  forall fuel i sock wk, roomy (wk_counts wk) (turn_sizes fuel (nh_batch_size (wk_net wk)) sock) ->
  length sock < fuel -> worker_inv sk v wk ->
  exists wk' bs, drain (E := E) fuel i ev sock wk = Some (Ok (wk', bs)) /\
    worker_inv sk v wk' /\ same_worker wk wk' /\
    concat (map ba_received bs) = readable sock /\
    Forall (fun b => (exists j, ba_world b = ev_world ev j) /\
                     batch_kept sk v (wk_clock wk) (rh_cert (wk_handler wk)) b) bs /\
    tallied_sizes wk wk' (turn_sizes fuel (nh_batch_size (wk_net wk)) sock).
Proof.
  intros Hw. induction fuel as [|fuel IH]; intros i sock wk Hrel Hf Hinv; [lia|]. cbn [drain].
  unfold turn_sizes in Hrel |- *. cbn [turns map] in Hrel |- *. apply roomy_cons in Hrel as [Hrel Hrel'].
  destruct (serve_batch_spec (E := E) sk v (ev_world ev i) (ev_sends ev i) sock wk Hrel Hinv (Hw i)) as
    (wk1 & b & -> & Hinv1 & Hs1 & Hn & Hbw & Hbr & Hsrv & Hts).
  pose proof (readable_stopped (nh_batch_size (wk_net wk)) sock) as Hread.
  pose proof (stopped_progress (nh_batch_size (wk_net wk)) sock) as Hprog.
  assert (1 <= nh_batch_size (wk_net wk)) as Hn1.
  { rewrite (wi_batch _ _ _ Hinv). apply (pi_handler _ _ _ (wi_pending _ _ _ Hinv)). }
  destruct (stopped (nh_batch_size (wk_net wk)) sock) as [[|] sock'] eqn:Hst; cbn [fst snd] in *.
  - exists wk1, [b]. split_and!; try done.
    + cbn. by rewrite Hbr, Hread.
    + apply Forall_cons. split; [|by apply Forall_nil]. split; [by exists i|done].
  - destruct (IH (S i) sock' wk1) as (wk2 & bs & -> & Hinv2 & Hs2 & Hcat & Hall & Hts2); [| |done|].
    { rewrite (ts_counts _ _ _ Hts), Hn. exact Hrel'. }
    { specialize (Hprog Hn1 eq_refl). lia. }
    exists wk2, (b :: bs). split_and!; try done.
    + by eapply same_worker_trans.
    + cbn [map concat]. by rewrite Hbr, Hcat, Hread.
    + apply Forall_cons. split; [split; [by exists i|done]|].
      by rewrite (sw_clock _ _ Hs1), (sc_cert _ _ (sw_config _ _ Hs1)) in Hall.
    + rewrite Hn in Hts2. by eapply (tallied_sizes_app _ _ _ [_]).
Qed.

Lemma serve_events_spec {E} sk v :
  forall evs wk, roomy (wk_counts wk) (events_sizes (nh_batch_size (wk_net wk)) evs) ->
  Forall (fun ev => forall j, world_wf (ev_world ev j)) evs -> worker_inv sk v wk ->
  exists wk' bs, serve_events (E := E) evs wk = Some (Ok (wk', bs)) /\
    worker_inv sk v wk' /\ same_worker wk wk' /\
    concat (map ba_received bs) = concat (map (fun ev => readable (ev_incoming ev)) evs) /\
    Forall (fun b => (exists ev j, ev ∈ evs /\ ba_world b = ev_world ev j) /\
                     batch_kept sk v (wk_clock wk) (rh_cert (wk_handler wk)) b) bs /\
    tallied_sizes wk wk' (events_sizes (nh_batch_size (wk_net wk)) evs).
Proof.
  induction evs as [|ev evs IH]; intros wk Hrel Hw Hinv; cbn [serve_events].
  { exists wk, []. split_and!; try done; by apply Forall_nil. }
  apply Forall_cons in Hw as [Hw Hws]. apply roomy_app in Hrel as [Hrel Hrel'].
  destruct (drain_spec (E := E) sk v ev Hw (drain_fuel ev) 0 (ev_incoming ev) wk Hrel) as
    (wk1 & bs1 & -> & Hinv1 & Hs1 & Hc1 & Hb1 & Ht1); [unfold drain_fuel; lia|done|].
  pose proof (same_worker_batch sk v _ _ Hs1 Hinv Hinv1) as Hn.
  destruct (IH wk1) as (wk2 & bs2 & -> & Hinv2 & Hs2 & Hc2 & Hb2 & Ht2); [|done|done|].
  { rewrite Hn, (ts_counts _ _ _ Ht1). exact Hrel'. }
  exists wk2, (bs1 ++ bs2). split_and!; try done.
  - by eapply same_worker_trans.
  - by rewrite map_app, concat_app, Hc1, Hc2.
  - rewrite (sw_clock _ _ Hs1), (sc_cert _ _ (sw_config _ _ Hs1)) in Hb2. apply Forall_app. split.
    + eapply Forall_impl; [exact Hb1|]. intros b [[j Hj] Hb]. split; [|done].
      exists ev, j. split; [by left|done].
    + eapply Forall_impl; [exact Hb2|]. intros b [(ev' & j & He & Hj) Hb]. split; [|done].
      exists ev', j. split; [by right|done].
  - rewrite Hn in Ht2. by eapply tallied_sizes_app.
Qed.

(** ** Preparation *)

Lemma reset_metrics_pending sk (h : ResponseHandler (B := B) (Addr := Addr)) batch : pending_inv sk h batch -> pending_inv sk (rh_reset_metrics h) batch.
Proof using Type.
  intros [[] Hr Ha]. split; [|done|done]. split; try done. apply default_metrics_wf.
Qed.

Definition zero_counts : list Z := replicate MAX_BATCH_SIZE 0%Z.

Lemma publish_metrics_spec {E} sk v room w wk :
  let next := (epoch_seconds w (wk_clock wk) + as_secs (wk_metrics_interval wk))%Z in
  debug_build = false \/ (next <= u64_max)%Z -> worker_inv sk v wk ->
  exists wk', publish_metrics (E := E) room w wk = Ok wk' /\ worker_inv sk v wk' /\ same_worker wk wk' /\
    wk_counts wk' = zero_counts /\ ((next <= u64_max)%Z -> wk_next_metrics wk' = next).
Proof using Type.
  intros next Hrel [Hp Hv Hb Hc Hval]. unfold publish_metrics.
  destruct (u64_add_ok (E := E) (epoch_seconds w (wk_clock wk)) (as_secs (wk_metrics_interval wk)) Hrel)
    as (next' & -> & Hn).
  cbn [mbind res_bind]. eexists. split; [reflexivity|]. split; [|done].
  split; try done. by apply reset_metrics_pending.
Qed.

Lemma public_key_ok {E} sk (h : ResponseHandler (B := B) (Addr := Addr)) batch : pending_inv sk h batch -> exists pk, rh_public_key (E := E) h = Ok pk.
Proof.
  intros [Hh _ _]. unfold rh_public_key, PublicKey_from, copy_from_slice.
  destruct (rh_online_key h) as [k|k]; unfold ok14_public_key_bytes, ok08_public_key_bytes;
    rewrite ed_public_length; by eexists.
Qed.

(** A new certificate, and the next replacement an interval less the jitter later. *)
Lemma wk_replace_online_key_spec {E} sk v w signer jitter wk :
  debug_build = false \/ ((jitter <= as_secs (wk_key_interval wk))%Z /\
    (wk_next_key wk + (as_secs (wk_key_interval wk) - jitter) <= u64_max)%Z) ->
  worker_inv sk v wk -> world_wf w ->
  exists wk', wk_replace_online_key (E := E) w signer jitter wk = Ok wk' /\ worker_inv sk v wk' /\
    wk_clock wk' = wk_clock wk /\ wk_key_interval wk' = wk_key_interval wk /\
    wk_metrics_interval wk' = wk_metrics_interval wk /\
    window (rh_cert (wk_handler wk')) (epoch_seconds w (wk_clock wk)) (as_secs (wk_key_interval wk)) /\
    ((jitter <= as_secs (wk_key_interval wk))%Z ->
     (wk_next_key wk + (as_secs (wk_key_interval wk) - jitter) <= u64_max)%Z ->
     wk_next_key wk' = (wk_next_key wk + (as_secs (wk_key_interval wk) - jitter))%Z) /\
    tallied_sizes wk wk' [] /\ wk_net wk' = wk_net wk.
Proof.
  intros Hrel [[Hp Hr Ha] Hv Hb Hc Hval] Hw. unfold wk_replace_online_key, rq_replace_online_key.
  destruct (replace_online_key_inv (E := E) sk w (wk_handler wk) _ signer Hp Hw) as
    (h' & Hrep & Hh' & Hr' & Hv' & Hb' & Hm' & Hc' & Hval' & Hwin).
  unfold wk_handler in *. rewrite Hrep. cbn [mbind res_bind].
  assert (pending_inv sk h' []) as Hp' by (split; [exact Hh'|by rewrite Hr'|done]).
  destruct (public_key_ok (E := E) sk h' [] Hp') as [pk Hpk].
  unfold rq_public_key. cbn [responder]. rewrite Hpk. cbn [mbind res_bind].
  destruct (u64_sub_ok (E := E) (as_secs (wk_key_interval wk)) jitter) as (delay & -> & Hdelay); [tauto|].
  cbn [mbind res_bind].
  destruct (u64_add_ok (E := E) (wk_next_key wk) delay) as (next & -> & Hnext).
  { destruct Hrel as [?|[Hj Hn]]; [by left|]. right. by rewrite (Hdelay Hj). }
  cbn [mbind res_bind]. eexists. split; [reflexivity|]. split_and!; try done.
  - split; unfold wk_handler; cbn [wk_req wk_net wk_clock wk_key_interval responder]; [done|congruence..].
  - unfold wk_handler. cbn [wk_req responder]. by rewrite Hc, Hval in Hwin.
  - cbn [wk_next_key]. intros Hj Hn. specialize (Hdelay Hj). subst delay. by apply Hnext.
  - split; [|done]. unfold wk_counts, rq_response_metrics. cbn [wk_req responder]. by rewrite Hm'.
Qed.

(** What a pass reads of its surroundings is well-formed. *)
Record iteration_wf (it : Iteration) : Prop := {
  iw_key : world_wf (it_key it);
  iw_events : Forall (fun ev => forall j, world_wf (ev_world ev j)) (it_events it);
}.

(** The histogram and the metrics timer that a pass serves with: a publication that
    is due resets the one and sets the other. *)
Definition prepared_counts (now next : Z) (counts : list Z) : list Z :=
  if (next <=? now)%Z then zero_counts else counts.
Definition prepared_timer (now next published interval : Z) : Z :=
  if (next <=? now)%Z then (published + interval)%Z else next.

(** The timers' additions do not overflow, or overflow wraps. *)
Definition calm (it : Iteration) (wk : Worker) : Prop :=
  let now := epoch_seconds (it_now it) (wk_clock wk) in
  let interval := as_secs (wk_key_interval wk) in
  debug_build = false \/
  ((prepared_timer now (wk_next_metrics wk) (epoch_seconds (it_publish it) (wk_clock wk))
      (as_secs (wk_metrics_interval wk)) <= u64_max)%Z /\
   ((wk_next_key wk <= now)%Z ->
    (it_jitter it <= interval)%Z /\ (wk_next_key wk + (interval - it_jitter it) <= u64_max)%Z)).

(** The publication, when it is due. *)
Lemma publish_due_spec {E} sk v it wk :
  let now := epoch_seconds (it_now it) (wk_clock wk) in
  let next := prepared_timer now (wk_next_metrics wk) (epoch_seconds (it_publish it) (wk_clock wk))
    (as_secs (wk_metrics_interval wk)) in
  debug_build = false \/ (next <= u64_max)%Z -> worker_inv sk v wk ->
  exists wk', (if (wk_next_metrics wk <=? now)%Z
      then publish_metrics (E := E) (it_room it) (it_publish it) wk else Ok wk) = Ok wk' /\
    worker_inv sk v wk' /\ same_worker wk wk' /\
    wk_counts wk' = prepared_counts now (wk_next_metrics wk) (wk_counts wk) /\
    ((next <= u64_max)%Z -> wk_next_metrics wk' = next).
Proof using Type.
  intros now next. unfold next, prepared_timer, prepared_counts.
  destruct (wk_next_metrics wk <=? now)%Z; [by apply publish_metrics_spec|]. intros _ Hinv. by exists wk.
Qed.

(** The key is replaced exactly when it is due; everything else that matters to
    the clients stays. *)
Lemma prepare_spec {E} sk v it wk :
  calm it wk -> worker_inv sk v wk -> iteration_wf it ->
  let now := epoch_seconds (it_now it) (wk_clock wk) in
  let interval := as_secs (wk_key_interval wk) in
  let next := prepared_timer now (wk_next_metrics wk) (epoch_seconds (it_publish it) (wk_clock wk))
    (as_secs (wk_metrics_interval wk)) in
  exists wk', prepare (E := E) it wk = Ok wk' /\ worker_inv sk v wk' /\
    wk_clock wk' = wk_clock wk /\ wk_key_interval wk' = wk_key_interval wk /\
    (((now < wk_next_key wk)%Z /\ rh_cert (wk_handler wk') = rh_cert (wk_handler wk) /\
      wk_next_key wk' = wk_next_key wk) \/
     ((wk_next_key wk <= now)%Z /\
      window (rh_cert (wk_handler wk')) (epoch_seconds (it_key it) (wk_clock wk)) interval /\
      ((it_jitter it <= interval)%Z -> (wk_next_key wk + (interval - it_jitter it) <= u64_max)%Z ->
       wk_next_key wk' = (wk_next_key wk + (interval - it_jitter it))%Z))) /\
    wk_metrics_interval wk' = wk_metrics_interval wk /\
    nh_batch_size (wk_net wk') = nh_batch_size (wk_net wk) /\
    wk_counts wk' = prepared_counts now (wk_next_metrics wk) (wk_counts wk) /\
    ((next <= u64_max)%Z -> wk_next_metrics wk' = next).
Proof.
  intros Hcalm Hinv [Hw _] now interval next. unfold prepare. fold now.
  destruct (publish_due_spec (E := E) sk v it wk) as (wk1 & Hp1 & Hinv1 & Hs1 & Hc1 & Hn1);
    [destruct Hcalm as [?|[? _]]; [by left|by right]|done|].
  fold now next in Hp1, Hc1, Hn1. rewrite Hp1. cbn [mbind res_bind].
  pose proof (same_worker_batch sk v _ _ Hs1 Hinv Hinv1) as Hb1.
  destruct Hs1 as [[_ _ _ Hcert] Hcl Hiv Hnx Hmi]. rewrite Hnx.
  assert (forall wk2, worker_inv sk v wk2 ->
    worker_inv sk v (if it_poll_failed it
      then set_handlers wk2 (record_failed_poll (wk_net wk2)) (wk_req wk2) else wk2)) as Hpoll.
  { intros wk2 []. by destruct (it_poll_failed it). }
  destruct (Z.leb_spec (wk_next_key wk) now) as [Hdue|Hdue].
  - destruct (wk_replace_online_key_spec (E := E) sk v (it_key it) (it_signer it) (it_jitter it) wk1)
      as (wk2 & -> & Hinv2 & Hcl2 & Hiv2 & Hmi2 & Hwin & Hnext & [Hc2 Hn2] & Hb2); [|done|done|].
    { rewrite Hnx, Hiv. destruct Hcalm as [?|[_ Hk]]; [by left|right; by apply Hk]. }
    cbn [mbind res_bind]. eexists. split; [reflexivity|]. split; [by apply Hpoll|].
    apply (f_equal nh_batch_size) in Hb2. rewrite Hcl, Hiv, Hnx, Hc1, Hmi, Hb1 in *.
    destruct (it_poll_failed it); (split_and!; [done|done|right; by split_and!|done|done|done|]);
      cbn [wk_next_metrics set_handlers]; rewrite Hn2; exact Hn1.
  - cbn [mbind res_bind]. eexists. split; [reflexivity|]. split; [by apply Hpoll|].
    destruct (it_poll_failed it); (split_and!; [done|done|left; by split_and!|done|done|done|exact Hn1]).
Qed.

Lemma iteration_spec {E} sk v it wk :
  let now := epoch_seconds (it_now it) (wk_clock wk) in
  let sizes := events_sizes (nh_batch_size (wk_net wk)) (it_events it) in
  calm it wk -> roomy (prepared_counts now (wk_next_metrics wk) (wk_counts wk)) sizes ->
  worker_inv sk v wk -> iteration_wf it ->
  exists wk0 wk' bs, prepare (E := E) it wk = Ok wk0 /\ iteration (E := E) it wk = Some (Ok (wk', bs)) /\
    worker_inv sk v wk' /\ same_worker wk0 wk' /\
    concat (map ba_received bs) = concat (map (fun ev => readable (ev_incoming ev)) (it_events it)) /\
    Forall (fun b => (exists ev j, ev ∈ it_events it /\ ba_world b = ev_world ev j) /\
                     batch_kept sk v (wk_clock wk0) (rh_cert (wk_handler wk0)) b) bs /\
    tallied_sizes wk0 wk' sizes.
Proof.
  intros now sizes Hcalm Hroom Hinv Hwf.
  destruct (prepare_spec (E := E) sk v it wk Hcalm Hinv Hwf) as (wk0 & Hp & Hinv0 & _ & _ & _ & _ & Hb & Hc & _).
  fold now in Hc.
  destruct (serve_events_spec (E := E) sk v (it_events it) wk0) as
    (wk' & bs & Hs & Hinv' & Hsame & Hcat & Hbs & Hts); [by rewrite Hc, Hb|apply Hwf|done|].
  rewrite Hb in Hts. exists wk0, wk', bs. unfold iteration. rewrite Hp, Hs. done.
Qed.

(** *** The online key covers the responses it signs *)

(** The delegation began at a time up to [last], and the next replacement is due
    before it ends. *)
Definition fresh (wk : Worker) (last : Z) : Prop :=
  exists created, window (rh_cert (wk_handler wk)) created (as_secs (wk_key_interval wk)) /\
    (0 <= created <= last)%Z /\ (created + as_secs (wk_key_interval wk) <= u64_max)%Z /\
    (0 <= wk_next_key wk <= created + as_secs (wk_key_interval wk))%Z.

(** A pass whose clocks do not run backwards and whose batches are signed within a
    second of its start: it reaches the socket in 350 ms of polling, and serves no
    event for longer than that. *)
Record prompt (clock : ClockSource) (interval last : Z) (it : Iteration) : Prop := {
  pr_wf : iteration_wf it;
  pr_jitter : (0 <= it_jitter it < 255)%Z;
  pr_now : (last <= epoch_seconds (it_now it) clock <= epoch_seconds (it_key it) clock)%Z;
  pr_range : (epoch_seconds (it_key it) clock + interval <= u64_max)%Z;
  pr_batches : Forall (fun ev => forall j,
    (epoch_seconds (it_key it) clock <= epoch_seconds (ev_world ev j) clock <=
     epoch_seconds (it_now it) clock + 1)%Z) (it_events it);
}.

(** A run of prompt passes, each starting after the previous one's key clock. *)
Fixpoint prompt_run (clock : ClockSource) (interval last : Z) (its : list Iteration) : Prop :=
  match its with
  | [] => True
  | it :: its' => prompt clock interval last it /\
      prompt_run clock interval (epoch_seconds (it_key it) clock) its'
  end.

(** A prompt pass of a fresh worker adds up its key timer without overflow. *)
Lemma calm_prompt it wk last :
  fresh wk last -> (255 <= as_secs (wk_key_interval wk))%Z ->
  prompt (wk_clock wk) (as_secs (wk_key_interval wk)) last it ->
  debug_build = false \/
  (prepared_timer (epoch_seconds (it_now it) (wk_clock wk)) (wk_next_metrics wk)
    (epoch_seconds (it_publish it) (wk_clock wk)) (as_secs (wk_metrics_interval wk)) <= u64_max)%Z ->
  calm it wk.
Proof using Type.
  intros (created & _ & Hcr & Hmax & Hnx) Hint [_ Hj Hnow Hrange _] [?|Ht]; [by left|right].
  split; [done|]. intros Hdue. lia.
Qed.

Lemma prepare_fresh {E} sk v it wk last wk0 :
  calm it wk -> worker_inv sk v wk -> fresh wk last -> (255 <= as_secs (wk_key_interval wk))%Z ->
  prompt (wk_clock wk) (as_secs (wk_key_interval wk)) last it -> prepare (E := E) it wk = Ok wk0 ->
  fresh wk0 (epoch_seconds (it_key it) (wk_clock wk)) /\ wk_clock wk0 = wk_clock wk /\
  wk_key_interval wk0 = wk_key_interval wk /\
  forall t, (epoch_seconds (it_key it) (wk_clock wk) <= t <= epoch_seconds (it_now it) (wk_clock wk) + 1)%Z ->
    within (rh_cert (wk_handler wk0)) t.
Proof.
  intros Hrel Hinv (created & Hwin & Hcr & Hmax & Hnx) Hint [Hwf Hj Hnow Hrange _] Hp.
  destruct (prepare_spec (E := E) sk v it wk Hrel Hinv Hwf) as (wk' & Hp' & _ & Hcl & Hiv & Hcase & _).
  rewrite Hp in Hp'. injection Hp' as <-. unfold fresh, within, window, u64_saturating_add in *. rewrite Hiv, Hcl.
  destruct Hcase as [(Hdue & Hcert & Hnext)|(Hdue & [Hmin' Hmax'] & Hnext)].
  - split_and!; try done.
    + exists created. rewrite Hcert, Hnext. split_and!; try done; lia.
    + intros t Ht. rewrite Hcert. destruct Hwin as [-> ->]. lia.
  - specialize (Hnext ltac:(lia) ltac:(lia)). split_and!; try done.
    + eexists. split; [split; [exact Hmin'|exact Hmax']|]. rewrite Hnext. lia.
    + intros t Ht. rewrite Hmin', Hmax'. lia.
Qed.

(** Every accepted datagram of a batch is answered, to the satisfaction of the
    client that sent it if that is of the server's version; the other client's
    parser refuses the answer. *)
Definition batch_validates (sk : bytes) (v : ProtocolVersion) (clock : ClockSource) (b : Batch) : Prop :=
  let accepted := omap accept_from (ba_received b) in
  length (ba_sent b) = length accepted /\
  forall i a, accepted !! i = Some a ->
    exists frame, ba_sent b !! i = Some (acc_src a, frame) /\
      (made_by v a -> client_verdict v (identity_key sk) a frame (Ok (epoch_seconds (ba_world b) clock))) /\
      (request_version (acc_request a) <> v -> client_refuses (request_version (acc_request a)) frame).

Lemma batch_served_within sk v clock cert b : batch_served sk v clock cert b ->
  within cert (epoch_seconds (ba_world b) clock) -> batch_validates sk v clock b.
Proof using Type.
  intros [Hl Hs] Hw. split; [done|]. intros i a Hi.
  destruct (Hs i a Hi) as (frame & Hf & [Hv _ Ho]). exists frame. split; [done|]. split; [|exact Ho].
  intros [_ Hsuit]. by apply Hv.
Qed.

(** Passes whose metrics fit their counters: with [counts] so far and the next
    publication at [next], no pass makes more than 255 batches of a size since the
    last publication, and the timer does not overflow. *)
Fixpoint paced (clock : ClockSource) (n : nat) (interval : Z) (counts : list Z) (next : Z)
    (its : list Iteration) : Prop :=
  match its with
  | [] => True
  | it :: its' =>
      let now := epoch_seconds (it_now it) clock in
      let counts := prepared_counts now next counts in
      let next := prepared_timer now next (epoch_seconds (it_publish it) clock) interval in
      let sizes := events_sizes n (it_events it) in
      (next <= u64_max)%Z /\ sizes_room counts sizes = true /\
      paced clock n interval (tally_sizes counts sizes) next its'
  end.

(** Such passes, or any where overflow wraps. *)
Definition wk_paced (wk : Worker) (its : list Iteration) : Prop :=
  debug_build = false \/
  paced (wk_clock wk) (nh_batch_size (wk_net wk)) (as_secs (wk_metrics_interval wk)) (wk_counts wk)
    (wk_next_metrics wk) its.

Lemma run_spec {E} sk v : forall its wk last,
  wk_paced wk its ->
  worker_inv sk v wk -> fresh wk last -> (255 <= as_secs (wk_key_interval wk))%Z ->
  prompt_run (wk_clock wk) (as_secs (wk_key_interval wk)) last its ->
  exists wk' bs, run (E := E) its wk = Some (Ok (wk', bs)) /\ worker_inv sk v wk' /\
    concat (map ba_received bs) =
      concat (map (fun it => concat (map (fun ev => readable (ev_incoming ev)) (it_events it))) its) /\
    Forall (batch_validates sk v (wk_clock wk)) bs.
Proof.
  induction its as [|it its IH]; intros wk last Hrel Hinv Hfresh Hint Hrun; cbn [run].
  { exists wk, []. split_and!; try done.  }
  destruct Hrun as [Hp Hrun].
  assert (calm it wk) as Hcalm.
  { eapply calm_prompt; [done..|]. destruct Hrel as [?|[? _]]; [by left|by right]. }
  destruct (iteration_spec (E := E) sk v it wk Hcalm) as
    (wk0 & wk1 & bs1 & Hprep & -> & Hinv1 & Hs1 & Hc1 & Hb1 & Ht1); [|done|apply Hp|].
  { destruct Hrel as [?|(_ & Hroom & _)]; [by left|by right]. }
  destruct (prepare_spec (E := E) sk v it wk Hcalm Hinv (pr_wf _ _ _ _ Hp)) as
    (wk0' & Hprep' & Hinv0 & _ & _ & _ & Hmi0 & Hb0 & Hct0 & Hnx0).
  rewrite Hprep in Hprep'. injection Hprep' as <-.
  destruct (prepare_fresh (E := E) sk v it wk last wk0 Hcalm Hinv Hfresh Hint Hp Hprep) as
    (Hfr0 & Hcl0 & Hiv0 & Hwin).
  pose proof (same_worker_batch sk v _ _ Hs1 Hinv0 Hinv1) as Hbt1.
  destruct Hs1 as [Hcfg Hcl1 Hiv1 Hnx1 Hmi1].
  destruct (IH wk1 (epoch_seconds (it_key it) (wk_clock wk))) as (wk2 & bs2 & -> & Hinv2 & Hc2 & Hb2).
  { destruct Hrel as [?|(Hn & _ & Hpaced)]; [by left|right].
    rewrite Hcl1, Hcl0, Hbt1, Hb0, Hmi1, Hmi0, (ts_counts _ _ _ Ht1), (ts_next _ _ _ Ht1), Hct0, (Hnx0 Hn).
    exact Hpaced. }
  { done. }
  { destruct Hfr0 as (created & Hfr0). exists created.
    by rewrite (sc_cert _ _ Hcfg), Hiv1, Hnx1. }
  { by rewrite Hiv1, Hiv0. }
  { by rewrite Hcl1, Hcl0, Hiv1, Hiv0. }
  exists wk2, (bs1 ++ bs2). split_and!; try done.
  - by rewrite map_app, concat_app, Hc1, Hc2.
  - rewrite Hcl1, Hcl0 in Hb2. apply Forall_app. split; [|exact Hb2].
    eapply Forall_impl; [exact Hb1|]. intros b [(ev & j & Hev & Hw) Hb]. rewrite Hcl0 in Hb.
    eapply batch_served_within; [exact (proj1 Hb)|]. apply Hwin. rewrite Hw.
    exact (proj1 (Forall_forall _ _) (pr_batches _ _ _ _ Hp) ev Hev j).
Qed.

(** However slow its passes are, a worker only sends replies. *)
Lemma run_answered {E} sk v : debug_build = false -> forall its wk,
  worker_inv sk v wk -> Forall iteration_wf its ->
  exists wk' bs, run (E := E) its wk = Some (Ok (wk', bs)) /\ worker_inv sk v wk' /\
    Forall (batch_answered sk v (wk_clock wk)) bs.
Proof.
  intros Hrel. induction its as [|it its IH]; intros wk Hinv Hwf; cbn [run].
  { exists wk, []. split_and!; [done|done|by apply Forall_nil]. }
  apply Forall_cons in Hwf as [Hit Hwf].
  destruct (iteration_spec (E := E) sk v it wk (or_introl Hrel) (or_introl Hrel) Hinv Hit) as
    (wk0 & wk1 & bs1 & Hprep & -> & Hinv1 & Hs1 & _ & Hb1 & _).
  destruct (prepare_spec (E := E) sk v it wk (or_introl Hrel) Hinv Hit) as (wk0' & Hprep' & _ & Hcl & _).
  rewrite Hprep in Hprep'. injection Hprep' as <-.
  destruct (IH wk1 Hinv1 Hwf) as (wk2 & bs2 & -> & Hinv2 & Hb2).
  exists wk2, (bs1 ++ bs2). split_and!; [done|done|]. rewrite (sw_clock _ _ Hs1), Hcl in Hb2.
  apply Forall_app. split; [|exact Hb2]. eapply Forall_impl; [exact Hb1|]. intros b [_ [_ Hb]]. by rewrite Hcl in Hb.
Qed.

(** C10: A worker never stops on its own.  In the release profile, from any state
    between batches and for whatever the sockets deliver and the clocks say, a
    pass of the loop ends without a panic: the drained sockets' datagrams, up to
    the read that would block, are each collected in exactly one batch, every
    batch answers its accepted datagrams one for one, and the worker is between
    batches again. *)
Theorem iteration_total {E} sk v (it : Iteration) (wk : Worker) :
  debug_build = false -> worker_inv sk v wk -> iteration_wf it ->
  exists wk' bs, iteration (E := E) it wk = Some (Ok (wk', bs)) /\ worker_inv sk v wk' /\
    concat (map ba_received bs) = concat (map (fun ev => readable (ev_incoming ev)) (it_events it)) /\
    Forall (fun b => length (ba_sent b) = length (omap accept_from (ba_received b))) bs.
Proof.
  intros Hrel Hinv Hwf.
  destruct (iteration_spec (E := E) sk v it wk (or_introl Hrel) (or_introl Hrel) Hinv Hwf) as
    (wk0 & wk' & bs & _ & Hi & Hinv' & _ & Hc & Hb & _).
  exists wk', bs. split_and!; [done|done|done|]. eapply Forall_impl; [exact Hb|]. by intros b [_ [[Hl _] _]].
Qed.

Lemma worker_task_inv {E} sk w_key w idx ks args clock signer :
  let next := (epoch_seconds w clock + arg_metrics_interval args)%Z in
  debug_build = false \/ (next <= u64_max)%Z -> args_ok args -> source_ok sk (args_version args) ks -> ks_clock ks = clock ->
  ks_validity ks = rotation_interval args -> (1 <= arg_rotation_interval args)%Z -> world_wf w_key ->
  let interval := (arg_rotation_interval args * 60 * 60)%Z in
  (epoch_seconds w_key clock <= epoch_seconds w clock <= epoch_seconds w_key clock + interval)%Z ->
  (epoch_seconds w_key clock + interval <= u64_max)%Z ->
  exists wk, worker_task (E := E) w_key w idx ks args clock signer = Ok wk /\
    worker_inv sk (args_version args) wk /\ fresh wk (epoch_seconds w clock) /\ wk_clock wk = clock /\
    as_secs (wk_key_interval wk) = interval /\
    nh_batch_size (wk_net wk) = arg_batch_size args /\ as_secs (wk_metrics_interval wk) = arg_metrics_interval args /\
    wk_counts wk = zero_counts /\ ((next <= u64_max)%Z -> wk_next_metrics wk = next).
Proof.
  intros next Hrel [Hb [Hri _]] Hso Hcl Hval Hri1 Hw interval Hs Hmax. unfold worker_task.
  destruct (ResponseHandler_new_inv (Addr := Addr) (E := E) sk w_key (arg_batch_size args) ks (args_version args) signer)
    as (h & -> & Hh & Hbs & Hr & Hv & Hc1 & Hv1 & Hwin & Hmet); [unfold MAX_BATCH_SIZE; lia|done|done|].
  cbn [mbind res_bind]. unfold Worker_new.
  destruct (u64_add_ok (E := E) (epoch_seconds w clock) (as_secs (from_secs (arg_metrics_interval args))) Hrel)
    as (next' & -> & Hnext). cbn [mbind res_bind].
  eexists. split; [reflexivity|]. rewrite Hcl, Hval in Hwin.
  pose proof (epoch_seconds_u64 w_key clock Hw) as [H0 _].
  split_and!; [|eexists; split; [exact Hwin|]|done|done|done|done| |exact Hnext].
  - split; unfold wk_handler; cbn [wk_req responder RequestHandler_new wk_net wk_clock NetworkHandler_new
      nh_batch_size wk_key_interval].
    + split; [exact Hh|by rewrite Hr|by apply Forall_nil].
    + exact Hv.
    + by rewrite Hbs.
    + by rewrite Hc1.
    + by rewrite Hv1, Hval.
  - cbn [wk_key_interval wk_next_key]. change (as_secs (rotation_interval args)) with interval. lia.
  - unfold wk_counts, rq_response_metrics. cbn [wk_req responder RequestHandler_new]. by rewrite Hmet.
Qed.

(** The server serves.  A worker started with valid arguments (batches of 1 to
    64, a rotation of at least an hour) on an identity with seed [sk], in the
    release profile, runs any number of prompt passes without a panic; every
    datagram that arrives is handled in one batch, and every request accepted in it
    is answered to its sender; if it is of the server's own version, with a frame
    that the client which sent it, holding the identity's public key, validates with
    the server's time: in particular the online key in use is always within its
    delegation. *)
Theorem worker_serves {E} sk w_key w idx ks args clock signer its :
  debug_build = false -> args_ok args -> source_ok sk (args_version args) ks -> ks_clock ks = clock ->
  ks_validity ks = rotation_interval args -> (1 <= arg_rotation_interval args)%Z -> world_wf w_key ->
  let interval := (arg_rotation_interval args * 60 * 60)%Z in
  (epoch_seconds w_key clock <= epoch_seconds w clock <= epoch_seconds w_key clock + interval)%Z ->
  (epoch_seconds w_key clock + interval <= u64_max)%Z ->
  prompt_run clock interval (epoch_seconds w clock) its ->
  exists wk wk' bs,
    worker_task (E := E) w_key w idx ks args clock signer = Ok wk /\
    run (E := E) its wk = Some (Ok (wk', bs)) /\
    concat (map ba_received bs) =
      concat (map (fun it => concat (map (fun ev => readable (ev_incoming ev)) (it_events it))) its) /\
    Forall (batch_validates sk (args_version args) clock) bs.
Proof.
  intros Hrel Hargs Hso Hcl Hval Hri1 Hw interval Hs Hmax Hrun.
  destruct (worker_task_inv (E := E) sk w_key w idx ks args clock signer) as (wk & Ht & Hinv & Hfr & Hc & Hiv & _);
    try done; [by left|].
  destruct (run_spec (E := E) sk (args_version args) its wk (epoch_seconds w clock)) as
    (wk' & bs & Hr & _ & Hcat & Hb); [by left|done|done|unfold interval in Hiv; lia|by rewrite Hc, Hiv|].
  rewrite Hc in Hb. exists wk, wk', bs. done.
Qed.

End worker.

(** ** Examples: a worker of the sample server at time 1700000000 *)

Definition sample_args (v : ProtocolVersion) : Args :=
  mkArgs 64 "0.0.0.0" 2003 1 (if v is RfcDraft08 then V08 else V14) 0 false 24 60 "" ArgMemory None 0.
Definition sample_event (now : Z) : Event (Addr := nat) :=
  mkEvent [Received (sample_datagram RfcDraft14) 7; Received [] 8; WouldBlock]
    (fun _ => sample_world now) (fun _ => [true]).
Definition sample_iteration (now : Z) : Iteration (Addr := nat) :=
  mkIteration (sample_world now) true (sample_world now) (sample_world now) (zeroes 32) 17 false
    [sample_event now].

Lemma sample_iteration_wf now : is_u64 now -> iteration_wf (sample_iteration now).
Proof.
  intros Hn. split; [by apply sample_world_wf|]. apply Forall_cons. split; [|by apply Forall_nil].
  intros j. by apply sample_world_wf.
Qed.

Lemma sample_worker :
  exists wk : Worker (B := MemoryBackend) (Addr := nat),
    worker_inv sample_seed RfcDraft14 wk.
Proof.
  destruct (worker_task_inv (CL := toy_crypto_laws) (profile := false) (Addr := nat) (E := unit) sample_seed
    (sample_world 1700000000) (sample_world 1700000000) 0 (sample_source RfcDraft14) (sample_args RfcDraft14)
    System (zeroes 32)) as (wk & _ & Hinv & _);
    [by left|unfold args_ok; cbn; lia|apply sample_source_ok|done|done|cbn; lia|by apply sample_world_wf|
     cbn; lia|cbn; unfold u64_max; lia|].
  by exists wk.
Qed.

Lemma iteration_total_witness :
  exists (wk wk' : Worker (B := MemoryBackend) (Addr := nat)) bs,
    iteration (profile := false) (E := unit) (sample_iteration 1700000000) wk = Some (Ok (wk', bs)) /\
    concat (map ba_received bs) = readable (ev_incoming (sample_event 1700000000)) ++ [].
Proof.
  destruct sample_worker as [wk Hinv].
  destruct (iteration_total (CL := toy_crypto_laws) (profile := false) (E := unit) sample_seed RfcDraft14
    (sample_iteration 1700000000) wk eq_refl Hinv) as (wk' & bs & Hi & _ & Hc & _).
  { apply sample_iteration_wf. done. }
  exists wk, wk', bs. split; [exact Hi|exact Hc].
Defined.

(** A second pass a day later. *)
Lemma sample_prompt_run : prompt_run System (24 * 60 * 60) 1700000000 [sample_iteration 1700000000; sample_iteration 1700086400].
Proof.
  cbn [prompt_run]. split_and!; [| |done].
  - split; [by apply sample_iteration_wf|cbn; unfold u64_max; lia..|].
    apply Forall_cons. split; [intros j; cbn; lia|by apply Forall_nil].
  - split; [by apply sample_iteration_wf|cbn; unfold u64_max; lia..|].
    apply Forall_cons. split; [intros j; cbn; lia|by apply Forall_nil].
Qed.

Lemma worker_serves_witness :
  exists (wk wk' : Worker (B := MemoryBackend) (Addr := nat)) bs,
    worker_task (profile := false) (E := unit) (sample_world 1700000000) (sample_world 1700000000) 0
      (sample_source RfcDraft14) (sample_args RfcDraft14) System (zeroes 32) = Ok wk /\
    run (profile := false) (E := unit) [sample_iteration 1700000000; sample_iteration 1700086400] wk =
      Some (Ok (wk', bs)) /\
    Forall (batch_validates sample_seed RfcDraft14 System) bs.
Proof.
  destruct (worker_serves (CL := toy_crypto_laws) (profile := false) (Addr := nat) (E := unit) sample_seed
    (sample_world 1700000000) (sample_world 1700000000) 0 (sample_source RfcDraft14) (sample_args RfcDraft14)
    System (zeroes 32) [sample_iteration 1700000000; sample_iteration 1700086400])
    as (wk & wk' & bs & Ht & Hr & _ & Hb);
    [done|unfold args_ok; cbn; lia|apply sample_source_ok|done|done|cbn; lia|by apply sample_world_wf|
     cbn; lia|cbn; unfold u64_max; lia| |].
  - exact sample_prompt_run.
  - exists wk, wk', bs. split; [exact Ht|]. split; [exact Hr|exact Hb].
Defined.

