(* ===== verification/Checked.v ===== *)
(** * Workers of a build with overflow checks (crates/roughenough-server/src/worker.rs)

    The theorems of [Worker] about a run take overflow to wrap, as in the release
    profile.  Here the profile is any: a worker serves as long as its metrics fit
    their counters between two publications, and in a build with overflow checks
    it panics as soon as they do not. *)
From S2P Require Import Prelude Errors Versions Crypto Keys Metrics Responses Requests Validation EndToEnd Args Worker.

Section checked.
Context {C : CryptoLib} {profile : Profile} {B : Type} `{!SeedBackend B} {Addr : Type}.
Context {CL : CryptoLaws C} `{!LawfulSeedBackend B}.
#[local] Set Default Proof Using "Type*".

Abbreviation Worker := (Worker (B := B) (Addr := Addr)).

(** ** The batch that does not fit *)

Lemma serve_batch_overflow {E} sk v w sends sock (wk : Worker) :
  debug_build = true -> worker_inv sk v wk ->
  size_room (wk_counts wk) (accepted_size (taken (nh_batch_size (wk_net wk)) sock)) = false ->
  serve_batch (E := E) w sends sock wk = Panic.
Proof.
  intros Hd [Hp _ Hb _ _] Hroom. unfold serve_batch, nh_collect_requests.
  destruct (collect_loop_spec (E := E) sk (nh_batch_size (wk_net wk)) sock (nh_metrics (wk_net wk)) (wk_req wk) [] Hp)
    as (m & req & -> & Hp' & _ & _ & Hrm); [cbn; unfold wk_handler in Hb; lia|].
  cbn [mbind res_bind app] in *. rewrite (generate_responses_overflow (E := E) sk w req _ Hd Hp'); [done|].
  unfold rq_response_metrics. rewrite Hrm. exact Hroom.
Qed.

Lemma drain_overflow {E} sk v ev : debug_build = true -> (forall j, world_wf (ev_world ev j)) ->
  forall fuel i sock (wk : Worker), length sock < fuel -> worker_inv sk v wk ->
  sizes_room (wk_counts wk) (turn_sizes fuel (nh_batch_size (wk_net wk)) sock) = false ->
  drain (E := E) fuel i ev sock wk = Some Panic.
Proof.
  intros Hd Hw. induction fuel as [|fuel IH]; intros i sock wk Hf Hinv Hroom; [lia|].
  cbn [drain]. unfold turn_sizes in Hroom. cbn [turns map sizes_room] in Hroom.
  destruct (size_room (wk_counts wk) (accepted_size (taken (nh_batch_size (wk_net wk)) sock))) eqn:Hsize.
  - destruct (serve_batch_spec (E := E) sk v (ev_world ev i) (ev_sends ev i) sock wk (or_intror Hsize) Hinv (Hw i)) as
      (wk1 & b & -> & Hinv1 & _ & Hn & _ & _ & _ & Hts).
    pose proof (stopped_progress (nh_batch_size (wk_net wk)) sock) as Hprog.
    assert (1 <= nh_batch_size (wk_net wk)) as Hn1.
    { rewrite (wi_batch _ _ _ Hinv). apply (pi_handler _ _ _ (wi_pending _ _ _ Hinv)). }
    destruct (stopped (nh_batch_size (wk_net wk)) sock) as [[|] sock'] eqn:Hst; cbn [fst snd] in *; [done|].
    rewrite IH; [done| |done|].
    { specialize (Hprog Hn1 eq_refl). lia. }
    rewrite (ts_counts _ _ _ Hts), Hn. exact Hroom.
  - by rewrite (serve_batch_overflow (E := E) sk v).
Qed.

Lemma serve_events_overflow {E} sk v : debug_build = true -> forall evs (wk : Worker),
  Forall (fun ev => forall j, world_wf (ev_world ev j)) evs -> worker_inv sk v wk ->
  sizes_room (wk_counts wk) (events_sizes (nh_batch_size (wk_net wk)) evs) = false ->
  serve_events (E := E) evs wk = Some Panic.
Proof.
  intros Hd. induction evs as [|ev evs IH]; intros wk Hw Hinv Hroom; [done|]. cbn [serve_events].
  apply Forall_cons in Hw as [Hw Hws]. unfold events_sizes in Hroom. cbn [map concat] in Hroom.
  rewrite sizes_room_app in Hroom.
  destruct (sizes_room (wk_counts wk) (turn_sizes (drain_fuel ev) (nh_batch_size (wk_net wk)) (ev_incoming ev))) eqn:Hev.
  - destruct (drain_spec (E := E) sk v ev Hw (drain_fuel ev) 0 (ev_incoming ev) wk (or_intror Hev)) as
      (wk1 & bs1 & -> & Hinv1 & Hs1 & _ & _ & Ht1); [unfold drain_fuel; lia|done|].
    rewrite IH; [done|done|done|].
    rewrite (same_worker_batch sk v _ _ Hs1 Hinv Hinv1), (ts_counts _ _ _ Ht1). exact Hroom.
  - rewrite (drain_overflow (E := E) sk v); [done|done|done|unfold drain_fuel; lia|done|done].
Qed.

(** C11: A pass of a worker built with overflow checks is decided by its batch sizes.
    Whatever arrives, with timers below 2^64 ([calm]), if no size occurs more than
    255 times since the publication that began the histogram, the pass ends between
    batches with every batch counted exactly; with one batch more of a full size,
    the worker panics. *)
Theorem checked_pass_decides {E} sk v it (wk : Worker) :
  debug_build = true -> worker_inv sk v wk -> iteration_wf it -> calm it wk ->
  let counts := prepared_counts (epoch_seconds (it_now it) (wk_clock wk)) (wk_next_metrics wk) (wk_counts wk) in
  let sizes := events_sizes (nh_batch_size (wk_net wk)) (it_events it) in
  if sizes_room counts sizes
  then exists wk' bs, iteration (E := E) it wk = Some (Ok (wk', bs)) /\ worker_inv sk v wk' /\
    wk_counts wk' = tally_sizes counts sizes /\
    concat (map ba_received bs) = concat (map (fun ev => readable (ev_incoming ev)) (it_events it))
  else iteration (E := E) it wk = Some Panic.
Proof.
  intros Hd Hinv Hwf Hcalm counts sizes.
  destruct (prepare_spec (E := E) sk v it wk Hcalm Hinv Hwf) as
    (wk0 & Hp & Hinv0 & _ & _ & _ & _ & Hb & Hc & _). fold counts in Hc.
  destruct (sizes_room counts sizes) eqn:Hroom.
  - destruct (iteration_spec (E := E) sk v it wk Hcalm (or_intror Hroom) Hinv Hwf) as
      (wk1 & wk' & bs & Hp' & Hi & Hinv' & _ & Hcat & _ & Hts).
    rewrite Hp in Hp'. injection Hp' as <-. exists wk', bs. split_and!; [done|done| |done].
    by rewrite (ts_counts _ _ _ Hts), Hc.
  - unfold iteration. rewrite Hp. apply (serve_events_overflow (E := E) sk v Hd); [apply Hwf|done|].
    by rewrite Hc, Hb.
Qed.

(** C2: A worker serves in either profile.  Started with valid arguments, it runs
    through any prompt passes in which, between two publications of its metrics,
    no batch size occurs more than 255 times and the timers stay below 2^64: no
    datagram is lost, no pass panics, and every accepted request is answered to its
    sender.  A worker accepts requests of both versions and answers in its own: if
    the request is of the worker's version (for draft-08, with one version in its
    list, as the client makes it), the client that sent it, holding the identity's
    public key, validates the frame with the server's time; if it is of the other
    version, the parser of the client that sent it refuses the frame. *)
Theorem checked_worker_serves {E} sk w_key w idx ks args clock signer its :
  args_ok args -> source_ok sk (args_version args) ks -> ks_clock ks = clock ->
  ks_validity ks = rotation_interval args -> (1 <= arg_rotation_interval args)%Z -> world_wf w_key ->
  let interval := (arg_rotation_interval args * 60 * 60)%Z in
  let next := (epoch_seconds w clock + arg_metrics_interval args)%Z in
  (epoch_seconds w_key clock <= epoch_seconds w clock <= epoch_seconds w_key clock + interval)%Z ->
  (epoch_seconds w_key clock + interval <= u64_max)%Z -> (next <= u64_max)%Z ->
  prompt_run clock interval (epoch_seconds w clock) its ->
  paced (Addr := Addr) clock (arg_batch_size args) (arg_metrics_interval args) zero_counts next its ->
  exists (wk wk' : Worker) bs,
    worker_task (E := E) w_key w idx ks args clock signer = Ok wk /\
    run (E := E) its wk = Some (Ok (wk', bs)) /\
    concat (map ba_received bs) =
      concat (map (fun it => concat (map (fun ev => readable (ev_incoming ev)) (it_events it))) its) /\
    Forall (batch_validates sk (args_version args) clock) bs.
Proof.
  intros Hargs Hso Hcl Hval Hri1 Hw interval next Hs Hmax Hnext Hrun Hpaced.
  destruct (worker_task_inv (E := E) (Addr := Addr) sk w_key w idx ks args clock signer) as
    (wk & Ht & Hinv & Hfr & Hc & Hiv & Hbt & Hmi & Hct & Hnx); try done; [by right|].
  destruct (run_spec (E := E) sk (args_version args) its wk (epoch_seconds w clock)) as
    (wk' & bs & Hr & _ & Hcat & Hb); [|done|done|unfold interval in Hiv; lia|by rewrite Hc, Hiv|].
  { right. by rewrite Hc, Hbt, Hmi, Hct, (Hnx Hnext). }
  rewrite Hc in Hb. exists wk, wk', bs. done.
Qed.
End checked.

(** ** Examples: the sample worker, built with overflow checks *)

(** 256 clients, served one after the other in a pass. *)
Definition busy_iteration : Iteration (Addr := nat) :=
  mkIteration (sample_world 1700000000) true (sample_world 1700000000) (sample_world 1700000000) (zeroes 32) 17 false
    (replicate 256 (sample_event 1700000000)).

Lemma busy_iteration_wf : iteration_wf busy_iteration.
Proof. split; [by apply sample_world_wf|]. apply Forall_replicate. intros j. by apply sample_world_wf. Qed.

Lemma busy_prompt : prompt System (24 * 60 * 60) 1700000000 busy_iteration.
Proof.
  split; [exact busy_iteration_wf|cbn; unfold u64_max; lia..|].
  apply Forall_replicate. intros j. cbn. lia.
Qed.

(** Each is a batch of one. *)
Lemma sample_sizes n : events_sizes 64 (replicate n (sample_event 1700000000)) = replicate n 1.
Proof.
  assert (turn_sizes (drain_fuel (sample_event 1700000000)) 64 (ev_incoming (sample_event 1700000000)) = [1]) as Hone
    by (vm_compute; reflexivity).
  unfold events_sizes. induction n as [|n IH]; [reflexivity|]. cbn [replicate map concat]. rewrite Hone, IH. reflexivity.
Qed.

Lemma checked_sample_worker :
  exists wk : Worker (B := MemoryBackend) (Addr := nat),
    worker_inv sample_seed RfcDraft14 wk /\ wk_clock wk = System /\ nh_batch_size (wk_net wk) = 64 /\
    wk_counts wk = zero_counts /\ wk_next_metrics wk = 1700000060%Z /\ calm (profile := true) busy_iteration wk.
Proof.
  destruct (worker_task_inv (CL := toy_crypto_laws) (profile := true) (Addr := nat) (E := unit) sample_seed
    (sample_world 1700000000) (sample_world 1700000000) 0 (sample_source RfcDraft14) (sample_args RfcDraft14)
    System (zeroes 32)) as (wk & _ & Hinv & Hfr & Hc & Hiv & Hb & Hmi & Hct & Hnx);
    [right; cbn; unfold u64_max; lia|unfold args_ok; cbn; lia|apply sample_source_ok|done|done|cbn; lia|
     by apply sample_world_wf|cbn; lia|cbn; unfold u64_max; lia|].
  assert (wk_next_metrics wk = 1700000060%Z) as Hnext by (apply Hnx; cbn; unfold u64_max; lia).
  exists wk. split_and!; [done..|].
  eapply calm_prompt; [exact Hfr|rewrite Hiv; cbn; lia|rewrite Hc, Hiv; exact busy_prompt|].
  right. rewrite Hnext, Hc, Hmi. vm_compute. done.
Qed.

Lemma checked_pass_decides_witness :
  exists wk : Worker (B := MemoryBackend) (Addr := nat),
    wk_counts wk = zero_counts /\ iteration (profile := true) (E := unit) busy_iteration wk = Some Panic.
Proof.
  destruct checked_sample_worker as (wk & Hinv & Hc & Hb & Hct & Hnx & Hcalm). exists wk. split; [exact Hct|].
  pose proof (checked_pass_decides (CL := toy_crypto_laws) (profile := true) (E := unit) sample_seed RfcDraft14
    busy_iteration wk eq_refl Hinv busy_iteration_wf Hcalm) as H.
  rewrite Hc, Hb, Hct, Hnx in H. cbv zeta in H.
  change (it_events busy_iteration) with (replicate 256 (sample_event 1700000000)) in H. rewrite sample_sizes in H.
  replace (sizes_room _ _) with false in H by (vm_compute; reflexivity). exact H.
Defined.

Lemma checked_worker_serves_witness :
  let its := [sample_iteration 1700000000; sample_iteration 1700086400] in
  exists (wk wk' : Worker (B := MemoryBackend) (Addr := nat)) bs,
    worker_task (profile := true) (E := unit) (sample_world 1700000000) (sample_world 1700000000) 0
      (sample_source RfcDraft14) (sample_args RfcDraft14) System (zeroes 32) = Ok wk /\
    run (profile := true) (E := unit) its wk = Some (Ok (wk', bs)) /\
    Forall (batch_validates sample_seed RfcDraft14 System) bs.
Proof.
  intros its.
  destruct (checked_worker_serves (CL := toy_crypto_laws) (profile := true) (Addr := nat) (E := unit) sample_seed
    (sample_world 1700000000) (sample_world 1700000000) 0 (sample_source RfcDraft14) (sample_args RfcDraft14)
    System (zeroes 32) its) as (wk & wk' & bs & Ht & Hr & _ & Hb);
    [unfold args_ok; cbn; lia|apply sample_source_ok|done|done|cbn; lia|by apply sample_world_wf|
     cbn; lia|cbn; unfold u64_max; lia|cbn; unfold u64_max; lia|exact sample_prompt_run|vm_compute; done|].
  exists wk, wk', bs. split; [exact Ht|]. split; [exact Hr|exact Hb].
Defined.
