(* ===== verification/Authentic.v ===== *)
(** * The times clients accept are the server's
      (worker.rs and responses.rs against validation.rs)

    [Worker] says what a server's workers send, [Validation] what a client
    checks.  Here the two are put together without trusting the network: the
    client's datagram may come from anyone.  What is assumed of Ed25519 is only
    that nobody but the server signs under its keys, stated of the two signatures
    in the accepted response ([unforged]); SHA-512 is not assumed to be anything:
    the conclusion is true up to a collision or a zero digest among the strings
    which the server and the client hashed. *)
From stdpp Require Import list.
From S2P Require Import Prelude Errors Cursor Wire Tags Header FixedTags Versions Path Cert Srep.
From S2P Require Import Request Response Merkle Crypto Keys Responses Validation Requests EndToEnd Args Worker.

Section authentic.
Context {C : CryptoLib} {profile : Profile} {B : Type} `{!SeedBackend B} {Addr : Type}.

(** ** What a server has signed *)

(** The batches of all workers, each with the protocol version its worker runs. *)
Abbreviation Log := (list (ProtocolVersion * Batch (Addr := Addr))).

(** In batch [b] a response with the delegation [dele] and the SREP bytes [srep]
    was sent. *)
Inductive sent (log : Log) : ProtocolVersion -> Batch (Addr := Addr) -> Delegation -> bytes -> Prop :=
| sent14 b src frame r c : (RfcDraft14, b) ∈ log -> (src, frame) ∈ ba_sent b ->
    from_frame (A := Response) (new frame) = (Ok r, c) ->
    sent log RfcDraft14 b (cert_delegation (resp_cert r)) (encode (resp_srep r))
| sent08 b src frame r c : (RfcDraft08, b) ∈ log -> (src, frame) ∈ ba_sent b ->
    from_frame (A := ResponseDraft08) (new frame) = (Ok r, c) ->
    sent log RfcDraft08 b (cert_delegation (resp08_cert r)) (encode (resp08_srep r)).

(** The messages under the server's keys that are out in the world. *)
Inductive server_signed (sk : bytes) (log : Log) : bytes -> bytes -> Prop :=
| signed_dele v b dele srep : sent log v b dele srep ->
    server_signed sk log (ed_public sk) (dele_prefix v ++ encode dele)
| signed_srep v b dele srep : sent log v b dele srep ->
    server_signed sk log (fixed_bytes (dele_public_key dele)) (srep_prefix v ++ srep).

(** The server's own keys: the identity's and those it has delegated to. *)
Inductive server_key (sk : bytes) (log : Log) : bytes -> Prop :=
| identity_server_key : server_key sk log (ed_public sk)
| online_server_key v b dele srep : sent log v b dele srep ->
    server_key sk log (fixed_bytes (dele_public_key dele)).

(** [sig] is no forgery: if it verifies [message] under a key of the server's, the
    server has signed that message. *)
Definition unforged (sk : bytes) (log : Log) (key message sig : bytes) : Prop :=
  server_key sk log key -> ed_verify key message sig = true -> server_signed sk log key message.

(** The two signatures of a response, over its delegation and its SREP. *)
Definition cert_unforged (sk : bytes) (log : Log) (v : ProtocolVersion) (cert : Certificate) : Prop :=
  unforged sk log (ed_public sk) (dele_prefix v ++ encode (cert_delegation cert)) (fixed_bytes (cert_signature cert)).
Definition srep_unforged (sk : bytes) (log : Log) (v : ProtocolVersion) (cert : Certificate) (body : option bytes)
    (sig : Signature) : Prop :=
  forall sb, body = Some sb ->
    unforged sk log (fixed_bytes (dele_public_key (cert_delegation cert))) (srep_prefix v ++ sb) (fixed_bytes sig).

(** The request [leaf_data] has the leaf [d] among those of the batch, and the
    index of the response points at it; or SHA-512 is broken. *)
Definition in_batch (v : ProtocolVersion) (b : Batch (Addr := Addr)) (d : bytes) (index : nat) (path : MerklePath) : Prop :=
  let accepted := omap accept_from (ba_received b) in
  (exists a, accepted !! (index mod 2 ^ depth path) = Some a /\ leaf_data v (acc_datagram a) (acc_request a) = d) \/
  hash_broken sha512 (batch_inputs sha512 (batch_leaves v accepted) ++ verify_inputs sha512 index d path).

Context {CL : CryptoLaws C} `{!LawfulSeedBackend B}.
#[local] Set Default Proof Using "Type*".

Definition logged (sk : bytes) (clock : ClockSource) (log : Log) : Prop :=
  Forall (fun e => batch_answered (B := B) sk e.1 clock e.2) log.

(** The midpoint and the root of SREP bytes of version [v]. *)
Definition srep_says (v : ProtocolVersion) (srep : bytes) (t : Z) (root : bytes) : Prop :=
  match v with
  | RfcDraft14 => exists s : SignedResponse, srep = encode s /\ wf s /\ srep_midpoint s = t /\
      srep_merkle_root s = mkFixed root
  | RfcDraft08 => exists s : SignedResponseDraft08, srep = encode s /\ wf s /\ srep08_midpoint s = t /\
      srep08_merkle_root s = mkFixed root
  end.

(** A frame of an answered batch is the [i]-th reply, to the [i]-th request. *)
Lemma sent_reply sk v clock (b : Batch (Addr := Addr)) src frame :
  batch_answered (B := B) sk v clock b -> (src, frame) ∈ ba_sent b ->
  let accepted := omap accept_from (ba_received b) in
  1 <= length accepted /\ exists i p d (h : ResponseHandler (B := B) (Addr := Addr)),
    ba_sent b !! i = Some (src, frame) /\ rh_requests h !! i = Some p /\ batch_leaves v accepted !! i = Some d /\
    rh_version h = v /\ ks_clock (rh_key_source h) = clock /\
    batch_replies sk (ba_world b) h (batch_leaves v accepted) (ba_sent b).
Proof using Type.
  intros [Hl Hb] [i Hi]%list_elem_of_lookup_1 accepted. pose proof (lookup_lt_Some _ _ _ Hi) as Hlt.
  rewrite Hl in Hlt. fold accepted in Hlt, Hb. split; [lia|].
  destruct Hb as (h & Hv & Hc & Hr & Hrep); [by destruct accepted; [cbn in Hlt; lia|]|].
  destruct (lookup_lt_is_Some_2 _ _ Hlt) as [a Ha].
  exists i, (mkPending (acc_request a) (acc_src a)), (leaf_data v (acc_datagram a) (acc_request a)), h.
  split_and!; [done| | |done..].
  - by rewrite Hr, list_lookup_fmap, Ha.
  - unfold batch_leaves. by rewrite list_lookup_fmap, Ha.
Qed.

Lemma sent_facts sk clock log v b dele srep : logged sk clock log -> sent log v b dele srep ->
  let accepted := omap accept_from (ba_received b) in
  (v, b) ∈ log /\ 1 <= length accepted /\ wf dele /\
  srep_says v srep (epoch_seconds (ba_world b) clock) (merkle_root sha512 (leaves (batch_leaves v accepted))).
Proof.
  intros Hlog Hs. destruct Hs as [b src frame r c Hin Hf Hp|b src frame r c Hin Hf Hp];
    pose proof (proj1 (Forall_forall _ _) Hlog _ Hin) as Ha; cbn [fst snd] in Ha;
    destruct (sent_reply _ _ _ _ _ _ Ha Hf) as (Hne & i & p & d & h & Hi & Hr & Hd & Hv & Hc & Hrep);
    unfold batch_replies in Hrep; rewrite Hv in Hrep; destruct Hrep as (common & Hb & _ & Hans);
    destruct (Hans i p d Hr Hd) as (r0 & Hf0 & Hr0); assert (frame = frame_bytes (encode r0)) as -> by congruence.
  - destruct Hb as [Hroot Hmid _ _ _ _ _], Hr0 as [Hw Hcons _ _ Hsr _ _ _].
    destruct (from_frame_Response r0 Hw Hcons) as [c' Hp']. rewrite Hp in Hp'. injection Hp' as -> _.
    split_and!; [done|done|apply (cw_dele _ (rw_cert _ Hw))|]. exists (resp_srep r0).
    split_and!; [done|apply Hw|by rewrite Hsr, Hmid, Hc|by rewrite Hsr, Hroot].
  - destruct Hb as [Hroot Hoff Hmid _ _ _], Hr0 as [Hw Hcons _ _ Hsr _ _ _].
    destruct (from_frame_Response08 r0 Hw Hcons) as [c' Hp']; [by rewrite Hsr|]. rewrite Hp in Hp'. injection Hp' as -> _.
    split_and!; [done|done|apply (cw_dele _ (r8_cert _ Hw))|]. exists (resp08_srep r0).
    split_and!; [done|apply Hw|by rewrite Hsr, Hmid, Hc|by rewrite Hsr, Hroot].
Qed.

(** ** Domain separation: no message is signed for two purposes *)

Lemma prefixes_differ v v' x y : dele_prefix v ++ x <> srep_prefix v' ++ y.
Proof using Type. intros H%(f_equal (take 14)). destruct v, v'; discriminate H. Qed.

Lemma dele_prefix_inj v v' x y : dele_prefix v ++ x = dele_prefix v' ++ y -> v = v' /\ x = y.
Proof using Type.
  intros H. assert (v = v') as <-.
  { apply (f_equal (take 34)) in H. by destruct v, v'; try discriminate H. }
  split; [done|]. by apply app_inv_head in H.
Qed.

Lemma srep_prefix_inj v v' x y : srep_prefix v ++ x = srep_prefix v' ++ y -> x = y.
Proof using Type. intros H. destruct v, v'; by apply app_inv_head in H. Qed.

Lemma signed_dele_inv sk clock log key v dele : logged sk clock log -> wf dele ->
  server_signed sk log key (dele_prefix v ++ encode dele) -> exists b srep, sent log v b dele srep.
Proof.
  intros Hlog Hd. remember (dele_prefix v ++ encode dele) as msg eqn:Hm.
  intros Hss. destruct Hss as [v' b dele' srep Hs|v' b dele' srep Hs] in Hm |- *;
    [|symmetry in Hm; by apply prefixes_differ in Hm].
  apply dele_prefix_inj in Hm as [-> He]. destruct (sent_facts _ _ _ _ _ _ _ Hlog Hs) as (_ & _ & Hd' & _).
  apply encode_inj in He; [subst; eauto|done..].
Qed.

Lemma signed_srep_inv sk log key v sb : server_signed sk log key (srep_prefix v ++ sb) ->
  exists v' b dele, sent log v' b dele sb.
Proof using Type.
  remember (srep_prefix v ++ sb) as msg eqn:Hm. intros Hss.
  destruct Hss as [v' b dele' srep Hs|v' b dele' srep Hs] in Hm |- *.
  - by apply prefixes_differ in Hm.
  - apply srep_prefix_inj in Hm as ->. eauto.
Qed.

(** The parsed SREP agrees with the one the server signed. *)
Lemma srep_parsed_says v t root s sb : srep_parsed s sb -> srep_says v sb t root ->
  v = RfcDraft14 /\ srep_midpoint s = t /\ fixed_bytes (srep_merkle_root s) = root.
Proof using Type.
  intros Hp Hs. destruct v; destruct Hs as (s0 & -> & Hw & <- & Hroot); [by apply srep_versions_differ in Hp|].
  destruct (srep_parsed_agree _ _ _ Hp (srep_wf_parsed _ Hw)) as [-> ->]. by rewrite Hroot.
Qed.

Lemma srep08_says v t root (s : SignedResponseDraft08) : wf s -> srep_says v (encode s) t root ->
  v = RfcDraft08 /\ srep08_midpoint s = t /\ fixed_bytes (srep08_merkle_root s) = root.
Proof using Type.
  intros Hp Hs. destruct v; destruct Hs as (s0 & He & Hw & <- & Hroot).
  - destruct (srep08_agree _ _ Hp Hw He) as [-> ->]. by rewrite Hroot.
  - apply srep_wf_parsed in Hw. rewrite <-He in Hw. by apply srep_versions_differ in Hw.
Qed.

(** The batch whose root a verified path leads to holds its leaf. *)
Lemma in_batch_sound v (b : Batch (Addr := Addr)) d i path :
  1 <= length (omap accept_from (ba_received b)) -> path_wf path ->
  root_from_paths sha512 i d path =
    merkle_root sha512 (leaves (batch_leaves v (omap accept_from (ba_received b)))) -> in_batch v b d i path.
Proof.
  intros Hne Hp Hroot. destruct (path_sound sha512 sha512_length (batch_leaves v (omap accept_from (ba_received b))) i d path)
    as [[_ Hl]|Hbr]; [by unfold batch_leaves; rewrite length_map|done|exact Hroot| |by right].
  left. unfold batch_leaves in Hl. rewrite list_lookup_fmap in Hl.
  apply fmap_Some in Hl as (a & Ha & ->). by exists a.
Qed.

(** A response under the server's key comes out of one of its batches. *)
Lemma authentic14 sk clock log request bs r c m :
  logged sk clock log -> from_frame (A := Response) (new bs) = (Ok r, c) -> consistent r ->
  validate_draft14 (new_with_key (identity_key sk)) request r bs = Ok m ->
  cert_unforged sk log (srep_version (resp_srep r)) (resp_cert r) ->
  srep_unforged sk log (srep_version (resp_srep r)) (resp_cert r) (signed_slice r bs) (resp_signature r) ->
  exists b, (RfcDraft14, b) ∈ log /\ m = epoch_seconds (ba_world b) clock /\
    in_batch RfcDraft14 b request (Z.to_nat (resp_index r)) (resp_path r).
Proof.
  intros Hlog Hf Hc Hv Huc Hus. change (new bs) with (at_cursor [] bs) in Hf.
  pose proof (from_frame_parses _ Response_parses [] bs) as H. rewrite Hf in H.
  destruct H as (b0 & rest & Hbs & _ & len & msg & Hlen & -> & Hr). rewrite <-!app_assoc in Hbs.
  pose proof (validate_draft14_outcome (new_with_key (identity_key sk)) request r bs (rp_header _ _ Hr)
    (cw_dele _ (rp_cert _ _ Hr))) as Ho. rewrite Hv in Ho.
  destruct Ho as [Hcert _ _ _ Hroot (sb & Hsb & Hsig) ->].
  destruct (signed_slice_consistent r msg len rest Hlen Hr Hc) as (sb' & Hp & Hsb').
  rewrite <-Hbs, Hsb in Hsb'. injection Hsb' as <-.
  destruct (signed_dele_inv sk clock log (ed_public sk) (srep_version (resp_srep r)) (cert_delegation (resp_cert r)) Hlog)
    as (b1 & srep1 & Hs1); [apply (cw_dele _ (rp_cert _ _ Hr))| |].
  { apply Huc; [constructor|]. by apply Hcert. }
  destruct (signed_srep_inv sk log (fixed_bytes (dele_public_key (cert_delegation (resp_cert r))))
    (srep_version (resp_srep r)) sb) as (v & b & dele & Hs).
  { apply Hus; [done| |done]. by eapply online_server_key. }
  destruct (sent_facts _ _ _ _ _ _ _ Hlog Hs) as (Hin & Hne & _ & Hsays).
  destruct (srep_parsed_says _ _ _ _ _ Hp Hsays) as (-> & Ht & Hr').
  exists b. split_and!; [done|done|]. apply in_batch_sound; [done|apply Hr|congruence].
Qed.

Lemma authentic08 sk clock log request bs r c m :
  logged sk clock log -> from_frame (A := ResponseDraft08) (new bs) = (Ok r, c) -> consistent08 r ->
  validate_draft08 (new_with_key (identity_key sk)) request r bs = Ok m ->
  cert_unforged sk log RfcDraft08 (resp08_cert r) ->
  srep_unforged sk log RfcDraft08 (resp08_cert r) (signed_slice08 r bs) (resp08_signature r) ->
  exists b, (RfcDraft08, b) ∈ log /\ m = epoch_seconds (ba_world b) clock /\
    in_batch RfcDraft08 b (request_nonce request) (Z.to_nat (resp08_index r)) (resp08_path r).
Proof.
  intros Hlog Hf Hc Hv Huc Hus. change (new bs) with (at_cursor [] bs) in Hf.
  pose proof (from_frame_parses _ ResponseDraft08_parses [] bs) as H. rewrite Hf in H.
  destruct H as (b0 & rest & Hbs & _ & len & msg & Hlen & -> & Hr). rewrite <-!app_assoc in Hbs.
  pose proof (signed_slice08_consistent r msg len rest Hlen Hr Hc) as Hp. rewrite <-Hbs in Hp.
  destruct Hr as [[Hh _ _ _ Hpath Hsrep Hce _] _].
  pose proof (validate_draft08_outcome (new_with_key (identity_key sk)) request r bs Hh (cw_dele _ Hce)) as Ho.
  rewrite Hv in Ho. destruct Ho as [Hcert _ _ _ Hroot (sb & Hsb & Hsig) ->].
  rewrite Hp in Hsb. injection Hsb as <-.
  destruct (signed_dele_inv sk clock log (ed_public sk) RfcDraft08 (cert_delegation (resp08_cert r)) Hlog)
    as (b1 & srep1 & Hs1); [apply (cw_dele _ Hce)| |].
  { apply Huc; [constructor|]. by apply Hcert. }
  destruct (signed_srep_inv sk log (fixed_bytes (dele_public_key (cert_delegation (resp08_cert r))))
    RfcDraft08 (encode (resp08_srep r))) as (v & b & dele & Hs).
  { apply Hus; [done| |done]. by eapply online_server_key. }
  destruct (sent_facts _ _ _ _ _ _ _ Hlog Hs) as (Hin & Hne & _ & Hsays).
  destruct (srep08_says _ _ _ _ Hsrep Hsays) as (-> & Ht & Hr').
  exists b. split_and!; [done|done|]. apply in_batch_sound; [done|done|congruence].
Qed.

(** ** The workers of a server *)

(** A worker between batches ([worker_inv], which [worker_task_inv] shows of a
    started one), and the passes it makes. *)
Record Runner := mkRunner {
  rn_version : ProtocolVersion;
  rn_worker : Worker (B := B) (Addr := Addr);
  rn_iterations : list (Iteration (Addr := Addr));
}.

Definition runner_ok (sk : bytes) (clock : ClockSource) (rn : Runner) : Prop :=
  worker_inv sk (rn_version rn) (rn_worker rn) /\ wk_clock (rn_worker rn) = clock /\
  Forall iteration_wf (rn_iterations rn).

Definition runner_log {E} (rn : Runner) (log : Log) : Prop :=
  exists wk bs, run (E := E) (rn_iterations rn) (rn_worker rn) = Some (Ok (wk, bs)) /\
    log = map (pair (rn_version rn)) bs.

(** A client with the identity's key takes [m] for the time from the frame [bs], as
    the answer to [request], with the Merkle leaf, index and path of the answer;
    the header of the response describes it, and its signatures are no forgeries. *)
Inductive accepted (sk : bytes) (log : Log) (request bs : bytes) :
    ProtocolVersion -> Z -> bytes -> nat -> MerklePath -> Prop :=
| accepted14 r c m : from_frame (A := Response) (new bs) = (Ok r, c) -> consistent r ->
    validate_draft14 (new_with_key (identity_key sk)) request r bs = Ok m ->
    cert_unforged sk log (srep_version (resp_srep r)) (resp_cert r) ->
    srep_unforged sk log (srep_version (resp_srep r)) (resp_cert r) (signed_slice r bs) (resp_signature r) ->
    accepted sk log request bs RfcDraft14 m request (Z.to_nat (resp_index r)) (resp_path r)
| accepted08 r c m : from_frame (A := ResponseDraft08) (new bs) = (Ok r, c) -> consistent08 r ->
    validate_draft08 (new_with_key (identity_key sk)) request r bs = Ok m ->
    cert_unforged sk log RfcDraft08 (resp08_cert r) ->
    srep_unforged sk log RfcDraft08 (resp08_cert r) (signed_slice08 r bs) (resp08_signature r) ->
    accepted sk log request bs RfcDraft08 m (request_nonce request) (Z.to_nat (resp08_index r)) (resp08_path r).

Lemma runner_log_ok {E} sk clock rn : debug_build = false -> runner_ok sk clock rn ->
  exists log, runner_log (E := E) rn log /\ logged sk clock log.
Proof.
  intros Hrel (Hinv & <- & Hwf).
  destruct (run_answered (E := E) sk (rn_version rn) Hrel (rn_iterations rn) (rn_worker rn) Hinv Hwf)
    as (wk' & bs & Hr & _ & Hb).
  exists (map (pair (rn_version rn)) bs). split; [by exists wk', bs|].
  unfold logged. apply Forall_map. eapply Forall_impl; [exact Hb|]. done.
Qed.

Lemma fleet_logs {E} sk clock fleet : debug_build = false -> Forall (runner_ok sk clock) fleet ->
  exists logs, Forall2 (runner_log (E := E)) fleet logs /\ logged sk clock (concat logs).
Proof.
  intros Hrel. induction 1 as [|rn fleet Hrn _ (logs & Hf & Hl)]; [by exists []; split; [|apply Forall_nil]|].
  destruct (runner_log_ok (E := E) sk clock rn Hrel Hrn) as (log & Hr & Hl1).
  exists (log :: logs). split; [by constructor|]. by apply Forall_app.
Qed.

(** C5: A time that a client accepts is the server's.  Any number of workers with
    the identity [sk], of either protocol version, run any number of passes in the
    release profile and never panic.  Whatever frame then reaches a client, from
    whomever: if the client validates it with the identity's key, its header
    describes it, and no signature in it forges one of the server's, then the time
    the client takes is what the server's clock read at a batch of a worker of the
    client's version, and that batch held the client's own request (for draft-08,
    its nonce) at the index of the response, unless SHA-512 collides, or has a zero
    digest, among the strings which the two hashed.  In particular no delegation or
    SREP signed for one draft is accepted for the other. *)
Theorem accepted_time_authentic {E} sk clock (fleet : list Runner) :
  debug_build = false -> Forall (runner_ok sk clock) fleet ->
  exists logs, Forall2 (runner_log (E := E)) fleet logs /\
    forall request bs v m leaf index path,
      accepted sk (concat logs) request bs v m leaf index path ->
      exists b, (v, b) ∈ concat logs /\ m = epoch_seconds (ba_world b) clock /\ in_batch v b leaf index path.
Proof.
  intros Hrel Hf. destruct (fleet_logs (E := E) sk clock fleet Hrel Hf) as (logs & Hlogs & Hl).
  exists logs. split; [done|]. intros request bs v m leaf index path Ha. destruct Ha as [r c m|r c m].
  - by eapply authentic14.
  - by eapply authentic08.
Qed.
End authentic.

(** ** Example: the sample worker's only answer *)

#[local] Abbreviation sample_task := (worker_task (C := toy_crypto) (profile := false) (B := MemoryBackend) (Addr := nat)
  (E := unit) (sample_world 1700000000) (sample_world 1700000000) 0 (sample_source RfcDraft14) (sample_args RfcDraft14)
  System (zeroes 32)).
#[local] Abbreviation sample_pass := (run (C := toy_crypto) (profile := false) (B := MemoryBackend) (Addr := nat)
  (E := unit) [sample_iteration 1700000000]).

Lemma sample_pass_answers :
  match sample_task with
  | Ok wk =>
      match sample_pass wk with
      | Some (Ok (_, [b])) =>
          match ba_sent b with
          | [(_, frame)] =>
              match from_frame (A := Response) (new frame) with
              | (Ok r, _) => consistent r /\ validate_draft14 (new_with_key (identity_key sample_seed))
                  (sample_datagram RfcDraft14) r frame = Ok 1700000000%Z /\
                  srep_version (resp_srep r) = RfcDraft14 /\ signed_slice r frame = Some (encode (resp_srep r))
              | _ => False
              end
          | _ => False
          end
      | _ => False
      end
  | _ => False
  end.
Proof. vm_compute. by split_and!. Qed.

(** The sample client accepts the sample worker's frame. *)
Lemma accepted_time_authentic_witness :
  exists logs frame r c b, from_frame (A := Response) (new frame) = (Ok r, c) /\
    (RfcDraft14, b) ∈ concat logs /\ epoch_seconds (ba_world b) System = 1700000000%Z /\
    in_batch (C := toy_crypto) (Addr := nat) RfcDraft14 b (sample_datagram RfcDraft14) (Z.to_nat (resp_index r)) (resp_path r).
Proof.
  assert (Forall iteration_wf [sample_iteration 1700000000]) as Hit by (by apply Forall_singleton, sample_iteration_wf).
  destruct (worker_task_inv (CL := toy_crypto_laws) (profile := false) (Addr := nat) (E := unit) sample_seed
    (sample_world 1700000000) (sample_world 1700000000) 0 (sample_source RfcDraft14) (sample_args RfcDraft14)
    System (zeroes 32)) as (wk & Ht & Hinv & _ & Hcl & _);
    [by left|unfold args_ok; cbn; lia|apply sample_source_ok|done|done|cbn; lia|by apply sample_world_wf|
     cbn; lia|cbn; unfold u64_max; lia|].
  destruct (accepted_time_authentic (CL := toy_crypto_laws) (profile := false) (E := unit) sample_seed System
    [mkRunner RfcDraft14 wk [sample_iteration 1700000000]]) as (logs & Hlogs & Hauth).
  { reflexivity. }
  { apply Forall_singleton. split; [exact Hinv|split; [exact Hcl|exact Hit]]. }
  inversion Hlogs as [|rn log fleet' logs' (wk' & bs & Hrun & Hlog) Hnil Heq1 Heq2]. subst logs.
  inversion Hnil. subst logs'. cbn [rn_iterations rn_worker rn_version] in *.
  pose proof sample_pass_answers as Hans. rewrite Ht, Hrun in Hans. destruct bs as [|b [|]]; [destruct Hans| |destruct Hans].
  destruct (ba_sent b) as [|[src frame] [|]] eqn:Hsent; [destruct Hans| |destruct Hans].
  destruct (from_frame (new frame)) as [[r|e|] c] eqn:Hp; [|destruct Hans|destruct Hans].
  destruct Hans as (Hc & Hv & Hver & Hslice).
  assert (sent (concat [log]) RfcDraft14 b (cert_delegation (resp_cert r)) (encode (resp_srep r))) as Hs.
  { eapply sent14; [|rewrite Hsent; by left|exact Hp]. rewrite Hlog. by left. }
  destruct (Hauth (sample_datagram RfcDraft14) frame RfcDraft14 1700000000%Z (sample_datagram RfcDraft14)
    (Z.to_nat (resp_index r)) (resp_path r)) as (b' & Hb & Ht' & Hin).
  { eapply accepted14; [exact Hp|exact Hc|exact Hv| |].
    - intros _ _. rewrite Hver. eapply signed_dele. exact Hs.
    - intros sb Hsb _ _. rewrite Hslice in Hsb. apply Some_inj in Hsb as <-. rewrite Hver. eapply signed_srep. exact Hs. }
  exists [log], frame, r, c, b'. split; [exact Hp|]. split; [exact Hb|]. split; [symmetry; exact Ht'|exact Hin].
Defined.
