(* ===== verification/Tally.v ===== *)
(** * What the workers' counters count
      (worker.rs, requests.rs, responses.rs and network.rs against metrics/types.rs)

    A worker counts while it works: datagrams by kind, responses, sends, bytes.
    Here the counters are compared with the log of its batches: over a pass, what
    the counters gain (and what a publication takes out of them) is what the
    batches of the pass hold.  The lemmas on the loops need no invariant: they say
    what a loop that returns has counted. *)
From stdpp Require Import list.
From S2P Require Import Prelude Errors Cursor Wire Tags FixedTags Versions Request Response Merkle.
From S2P Require Import Crypto Keys Metrics Aggregator Responses Requests EndToEnd Worker.

Definition total_bytes {Addr} (frames : list (Addr * bytes)) : nat := sum_list_with (fun f => length f.2) frames.

Section tally.
Context {C : CryptoLib} {profile : Profile} {B : Type} `{!SeedBackend B} {Addr : Type}.

(** ** Responses *)

Lemma add_bytes_sent_add m a b : add_bytes_sent (add_bytes_sent m a) b = add_bytes_sent m (a + b).
Proof. unfold add_bytes_sent. cbn. by rewrite Nat.add_assoc. Qed.

Lemma add_bytes_sent_0 m : add_bytes_sent m 0 = m.
Proof. destruct m. unfold add_bytes_sent. cbn. by rewrite Nat.add_0_r. Qed.

(** What the loops over the requests have sent is counted. *)
Definition counted (st st' : SendState (Addr := Addr)) : Prop :=
  exists frames, ss_sent st' = ss_sent st ++ frames /\
    ss_metrics st' = add_bytes_sent (ss_metrics st) (total_bytes frames).

Lemma counted_refl st : counted st st.
Proof. exists []. cbn. by rewrite app_nil_r, add_bytes_sent_0. Qed.

Lemma counted_trans st1 st2 st3 : counted st1 st2 -> counted st2 st3 -> counted st1 st3.
Proof.
  intros (f1 & Hs1 & Hm1) (f2 & Hs2 & Hm2). exists (f1 ++ f2). rewrite Hs2, Hs1, Hm2, Hm1, app_assoc, add_bytes_sent_add.
  unfold total_bytes. by rewrite sum_list_with_app.
Qed.

Lemma send_frame_counted {E R} `{!ToWire R} (r : R) src st path st' :
  send_frame (E := E) r src st path = Ok st' -> counted st st'.
Proof.
  unfold send_frame. destruct (to_frame r _) as [[u|e|] c]; [|done|done].
  destruct (Nat.leb_spec (frame_size r) (length (data c))); [|done]. intros [= <-].
  exists [(src, take (frame_size r) (data c))]. unfold total_bytes. cbn. split; [done|].
  by rewrite length_take, Nat.add_0_r, Nat.min_l by done.
Qed.

Lemma send_draft14_counted {E} tree common ps : forall index st st',
  send_draft14 (E := E) tree common index ps st = Ok st' -> counted st st'.
Proof.
  induction ps as [|p ps IH]; intros index st st'; cbn [send_draft14]; [intros [= <-]; apply counted_refl|].
  destruct (next_path _ _ _) as [path|e|]; [|done|done]. cbn [mbind res_bind].
  destruct (send_frame _ _ _ _) as [st1|e|] eqn:Hs; [|done|done]. cbn [mbind res_bind]. intros H%IH.
  apply send_frame_counted in Hs. by apply (counted_trans _ st1).
Qed.

Lemma send_draft08_counted {E} tree common ps : forall index st st',
  send_draft08 (E := E) tree common index ps st = Ok st' -> counted st st'.
Proof.
  induction ps as [|p ps IH]; intros index st st'; cbn [send_draft08]; [intros [= <-]; apply counted_refl|].
  destruct (next_path _ _ _) as [path|e|]; [|done|done]. cbn [mbind res_bind].
  destruct (send_frame _ _ _ _) as [st1|e|] eqn:Hs; [|done|done]. cbn [mbind res_bind]. intros H%IH.
  apply send_frame_counted in Hs. by apply (counted_trans _ st1).
Qed.

Lemma debug_assert_ok {E X} b (k : res E X) x : (_ ← debug_assert b; k) = Ok x -> k = Ok x.
Proof. unfold debug_assert. by destruct (debug_build && negb b). Qed.

Lemma process_draft14_counted {E} w (h : ResponseHandler (B := B) (Addr := Addr)) root h' frames :
  process_responses_draft14 (E := E) w h root = Ok (h', frames) ->
  rh_metrics h' = add_bytes_sent (rh_metrics h) (total_bytes frames).
Proof.
  unfold process_responses_draft14. destruct (rh_online_key h); [|done]. cbv zeta. intros H%debug_assert_ok. revert H.
  destruct (make_srep14 _ _ _) as [[[srep sig] key']|e|]; [|done|done]. cbn [mbind res_bind].
  destruct (send_draft14 _ _ _ _ _) as [st|e|] eqn:Hs; [|done|done]. cbn [mbind res_bind mret res_ret].
  intros [= <- <-]. apply send_draft14_counted in Hs as (fs & -> & Hm). exact Hm.
Qed.

Lemma process_draft08_counted {E} w (h : ResponseHandler (B := B) (Addr := Addr)) root h' frames :
  process_responses_draft08 (E := E) w h root = Ok (h', frames) ->
  rh_metrics h' = add_bytes_sent (rh_metrics h) (total_bytes frames).
Proof.
  unfold process_responses_draft08. destruct (rh_online_key h); [done|]. cbv zeta. intros H%debug_assert_ok. revert H.
  destruct (make_srep08 _ _ _) as [[[srep sig] key']|e|]; [|done|done]. cbn [mbind res_bind].
  destruct (send_draft08 _ _ _ _ _) as [st|e|] eqn:Hs; [|done|done]. cbn [mbind res_bind mret res_ret].
  intros [= <- <-]. apply send_draft08_counted in Hs as (fs & -> & Hm). exact Hm.
Qed.

Lemma add_batch_size_counted {E} m n m' : add_batch_size (E := E) m n = Ok m' ->
  num_responses m' = num_responses m + n /\ num_bytes_sent m' = num_bytes_sent m.
Proof.
  unfold add_batch_size. intros H%debug_assert_ok. revert H.
  destruct (usize_sub _ _) as [i|e|]; [|done|done]. cbn [mbind res_bind].
  destruct (index _ _) as [c|e|]; [|done|done]. cbn [mbind res_bind].
  destruct (u8_add _ _) as [c'|e|]; [|done|done]. cbn. by intros [= <-].
Qed.

Lemma process_responses_counted {E} w (h : ResponseHandler (B := B) (Addr := Addr)) h' frames : length (rh_requests h) < 256 ->
  process_responses (E := E) w h = Ok (h', frames) ->
  num_responses (rh_metrics h') = num_responses (rh_metrics h) + length (rh_requests h) /\
  num_bytes_sent (rh_metrics h') = num_bytes_sent (rh_metrics h) + total_bytes frames.
Proof.
  intros Hl. unfold process_responses. destruct (rh_requests h) as [|p ps] eqn:Hr.
  { intros [= <- <-]. unfold total_bytes. cbn. lia. }
  rewrite Nat.mod_small by done.
  destruct (add_batch_size _ _) as [m|e|] eqn:Hm; [|done|done]. apply add_batch_size_counted in Hm as [Hm1 Hm2].
  cbn [mbind res_bind]. destruct (compute_root _ _) as [[root tree]|e|]; [|done|done]. cbn [mbind res_bind].
  destruct (rh_version h); intros H; [apply process_draft08_counted in H|apply process_draft14_counted in H];
    rewrite H; cbn [add_bytes_sent num_responses num_bytes_sent rh_metrics] in *; lia.
Qed.

(** ** A batch *)

Definition num_sends (m : NetworkMetrics) : nat := num_successful_sends m + num_failed_sends m.
Definition num_datagrams (m : RequestMetrics) : nat :=
  num_ok_requests m + num_bad_requests m + num_runt_requests m + num_jumbo_requests m.

Lemma send_responses_counted (frames : list (Addr * bytes)) : forall n sends,
  num_sends (nh_metrics (send_responses n sends frames)) = num_sends (nh_metrics n) + length frames.
Proof.
  unfold num_sends. induction frames as [|f frames IH]; intros n sends; cbn [send_responses length]; [lia|].
  rewrite IH. unfold send_response, count_send. destruct (default true (head sends)); cbn; lia.
Qed.

Lemma collect_loop_sends {E S} (callback : S -> bytes -> Addr -> res E S) n : forall sock m s out sock' m' s',
  collect_loop n callback sock m s = Ok (out, sock', m', s') -> num_sends m' = num_sends m.
Proof.
  induction n as [|n IH]; intros sock m s out sock' m' s'; cbn [collect_loop]; [by intros [= _ _ <- _]|].
  destruct (recv_from sock) as [[d src| |] sock1]; [|by intros [= _ _ <- _]..].
  destruct (callback s d src) as [s1|e|]; [|done|done]. cbn [mbind res_bind]. apply IH.
Qed.

(** The worker's counters, as [publish_metrics] sends them. *)
Definition wk_snapshot (wk : Worker (B := B) (Addr := Addr)) : WorkerMetrics :=
  mkWorkerMetrics (wk_id wk) (nh_metrics (wk_net wk)) (rq_metrics (wk_req wk)) (rq_response_metrics (wk_req wk)).

(** What is counted, and what it counts in a batch: datagrams, accepted requests,
    responses, attempts to send and bytes. *)
Definition tallies : list ((WorkerMetrics -> nat) * (Batch (Addr := Addr) -> nat)) :=
  [ ((fun m => num_datagrams (wm_request m)), (fun b => length (ba_received b)));
    ((fun m => num_ok_requests (wm_request m)), (fun b => length (omap accept_from (ba_received b))));
    ((fun m => num_responses (wm_response m)), (fun b => length (ba_sent b)));
    ((fun m => num_sends (wm_network m)), (fun b => length (ba_sent b)));
    ((fun m => num_bytes_sent (wm_response m)), (fun b => total_bytes (ba_sent b))) ].

(** Serving [bs] takes the counters of [wk] to those of [wk'], and publishes nothing. *)
Record tallied (wk wk' : Worker (B := B) (Addr := Addr)) (bs : list (Batch (Addr := Addr))) : Prop := {
  tl_id : wk_id wk' = wk_id wk;
  tl_published : wk_published wk' = wk_published wk;
  tl_counts : Forall (fun fg => fg.1 (wk_snapshot wk') = fg.1 (wk_snapshot wk) + sum_list_with fg.2 bs) tallies;
}.

Lemma tallied_refl wk : tallied wk wk [].
Proof. split; [done..|]. apply Forall_forall. intros fg _. cbn. lia. Qed.

Lemma tallied_app wk1 wk2 wk3 bs bs' : tallied wk1 wk2 bs -> tallied wk2 wk3 bs' -> tallied wk1 wk3 (bs ++ bs').
Proof.
  intros [Hi Hp Hc] [Hi' Hp' Hc']. split; [congruence..|]. rewrite Forall_forall in Hc, Hc' |- *. intros fg Hfg.
  rewrite (Hc' fg Hfg), (Hc fg Hfg), sum_list_with_app. lia.
Qed.

(** A worker that has not counted or published anything yet. *)
Record idle_worker (i : nat) (wk : Worker (B := B) (Addr := Addr)) : Prop := {
  iw_snapshot : wk_snapshot wk = idle_metrics i;
  iw_published : wk_published wk = [];
}.

Lemma worker_task_idle {E} w_key w idx ks args clock signer (wk : Worker (B := B) (Addr := Addr)) :
  worker_task (E := E) w_key w idx ks args clock signer = Ok wk -> idle_worker idx wk.
Proof.
  unfold worker_task, ResponseHandler_new, Worker_new.
  destruct (make_online_key _ _ _ _) as [r|e|]; [|done|done]. cbn [mbind res_bind mret res_ret].
  destruct (u64_add _ _) as [next|e|]; [|done|done]. cbn [mbind res_bind]. by intros [= <-].
Qed.

Context {CL : CryptoLaws C} `{!LawfulSeedBackend B}.

Lemma serve_batch_counted {E} sk v w sends sock wk out sock' wk' b : debug_build = false -> worker_inv sk v wk -> world_wf w ->
  serve_batch (E := E) w sends sock wk = Ok (out, sock', wk', b) -> tallied wk wk' [b].
Proof using CL LawfulSeedBackend0.
  intros Hrel [Hp _ Hb _ _] Hw. unfold serve_batch, nh_collect_requests.
  set (n := nh_batch_size (wk_net wk)) in *.
  destruct (collect_loop_spec (E := E) sk n sock (nh_metrics (wk_net wk)) (wk_req wk) [] Hp) as
    (m & req & Hcol & Hp' & Hm & _ & Hr); [cbn; unfold wk_handler in Hb; lia|].
  rewrite Hcol. apply collect_loop_sends in Hcol. cbn [mbind res_bind app] in *.
  destruct (generate_responses_spec (E := E) sk w req _ Hp' Hw) as (req' & frames & Hg & _ & _ & Hm' & Hl & _); [by left|].
  rewrite Hg. cbn [mbind res_bind fst snd]. intros [= _ _ <- <-].
  pose proof (count_datagrams_total (taken n sock) (rq_metrics (wk_req wk)) (taken_clipped n sock)) as (H1 & H2 & H3).
  rewrite <-Hm in H1, H2, H3. unfold generate_responses in Hg.
  destruct (process_responses w (responder req)) as [[h' fs]|e|] eqn:Hpr; [|done|done]. cbn [mbind res_bind fst snd] in Hg.
  injection Hg as <- ->.
  assert (length (rh_requests (responder req)) = length frames) as Hreq by (by rewrite (pi_requests _ _ _ Hp'), length_map).
  pose proof (pi_handler _ _ _ Hp') as [[_ Hmax] Hlen Hroom _ _ _ _ _ _ _]. unfold MAX_BATCH_SIZE in Hmax.
  apply process_responses_counted in Hpr as [Hn Hby]; [|lia]. rewrite Hr in Hn, Hby.
  pose proof (send_responses_counted frames (mkNetworkHandler n m) sends) as Hsend. cbn [nh_metrics] in Hsend.
  cbn [responder rq_metrics] in *. split; [done..|]. unfold tallies, wk_snapshot, rq_response_metrics, num_datagrams in *.
  repeat (apply Forall_cons; split); [..|by apply Forall_nil]; cbn [fst snd sum_list_with set_handlers wk_net wk_req wk_id wm_request
    wm_response wm_network responder rq_metrics ba_received ba_sent rh_metrics rh_clear]; lia.
Qed.

(** ** A pass *)

Lemma drain_counted {E} sk v ev : debug_build = false -> (forall j, world_wf (ev_world ev j)) ->
  forall fuel i sock wk wk' bs, worker_inv sk v wk ->
  drain (E := E) fuel i ev sock wk = Some (Ok (wk', bs)) -> tallied wk wk' bs.
Proof using CL LawfulSeedBackend0.
  intros Hrel Hw. induction fuel as [|fuel IH]; intros i sock wk wk' bs Hinv; cbn [drain]; [done|].
  destruct (serve_batch_spec (E := E) sk v (ev_world ev i) (ev_sends ev i) sock wk (or_introl Hrel) Hinv (Hw i)) as
    (wk1 & b & Hs & Hinv1 & _).
  rewrite Hs. apply (serve_batch_counted (E := E) sk v) in Hs; [|done..].
  destruct (stopped _ sock) as [[|] sock']; cbn [fst snd]; [by intros [= <- <-]|].
  destruct (drain fuel (S i) ev sock' wk1) as [[[wk2 bs2]|e|]|] eqn:Hd; try done. intros [= <- <-].
  apply (tallied_app _ wk1 _ [b]); [done|by eapply IH].
Qed.

Lemma serve_events_counted {E} sk v : debug_build = false -> forall evs wk wk' bs,
  Forall (fun ev => forall j, world_wf (ev_world ev j)) evs -> worker_inv sk v wk ->
  serve_events (E := E) evs wk = Some (Ok (wk', bs)) -> tallied wk wk' bs.
Proof using CL LawfulSeedBackend0.
  intros Hrel. induction evs as [|ev evs IH]; intros wk wk' bs Hw Hinv; cbn [serve_events].
  { intros [= <- <-]. apply tallied_refl. }
  apply Forall_cons in Hw as [Hw Hws].
  destruct (drain_spec (E := E) sk v ev Hw (drain_fuel ev) 0 (ev_incoming ev) wk (or_introl Hrel)) as
    (wk1 & bs1 & Hd & Hinv1 & _); [unfold drain_fuel; lia|done|].
  rewrite Hd. apply (drain_counted (E := E) sk v) in Hd; [|done..].
  destruct (serve_events evs wk1) as [[[wk2 bs2]|e|]|] eqn:He; try done. intros [= <- <-].
  eapply tallied_app; [done|by eapply IH].
Qed.

(** Whether a pass publishes, and what. *)
Definition publishes (it : Iteration (Addr := Addr)) (wk : Worker (B := B) (Addr := Addr)) : bool :=
  (wk_next_metrics wk <=? epoch_seconds (it_now it) (wk_clock wk))%Z.
Definition publication (it : Iteration (Addr := Addr)) (wk : Worker (B := B) (Addr := Addr)) : list WorkerMetrics :=
  if publishes it wk then [wk_snapshot wk] else [].

Lemma set_handlers_polled (wk : Worker (B := B) (Addr := Addr)) :
  tallied wk (set_handlers wk (record_failed_poll (wk_net wk)) (wk_req wk)) [].
Proof using Type.
  split; [done..|]. unfold tallies, num_sends. repeat (apply Forall_cons; split); [..|by apply Forall_nil]; cbn; lia.
Qed.

Lemma replace_key_counted {E} sk v w signer jitter wk wk' : worker_inv sk v wk -> world_wf w ->
  wk_replace_online_key (E := E) w signer jitter wk = Ok wk' -> tallied wk wk' [].
Proof using CL LawfulSeedBackend0.
  intros [[Hp _ _] _ _ _ _] Hw. unfold wk_replace_online_key, rq_replace_online_key.
  destruct (replace_online_key_inv (E := E) sk w (wk_handler wk) _ signer Hp Hw) as (h' & Hrep & _ & _ & _ & _ & Hm & _).
  unfold wk_handler in *. rewrite Hrep. cbn [mbind res_bind].
  destruct (rq_public_key _) as [pk|e|]; [|done|done]. cbn [mbind res_bind].
  destruct (u64_sub _ _) as [delay|e|]; [|done|done]. cbn [mbind res_bind].
  destruct (u64_add _ _) as [next|e|]; [|done|done]. cbn [mbind res_bind]. intros [= <-].
  split; [done..|]. unfold tallies, wk_snapshot, rq_response_metrics. cbn [wk_id wk_net wk_req responder rq_metrics].
  rewrite Hm. repeat (apply Forall_cons; split); [..|by apply Forall_nil]; cbn; lia.
Qed.

(** What a pass publishes it takes out of the counters; a snapshot the channel has
    no room for is not published. *)
Lemma prepare_counted {E} sk v it wk wk' : debug_build = false -> worker_inv sk v wk -> iteration_wf it ->
  prepare (E := E) it wk = Ok wk' ->
  wk_id wk' = wk_id wk /\ wk_published wk' = wk_published wk ++ (if it_room it then publication it wk else []) /\
  Forall (fun fg => sum_nat fg.1 (publication it wk) + fg.1 (wk_snapshot wk') = fg.1 (wk_snapshot wk)) tallies.
Proof using CL LawfulSeedBackend0.
  intros Hrel Hinv [Hw _]. unfold prepare, publication. fold (publishes it wk).
  assert (exists wk1, (if publishes it wk then publish_metrics (E := E) (it_room it) (it_publish it) wk else Ok wk) = Ok wk1 /\
    worker_inv sk v wk1 /\ wk_id wk1 = wk_id wk /\
    wk_published wk1 = wk_published wk ++ (if it_room it then if publishes it wk then [wk_snapshot wk] else [] else []) /\
    Forall (fun fg => sum_nat fg.1 (if publishes it wk then [wk_snapshot wk] else []) + fg.1 (wk_snapshot wk1) =
      fg.1 (wk_snapshot wk)) tallies) as (wk1 & -> & Hinv1 & Hid & Hpub & Hc).
  { destruct (publishes it wk); cycle 1.
    { exists wk. split_and!; [done|done|done|by destruct (it_room it); rewrite app_nil_r|].
      apply Forall_forall. intros fg _. done. }
    destruct (publish_metrics_spec (E := E) sk v (it_room it) (it_publish it) wk (or_introl Hrel) Hinv) as (wk1 & Hp & Hinv1 & _).
    exists wk1. split; [done|]. split; [done|]. unfold publish_metrics in Hp.
    destruct (u64_add _ _) as [next|e|]; [|done|done]. cbn [mbind res_bind] in Hp. injection Hp as <-.
    split_and!; [done|by destruct (it_room it); rewrite ?app_nil_r|].
    repeat (apply Forall_cons; split); [..|by apply Forall_nil]; cbn; lia. }
  cbn [mbind res_bind].
  assert (forall wk2, tallied wk1 wk2 [] -> tallied wk1 (if it_poll_failed it
    then set_handlers wk2 (record_failed_poll (wk_net wk2)) (wk_req wk2) else wk2) []) as Hpoll.
  { intros wk2 Ht. destruct (it_poll_failed it); [|done]. exact (tallied_app _ _ _ [] [] Ht (set_handlers_polled wk2)). }
  assert (forall wk2, tallied wk1 wk2 [] -> wk_id wk2 = wk_id wk /\
    wk_published wk2 = wk_published wk ++ (if it_room it then if publishes it wk then [wk_snapshot wk] else [] else []) /\
    Forall (fun fg => sum_nat fg.1 (if publishes it wk then [wk_snapshot wk] else []) + fg.1 (wk_snapshot wk2) =
      fg.1 (wk_snapshot wk)) tallies) as Hfinal.
  { intros wk2 [Hi Hp Hc2]. split_and!; [congruence|congruence|]. rewrite Forall_forall in Hc, Hc2 |- *.
    intros fg Hfg. rewrite (Hc2 fg Hfg). cbn. rewrite Nat.add_0_r. by apply Hc. }
  destruct (wk_next_key wk1 <=? _)%Z.
  - destruct (wk_replace_online_key _ _ _ wk1) as [wk2|e|] eqn:Hk; [|done|done]. cbn [mbind res_bind]. intros [= <-].
    apply Hfinal, Hpoll. by eapply replace_key_counted.
  - cbn [mbind res_bind]. intros [= <-]. apply Hfinal, Hpoll, tallied_refl.
Qed.

(** A pass: what was counted before, and what its batches hold, is published or
    still counted. *)
Lemma iteration_counted {E} sk v it wk wk' bs : debug_build = false -> worker_inv sk v wk -> iteration_wf it ->
  iteration (E := E) it wk = Some (Ok (wk', bs)) ->
  wk_id wk' = wk_id wk /\ wk_published wk' = wk_published wk ++ (if it_room it then publication it wk else []) /\
  Forall (fun fg => sum_nat fg.1 (publication it wk) + fg.1 (wk_snapshot wk') =
    fg.1 (wk_snapshot wk) + sum_list_with fg.2 bs) tallies.
Proof using CL LawfulSeedBackend0.
  intros Hrel Hinv Hwf. unfold iteration.
  destruct (prepare_spec (E := E) sk v it wk (or_introl Hrel) Hinv Hwf) as (wk0 & Hp & Hinv0 & _). rewrite Hp.
  apply (prepare_counted (E := E) sk v) in Hp as (Hi & Hpub & Hc); [|done..].
  intros Hs. apply (serve_events_counted (E := E) sk v) in Hs as [Hi' Hpub' Hc']; [|done|by destruct Hwf|done].
  split_and!; [congruence|congruence|]. rewrite Forall_forall in Hc, Hc' |- *. intros fg Hfg.
  rewrite (Hc' fg Hfg). specialize (Hc fg Hfg). cbn beta in *. lia.
Qed.
End tally.
