(* ===== verification/Server.v ===== *)
(** * The server's start (crates/roughenough-server/src/main.rs)

    From the arguments to the workers: the clock, the seed and the backend that holds
    it, the source of keys that the workers share, the collector of metrics and one
    worker per thread.  A thread's start is what it reads, and its loop is
    [Worker.run]; [System] and [Threads] run the threads together.  Logging is not
    modelled.  The key
    source is behind a lock and never changes what it holds, so that each worker has
    a copy. *)
From S2P Require Import Prelude Text Errors Cursor Wire Tags FixedTags Versions Cert Srep Request Response Merkle.
From S2P Require Import Encoding Crypto Keys Krs Longterm Storage Files Metrics Aggregator Snapshot Responses Requests Validation EndToEnd Args Worker Tally.

(** ** The boxed backend *)

Section chosen.
Context {C : CryptoLib} {K S : Type} `{!SeedBackend K} `{!SeedBackend S}.

#[export] Instance ChosenBackend_SeedBackend : SeedBackend (ChosenBackend K S) := {|
  store_seed b seed :=
    match b with
    | ChoseMemory m => m' ← store_seed m seed; Ok (ChoseMemory m')
    | ChoseKrs k => k' ← store_seed k seed; Ok (ChoseKrs k')
    | ChoseSshAgent s => s' ← store_seed s seed; Ok (ChoseSshAgent s')
    end;
  get_seed b := match b with ChoseMemory m => get_seed m | ChoseKrs k => get_seed k | ChoseSshAgent s => get_seed s end;
  backend_sign b data :=
    match b with
    | ChoseMemory m => r ← backend_sign m data; Ok (r.1, ChoseMemory r.2)
    | ChoseKrs k => r ← backend_sign k data; Ok (r.1, ChoseKrs r.2)
    | ChoseSshAgent s => r ← backend_sign s data; Ok (r.1, ChoseSshAgent r.2)
    end;
  seed_len b := match b with ChoseMemory m => seed_len m | ChoseKrs k => seed_len k | ChoseSshAgent s => seed_len s end;
  backend_public_key b :=
    match b with
    | ChoseMemory m => backend_public_key m
    | ChoseKrs k => backend_public_key k
    | ChoseSshAgent s => backend_public_key s
    end;
|}.

Context {CL : CryptoLaws C} `{!LawfulSeedBackend K} `{!LawfulSeedBackend S}.

Definition chosen_holds (b : ChosenBackend K S) (sk : bytes) : Prop :=
  match b with ChoseMemory m => holds m sk | ChoseKrs k => holds k sk | ChoseSshAgent s => holds s sk end.

(** Whatever was chosen keeps the backend's promises. *)
#[export] Instance ChosenBackend_Lawful : LawfulSeedBackend (ChosenBackend K S).
Proof using All.
  refine {| holds := chosen_holds |}.
  - intros [b|b|b] sk Hb; exact (holds_seed_len b sk Hb).
  - intros [b|b|b] sk data Hb; destruct (holds_sign b sk data Hb) as (b' & Hs & Hb'); unfold backend_sign at 1; cbn [ChosenBackend_SeedBackend];
      rewrite Hs; by eexists.
  - intros [b|b|b] sk Hb; exact (holds_public_key b sk Hb).
Defined.

Lemma memory_store_holds seed : length (seed_value seed) = 32 ->
  exists b : ChosenBackend K S, store_seed (ChoseMemory MemoryBackend_new) seed = Ok b /\ holds b (seed_value seed).
Proof using All.
  intros Hl. destruct seed as [x]. cbn. rewrite PublicKey_from_ok by apply ed_public_length. cbn.
  eexists. split; [reflexivity|]. cbn in Hl |- *. by split_and!.
Qed.
End chosen.

(** ** Start *)

(** What a worker's thread reads while it starts. *)
Record WorkerStart := mkStart { ws_key : World; ws_loop : World; ws_signer : bytes }.

Section server.
Context {C : CryptoLib} {profile : Profile} {D : DataEncoding} {J : Json} {W : Type} {CS : CloudServices W}.
Context {K S : Type} `{!SeedBackend K} `{!SeedBackend S} {Addr E : Type}.
(** The features compiled in: the cloud services, and the two optional backends. *)
Context (features : Features) (krs : option (res BackendError K)) (ssh : option (res BackendError S)).
(** The files at the start, and what goes wrong with the test file in the metrics directory. *)
Context (fs : Files) (create_error remove_error : option IoError).

Abbreviation Backend := (ChosenBackend K S).
Abbreviation IO := (io W E).

(** [unwrap_or_else(|e| panic!(..))] *)

(** [let seed = if args.seed.is_empty() ..] *)
Definition argument_seed (args : Args) : IO Seed :=
  if is_empty (arg_seed args) then lift (Seed_new (zeroes 32)) else expect_io (try_load_seed features (arg_seed args)).
Definition load_seed (args : Args) : IO Backend :=
  seed ← argument_seed args;
  backend ← lift (expect (try_choose_backend krs ssh (SeedBackendArg_to_string (arg_seed_backend args))));
  lift (expect (store_seed backend seed)).

(** The [metrics_path] of [start_metrics_thread]; a bad directory is logged and ends the process. *)
Definition checked_metrics_path (args : Args) : res E (option string) :=
  match arg_metrics_output args with
  | None => Ok None
  | Some path =>
      match (validate_metrics_directory create_error remove_error path fs).1 with
      | Ok _ => Ok (Some path)
      | _ => Panic
      end
  end.

(** The collector and where it writes; [System] has the channel. *)
Definition start_metrics_thread (args : Args) (clock : ClockSource) : res E (MetricsAggregator * option string) :=
  metrics_path ← checked_metrics_path args;
  Ok (MetricsAggregator_new (arg_num_threads args) (from_secs (arg_metrics_interval args)) clock, metrics_path).

(** The loop that starts the workers' threads, from thread [i] on. *)
Fixpoint start_workers (i : nat) (starts : list WorkerStart) (key_source : KeySource (B := Backend)) (args : Args) (clock : ClockSource)
    : res E (list (Worker (B := Backend) (Addr := Addr))) :=
  match starts with
  | [] => Ok []
  | s :: starts' =>
      worker ← worker_task (ws_key s) (ws_loop s) i key_source args clock (ws_signer s);
      workers ← start_workers (i + 1) starts' key_source args clock;
      Ok (worker :: workers)
  end.

Record RunningServer := mkRunning {
  rs_public_key : PublicKey;
  rs_aggregator : MetricsAggregator;
  rs_metrics_path : option string;
  rs_workers : list (Worker (B := Backend) (Addr := Addr));
}.

(** [main]; [starts] has one start for each of the [num_threads] threads. *)
Definition server_main (args : Args) (starts : list WorkerStart) : IO RunningServer :=
  let clock := choose_clock args in
  seed ← load_seed args;
  key_source ← lift (KeySource_new (args_version args) seed clock (rotation_interval args));
  public_key ← lift (ks_public_key key_source);
  metrics ← lift (start_metrics_thread args clock);
  workers ← lift (start_workers 0 (take (arg_num_threads args) starts) key_source args clock);
  mret (mkRunning public_key metrics.1 metrics.2 workers).

(** ** The server serves *)

Context {CL : CryptoLaws C} {DL : DataEncodingLaws D} {JL : JsonLaws J} {CSL : CloudLaws CS} `{!LawfulSeedBackend K} `{!LawfulSeedBackend S}.

(** The argument's seed is [x]. *)
Definition seed_text (s : string) (x : bytes) : Prop :=
  length x = 32 /\ ((s = ""%string /\ x = zeroes 32) \/ hex_text (str_bytes s) x \/ b64_text (str_bytes s) x).

Lemma empty_text x : hex_text (str_bytes "") x \/ b64_text (str_bytes "") x -> x = [].
Proof using Type.
  assert (Forall (fun f : bytes -> bytes => forall y, f y = [] -> y = []) (hex_specs ++ b64_specs)) as Hall.
  { unfold hex_specs, b64_specs, hex_encode, b64_encode. cbn [app].
    repeat (apply Forall_cons; split; [by intros [|a [|b [|c y]]]|]). by apply Forall_nil. }
  rewrite Forall_forall in Hall. intros [(f & Hf & Hs)|(f & Hf & Hs)]; apply (Hall f); try done; apply elem_of_app; auto.
Qed.

(** The backend of the arguments can be had, and takes and holds [x]. *)
Definition stores (args : Args) (x : bytes) : Prop :=
  exists b0 b : Backend, try_choose_backend krs ssh (SeedBackendArg_to_string (arg_seed_backend args)) = Ok b0 /\
    store_seed b0 (mkSeed x) = Ok b /\ holds b x.

Lemma memory_stores (args : Args) (x : bytes) : arg_seed_backend args = ArgMemory -> length x = 32 -> stores args x.
Proof using CL LawfulSeedBackend0 LawfulSeedBackend1.
  intros Hb Hx. destruct (memory_store_holds (K := K) (S := S) (mkSeed x) Hx) as (b & Hst & Hh).
  exists (ChoseMemory MemoryBackend_new), b. by rewrite Hb.
Qed.
Lemma krs_stores (args : Args) (x : bytes) (k k' : K) : arg_seed_backend args = ArgKrs -> krs = Some (Ok k) ->
  store_seed k (mkSeed x) = Ok k' -> holds k' x -> stores args x.
Proof using Type. intros Hb Hk Hs Hh. exists (ChoseKrs k), (ChoseKrs k'). rewrite Hb, Hk. cbn. by rewrite Hs. Qed.
Lemma ssh_agent_stores (args : Args) (x : bytes) (a a' : S) : arg_seed_backend args = ArgSshAgent -> ssh = Some (Ok a) ->
  store_seed a (mkSeed x) = Ok a' -> holds a' x -> stores args x.
Proof using Type. intros Hb Ha Hs Hh. exists (ChoseSshAgent a), (ChoseSshAgent a'). rewrite Hb, Ha. cbn. by rewrite Hs. Qed.

(** The argument is an envelope in which [x] was once sealed under a key of a KMS,
    and at [w], when the server starts, the KMS answers the decryption. *)
Definition seed_sealed (args : Args) (x : bytes) (w : W) : Prop :=
  exists p key env text (w0 w1 : W), kms_enabled features p /\
    try_store_seed features (mkSeed x) (protection_prefix p +:+ key) w0 = (Ok env, w1) /\
    arg_seed args = protection_prefix p +:+ text /\ try_decode text = Ok (str_bytes (envelope_to_json env)) /\
    kms_answers p key (env_dek_ct env) w = true.

(** The argument gives the seed [x]. *)
Definition seed_given (args : Args) (x : bytes) (w : W) : Prop :=
  length x = 32 /\ (seed_text (arg_seed args) x \/ seed_sealed args x w).

Lemma seed_given_loads (args : Args) (x : bytes) (w : W) : seed_given args x w -> exists w', argument_seed args w = (Ok (mkSeed x), w').
Proof using DL JL CSL.
  intros [Hx [[_ Ht]|(p & key & env & text & w0 & w1 & Hp & Hst & Ha & Hd & Hans)]]; unfold argument_seed.
  - exists w. destruct Ht as [[-> ->]|Ht]; [done|]. destruct (is_empty (arg_seed args)) eqn:He.
    + destruct (arg_seed args); [|done]. apply empty_text in Ht. by subst x.
    + unfold expect_io. by rewrite (proj1 (plain_seed_loads features _ x w Hx Ht)).
  - pose proof (try_store_seals features p key (mkSeed x) w0 Hp Hx) as Hseal. unfold kms_seals in Hseal.
    rewrite try_store_seed_prefix in Hst. rewrite Hst in Hseal. destruct Hseal as [_ Hseal].
    pose proof (kms_envelope_loads features p key (mkSeed x) env text w Hp Hseal Hd) as Hl. rewrite Hans in Hl.
    rewrite Ha. replace (is_empty (protection_prefix p +:+ text)) with false by (by destruct p).
    unfold expect_io. rewrite try_load_seed_prefix. destruct (try_load features p text w) as [r w']. cbn [fst] in Hl.
    subst r. by exists w'.
Qed.

Lemma load_seed_stores (args : Args) (x : bytes) (w : W) : stores args x -> seed_given args x w ->
  exists b w', load_seed args w = (Ok b, w') /\ holds b x.
Proof using DL JL CSL.
  intros (b0 & b & Hb & Hst & Hh) Hx. destruct (seed_given_loads args x w Hx) as [w' Hw'].
  exists b, w'. split; [|exact Hh]. unfold load_seed, mbind, io_bind, lift. rewrite Hw'.
  rewrite Hb. cbn [expect]. by rewrite Hst.
Qed.

(** The clocks that a worker's thread reads while it starts. *)
Definition start_ok (args : Args) (s : WorkerStart) : Prop :=
  let clock := choose_clock args in
  let interval := (arg_rotation_interval args * 60 * 60)%Z in
  world_wf (ws_key s) /\
  (epoch_seconds (ws_key s) clock <= epoch_seconds (ws_loop s) clock <= epoch_seconds (ws_key s) clock + interval)%Z /\
  (epoch_seconds (ws_key s) clock + interval <= u64_max)%Z.

(** What a worker does from then on: on any prompt passes it serves all that arrives. *)
Definition serves (sk : bytes) (args : Args) (s : WorkerStart) (wk : Worker (B := Backend) (Addr := Addr)) : Prop :=
  let clock := choose_clock args in
  forall its, prompt_run clock (arg_rotation_interval args * 60 * 60) (epoch_seconds (ws_loop s) clock) its ->
  exists wk' bs, run (E := E) its wk = Some (Ok (wk', bs)) /\
    concat (map ba_received bs) =
      concat (map (fun it => concat (map (fun ev => readable (ev_incoming ev)) (it_events it))) its) /\
    Forall (batch_validates sk (args_version args) clock) bs.

Lemma start_workers_spec sk args ks starts : debug_build = false -> args_ok args -> (1 <= arg_rotation_interval args)%Z ->
  source_ok sk (args_version args) ks -> ks_clock ks = choose_clock args -> ks_validity ks = rotation_interval args ->
  Forall (start_ok args) starts -> forall i,
  exists workers, start_workers i starts ks args (choose_clock args) = Ok workers /\
    Forall2 (fun s wk => worker_inv sk (args_version args) wk /\ serves sk args s wk) starts workers.
Proof using CL LawfulSeedBackend0 LawfulSeedBackend1.
  intros Hrel Hargs Hri Hso Hcl Hval. induction 1 as [|s starts (Hw & Hs & Hmax) _ IH]; intros i; cbn [start_workers].
  { exists []. split; [done|]. by apply Forall2_nil. }
  destruct (worker_task_inv (E := E) (Addr := Addr) sk (ws_key s) (ws_loop s) i ks args (choose_clock args) (ws_signer s))
    as (wk & -> & Hinv & Hfr & Hc & Hiv & _); try done; [by left|].
  cbn [mbind res_bind]. destruct (IH (i + 1)) as (workers & -> & Hall). cbn [mbind res_bind].
  exists (wk :: workers). split; [done|]. apply Forall2_cons. split; [|done]. split; [done|]. intros its Hrun.
  destruct (run_spec (E := E) sk (args_version args) its wk (epoch_seconds (ws_loop s) (choose_clock args))) as
    (wk' & bs & Hr & _ & Hcat & Hb); [by left|done|done|lia|by rewrite Hc, Hiv|].
  rewrite Hc in Hb. by exists wk', bs.
Qed.

Lemma start_workers_idle ks args clock starts : forall i workers,
  start_workers i starts ks args clock = Ok workers ->
  forall j wk, workers !! j = Some wk -> idle_worker (i + j) wk.
Proof using Type.
  induction starts as [|s starts IH]; intros i workers; cbn [start_workers]; [by intros [= <-] j wk|].
  destruct (worker_task _ _ _ _ _ _ _) as [wk0|e|] eqn:Ht; [|done|done]. cbn [mbind res_bind].
  destruct (start_workers _ _ _ _ _) as [wks|e|] eqn:Hs; [|done|done]. cbn [mbind res_bind]. intros [= <-] [|j] wk.
  - intros [= <-]. rewrite Nat.add_0_r. by eapply worker_task_idle.
  - intros Hj. replace (i + Datatypes.S j) with (i + 1 + j) by lia. by eapply IH.
Qed.

(** The metrics directory, if there is one, passes the check. *)
Definition metrics_output_ok (args : Args) : Prop :=
  forall path, arg_metrics_output args = Some path ->
    (validate_metrics_directory create_error remove_error path fs).1 = Ok tt.

(** What [main] brings up. *)
Record comes_up (args : Args) (x : bytes) (starts : list WorkerStart) (server : RunningServer) : Prop := {
  cu_public_key : rs_public_key server = identity_key x;
  cu_aggregator : rs_aggregator server =
    MetricsAggregator_new (arg_num_threads args) (from_secs (arg_metrics_interval args)) (choose_clock args);
  cu_metrics_path : rs_metrics_path server = arg_metrics_output args;
  cu_workers : Forall2 (fun s wk => worker_inv x (args_version args) wk /\ serves x args s wk) starts (rs_workers server);
  cu_idle : forall i wk, rs_workers server !! i = Some wk -> idle_worker i wk;
}.

(** What [main] needs, to start with the seed [x]: valid arguments with a rotation of
    at least an hour, a seed that loads at [w] and a backend that takes it, a start
    for each thread, and a metrics directory that passes its check if one is given. *)
Record launch_ok (args : Args) (x : bytes) (starts : list WorkerStart) (w : W) : Prop := {
  la_args : args_ok args;
  la_rotation : (1 <= arg_rotation_interval args < 2 ^ 16)%Z;
  la_stores : stores args x;
  la_seed : seed_given args x w;
  la_threads : length starts = arg_num_threads args;
  la_starts : Forall (start_ok args) starts;
  la_metrics : metrics_output_ok args;
}.

Lemma server_main_spec (args : Args) (x : bytes) (starts : list WorkerStart) (w : W) :
  debug_build = false -> launch_ok args x starts w ->
  exists server w', server_main args starts w = (Ok server, w') /\ comes_up args x starts server.
Proof using CL DL JL CSL LawfulSeedBackend0 LawfulSeedBackend1.
  intros Hrel [Hargs Hri Hb Hx Hlen Hst Hmp]. unfold server_main, mbind, io_bind.
  destruct (load_seed_stores args x w Hb Hx) as (b & w' & -> & Hh). unfold lift, KeySource_new, LongTermIdentity_new.
  assert (duration_is_zero (rotation_interval args) = false) as ->.
  { unfold duration_is_zero, rotation_interval, from_secs. cbn. destruct (Z.eqb_spec (arg_rotation_interval args * 60 * 60) 0); [lia|done]. }
  rewrite (holds_seed_len b x Hh). cbn [Nat.eqb mbind res_bind mret res_ret].
  unfold ks_public_key, id_public_key. cbn [ks_identity id_seed]. rewrite (holds_public_key b x Hh). cbn [expect].
  assert (checked_metrics_path args = Ok (arg_metrics_output args)) as Hpath.
  { unfold checked_metrics_path. destruct (arg_metrics_output args) as [path|] eqn:Hp; [|done]. by rewrite (Hmp path Hp). }
  unfold start_metrics_thread at 1. rewrite Hpath. cbn [mbind res_bind fst snd]. rewrite <-Hlen, firstn_all.
  destruct (start_workers_spec x args (mkKeySource (mkIdentity b (args_version args)) (rotation_interval args) (choose_clock args)) starts Hrel Hargs)
    with (i := 0) as (workers & Hs & Hall); try done; try lia.
  { split; [exact Hh|done|]. cbn. lia. }
  rewrite Hs. eexists _, w'. split; [reflexivity|]. split; [done|by rewrite Hlen|done|exact Hall|]. by apply (start_workers_idle _ _ _ _ 0 _ Hs).
Qed.

(** C1: The server starts and serves the clients of its version.  Launched as
    [launch_ok] says (valid arguments; a seed in hexadecimal or base 64, or none, which
    is the seed of zeroes, or one sealed under a key of a KMS that answers its
    decryption at the start; held by the memory, or by a keyring or an SSH agent that
    takes it; and a metrics directory that passes its check, if one is given), [main]
    comes up in the release profile and announces the seed's public key; it has one
    worker per thread, and each worker, on any prompt passes, handles every datagram
    that arrives and answers every request that it accepts, of either version.  A
    request of the server's version (for draft-08, with one version in its list, as the
    client makes it) is answered with a frame that the client which sent it, holding
    the announced key, validates with the server's time; one of the other version with
    a frame that the parser of the client which sent it refuses. *)
Theorem server_serves (args : Args) (x : bytes) (starts : list WorkerStart) (w : W) :
  debug_build = false -> launch_ok args x starts w ->
  exists server w', server_main args starts w = (Ok server, w') /\
    rs_public_key server = identity_key x /\
    length (ag_metrics (rs_aggregator server)) = arg_num_threads args /\
    Forall2 (fun s wk => serves x args s wk) starts (rs_workers server).
Proof using CL DL JL CSL LawfulSeedBackend0 LawfulSeedBackend1.
  intros Hrel Hla.
  destruct (server_main_spec args x starts w Hrel Hla) as (server & w' & Hm & [Hk Ha _ Hall _]).
  exists server, w'. split_and!; [done|done| |].
  - rewrite Ha. cbn. by rewrite length_map, length_seq.
  - eapply Forall2_impl; [exact Hall|]. by intros s wk [_ Hs].
Qed.
End server.

(** ** An example: one worker, the seed of zeroes, served until the key is replaced *)
#[local] Abbreviation toy_launch := (launch_ok (C := toy_crypto) (CL := toy_crypto_laws) (D := rfc4648) (J := toy_json) (CS := toy_cloud)
  (K := MemoryBackend) (S := MemoryBackend) all_features None None ∅ None None).
Lemma sample_launch : toy_launch (sample_args RfcDraft14) (zeroes 32) [mkStart (sample_world 1700000000) (sample_world 1700000000) (zeroes 32)] tt.
Proof.
  split.
  - unfold args_ok; cbn; lia.
  - cbn; lia.
  - by apply memory_stores.
  - split; [reflexivity|]. left. split; [reflexivity|]. left. split; reflexivity.
  - reflexivity.
  - apply Forall_singleton. split; [by apply sample_world_wf|]. cbn; unfold u64_max; lia.
  - by intros path.
Qed.

Lemma server_serves_witness :
  exists server wk' bs, server_main (profile := false) (D := rfc4648) (J := toy_json) (CS := toy_cloud) (K := MemoryBackend) (S := MemoryBackend)
      (Addr := nat) (E := unit) all_features None None ∅ None None (sample_args RfcDraft14) [mkStart (sample_world 1700000000) (sample_world 1700000000) (zeroes 32)] tt
    = (Ok server, tt) /\
    rs_public_key server = identity_key (zeroes 32) /\
    exists wk, rs_workers server = [wk] /\
      run (profile := false) (E := unit) [sample_iteration 1700000000; sample_iteration 1700086400] wk = Some (Ok (wk', bs)) /\
      Forall (batch_validates (zeroes 32) RfcDraft14 System) bs.
Proof.
  destruct (server_serves (profile := false) (D := rfc4648) (J := toy_json) (CS := toy_cloud) (K := MemoryBackend) (S := MemoryBackend)
    (CL := toy_crypto_laws) (Addr := nat) (E := unit) all_features None None ∅ None None (sample_args RfcDraft14) (zeroes 32)
    [mkStart (sample_world 1700000000) (sample_world 1700000000) (zeroes 32)] tt) as (server & [] & Hm & Hk & _ & Hall).
  - reflexivity.
  - apply sample_launch.
  - apply Forall2_cons_inv_l in Hall as (wk & rest & Hs & Hnil & Hw). apply Forall2_nil_inv_l in Hnil. subst rest.
    destruct (Hs [sample_iteration 1700000000; sample_iteration 1700086400]) as (wk' & bs & Hr & _ & Hb).
    { exact sample_prompt_run. }
    exists server, wk', bs. split; [exact Hm|]. split; [exact Hk|]. exists wk. split; [exact Hw|]. split; [exact Hr|exact Hb].
Defined.

(** The same server with its seed in a kernel keyring that was empty. *)
Definition keyring_args : Args := mkArgs 64 "0.0.0.0" 2003 1 V14 0 false 24 60 "" ArgKrs None 0.
#[local] Instance toy_keyring_lawful : LawfulSeedBackend (C := toy_crypto) (LinuxKrsBackend (R := one_key_rings)) :=
  LinuxKrsBackend_Lawful (C := toy_crypto) (R := one_key_rings).
Lemma keyring_stores : stores (C := toy_crypto) (CL := toy_crypto_laws) (K := LinuxKrsBackend (R := one_key_rings)) (S := MemoryBackend)
  (Some (Ok LinuxKrsBackend_new)) None keyring_args (zeroes 32).
Proof.
  eapply krs_stores; [reflexivity..|]. apply (krs_new_store (CL := toy_crypto_laws) (mkSeed (zeroes 32))); reflexivity.
Qed.

(** A seed sealed with a key of GCP, its envelope in hexadecimal. *)
Definition sealed_envelope : SeedEnvelope :=
  match try_store_seed (K := toy_cloud) all_features (mkSeed (zeroes 32))
    (protection_prefix GcpKms +:+ "projects/1/keys/2") tt with
  | (Ok env, _) => env
  | _ => mkEnvelope "" [] []
  end.
Definition sealed_args : Args :=
  mkArgs 64 "0.0.0.0" 2003 1 V14 0 false 24 60
    (protection_prefix GcpKms +:+ as_hex (str_bytes (envelope_to_json (D := rfc4648) (J := toy_json) sealed_envelope))) ArgMemory None 0.
Lemma sealed_example : seed_given (D := rfc4648) (J := toy_json) (CS := toy_cloud) all_features sealed_args (zeroes 32) tt.
Proof.
  split; [reflexivity|]. right. eexists GcpKms, "projects/1/keys/2"%string, sealed_envelope, _, tt, tt.
  split; [reflexivity|]. split; [vm_compute; reflexivity|]. split; [reflexivity|]. split; [lazy; reflexivity|vm_compute; reflexivity].
Qed.
