(* ===== verification/System.v ===== *)
(** * The threads of a server (crates/roughenough-server/src/main.rs, worker.rs,
      metrics/aggregator.rs)

    [main] starts one thread per worker and one for the collector of metrics.  They
    share nothing but the channel, which holds two snapshots per worker: a worker
    that finds it full drops its snapshot and goes on.  Here they run interleaved.

    A step is a pass of one worker, the receipt of one snapshot, or the end of a
    pass of the collector (which finds the channel empty).  A pass of a worker
    touches the channel in one place, the [try_send] of its publication, so that
    making it one step leaves out no outcome.  The channel is first in, first out,
    and [try_send] fails exactly when it is full. *)
From stdpp Require Import list relations.
From S2P Require Import Prelude Text Errors Cursor Wire Tags FixedTags Versions Cert Srep Request Response Merkle.
From S2P Require Import Encoding Crypto Keys Longterm Storage Files Metrics Aggregator Snapshot Responses Requests Validation EndToEnd Args Worker.
From S2P Require Import Tally Server.

Section system.
Context {C : CryptoLib} {profile : Profile} {B : Type} `{!SeedBackend B} {Addr E : Type}.

(** The last two fields are history which the program does not keep: the snapshots
    that were dropped and the batches that were served. *)
Record System := mkSystem {
  sy_workers : list (Worker (B := B) (Addr := Addr));
  sy_channel : list WorkerMetrics;
  sy_collector : Collector;
  sy_reports : list Report;
  sy_dropped : list WorkerMetrics;
  sy_batches : list (Batch (Addr := Addr));
}.

(** [bounded(num_workers * 2)] *)
Definition channel_capacity (num_workers : nat) : nat := num_workers * 2.
Definition has_room (capacity : nat) (channel : list WorkerMetrics) : bool := length channel <? capacity.

(** [self.metrics_channel.try_send(snapshot)] of the worker's pass: what it has
    published since it was [wk]. *)
Definition newly_published (wk wk' : Worker (B := B) (Addr := Addr)) : list WorkerMetrics :=
  drop (length (wk_published wk)) (wk_published wk').

Definition with_metrics (c : Collector) (metrics : list WorkerMetrics) : Collector :=
  mkCollector (mkAggregator metrics (ag_interval (co_aggregator c)) (ag_clock (co_aggregator c)))
    (co_next_report c) (co_last_report_time c).

(** Whose turn a step is. *)
Inductive Turn : Type := WorkerPass (i : nat) | Receive | CollectorPass.

Inductive turn (capacity : nat) (s : System) : Turn -> System -> Prop :=
| turn_worker i it wk wk' bs :
    sy_workers s !! i = Some wk -> iteration_wf it -> it_room it = has_room capacity (sy_channel s) ->
    iteration (E := E) it wk = Some (Ok (wk', bs)) ->
    turn capacity s (WorkerPass i) (mkSystem (<[i := wk']> (sy_workers s)) (sy_channel s ++ newly_published wk wk')
      (sy_collector s) (sy_reports s) (sy_dropped s ++ (if it_room it then [] else publication it wk))
      (sy_batches s ++ bs))
| turn_receive m channel metrics :
    sy_channel s = m :: channel -> accumulate (E := E) (collector_metrics (sy_collector s)) m = Ok metrics ->
    turn capacity s Receive (mkSystem (sy_workers s) channel (with_metrics (sy_collector s) metrics) (sy_reports s)
      (sy_dropped s) (sy_batches s))
| turn_collector w c reports :
    sy_channel s = [] -> collector_pass (E := E) (mkPass [] w) (sy_collector s) = Ok (c, reports) ->
    turn capacity s CollectorPass (mkSystem (sy_workers s) [] c (sy_reports s ++ reports) (sy_dropped s) (sy_batches s)).

Definition step (capacity : nat) (s s' : System) : Prop := exists t, turn capacity s t s'.
Lemma turn_step capacity s t s' : turn capacity s t s' -> step capacity s s'.
Proof. by exists t. Qed.

(** A pass of the collector is its receipts and then its end. *)
Lemma collector_pass_steps (received : list WorkerMetrics) (w : World) (c : Collector) :
  collector_pass (E := E) (mkPass received w) c =
    (metrics ← accumulate_all (collector_metrics c) received; collector_pass (mkPass [] w) (with_metrics c metrics)).
Proof. unfold collector_pass. cbn [pa_received pa_world]. by destruct (accumulate_all _ _). Qed.

(** The threads as [main] starts them. *)
Definition system_start (workers : list (Worker (B := B) (Addr := Addr))) (c : Collector) : System :=
  mkSystem workers [] c [] [] [].

(** Everything that has been counted: by the collector, in the channel, dropped, or
    not yet published. *)
Definition everywhere (s : System) : list WorkerMetrics :=
  collector_metrics (sy_collector s) ++ sy_channel s ++ sy_dropped s ++ map wk_snapshot (sy_workers s).

Context {CL : CryptoLaws C} `{!LawfulSeedBackend B}.

Record system_inv (sk : bytes) (v : ProtocolVersion) (s : System) : Prop := {
  sy_workers_inv : Forall (worker_inv sk v) (sy_workers s);
  sy_ids : forall i wk, sy_workers s !! i = Some wk -> wk_id wk = i;
  sy_room : length (sy_channel s) <= channel_capacity (length (sy_workers s));
  sy_snapshots : Forall (snapshot_wf (length (sy_workers s))) (sy_channel s);
  sy_collectors : length (collector_metrics (sy_collector s)) = length (sy_workers s);
  sy_accumulators : accumulators_wf (collector_metrics (sy_collector s));
  sy_counts : Forall (fun fg => sum_nat fg.1 (everywhere s) = sum_list_with fg.2 (sy_batches s)) tallies;
  sy_reported : Forall (fun r => Forall (fun fg => fg.1 (report_totals r) <= sum_list_with fg.2 (sy_batches s)) tallies)
    (sy_reports s);
}.

(** Sums of counters are sums of tallies. *)
Lemma sum_nat_plus f g ms : sum_nat (fun m => f m + g m) ms = sum_nat f ms + sum_nat g ms.
Proof using Type. unfold sum_nat. induction ms as [|m ms IH]; cbn; lia. Qed.

Lemma totals_tallies a b : totals a b -> Forall (fun fg => sum_nat fg.1 a = sum_nat fg.1 b) (tallies (Addr := Addr)).
Proof using Type.
  intros [Hc _]. unfold counters in Hc. repeat (apply Forall_cons in Hc as [? Hc]).
  unfold tallies, num_datagrams, num_sends. repeat (apply Forall_cons; split); [..|by apply Forall_nil];
    cbn [fst snd]; rewrite ?sum_nat_plus; lia.
Qed.

Lemma newly_published_app (wk wk' : Worker (B := B) (Addr := Addr)) (l : list WorkerMetrics) : wk_published wk' = wk_published wk ++ l ->
  newly_published wk wk' = l.
Proof using Type. unfold newly_published. intros ->. apply drop_app_length. Qed.

(** At most one snapshot, of the worker, which the collector can take. *)
Lemma publication_wf sk v n i it (wk : Worker (B := B) (Addr := Addr)) : worker_inv sk v wk -> wk_id wk = i -> i < n ->
  length (publication it wk) <= 1 /\ Forall (snapshot_wf n) (publication it wk).
Proof using Type.
  intros [[Hh _ _] _ _ _ _] <- Hi. unfold publication. destruct (publishes it wk); [|by split; [cbn; lia|apply Forall_nil]].
  split; [done|]. apply Forall_singleton. split; [exact Hi|apply Hh].
Qed.

(** The first and the last parts of [everywhere] change in place. *)
Lemma worker_step_counts (fg : (WorkerMetrics -> nat) * (Batch (Addr := Addr) -> nat))
    (ws : list (Worker (B := B) (Addr := Addr))) i wk wk' bs out (room : bool) old_batches collector channel dropped :
  ws !! i = Some wk ->
  sum_nat fg.1 out + fg.1 (wk_snapshot wk') = fg.1 (wk_snapshot wk) + sum_list_with fg.2 bs ->
  sum_nat fg.1 (collector ++ channel ++ dropped ++ map wk_snapshot ws) = sum_list_with fg.2 old_batches ->
  sum_nat fg.1 (collector ++ (channel ++ (if room then out else [])) ++ (dropped ++ (if room then [] else out)) ++
    map wk_snapshot (<[i := wk']> ws)) = sum_list_with fg.2 (old_batches ++ bs).
Proof using Type.
  intros Hi Hout Hold. rewrite (list_fmap_insert wk_snapshot), sum_list_with_app, <- Hold, !sum_nat_app.
  pose proof (sum_nat_insert fg.1 i _ (wk_snapshot wk') (map wk_snapshot ws) ltac:(by rewrite list_lookup_fmap, Hi)) as Hins.
  change (wk_snapshot <$> ws) with (map wk_snapshot ws). destruct room; change (sum_nat fg.1 []) with 0; lia.
Qed.

Lemma reports_grow (reports : list Report) (bs bs' : list (Batch (Addr := Addr))) :
  Forall (fun r => Forall (fun fg => fg.1 (report_totals r) <= sum_list_with fg.2 bs) tallies) reports ->
  Forall (fun r => Forall (fun fg => fg.1 (report_totals r) <= sum_list_with fg.2 (bs ++ bs')) tallies) reports.
Proof using Type.
  intros H. eapply Forall_impl; [exact H|]. intros r Hr. eapply Forall_impl; [exact Hr|]. intros fg Hfg.
  cbv beta in *. rewrite sum_list_with_app. lia.
Qed.

Lemma step_worker_inv sk v s i it wk wk' bs : debug_build = false -> system_inv sk v s ->
  sy_workers s !! i = Some wk -> iteration_wf it ->
  it_room it = has_room (channel_capacity (length (sy_workers s))) (sy_channel s) ->
  iteration (E := E) it wk = Some (Ok (wk', bs)) ->
  system_inv sk v (mkSystem (<[i := wk']> (sy_workers s)) (sy_channel s ++ newly_published wk wk')
    (sy_collector s) (sy_reports s) (sy_dropped s ++ (if it_room it then [] else publication it wk)) (sy_batches s ++ bs)).
Proof using CL LawfulSeedBackend0.
  intros Hrel [Hw Hid Hroom Hsn Hcl Hacc Hc Hrep] Hi Hwf Hit Hrun.
  pose proof (Forall_lookup_1 _ _ _ _ Hw Hi) as Hinv. pose proof (lookup_lt_Some _ _ _ Hi) as Hlt.
  destruct (iteration_spec (E := E) sk v it wk (or_introl Hrel) (or_introl Hrel) Hinv Hwf) as (wk0 & wk1 & bs1 & _ & Hrun' & Hinv' & _).
  rewrite Hrun in Hrun'. injection Hrun' as <- <-.
  destruct (iteration_counted (E := E) sk v it wk wk' bs Hrel Hinv Hwf Hrun) as (Hid' & Hpub & Hcnt).
  rewrite (newly_published_app _ _ _ Hpub).
  destruct (publication_wf sk v _ i it wk Hinv (Hid i wk Hi) Hlt) as [Hlen Hpw].
  split; cbn [sy_workers sy_channel sy_collector sy_reports sy_dropped sy_batches]; rewrite ?length_insert; try done.
  - by apply Forall_insert.
  - intros j wk2 Hj. apply list_lookup_insert_Some in Hj as [(-> & <- & _)|[_ Hj]]; [by rewrite Hid', (Hid _ _ Hi)|by apply Hid].
  - rewrite length_app, Hit. unfold has_room. destruct (Nat.ltb_spec (length (sy_channel s)) (channel_capacity (length (sy_workers s)))); cbn; lia.
  - apply Forall_app. split; [done|]. destruct (it_room it); [done|by apply Forall_nil].
  - unfold everywhere in *. cbn [sy_workers sy_channel sy_collector sy_dropped].
    rewrite Forall_forall in Hc, Hcnt |- *. intros fg Hfg. apply (worker_step_counts fg _ i wk); [done|by apply Hcnt|by apply Hc].
  - by apply reports_grow.
Qed.

(** A snapshot moves from the channel to an accumulator. *)
Lemma receive_ok sk v s m channel : debug_build = false -> system_inv sk v s -> sy_channel s = m :: channel ->
  exists metrics, accumulate (E := E) (collector_metrics (sy_collector s)) m = Ok metrics /\
    system_inv sk v (mkSystem (sy_workers s) channel (with_metrics (sy_collector s) metrics) (sy_reports s)
      (sy_dropped s) (sy_batches s)).
Proof using Type.
  intros Hrel [Hw Hid Hroom Hsn Hcl Hacc Hc Hrep] Hch. unfold everywhere in Hc. rewrite Hch in Hroom, Hsn, Hc.
  apply Forall_cons in Hsn as [Hm Hsn]. rewrite <- Hcl in Hm.
  destruct (accumulate_release (E := E) _ m Hrel Hacc Hm) as (metrics & Ha & Hacc' & Hlen & Ht).
  exists metrics. split; [exact Ha|]. specialize (Ht (collector_metrics (sy_collector s)) ltac:(split; [by apply Forall_true|done])).
  apply totals_tallies in Ht. split; cbn [sy_workers sy_channel sy_collector sy_reports sy_dropped sy_batches]; try done.
  - cbn in Hroom. lia.
  - change (collector_metrics (with_metrics _ metrics)) with metrics. by rewrite Hlen.
  - unfold everywhere. cbn [sy_workers sy_channel sy_collector sy_dropped].
    change (collector_metrics (with_metrics _ metrics)) with metrics. rewrite Forall_forall in Hc, Ht |- *. intros fg Hfg.
    rewrite <- (Hc fg Hfg). change (m :: channel) with ([m] ++ channel). rewrite !sum_nat_app, (Ht fg Hfg), sum_nat_app. lia.
Qed.

(** The collector reports no more than has been counted. *)
Lemma collector_ok sk v s w : debug_build = false -> system_inv sk v s -> sy_channel s = [] ->
  exists c reports, collector_pass (E := E) (mkPass [] w) (sy_collector s) = Ok (c, reports) /\
    system_inv sk v (mkSystem (sy_workers s) [] c (sy_reports s ++ reports) (sy_dropped s) (sy_batches s)).
Proof using Type.
  intros Hrel [Hw Hid Hroom Hsn Hcl Hacc Hc Hrep] Hch. unfold everywhere in Hc. rewrite Hch in Hroom, Hsn, Hc.
  destruct (collector_pass_release (E := E) (mkPass [] w) (sy_collector s) (collector_metrics (sy_collector s)) Hrel Hacc) as
    (c & reports & Hp & Hacc' & Hlen & Ht & Hr & _); [by apply Forall_nil|split; [by apply Forall_true|done]|].
  cbn [pa_received] in Ht, Hr. rewrite app_nil_r in Ht, Hr. apply totals_tallies in Ht.
  exists c, reports. split; [exact Hp|].
  split; cbn [sy_workers sy_channel sy_collector sy_reports sy_dropped sy_batches]; try done; [congruence| |].
  - unfold everywhere. cbn [sy_workers sy_channel sy_collector sy_dropped]. rewrite Forall_forall in Hc, Ht |- *.
    intros fg Hfg. rewrite <- (Hc fg Hfg), sum_nat_app, (Ht fg Hfg), <- sum_nat_app. done.
  - apply Forall_app. split; [exact Hrep|]. eapply Forall_impl; [exact Hr|]. intros r Htr%totals_tallies.
    rewrite Forall_forall in Hc, Htr |- *. intros fg Hfg. specialize (Hc fg Hfg). specialize (Htr fg Hfg). cbv beta in *.
    rewrite sum_nat_one in Htr. rewrite sum_nat_app in Hc. lia.
Qed.

Lemma step_inv sk v s s' : debug_build = false -> system_inv sk v s ->
  step (channel_capacity (length (sy_workers s))) s s' ->
  system_inv sk v s' /\ length (sy_workers s') = length (sy_workers s).
Proof using CL LawfulSeedBackend0.
  intros Hrel Hinv [t [i it wk wk' bs Hi Hwf Hroom Hrun|m channel metrics Hch Ha|w c reports Hch Hp]].
  - split; [by eapply step_worker_inv|]. apply length_insert.
  - destruct (receive_ok sk v s m channel Hrel Hinv Hch) as (metrics' & Ha' & Hinv'). rewrite Ha in Ha'. by injection Ha' as <-.
  - destruct (collector_ok sk v s w Hrel Hinv Hch) as (c' & r' & Hp' & Hinv'). rewrite Hp in Hp'. by injection Hp' as <- <-.
Qed.

Lemma reachable_inv sk v n s s' : debug_build = false -> system_inv sk v s -> length (sy_workers s) = n ->
  rtc (step (channel_capacity n)) s s' -> system_inv sk v s' /\ length (sy_workers s') = n.
Proof using CL LawfulSeedBackend0.
  intros Hrel Hinv Hn Hr. induction Hr as [s|s1 s2 s3 Hstep _ IH]; [done|]. subst n.
  destruct (step_inv sk v s1 s2 Hrel Hinv Hstep) as [Hinv2 Hlen2]. by apply IH.
Qed.

(** No thread can panic in [s]. *)
Record unstoppable (s : System) : Prop := {
  us_workers : forall i it wk, sy_workers s !! i = Some wk -> iteration_wf it ->
    exists wk' bs, iteration (E := E) it wk = Some (Ok (wk', bs));
  us_receive : forall m channel, sy_channel s = m :: channel ->
    exists metrics, accumulate (E := E) (collector_metrics (sy_collector s)) m = Ok metrics;
  us_collector : forall w, sy_channel s = [] ->
    exists out, collector_pass (E := E) (mkPass [] w) (sy_collector s) = Ok out;
}.

Lemma system_inv_unstoppable sk v s : debug_build = false -> system_inv sk v s -> unstoppable s.
Proof using CL LawfulSeedBackend0.
  intros Hrel Hinv. split.
  - intros i it wk Hi Hwf. pose proof (Forall_lookup_1 _ _ _ _ (sy_workers_inv _ _ _ Hinv) Hi) as Hwk.
    destruct (iteration_spec (E := E) sk v it wk (or_introl Hrel) (or_introl Hrel) Hwk Hwf) as (_ & wk' & bs & _ & Hi' & _). by exists wk', bs.
  - intros m channel Hch. destruct (receive_ok sk v s m channel Hrel Hinv Hch) as (metrics & Ha & _). by exists metrics.
  - intros w Hch. destruct (collector_ok sk v s w Hrel Hinv Hch) as (c & reports & Hp & _). by exists (c, reports).
Qed.

Lemma idle_sum fg n : fg ∈ tallies (Addr := Addr) -> forall i, sum_nat fg.1 (map idle_metrics (seq i n)) = 0.
Proof using Type.
  intros Hfg. induction n as [|n IH]; intros i; [done|]. cbn [seq map]. change (?x :: ?l) with ([x] ++ l).
  rewrite sum_nat_app, IH, sum_nat_one. unfold tallies in Hfg. repeat (apply elem_of_cons in Hfg as [->|Hfg]; [done|]).
  by apply elem_of_nil in Hfg.
Qed.

Lemma idle_snapshots (workers : list (Worker (B := B) (Addr := Addr))) : forall i,
  (forall j wk, workers !! j = Some wk -> idle_worker (i + j) wk) ->
  map wk_snapshot workers = map idle_metrics (seq i (length workers)).
Proof using Type.
  induction workers as [|wk workers IH]; intros i Hall; [done|]. cbn [map length seq]. f_equal.
  - rewrite <- (Nat.add_0_r i). apply (Hall 0). done.
  - apply IH. intros j wk' Hj. replace (S i + j) with (i + S j) by lia. by apply (Hall (S j)).
Qed.

Lemma system_start_inv sk v workers interval clock c0 w1 w2 :
  Forall (worker_inv sk v) workers -> (forall i wk, workers !! i = Some wk -> idle_worker i wk) ->
  collector_start (E := E) w1 w2 (MetricsAggregator_new (length workers) interval clock) = Ok c0 ->
  system_inv sk v (system_start workers c0).
Proof using Type.
  intros Hw Hidle Hc. unfold collector_start in Hc.
  destruct (u64_add _ _) as [next|e|]; [|done|done]. cbn [mbind res_bind] in Hc. injection Hc as <-.
  split; cbn [system_start sy_workers sy_channel sy_collector sy_reports sy_dropped sy_batches]; unfold collector_metrics;
    cbn [co_aggregator MetricsAggregator_new ag_metrics]; [done| |cbn; lia|by apply Forall_nil| | | |by apply Forall_nil].
  - intros i wk Hi. pose proof (iw_snapshot _ _ (Hidle i wk Hi)) as Hs. by injection Hs.
  - by rewrite length_map, length_seq.
  - apply Forall_fmap, Forall_true. intros i. apply default_metrics_wf.
  - apply Forall_forall. intros fg Hfg. unfold everywhere, collector_metrics.
    cbn [system_start sy_workers sy_channel sy_collector sy_dropped co_aggregator MetricsAggregator_new ag_metrics app sum_list_with].
    rewrite (idle_snapshots _ 0 Hidle), sum_nat_app, !idle_sum by done. done.
Qed.
End system.

(** ** The server *)

Section server_threads.
Context {C : CryptoLib} {profile : Profile} {D : DataEncoding} {J : Json} {W : Type} {CS : CloudServices W}.
Context {K S : Type} `{!SeedBackend K} `{!SeedBackend S} {Addr E : Type}.
Context (features : Features) (krs : option (res BackendError K)) (ssh : option (res BackendError S)).
Context (fs : Files) (create_error remove_error : option IoError).
Context {CL : CryptoLaws C} {DL : DataEncodingLaws D} {JL : JsonLaws J} {CSL : CloudLaws CS} `{!LawfulSeedBackend K} `{!LawfulSeedBackend S}.

(** The server that [main] brings up, with its collector started. *)
Lemma server_system (args : Args) (x : bytes) (starts : list WorkerStart) (w : W) :
  debug_build = false -> launch_ok features krs ssh fs create_error remove_error args x starts w ->
  exists server w', server_main (Addr := Addr) (E := E) features krs ssh fs create_error remove_error args starts w = (Ok server, w') /\
    forall w1 w2, exists c0, collector_start (E := E) w1 w2 (rs_aggregator server) = Ok c0 /\
      system_inv x (args_version args) (system_start (rs_workers server) c0) /\ length (rs_workers server) = arg_num_threads args.
Proof using CL DL JL CSL LawfulSeedBackend0 LawfulSeedBackend1.
  intros Hrel Hla.
  destruct (server_main_spec (Addr := Addr) (E := E) features krs ssh fs create_error remove_error args x starts w Hrel Hla)
    as (server & w' & Hm & [_ Ha _ Hall Hidle]).
  exists server, w'. split; [done|]. intros w1 w2. pose proof (Forall2_length _ _ _ Hall) as Hl. rewrite (la_threads _ _ _ _ _ _ _ _ _ _ Hla) in Hl.
  destruct (collector_start (E := E) w1 w2 (rs_aggregator server)) as [c0|e|] eqn:Hc; cycle 1.
  1, 2: exfalso; unfold collector_start in Hc;
    destruct (u64_add_ok (E := E) (epoch_seconds w1 (ag_clock (rs_aggregator server)))
      (as_secs (ag_interval (rs_aggregator server))) (or_introl Hrel)) as (next & Hn & _); by rewrite Hn in Hc.
  exists c0. split; [done|]. split; [|done]. rewrite Ha, Hl in Hc.
  assert (Forall (worker_inv x (args_version args)) (rs_workers server)) as Hw.
  { clear -Hall. induction Hall as [|s wk starts workers [Hwk _] _ IH]; [by apply Forall_nil|]. by apply Forall_cons. }
  by eapply system_start_inv.
Qed.

(** C12: The threads of a server run on and their counters add up.  The server that
    [main] brings up has one worker per thread and the collector, which run
    interleaved in any order, whatever the sockets deliver and the clocks say, in
    the release profile.  In every state they reach no thread can panic; the channel
    holds at most two snapshots per worker; and for the datagrams, the requests
    accepted, the responses, the attempts to send and the bytes, what the collector
    has accumulated, the channel holds, was dropped because it was full and the
    workers have not yet published adds up to what the batches served hold.  No
    report claims more than that. *)
Theorem threads_account (args : Args) (x : bytes) (starts : list WorkerStart) (w : W) :
  debug_build = false -> launch_ok features krs ssh fs create_error remove_error args x starts w ->
  exists server w', server_main (Addr := Addr) (E := E) features krs ssh fs create_error remove_error args starts w = (Ok server, w') /\
    forall w1 w2, exists c0, collector_start (E := E) w1 w2 (rs_aggregator server) = Ok c0 /\
    forall s, rtc (step (E := E) (channel_capacity (arg_num_threads args))) (system_start (rs_workers server) c0) s ->
      unstoppable (E := E) s /\ length (sy_channel s) <= 2 * arg_num_threads args /\
      Forall (fun fg => sum_nat fg.1 (everywhere s) = sum_list_with fg.2 (sy_batches s)) tallies /\
      Forall (fun r => Forall (fun fg => fg.1 (report_totals r) <= sum_list_with fg.2 (sy_batches s)) tallies) (sy_reports s).
Proof using CL DL JL CSL LawfulSeedBackend0 LawfulSeedBackend1.
  intros Hrel Hla.
  destruct (server_system args x starts w Hrel Hla) as (server & w' & Hm & Hrun).
  exists server, w'. split; [done|]. intros w1 w2. destruct (Hrun w1 w2) as (c0 & Hc & Hinv & Hl).
  exists c0. split; [done|]. intros s Hr.
  destruct (reachable_inv (E := E) x (args_version args) (arg_num_threads args) _ s Hrel Hinv Hl Hr) as [Hs Hn].
  split; [by eapply system_inv_unstoppable|]. split; [|split; apply Hs].
  pose proof (sy_room _ _ _ Hs) as Hroom. unfold channel_capacity in Hroom. lia.
Qed.
End server_threads.

(** ** Example: the sample server with one worker, which makes a pass *)
Lemma threads_account_witness :
  exists server c0 wk bs s,
    server_main (profile := false) (D := rfc4648) (J := toy_json) (CS := toy_cloud) (K := MemoryBackend) (S := MemoryBackend)
      (Addr := nat) (E := unit) all_features None None ∅ None None (sample_args RfcDraft14)
      [mkStart (sample_world 1700000000) (sample_world 1700000000) (zeroes 32)] tt = (Ok server, tt) /\
    rtc (step (profile := false) (E := unit) 2) (system_start (rs_workers server) c0) s /\
    sy_workers s = [wk] /\ sy_batches s = bs /\
    sum_nat (fun m => num_datagrams (wm_request m)) (everywhere s) = sum_list_with (fun b => length (ba_received b)) bs.
Proof.
  destruct (threads_account (profile := false) (D := rfc4648) (J := toy_json) (CS := toy_cloud) (K := MemoryBackend) (S := MemoryBackend)
    (CL := toy_crypto_laws) (Addr := nat) (E := unit) all_features None None ∅ None None (sample_args RfcDraft14) (zeroes 32)
    [mkStart (sample_world 1700000000) (sample_world 1700000000) (zeroes 32)] tt) as (server & [] & Hm & Hrun).
  - reflexivity.
  - apply sample_launch.
  - destruct (Hrun (sample_world 1700000000) (sample_world 1700000000)) as (c0 & _ & Hacc).
    destruct (rs_workers server) as [|wk0 [|wk1 wks]] eqn:Hws.
    + destruct (Hacc _ (rtc_refl _ _)) as (_ & _ & _). vm_compute in Hm. injection Hm as <-. discriminate Hws.
    + destruct (Hacc _ (rtc_refl _ _)) as ([Hus _ _] & _).
      destruct (Hus 0 (sample_iteration 1700000000) wk0 eq_refl) as (wk & bs & Hit).
      { apply sample_iteration_wf. split; [discriminate|reflexivity]. }
      pose proof (turn_worker (profile := false) (E := unit) 2 (system_start [wk0] c0) 0 (sample_iteration 1700000000) wk0 wk bs eq_refl) as Hstep.
      specialize (Hstep ltac:(apply sample_iteration_wf; split; [discriminate|reflexivity]) eq_refl Hit).
      pose proof (rtc_once _ _ (turn_step _ _ _ _ Hstep)) as Hr. destruct (Hacc _ Hr) as (_ & _ & Hc & _). apply Forall_cons in Hc as [Hc _].
      exists server, c0, wk, bs. eexists. split; [exact Hm|]. split; [rewrite Hws; exact Hr|].
      split; [reflexivity|]. split; [reflexivity|exact Hc].
    + vm_compute in Hm. injection Hm as <-. discriminate Hws.
Defined.
