(* ===== verification/Threads.v ===== *)
(** * The threads' lives (crates/roughenough-server/src/main.rs)

    [System] has the turns of the threads; here is when they take them.  A worker's
    thread binds its socket and registers it, or dies; then it looks at
    [KEEP_RUNNING] before each pass.  The collector's thread does the same, without
    a start that can fail.  [main] joins them, the collector first, and panics if
    one that it joins has died.  Ctrl-C clears the flag; a step sees what is stored
    in it, so that the step [ctrl_c] stands for the moment from which the store is
    seen.  When [main] ends, the process does. *)
From stdpp Require Import list relations gmap.
From S2P Require Import Prelude Text Errors Cursor Wire Tags FixedTags Versions Cert Srep Request Response Merkle.
From S2P Require Import Encoding Crypto Keys Longterm Storage Files Metrics Aggregator Snapshot Responses Requests Validation EndToEnd Args Worker.
From S2P Require Import Tally Server System.

(** ** Sockets *)

Inductive SocketError : Type := SocketFailed.

(** The crate [socket2], on the state [OS] of the operating system; sockets are
    those of type [DGRAM]. *)
Class SocketOps (OS Sock : Type) := {
  Domain : Type;
  for_address : SocketAddr -> Domain;
  Socket_new : Domain -> io OS SocketError Sock;
  set_nonblocking : Sock -> bool -> io OS SocketError unit;
  set_reuse_address : Sock -> bool -> io OS SocketError unit;
  set_reuse_port : Sock -> bool -> io OS SocketError unit;
  socket_bind : Sock -> SocketAddr -> io OS SocketError unit;
}.

(** ** Threads *)

Inductive Thread : Type := Starting | AtLoop | InPass | Finished | Died.
#[export] Instance Thread_eq_dec : EqDecision Thread.
Proof. solve_decision. Defined.
(** [main]: waiting for the thread at an index, returned, or panicked. *)
Inductive Main : Type := Joining (k : nat) | MainFinished | MainDied.

Section threads.
Context {C : CryptoLib} {profile : Profile} {B : Type} `{!SeedBackend B} {Addr E : Type}.
Context {OS Sock : Type} {SO : SocketOps OS Sock} (parse_ip : string -> option IpAddr).

Definition bind_socket (args : Args) : io OS SocketError Sock :=
  sock_addr ← lift (udp_socket_addr parse_ip args);
  socket ← Socket_new (for_address sock_addr);
  _ ← set_nonblocking socket true;
  _ ← set_reuse_address socket true;
  _ ← set_reuse_port socket true;
  _ ← socket_bind socket sock_addr;
  mret socket.

(** [bind_socket(&args).expect(..)] in [worker_task] *)
Definition binds (args : Args) (os : OS) : bool := match (bind_socket args os).1 with Ok _ => true | _ => false end.

(** ** Steps *)

(** [th_threads] is the vector [threads] of [main]: the collector, then the workers. *)
Record Threads := mkThreads {
  th_system : System (B := B) (Addr := Addr);
  th_keep_running : bool;
  th_threads : list Thread;
  th_main : Main;
}.

(** [while keep_running.load(Relaxed)] *)
Definition loop_head (keep_running : bool) : Thread := if keep_running then InPass else Finished.

(** [for thread in threads { thread.join().unwrap() }] at index [k]; [None] blocks. *)
Definition join_next (threads : list Thread) (k : nat) : option Main :=
  match threads !! k with
  | None => Some MainFinished
  | Some Finished => Some (Joining (S k))
  | Some Died => Some MainDied
  | Some _ => None
  end.

(** The handler that [set_ctrlc_handler] sets: [KEEP_RUNNING.store(false, Release)]. *)
Definition ctrlc_handler (t : Threads) : Threads := mkThreads (th_system t) false (th_threads t) (th_main t).

Definition set_thread (t : Threads) (i : nat) (th : Thread) : Threads :=
  mkThreads (th_system t) (th_keep_running t) (<[i := th]> (th_threads t)) (th_main t).
Definition set_system (t : Threads) (s : System) : Threads := mkThreads s (th_keep_running t) (th_threads t) (th_main t).

(** What is possible while [main] waits; [poll] is whether the poll was made and the
    socket registered. *)
Inductive live_step (args : Args) (t : Threads) : Threads -> Prop :=
| ctrl_c : th_keep_running t = true -> live_step args t (ctrlc_handler t)
| worker_start i os (poll : bool) : th_threads t !! S i = Some Starting ->
    live_step args t (set_thread t (S i) (if binds args os && poll then AtLoop else Died))
| thread_loop i : th_threads t !! i = Some AtLoop -> live_step args t (set_thread t i (loop_head (th_keep_running t)))
| worker_pass i s : th_threads t !! S i = Some InPass ->
    turn (E := E) (channel_capacity (arg_num_threads args)) (th_system t) (WorkerPass i) s ->
    live_step args t (set_thread (set_system t s) (S i) AtLoop)
| collector_receive s : th_threads t !! 0 = Some InPass ->
    turn (E := E) (channel_capacity (arg_num_threads args)) (th_system t) Receive s -> live_step args t (set_system t s)
| collector_end s : th_threads t !! 0 = Some InPass ->
    turn (E := E) (channel_capacity (arg_num_threads args)) (th_system t) CollectorPass s ->
    live_step args t (set_thread (set_system t s) 0 AtLoop)
| main_join k m : th_main t = Joining k -> join_next (th_threads t) k = Some m ->
    live_step args t (mkThreads (th_system t) (th_keep_running t) (th_threads t) m).

(** The process ends with [main]. *)
Definition thread_step (args : Args) (t t' : Threads) : Prop := (exists k, th_main t = Joining k) /\ live_step args t t'.

(** What [main] has spawned. *)
Definition threads_start (s : System) : Threads :=
  mkThreads s true (AtLoop :: map (fun _ => Starting) (sy_workers s)) (Joining 0).

(** ** Invariant *)

Context {CL : CryptoLaws C} `{!LawfulSeedBackend B} `{!Inhabited OS}.

Definition main_ok (threads : list Thread) (m : Main) : Prop :=
  match m with
  | Joining k => k <= length threads /\ Forall (eq Finished) (take k threads)
  | MainFinished => Forall (eq Finished) threads
  | MainDied => Died ∈ threads
  end.

Record threads_inv (sk : bytes) (v : ProtocolVersion) (n : nat) (t : Threads) : Prop := {
  ti_system : system_inv sk v (th_system t);
  ti_workers : length (sy_workers (th_system t)) = n;
  ti_threads : length (th_threads t) = S n;
  ti_collector : exists c, th_threads t !! 0 = Some c /\ c <> Starting /\ c <> Died;
  ti_running : th_keep_running t = true -> Forall (fun th => th <> Finished) (th_threads t) /\ th_main t = Joining 0;
  ti_main : main_ok (th_threads t) (th_main t);
}.

(** A thread that has not finished has not been joined. *)
Lemma unjoined_insert k i th th' (threads : list Thread) : threads !! i = Some th -> th <> Finished ->
  Forall (eq Finished) (take k threads) -> take k (<[i := th']> threads) = take k threads.
Proof using Type.
  intros Hi Hth Hall. apply take_insert_ge. destruct (le_lt_dec k i) as [|Hlt]; [done|]. exfalso. apply Hth.
  rewrite Forall_lookup in Hall. symmetry. apply (Hall i). by rewrite lookup_take_lt.
Qed.

(** A move of one thread, and of the system with it. *)
Lemma set_thread_inv sk v n t s i th th' k : threads_inv sk v n t -> th_main t = Joining k ->
  system_inv sk v s -> length (sy_workers s) = n -> th_threads t !! i = Some th -> th <> Finished ->
  (i = 0 -> th' <> Starting /\ th' <> Died) -> (th_keep_running t = true -> th' <> Finished) ->
  threads_inv sk v n (set_thread (set_system t s) i th').
Proof using Type.
  intros [_ _ Hl (c & Hc & Hc1 & Hc2) Hrun Hm] Hk Hs Hn Hi Hth H0 Hf.
  split; cbn [set_thread set_system th_system th_threads th_keep_running th_main]; rewrite ?length_insert; try done.
  - destruct i as [|i]; [exists th'; split; [|by apply H0]|exists c; split; [|done]].
    + apply list_lookup_insert_eq. lia.
    + by rewrite list_lookup_insert_ne.
  - intros Hkr. destruct (Hrun Hkr) as [Hall Hj]. split; [|done]. apply Forall_insert; [done|by apply Hf].
  - rewrite Hk in Hm |- *. destruct Hm as [Hle Hall]. split; [by rewrite length_insert|].
    by rewrite (unjoined_insert _ _ th).
Qed.

(** ** What is left to do after Ctrl-C *)

(** A pass is a step, puts at most one snapshot into the channel, and ends at the loop. *)
Definition weight (th : Thread) : nat := match th with Starting => 2 | AtLoop => 1 | InPass => 3 | Finished | Died => 0 end.
Definition joins_left (n : nat) (m : Main) : nat := match m with Joining k => S n - k | _ => 0 end.
Definition steps_left (t : Threads) : nat :=
  sum_list_with weight (th_threads t) + length (sy_channel (th_system t)) + joins_left (length (th_threads t)) (th_main t).

Lemma set_thread_steps_left t s i th th' : th_threads t !! i = Some th ->
  steps_left (set_thread (set_system t s) i th') + weight th + length (sy_channel (th_system t)) =
  steps_left t + weight th' + length (sy_channel s).
Proof using Type.
  intros Hi. unfold steps_left. cbn [set_thread set_system th_system th_threads th_main]. rewrite length_insert.
  pose proof (sum_list_with_insert weight th th' _ _ Hi). lia.
Qed.

Lemma steps_left_bound sk v n t : threads_inv sk v n t -> steps_left t <= 6 * n + 5.
Proof using Type.
  intros [Hs Hn Hl _ _ _]. unfold steps_left. rewrite Hl. pose proof (sy_room _ _ _ Hs) as Hroom.
  unfold channel_capacity in Hroom. rewrite Hn in Hroom.
  assert (sum_list_with weight (th_threads t) <= 3 * length (th_threads t)) as Hw.
  { clear. induction (th_threads t) as [|[] l IH]; cbn in *; lia. }
  assert (joins_left (S n) (th_main t) <= S (S n)) by (unfold joins_left; destruct (th_main t); lia). lia.
Qed.

Lemma turn_channel sk v (s s' : System (B := B) (Addr := Addr)) tn : debug_build = false -> system_inv sk v s ->
  turn (E := E) (channel_capacity (length (sy_workers s))) s tn s' ->
  length (sy_channel s') + (match tn with Receive => 1 | _ => 0 end) <=
  length (sy_channel s) + (match tn with WorkerPass _ => 1 | _ => 0 end).
Proof using CL LawfulSeedBackend0.
  intros Hrel Hinv [i it wk wk' bs Hi Hwf Hroom Hrun|m channel metrics Hch Ha|w c reports Hch Hp]; cbn [sy_channel].
  - pose proof (Forall_lookup_1 _ _ _ _ (sy_workers_inv _ _ _ Hinv) Hi) as Hwk.
    destruct (iteration_counted (E := E) sk v it wk wk' bs Hrel Hwk Hwf Hrun) as (_ & Hpub & _).
    rewrite (newly_published_app _ _ _ Hpub), length_app.
    destruct (publication_wf sk v (S (wk_id wk)) (wk_id wk) it wk Hwk eq_refl ltac:(lia)) as [Hlen _].
    destruct (it_room it); cbn [length]; lia.
  - rewrite Hch. cbn. lia.
  - cbn. lia.
Qed.

(** Every step keeps the invariant, and after Ctrl-C brings the end closer. *)
Definition advances (t t' : Threads) : Prop :=
  th_keep_running t = false -> th_keep_running t' = false /\ steps_left t' < steps_left t.

Lemma main_join_ok sk v n t k m : threads_inv sk v n t -> th_main t = Joining k -> join_next (th_threads t) k = Some m ->
  let t' := mkThreads (th_system t) (th_keep_running t) (th_threads t) m in threads_inv sk v n t' /\ advances t t'.
Proof using Type.
  intros [Hs Hn Hl Hc Hrun Hm] Hk Hj t'. rewrite Hk in Hm. destruct Hm as [Hle Hall].
  unfold join_next in Hj. destruct (th_threads t !! k) as [th|] eqn:Hth.
  - assert (k < length (th_threads t)) as Hlt by (by eapply lookup_lt_Some).
    assert (th = Finished \/ th = Died) as Hth' by (destruct th; auto; discriminate).
    split; [split; try done|].
    + cbn. intros Hkr. exfalso. destruct (Hrun Hkr) as [Hnf Hj0]. rewrite Hk in Hj0. injection Hj0 as ->.
      destruct Hc as (c & Hc0 & Hc1 & Hc2). rewrite Hc0 in Hth. injection Hth as ->.
      destruct Hth' as [->| ->]; [|done]. rewrite Forall_lookup in Hnf. by apply (Hnf 0 Finished).
    + cbn. destruct Hth' as [-> | ->]; injection Hj as <-; cbn [main_ok].
      * split; [lia|]. rewrite (take_S_r _ _ _ Hth). apply Forall_app. split; [done|by apply Forall_singleton].
      * by eapply list_elem_of_lookup_2.
    + intros Hkr. split; [done|]. unfold steps_left, t'. cbn [th_threads th_system th_main]. rewrite Hk.
      destruct Hth' as [-> | ->]; injection Hj as <-; cbn [joins_left]; lia.
  - injection Hj as <-. apply lookup_ge_None in Hth. split; [split; try done|].
    + cbn. intros Hkr. exfalso. destruct (Hrun Hkr) as [_ Hj0]. rewrite Hk in Hj0. injection Hj0 as ->. lia.
    + cbn. by rewrite take_ge in Hall by lia.
    + intros Hkr. split; [done|]. unfold steps_left, t'. cbn [th_threads th_system th_main]. rewrite Hk. cbn [joins_left]. lia.
Qed.

Lemma thread_step_inv sk v args t t' : debug_build = false -> threads_inv sk v (arg_num_threads args) t ->
  thread_step args t t' -> threads_inv sk v (arg_num_threads args) t' /\ advances t t'.
Proof using CL LawfulSeedBackend0.
  intros Hrel Hinv [[k Hk] Hstep]. pose proof (ti_system _ _ _ _ Hinv) as Hs. pose proof (ti_workers _ _ _ _ Hinv) as Hn.
  assert (forall tn s, turn (E := E) (channel_capacity (arg_num_threads args)) (th_system t) tn s ->
    system_inv sk v s /\ length (sy_workers s) = arg_num_threads args /\
    length (sy_channel s) + (match tn with Receive => 1 | _ => 0 end) <=
    length (sy_channel (th_system t)) + (match tn with WorkerPass _ => 1 | _ => 0 end)) as Hturn.
  { intros tn s Ht. rewrite <- Hn in Ht. destruct (step_inv (E := E) sk v _ _ Hrel Hs (turn_step _ _ _ _ Ht)).
    split_and!; [done|congruence|by eapply turn_channel]. }
  assert (forall s i th th', system_inv sk v s -> length (sy_workers s) = arg_num_threads args ->
    th_threads t !! i = Some th -> th <> Finished -> (i = 0 -> th' <> Starting /\ th' <> Died) ->
    (th_keep_running t = true -> th' <> Finished) ->
    (th_keep_running t = false -> weight th' + length (sy_channel s) < weight th + length (sy_channel (th_system t))) ->
    threads_inv sk v (arg_num_threads args) (set_thread (set_system t s) i th') /\ advances t (set_thread (set_system t s) i th')) as Hset.
  { intros s i th th' Hs' Hn' Hi Hth H0 Hf Hlt. split; [by eapply set_thread_inv|]. intros Hkr. split; [done|].
    pose proof (set_thread_steps_left t s i th th' Hi). specialize (Hlt Hkr). lia. }
  destruct Hstep as [Hkr|i os poll Hi|i Hi|i s Hi Ht|s Hi Ht|s Hi Ht|k' m Hk' Hj].
  - destruct Hinv as [_ _ Hl Hc Hrun Hm]. split; [by split|]. intros Hf. congruence.
  - apply (Hset (th_system t) (S i) Starting); try done; destruct (_ && _); try done; cbn; lia.
  - apply (Hset (th_system t) i AtLoop); unfold loop_head; destruct (th_keep_running t); try done; cbn; lia.
  - destruct (Hturn _ _ Ht) as (Hs' & Hn' & Hc). apply (Hset s (S i) InPass); try done. cbn. lia.
  - destruct (Hturn _ _ Ht) as (Hs' & Hn' & Hc). destruct Hinv as [_ _ Hl Hcl Hrun Hm].
    split; [by split|]. intros Hkr. split; [done|]. unfold steps_left. cbn. lia.
  - destruct (Hturn _ _ Ht) as (Hs' & Hn' & Hc). apply (Hset s 0 InPass); try done. cbn. lia.
  - by eapply main_join_ok.
Qed.

Lemma threads_reach sk v args t t' : debug_build = false -> threads_inv sk v (arg_num_threads args) t ->
  rtc (thread_step args) t t' -> threads_inv sk v (arg_num_threads args) t'.
Proof using CL LawfulSeedBackend0.
  intros Hrel Hinv Hr. induction Hr as [t|t1 t2 t3 Hstep _ IH]; [done|]. by apply IH, (thread_step_inv _ _ _ t1).
Qed.

Lemma threads_bounded sk v args t t' k : debug_build = false -> threads_inv sk v (arg_num_threads args) t ->
  th_keep_running t = false -> nsteps (thread_step args) k t t' -> k + steps_left t' <= steps_left t.
Proof using CL LawfulSeedBackend0.
  intros Hrel Hinv Hkr Hr. induction Hr as [t|k t1 t2 t3 Hstep _ IH]; [lia|].
  destruct (thread_step_inv sk v args t1 t2 Hrel Hinv Hstep) as [Hinv2 Had]. destruct (Had Hkr) as [Hkr2 Hlt].
  specialize (IH Hinv2 Hkr2). lia.
Qed.

(** ** Something can always be done until [main] has ended *)

Definition idle_iteration (room : bool) : Iteration (Addr := Addr) :=
  mkIteration (mkWorld 0 ∅) room (mkWorld 0 ∅) (mkWorld 0 ∅) [] 0 false [].
Lemma idle_iteration_wf room : iteration_wf (idle_iteration room).
Proof using Type. split; [|by apply Forall_nil]. split; [unfold is_u64; cbn; lia|apply map_Forall_empty]. Qed.

Lemma thread_moves sk v args t k i th : debug_build = false -> threads_inv sk v (arg_num_threads args) t ->
  th_main t = Joining k -> th_threads t !! i = Some th -> th <> Finished -> th <> Died ->
  exists t', live_step args t t' /\ th_keep_running t' = th_keep_running t.
Proof using CL LawfulSeedBackend0 Inhabited0.
  intros Hrel [Hs Hn Hl (c & Hc0 & Hc1 & Hc2) Hrun Hm] Hk Hi Hf Hd.
  destruct (system_inv_unstoppable (E := E) sk v _ Hrel Hs) as [Hus Hur Huc].
  destruct th; [| | |done|done].
  - destruct i as [|i]; [congruence|]. eexists. split; [by apply (worker_start args t i inhabitant false)|done].
  - eexists. split; [by apply thread_loop|done].
  - destruct i as [|i].
    + destruct (sy_channel (th_system t)) as [|m channel] eqn:Hch.
      * destruct (Huc (mkWorld 0 ∅) eq_refl) as [[c' reports] Hp]. eexists. split; [apply collector_end; [done|by eapply turn_collector]|done].
      * destruct (Hur m channel eq_refl) as [metrics Ha]. eexists. split; [apply collector_receive; [done|by eapply turn_receive]|done].
    + assert (i < length (sy_workers (th_system t))) as Hlt by (apply lookup_lt_Some in Hi; lia).
      destruct (lookup_lt_is_Some_2 _ _ Hlt) as [wk Hwk].
      pose proof (idle_iteration_wf (has_room (channel_capacity (arg_num_threads args)) (sy_channel (th_system t)))) as Hit.
      destruct (Hus i _ wk Hwk Hit) as (wk' & bs & Hrun'). eexists. split; [apply worker_pass; [done|by eapply turn_worker]|done].
Qed.

Lemma threads_progress sk v args t k : debug_build = false -> threads_inv sk v (arg_num_threads args) t ->
  th_main t = Joining k -> exists t', live_step args t t'.
Proof using CL LawfulSeedBackend0 Inhabited0.
  intros Hrel Hinv Hk. destruct (th_threads t !! k) as [th|] eqn:Hth; cycle 1.
  { eexists. apply (main_join args t k MainFinished Hk). unfold join_next. by rewrite Hth. }
  destruct (decide (th = Finished)) as [->|Hf].
  { eexists. apply (main_join args t k (Joining (S k)) Hk). unfold join_next. by rewrite Hth. }
  destruct (decide (th = Died)) as [->|Hd].
  { eexists. apply (main_join args t k MainDied Hk). unfold join_next. by rewrite Hth. }
  destruct (thread_moves sk v args t k k th Hrel Hinv Hk Hth Hf Hd) as (t' & Ht & _). by exists t'.
Qed.

Lemma threads_start_inv sk v n s : system_inv sk v s -> length (sy_workers s) = n -> threads_inv sk v n (threads_start s).
Proof using Type.
  intros Hs Hn. split; unfold threads_start; cbn [th_system th_keep_running th_threads th_main].
  - done.
  - done.
  - cbn. by rewrite length_map, Hn.
  - by exists AtLoop.
  - intros _. split; [|done]. apply Forall_cons. split; [done|]. apply Forall_fmap, Forall_true. done.
  - split; [cbn; lia|by apply Forall_nil].
Qed.

(** [main] has ended. *)
Definition ended (t : Threads) : Prop :=
  (th_main t = MainFinished /\ Forall (eq Finished) (th_threads t)) \/ (th_main t = MainDied /\ Died ∈ th_threads t).

Lemma threads_end sk v args t : debug_build = false -> threads_inv sk v (arg_num_threads args) t ->
  (forall t', ~ thread_step args t t') -> th_keep_running t = false /\ ended t.
Proof using CL LawfulSeedBackend0 Inhabited0.
  intros Hrel Hinv Hstuck. pose proof (ti_main _ _ _ _ Hinv) as Hm. pose proof (ti_running _ _ _ _ Hinv) as Hrun.
  destruct (th_main t) as [k| |] eqn:Hk.
  - destruct (threads_progress sk v args t k Hrel Hinv Hk) as [t' Ht]. exfalso. apply (Hstuck t'). split; [by exists k|done].
  - split; [|by left]. destruct (th_keep_running t); [|done]. by destruct (Hrun eq_refl).
  - split; [|by right]. destruct (th_keep_running t); [|done]. by destruct (Hrun eq_refl).
Qed.

(** ** No thread that serves *)

(** Only workers that got their sockets serve. *)
Lemma unbound_step sk v args t t' : debug_build = false -> threads_inv sk v (arg_num_threads args) t ->
  (forall os, binds args os = false) -> thread_step args t t' ->
  Forall (fun th => th = Starting \/ th = Died) (tail (th_threads t)) -> sy_batches (th_system t) = [] ->
  Forall (fun th => th = Starting \/ th = Died) (tail (th_threads t')) /\ sy_batches (th_system t') = [].
Proof using Type.
  intros Hrel Hinv Hb [_ Hstep] Hall Hbs. pose proof (ti_threads _ _ _ _ Hinv) as Hl.
  destruct (th_threads t) as [|c ws] eqn:Hth; [done|]. cbn [tail] in Hall.
  assert (forall i th, th_threads t !! S i = Some th -> th = Starting \/ th = Died) as Hw.
  { intros i th Hi. rewrite Hth in Hi. rewrite Forall_lookup in Hall. by eapply Hall. }
  destruct Hstep as [Hkr|i os poll Hi|i Hi|i s Hi Ht|s Hi Ht|s Hi Ht|k' m Hk' Hj];
    cbn [set_thread set_system ctrlc_handler th_threads th_system]; rewrite ?Hth; cbn [tail]; try done.
  - rewrite Hb. cbn. split; [|done]. apply Forall_insert; [done|by right].
  - destruct i as [|i]; [by cbn|]. destruct (Hw i _ Hi); discriminate.
  - destruct (Hw i _ Hi); discriminate.
  - inversion Ht; subst. by cbn.
  - inversion Ht; subst. by cbn.
Qed.

Definition unserved (t : Threads) : Prop :=
  Forall (fun th => th = Starting \/ th = Died) (tail (th_threads t)) /\ sy_batches (th_system t) = [].

Lemma unbound_reach sk v args t t' : debug_build = false -> threads_inv sk v (arg_num_threads args) t ->
  (forall os, binds args os = false) -> rtc (thread_step args) t t' -> unserved t -> unserved t'.
Proof using CL LawfulSeedBackend0.
  intros Hrel Hinv Hb Hr. induction Hr as [t|t1 t2 t3 Hstep _ IH]; [done|]. intros [Hall Hbs].
  apply IH; [by apply (thread_step_inv sk v args t1)|by eapply unbound_step].
Qed.

(** While the flag is set the collector goes on, and [main] with it. *)
Lemma collector_goes_on sk v args t : debug_build = false -> threads_inv sk v (arg_num_threads args) t ->
  th_keep_running t = true -> th_main t = Joining 0 /\ exists t', thread_step args t t' /\ th_keep_running t' = true.
Proof using CL LawfulSeedBackend0 Inhabited0.
  intros Hrel Hinv Hkr. destruct (ti_running _ _ _ _ Hinv Hkr) as [Hall Hj]. split; [done|].
  destruct (ti_collector _ _ _ _ Hinv) as (c & Hc & Hc1 & Hc2). rewrite Forall_lookup in Hall.
  destruct (thread_moves sk v args t 0 0 c Hrel Hinv Hj Hc (Hall 0 c Hc) Hc2) as (t' & Ht & Hk').
  exists t'. split; [split; [by exists 0|done]|congruence].
Qed.
End threads.

Section server.
Context {C : CryptoLib} {profile : Profile} {D : DataEncoding} {J : Json} {W : Type} {CS : CloudServices W}.
Context {K S : Type} `{!SeedBackend K} `{!SeedBackend S} {Addr E : Type}.
Context (features : Features) (krs : option (res BackendError K)) (ssh : option (res BackendError S)).
Context (fs : Files) (create_error remove_error : option IoError).
Context {CL : CryptoLaws C} {DL : DataEncodingLaws D} {JL : JsonLaws J} {CSL : CloudLaws CS} `{!LawfulSeedBackend K} `{!LawfulSeedBackend S}.
Context {OS Sock : Type} {SO : SocketOps OS Sock} `{!Inhabited OS} (parse_ip : string -> option IpAddr).

(** C13: A server stops after Ctrl-C, and not before.  In the release profile, its
    threads run interleaved as [System] has them, each from its start, with whatever
    comes of the system calls.  While Ctrl-C has not been seen, [main] waits.  From then on at most six
    steps per worker, and five, are taken, and until [main] has ended some step can
    be: every thread leaves its loop and [main] joins them all and returns, or
    panics because a worker had died in its start. *)
Theorem server_stops (args : Args) (x : bytes) (starts : list WorkerStart) (w : W) :
  debug_build = false -> launch_ok features krs ssh fs create_error remove_error args x starts w ->
  exists server w', server_main (Addr := Addr) (E := E) features krs ssh fs create_error remove_error args starts w = (Ok server, w') /\
    forall w1 w2, exists c0, collector_start (E := E) w1 w2 (rs_aggregator server) = Ok c0 /\
    forall t, rtc (thread_step (E := E) parse_ip args) (threads_start (system_start (rs_workers server) c0)) t ->
      (th_keep_running t = true -> th_main t = Joining 0) /\
      (th_keep_running t = false -> forall k t', nsteps (thread_step (E := E) parse_ip args) k t t' -> k <= 6 * arg_num_threads args + 5) /\
      ((forall t', ~ thread_step (E := E) parse_ip args t t') -> th_keep_running t = false /\ ended t).
Proof using CL DL JL CSL LawfulSeedBackend0 LawfulSeedBackend1 Inhabited0.
  intros Hrel Hla.
  destruct (server_system (Addr := Addr) (E := E) features krs ssh fs create_error remove_error args x starts w Hrel Hla) as (server & w' & Hm & Hrun).
  exists server, w'. split; [done|]. intros w1 w2. destruct (Hrun w1 w2) as (c0 & Hc & Hinv & Hl).
  exists c0. split; [done|]. intros t Hr.
  pose proof (threads_reach (E := E) parse_ip _ _ args _ _ Hrel (threads_start_inv _ _ _ _ Hinv Hl) Hr) as Ht.
  split_and!.
  - intros Hkr. apply (ti_running _ _ _ _ Ht Hkr).
  - intros Hkr k t' Hk. pose proof (threads_bounded (E := E) parse_ip _ _ args t t' k Hrel Ht Hkr Hk).
    pose proof (steps_left_bound _ _ _ _ Ht). lia.
  - by eapply threads_end.
Qed.

(** C14: A server that cannot bind its sockets does not stop.  In the release
    profile, if no worker gets a socket, for example because [--interface] is not an IP address, every worker
    dies in its start and no request is ever served; but [main] waits for the
    collector's thread, which goes on, so that the process stays until Ctrl-C. *)
Theorem unbound_server_stays (args : Args) (x : bytes) (starts : list WorkerStart) (w : W) :
  debug_build = false -> launch_ok features krs ssh fs create_error remove_error args x starts w ->
  (forall os, binds parse_ip args os = false) ->
  exists server w', server_main (Addr := Addr) (E := E) features krs ssh fs create_error remove_error args starts w = (Ok server, w') /\
    forall w1 w2, exists c0, collector_start (E := E) w1 w2 (rs_aggregator server) = Ok c0 /\
    forall t, rtc (thread_step (E := E) parse_ip args) (threads_start (system_start (rs_workers server) c0)) t ->
      unserved t /\
      (th_keep_running t = true ->
        th_main t = Joining 0 /\ exists t', thread_step (E := E) parse_ip args t t' /\ th_keep_running t' = true).
Proof using CL DL JL CSL LawfulSeedBackend0 LawfulSeedBackend1 Inhabited0.
  intros Hrel Hla Hbind.
  destruct (server_system (Addr := Addr) (E := E) features krs ssh fs create_error remove_error args x starts w Hrel Hla) as (server & w' & Hm & Hrun).
  exists server, w'. split; [done|]. intros w1 w2. destruct (Hrun w1 w2) as (c0 & Hc & Hinv & Hl).
  exists c0. split; [done|]. intros t Hr. pose proof (threads_start_inv _ _ _ _ Hinv Hl) as Hti. split.
  - apply (unbound_reach (E := E) parse_ip _ _ args _ _ Hrel Hti Hbind Hr). split; [|done].
    cbn. apply Forall_fmap, Forall_true. by left.
  - intros Hkr. apply (collector_goes_on (E := E) parse_ip x (args_version args) args t Hrel); [|done].
    exact (threads_reach (E := E) parse_ip _ _ args _ _ Hrel Hti Hr).
Qed.
End server.

(** ** Examples: the sample server *)

(** Every call succeeds. *)
#[local] Instance toy_sockets : SocketOps unit unit := {|
  Domain := unit;
  for_address _ := tt;
  Socket_new _ := mret tt;
  set_nonblocking _ _ := mret tt;
  set_reuse_address _ _ := mret tt;
  set_reuse_port _ _ := mret tt;
  socket_bind _ _ := mret tt;
|}.

(** Every interface is 0.0.0.0. *)
Definition Ipv4_any (s : string) : option IpAddr := Some (Ipv4 0).

#[local] Abbreviation sample_main := (server_main (profile := false) (D := rfc4648) (J := toy_json) (CS := toy_cloud) (K := MemoryBackend)
  (S := MemoryBackend) (Addr := nat) (E := unit) all_features None None ∅ None None (sample_args RfcDraft14)
  [mkStart (sample_world 1700000000) (sample_world 1700000000) (zeroes 32)] tt).

#[local] Abbreviation sample_step := (thread_step (C := toy_crypto) (profile := false) (E := unit) Ipv4_any (sample_args RfcDraft14)).

(** One worker starts, Ctrl-C is seen, both threads finish and are joined. *)
Lemma sample_life (s : System (B := ChosenBackend MemoryBackend MemoryBackend) (Addr := nat)) : map (fun _ => Starting) (sy_workers s) = [Starting] ->
  rtc sample_step (threads_start s) (mkThreads s false [Finished; Finished] MainFinished).
Proof.
  intros Hw. unfold threads_start. rewrite Hw.
  apply (rtc_l _ _ (mkThreads s true [AtLoop; AtLoop] (Joining 0))).
  { split; [by eexists|]. exact (worker_start _ _ (mkThreads s true [AtLoop; Starting] (Joining 0)) 0 tt true eq_refl). }
  apply (rtc_l _ _ (mkThreads s false [AtLoop; AtLoop] (Joining 0))).
  { split; [by eexists|]. exact (ctrl_c _ _ (mkThreads s true [AtLoop; AtLoop] (Joining 0)) eq_refl). }
  apply (rtc_l _ _ (mkThreads s false [Finished; AtLoop] (Joining 0))).
  { split; [by eexists|]. exact (thread_loop _ _ (mkThreads s false [AtLoop; AtLoop] (Joining 0)) 0 eq_refl). }
  apply (rtc_l _ _ (mkThreads s false [Finished; Finished] (Joining 0))).
  { split; [by eexists|]. exact (thread_loop _ _ (mkThreads s false [Finished; AtLoop] (Joining 0)) 1 eq_refl). }
  assert (forall k m, join_next [Finished; Finished] k = Some m ->
    sample_step (mkThreads s false [Finished; Finished] (Joining k)) (mkThreads s false [Finished; Finished] m)) as Hjoin.
  { intros k m Hj. split; [by eexists|]. exact (main_join _ _ (mkThreads s false [Finished; Finished] (Joining k)) k m eq_refl Hj). }
  eapply rtc_l; [by apply (Hjoin 0)|]. eapply rtc_l; [by apply (Hjoin 1)|]. apply rtc_once. by apply (Hjoin 2).
Qed.

Lemma server_stops_witness :
  exists server c0, sample_main = (Ok server, tt) /\
    let t := mkThreads (system_start (rs_workers server) c0) false [Finished; Finished] MainFinished in
    rtc sample_step (threads_start (system_start (rs_workers server) c0)) t /\ ended t.
Proof.
  destruct (server_stops (profile := false) (D := rfc4648) (J := toy_json) (CS := toy_cloud) (K := MemoryBackend) (S := MemoryBackend)
    (CL := toy_crypto_laws) (Addr := nat) (E := unit) all_features None None ∅ None None Ipv4_any (sample_args RfcDraft14) (zeroes 32)
    [mkStart (sample_world 1700000000) (sample_world 1700000000) (zeroes 32)] tt) as (server & [] & Hm & Hrun).
  - reflexivity.
  - apply sample_launch.
  - destruct (Hrun (sample_world 1700000000) (sample_world 1700000000)) as (c0 & _ & Hall).
    assert (map (fun _ => Starting) (rs_workers server) = [Starting]) as Hw by (vm_compute in Hm; injection Hm as <-; reflexivity).
    pose proof (sample_life (system_start (rs_workers server) c0) Hw) as Hr.
    destruct (Hall _ Hr) as (_ & _ & Hend). exists server, c0. split; [exact Hm|]. split; [exact Hr|].
    apply Hend. intros t' [[k Hk] _]. discriminate Hk.
Defined.

(** An interface that is no address. *)
Definition no_address (s : string) : option IpAddr := None.

Lemma unbound_server_stays_witness :
  exists server c0, sample_main = (Ok server, tt) /\
    let t := threads_start (system_start (rs_workers server) c0) in
    unserved t /\ th_main t = Joining 0 /\
    exists t', thread_step (C := toy_crypto) (profile := false) (E := unit) no_address (sample_args RfcDraft14) t t' /\ th_keep_running t' = true.
Proof.
  destruct (unbound_server_stays (profile := false) (D := rfc4648) (J := toy_json) (CS := toy_cloud) (K := MemoryBackend) (S := MemoryBackend)
    (CL := toy_crypto_laws) (Addr := nat) (E := unit) all_features None None ∅ None None no_address (sample_args RfcDraft14) (zeroes 32)
    [mkStart (sample_world 1700000000) (sample_world 1700000000) (zeroes 32)] tt) as (server & [] & Hm & Hrun).
  - reflexivity.
  - apply sample_launch.
  - intros os. reflexivity.
  - destruct (Hrun (sample_world 1700000000) (sample_world 1700000000)) as (c0 & _ & Hall).
    destruct (Hall _ (rtc_refl _ _)) as (Hu & Hg). exists server, c0. split; [exact Hm|]. split; [exact Hu|]. by apply Hg.
Defined.
