(* ===== verification/Client.v ===== *)
(** * The client (crates/roughenough-client/src/client.rs, sequence.rs)

    A single query and a chained sequence of queries.  [W] is everything outside:
    the network and the random source.  A transport is a pair of operations on
    it, as in the trait [ClientTransport]; operations that can fail and use it are
    in the monad [IO]. *)
From S2P Require Import Prelude Errors Cursor Wire Tags Header FixedTags Versions Path Cert Srep.
From S2P Require Import Request Response Merkle Crypto Keys Metrics Responses Requests Validation EndToEnd Measurement.

Section client.
Context {C : CryptoLib} {W : Type}.

Abbreviation IO := (io W ClientError).

(** The trait: [recv] fills the buffer it is given and returns a count. *)
Record ClientTransport := mkTransport {
  transport_send : bytes -> SocketAddr -> IO nat;
  transport_recv : bytes -> W -> res ClientError (nat * SocketAddr) * bytes * W;
}.

(** [random_bytes::<32>()] *)
Context (random_bytes : W -> bytes * W).
Definition draw : IO bytes := fun w => let (r, w') := random_bytes w in (Ok r, w').

Record Client := mkClient {
  client_server : SocketAddr;
  client_hostname : string;
  client_transport : ClientTransport;
  client_validator : ResponseValidator;
  client_public_key : option PublicKey;
  client_srv_commit : option SrvCommitment;
  client_protocol_version : ProtocolVersion;
}.

Record ClientBuilder := mkClientBuilder {
  cb_server : SocketAddr;
  cb_hostname : string;
  cb_transport : option ClientTransport;
  cb_timeout : option Duration;
  cb_public_key : option PublicKey;
  cb_protocol_version : ProtocolVersion;
}.

Definition DEFAULT_TIMEOUT : Duration := from_secs 2.

Definition ClientBuilder_new (server : SocketAddr) : ClientBuilder :=
  mkClientBuilder server "unknown"%string None None None RfcDraft14.

Definition cb_set_hostname (hostname : string) (b : ClientBuilder) : ClientBuilder :=
  mkClientBuilder (cb_server b) hostname (cb_transport b) (cb_timeout b) (cb_public_key b) (cb_protocol_version b).
Definition cb_set_timeout (timeout : Duration) (b : ClientBuilder) : ClientBuilder :=
  mkClientBuilder (cb_server b) (cb_hostname b) (cb_transport b) (Some timeout) (cb_public_key b)
    (cb_protocol_version b).
Definition cb_set_transport (transport : ClientTransport) (b : ClientBuilder) : ClientBuilder :=
  mkClientBuilder (cb_server b) (cb_hostname b) (Some transport) (cb_timeout b) (cb_public_key b)
    (cb_protocol_version b).
Definition cb_set_public_key (public_key : PublicKey) (b : ClientBuilder) : ClientBuilder :=
  mkClientBuilder (cb_server b) (cb_hostname b) (cb_transport b) (cb_timeout b) (Some public_key)
    (cb_protocol_version b).
Definition cb_set_protocol_version (version : ProtocolVersion) (b : ClientBuilder) : ClientBuilder :=
  mkClientBuilder (cb_server b) (cb_hostname b) (cb_transport b) (cb_timeout b) (cb_public_key b) version.

(** [build]; [udp] is [UdpTransport::new], opened when no transport was set; its
    failure is unwrapped by [expect]. *)
Definition client_build (udp : Duration -> SocketAddr -> IO ClientTransport) (b : ClientBuilder) : IO Client :=
  let timeout := default DEFAULT_TIMEOUT (cb_timeout b) in
  transport ← match cb_transport b with
              | Some transport => mret transport
              | None => expect_io (udp timeout (cb_server b))
              end;
  srv_commit ← match cb_public_key b with
               | Some public_key => c ← lift (make_srv_commitment public_key); mret (Some c)
               | None => mret None
               end;
  let validator := match cb_public_key b with
                   | Some public_key => new_with_key public_key
                   | None => validator_new
                   end in
  mret (mkClient (cb_server b) (cb_hostname b) transport validator (cb_public_key b) srv_commit
          (cb_protocol_version b)).

(** The request for the client's version, as [create_request] makes it. *)
Definition make_request (c : Client) (nonce : Nonce) : Request :=
  match client_protocol_version c with
  | RfcDraft08 => new_draft08 nonce
  | RfcDraft14 =>
      match client_srv_commit c with
      | Some srv_commit => new_draft14_with_server_commitment nonce srv_commit
      | None => new_draft14 nonce
      end
  end.

Definition create_request (c : Client) (nonce : option Nonce) : IO Request :=
  nonce ← match nonce with
          | Some n => mret n
          | None => r ← draw; lift (Nonce_from r)
          end;
  mret (make_request c nonce).

Definition send_request (c : Client) (request : Request) : IO bytes :=
  request_bytes ← lift (map_err BadResponse (as_frame_bytes request));
  sent ← transport_send (client_transport c) request_bytes (client_server c);
  if negb (sent =? length request_bytes) then throw InvalidConfiguration else mret request_bytes.

(** Parsing and validating the bytes received, for the client's version; the
    parser works on the buffer itself. *)
Definition parse_and_validate (c : Client) (request_bytes response_bytes : bytes) : res ClientError Response :=
  match client_protocol_version c with
  | RfcDraft08 =>
      match from_frame (A := ResponseDraft08) (new response_bytes) with
      | (Ok response, cur) =>
          _ ← map_err ValidationFailed
                (validate_draft08 (client_validator c) request_bytes response (data cur));
          Ok (Response_from response)
      | (Err e, _) => Err (BadResponse e)
      | (Panic, _) => Panic
      end
  | RfcDraft14 =>
      match from_frame (A := Response) (new response_bytes) with
      | (Ok response, cur) =>
          _ ← map_err ValidationFailed
                (validate_draft14 (client_validator c) request_bytes response (data cur));
          Ok response
      | (Err e, _) => Err (BadResponse e)
      | (Panic, _) => Panic
      end
  end.

(** The builder chain both queries end with. *)
Definition build_measurement (c : Client) (request : Request) (response : Response)
    (rand_value : option bytes) (prior_response : option Response) : res ClientError Measurement :=
  let b := MeasurementBuilder_new in
  let b := mb_set_server (client_server c) b in
  let b := mb_set_hostname (client_hostname c) b in
  let b := mb_set_public_key (client_public_key c) b in
  let b := mb_set_request request b in
  let b := mb_set_response response b in
  let b := mb_set_rand_value rand_value b in
  let b := mb_set_prior_response prior_response b in
  builder_build b.

Definition validate_response (c : Client) (request : Request) (request_bytes response_bytes : bytes)
    : res ClientError Measurement :=
  response ← parse_and_validate c request_bytes response_bytes;
  build_measurement c request response None None.

(** [vec![0u8; 1024]], [recv], [truncate] *)
Definition receive (c : Client) : IO bytes := fun w =>
  match transport_recv (client_transport c) (zeroes 1024) w with
  | (Ok (count, _), buf, w') => (Ok (take count buf), w')
  | (Err e, _, w') => (Err e, w')
  | (Panic, _, w') => (Panic, w')
  end.

Definition query_raw (c : Client) : IO (res ClientError Measurement * bytes * bytes) :=
  request ← create_request c None;
  request_bytes ← send_request c request;
  response_bytes ← receive c;
  mret (validate_response c request request_bytes response_bytes, request_bytes, response_bytes).

Definition query (c : Client) : IO Measurement :=
  r ← query_raw c;
  lift r.1.1.

(** ** Measurement sequences *)

Definition MIN_SERVERS : nat := 3.
Definition DEFAULT_ROUNDS : nat := 2.

Record MeasurementSequence := mkSequence { ms_clients : list Client }.

Definition MeasurementSequence_new (clients : list Client) : res ClientError MeasurementSequence :=
  if length clients <? MIN_SERVERS then Err InvalidConfiguration else Ok (mkSequence clients).

Definition generate_nonce (prior_response : option Response) : IO (Nonce * option bytes) :=
  match prior_response with
  | Some prior =>
      rand ← draw;
      nonce ← lift (calculate_chained_nonce prior rand);
      mret (nonce, Some rand)
  | None =>
      r ← draw;
      nonce ← lift (Nonce_from r);
      mret (nonce, None)
  end.

(** [buf[..n]]: panics if the transport reports more than the buffer holds. *)
Definition receive_slice (c : Client) : IO bytes := fun w =>
  match transport_recv (client_transport c) (zeroes 1024) w with
  | (Ok (count, _), buf, w') => (if count <=? length buf then Ok (take count buf) else Panic, w')
  | (Err e, _, w') => (Err e, w')
  | (Panic, _, w') => (Panic, w')
  end.

(** The request of a sequence; the [unwrap] needs the commitment. *)
Definition sequence_request (c : Client) (nonce : Nonce) : res ClientError Request :=
  match client_protocol_version c with
  | RfcDraft08 => Ok (new_draft08 nonce)
  | RfcDraft14 =>
      match client_srv_commit c with
      | Some srv_commit => Ok (new_draft14_with_server_commitment nonce srv_commit)
      | None => Panic
      end
  end.

Definition sequence_query (c : Client) (prior_response : option Response) : IO Measurement :=
  nr ← generate_nonce prior_response;
  request ← lift (sequence_request c nr.1);
  request_bytes ← lift (map_err BadResponse (as_frame_bytes request));
  _ ← transport_send (client_transport c) request_bytes (client_server c);
  response_bytes ← receive_slice c;
  response ← lift (parse_and_validate c request_bytes response_bytes);
  lift (build_measurement c request response nr.2 prior_response).

(** [for client in &self.clients] *)
Fixpoint run_clients (clients : list Client) (prior_response : option Response) (measurements : list Measurement)
    : IO (option Response * list Measurement) :=
  match clients with
  | [] => mret (prior_response, measurements)
  | c :: cs =>
      measurement ← sequence_query c prior_response;
      run_clients cs (Some (meas_response measurement)) (measurements ++ [measurement])
  end.

(** [for _round in 0..rounds] *)
Fixpoint run_rounds (rounds : nat) (clients : list Client) (prior_response : option Response)
    (measurements : list Measurement) : IO (list Measurement) :=
  match rounds with
  | O => mret measurements
  | S rounds' =>
      r ← run_clients clients prior_response measurements;
      run_rounds rounds' clients r.1 r.2
  end.

Definition sequence_run (s : MeasurementSequence) (rounds : nat) : IO (list Measurement) :=
  if forallb (fun c => match client_public_key c with Some _ => true | None => false end) (ms_clients s)
  then run_rounds rounds (ms_clients s) None []
  else throw InvalidConfiguration.

(** ** Correctness *)

Context {CL : CryptoLaws C}.
#[local] Set Default Proof Using "Type*".

(** What a transport keeps to: it does not panic, leaves the length of the buffer
    and counts no more than it holds. *)
Record transport_ok (t : ClientTransport) : Prop := {
  to_send bs addr w : (transport_send t bs addr w).1 <> Panic;
  to_recv buf w : match transport_recv t buf w with
                  | (Ok (count, _), buf', _) => length buf' = length buf /\ count <= length buf
                  | (Err _, _, _) => True
                  | (Panic, _, _) => False
                  end;
}.

(** The public key, the commitment to it and the validator's key agree. *)
Record client_ok (c : Client) : Prop := {
  co_transport : transport_ok (client_transport c);
  co_key : match client_public_key c with
           | Some key => length (fixed_bytes key) = 32 /\ client_validator c = new_with_key key /\
               client_srv_commit c = Some (mkSrv (sha512_32 (HASH_PREFIX_SRV ++ fixed_bytes key)))
           | None => client_validator c = validator_new /\ client_srv_commit c = None
           end;
}.

Lemma client_build_spec udp b w :
  (forall timeout addr w t w', udp timeout addr w = (Ok t, w') -> transport_ok t) ->
  match cb_transport b with Some t => transport_ok t | None => True end ->
  match cb_public_key b with Some key => length (fixed_bytes key) = 32 | None => True end ->
  match client_build udp b w with
  | (Ok c, w') => client_ok c /\ client_public_key c = cb_public_key b /\
      client_protocol_version c = cb_protocol_version b /\ client_server c = cb_server b /\
      client_hostname c = cb_hostname b /\
      match cb_transport b with
      | Some t => client_transport c = t
      | None => udp (default DEFAULT_TIMEOUT (cb_timeout b)) (cb_server b) w = (Ok (client_transport c), w')
      end
  | (Err _, _) => False
  | (Panic, _) => cb_transport b = None /\
      forall t, (udp (default DEFAULT_TIMEOUT (cb_timeout b)) (cb_server b) w).1 <> Ok t
  end.
Proof using CL.
  intros Hudp Ht Hk. unfold client_build, mbind, io_bind, expect_io, lift, mret, io_ret.
  destruct (cb_transport b) as [t|].
  - destruct (cb_public_key b) as [key|]; [rewrite make_srv_commitment_ok|]; (split; [by split|done]).
  - destruct (udp _ _ w) as [[t|e|] w1] eqn:Hu; [|done|done]. cbn [expect].
    pose proof Hu as Ht'. apply Hudp in Ht'. destruct (cb_public_key b) as [key|]; [rewrite make_srv_commitment_ok|]; (split; [by split|done]).
Qed.

Lemma make_request_wf c nonce : client_ok c -> wf (A := FixedTag 32) nonce ->
  wf (make_request c nonce) /\ wire_size (make_request c nonce) = 1012.
Proof using CL.
  intros [_ Hk] Hn. assert (wf (A := SrvCommitment) (mkSrv (zeroes 32))) as Hz by done.
  unfold make_request. destruct (client_protocol_version c).
  { by destruct (new_request_wf nonce (mkSrv (zeroes 32)) Hn Hz) as (H8 & _). }
  destruct (client_public_key c) as [key|].
  - destruct Hk as (_ & _ & ->).
    destruct (new_request_wf nonce (mkSrv (sha512_32 (HASH_PREFIX_SRV ++ fixed_bytes key))) Hn) as (_ & _ & Hs);
      [|done]. cbn. by rewrite length_sha512_32.
  - destruct Hk as (_ & ->). by destruct (new_request_wf nonce (mkSrv (zeroes 32)) Hn Hz) as (_ & H14 & _).
Qed.

(** Parsing and validating never panics, and leaves the bytes it parses. *)
Lemma parse_and_validate_spec c request_bytes bs :
  match parse_and_validate c request_bytes bs with
  | Ok response =>
      match client_protocol_version c with
      | RfcDraft14 => exists cur, from_frame (A := Response) (new bs) = (Ok response, cur) /\
          validate_draft14 (client_validator c) request_bytes response bs = Ok (srep_midpoint (resp_srep response))
      | RfcDraft08 => exists r cur, from_frame (A := ResponseDraft08) (new bs) = (Ok r, cur) /\
          response = Response_from r /\
          validate_draft08 (client_validator c) request_bytes r bs = Ok (srep08_midpoint (resp08_srep r))
      end
  | Err (BadResponse e) => True
  | Err (ValidationFailed e) => True
  | Err _ => False
  | Panic => False
  end.
Proof using Type.
  unfold parse_and_validate. destruct (client_protocol_version c).
  - change (new bs) with (at_cursor [] bs). pose proof (from_frame_parses _ ResponseDraft08_parses [] bs) as H.
    destruct (from_frame (at_cursor [] bs)) as [[r|e|] cur] eqn:Hf; [|done|done].
    destruct H as (b & rest & Hbs & -> & len & msg & _ & _ & Hw & _). cbn [data at_cursor app].
    rewrite <-Hbs.
    pose proof (validate_draft08_outcome (client_validator c) request_bytes r bs (r8_header _ Hw)
      (cw_dele _ (r8_cert _ Hw))) as Ho.
    destruct (validate_draft08 _ _ _ _) as [m|e|] eqn:Hv; cbn; [|done|done].
    rewrite (v8_midpoint _ _ _ _ _ Ho) in Hv. by eexists _, _.
  - change (new bs) with (at_cursor [] bs). pose proof (from_frame_parses _ Response_parses [] bs) as H.
    destruct (from_frame (at_cursor [] bs)) as [[r|e|] cur] eqn:Hf; [|done|done].
    destruct H as (b & rest & Hbs & -> & len & msg & _ & _ & Hw). cbn [data at_cursor app].
    rewrite <-Hbs.
    pose proof (validate_draft14_outcome (client_validator c) request_bytes r bs (rp_header _ _ Hw)
      (cw_dele _ (rp_cert _ _ Hw))) as Ho.
    destruct (validate_draft14 _ _ _ _) as [m|e|] eqn:Hv; cbn; [|done|done].
    rewrite (v14_midpoint _ _ _ _ _ Ho) in Hv. by eexists.
Qed.

Lemma validate_response_total c request request_bytes bs :
  validate_response c request request_bytes bs <> Panic.
Proof using Type.
  unfold validate_response. pose proof (parse_and_validate_spec c request_bytes bs) as H.
  by destruct (parse_and_validate c request_bytes bs) as [r|e|].
Qed.

Context (random_length : forall w, length (random_bytes w).1 = 32).

(** The outcome of [query_raw], when it has one. *)
Definition query_outcome (c : Client) (out : res ClientError Measurement) (request_bytes response_bytes : bytes) : Prop :=
  exists nonce, wf (A := FixedTag 32) nonce /\
    request_bytes = frame_bytes (encode (make_request c nonce)) /\
    length request_bytes = REQUEST_SIZE /\ length response_bytes <= 1024 /\
    out = validate_response c (make_request c nonce) request_bytes response_bytes /\ out <> Panic.

(** The frame that [query_raw] sends at [w]: the client's request for the nonce drawn there. *)
Definition query_nonce (w : W) : Nonce := mkFixed (random_bytes w).1.
Definition query_frame (c : Client) (w : W) : bytes := frame_bytes (encode (make_request c (query_nonce w))).

Lemma query_frame_length c w : client_ok c -> length (query_frame c w) = REQUEST_SIZE.
Proof.
  intros Hc. destruct (make_request_wf c (query_nonce w) Hc (random_length w)) as [Hw Hsz].
  unfold query_frame. by rewrite length_frame_bytes, (length_encode_Request _ Hw), Hsz.
Qed.

(** [query_raw] by what the transport answers. *)
Definition query_steps (c : Client) (w : W) : res ClientError (res ClientError Measurement * bytes * bytes) * W :=
  match transport_send (client_transport c) (query_frame c w) (client_server c) (random_bytes w).2 with
  | (Ok sent, w1) =>
      if negb (sent =? REQUEST_SIZE) then (Err InvalidConfiguration, w1)
      else match transport_recv (client_transport c) (zeroes 1024) w1 with
           | (Ok (count, _), buf, w2) =>
               (Ok (validate_response c (make_request c (query_nonce w)) (query_frame c w) (take count buf),
                    query_frame c w, take count buf), w2)
           | (Err e, _, w2) => (Err e, w2)
           | (Panic, _, w2) => (Panic, w2)
           end
  | (Err e, w1) => (Err e, w1)
  | (Panic, w1) => (Panic, w1)
  end.

Lemma query_raw_steps c w : client_ok c -> query_raw c w = query_steps c w.
Proof.
  intros Hc. pose proof (query_frame_length c w Hc) as Hl. unfold query_steps, query_frame, query_nonce in *.
  unfold query_raw, create_request, draw, send_request, receive, throw, mbind, io_bind, mret, io_ret, lift.
  pose proof (random_length w) as Hr. destruct (random_bytes w) as [r w1]. cbn [fst snd] in *.
  rewrite (Nonce_from_ok r Hr). destruct (make_request_wf c (mkFixed r) Hc Hr) as [Hw Hsz].
  rewrite (as_frame_bytes_encode _ Hw). cbn [map_err]. rewrite Hl.
  destruct (transport_send _ _ _ w1) as [[sent|e|] w2]; [|done|done].
  destruct (negb (sent =? REQUEST_SIZE)); [done|].
  by destruct (transport_recv _ _ w2) as [[[[count src]|e|] buf] w3].
Qed.

Lemma query_raw_spec c w :
  client_ok c ->
  match query_raw c w with
  | (Ok (out, request_bytes, response_bytes), _) => query_outcome c out request_bytes response_bytes
  | (Err _, _) => True
  | (Panic, _) => False
  end.
Proof.
  intros Hc. rewrite (query_raw_steps c w Hc). unfold query_steps. set (req := query_frame c w).
  pose proof (to_send _ (co_transport _ Hc) req (client_server c) (random_bytes w).2) as Hs.
  destruct (transport_send _ req _ _) as [[sent|e|] w2]; [|done|done].
  destruct (negb _); [done|]. pose proof (to_recv _ (co_transport _ Hc) (zeroes 1024) w2) as Hrv.
  destruct (transport_recv (client_transport c) (zeroes 1024) w2) as [[[[count src]|e|] buf] w3]; [|done|done].
  destruct Hrv as [Hb Hcnt]. rewrite length_zeroes in *.
  exists (query_nonce w). split_and!; [apply random_length|done|by apply query_frame_length| |done|].
  - rewrite length_take. lia.
  - apply validate_response_total.
Qed.

(** C17: A query never panics, and is decided by its transport.  It sends one frame, of
    exactly 1024 bytes: the client's request for the nonce that it has just drawn from
    the random source.  If the transport, which keeps to its contract, reports an
    error, in sending or in receiving, that is the query's; if it has not sent all
    of the frame, the query reports an invalid configuration; otherwise it returns
    the outcome of validating what was received as the answer to that very request,
    which is a measurement or an error and never a panic, with the frame sent and
    the bytes received, at most 1024. *)
Theorem query_raw_total c w :
  client_ok c ->
  let request := make_request c (mkFixed (random_bytes w).1) in
  let request_bytes := frame_bytes (encode request) in
  length request_bytes = 1024 /\
  match transport_send (client_transport c) request_bytes (client_server c) (random_bytes w).2 with
  | (Ok sent, w1) =>
      if sent =? 1024 then
        match transport_recv (client_transport c) (zeroes 1024) w1 with
        | (Ok (count, _), buf, w2) =>
            let response_bytes := take count buf in
            let out := validate_response c request request_bytes response_bytes in
            query_raw c w = (Ok (out, request_bytes, response_bytes), w2) /\ length response_bytes <= 1024 /\
            out <> Panic
        | (Err e, _, w2) => query_raw c w = (Err e, w2)
        | (Panic, _, _) => False
        end
      else query_raw c w = (Err InvalidConfiguration, w1)
  | (Err e, w1) => query_raw c w = (Err e, w1)
  | (Panic, _) => False
  end.
Proof.
  intros Hc. split; [by apply (query_frame_length c w)|]. rewrite (query_raw_steps c w Hc).
  unfold query_steps, query_frame, query_nonce, REQUEST_SIZE. set (request := make_request c (mkFixed _)).
  pose proof (to_send _ (co_transport _ Hc) (frame_bytes (encode request)) (client_server c) (random_bytes w).2) as Hs.
  destruct (transport_send _ _ _ _) as [[sent|e|] w1]; [|done|done].
  destruct (sent =? 1024); cbn [negb]; [|done].
  pose proof (to_recv _ (co_transport _ Hc) (zeroes 1024) w1) as Hrv.
  destruct (transport_recv _ _ w1) as [[[[count src]|e|] buf] w2]; [|done|done]. destruct Hrv as [Hb Hcnt].
  rewrite length_zeroes in *. split; [done|]. split; [rewrite length_take; lia|apply validate_response_total].
Qed.

Lemma validate_response_ok c request request_bytes bs response :
  parse_and_validate c request_bytes bs = Ok response ->
  validate_response c request request_bytes bs =
    Ok (mkMeasurement (client_server c) (client_hostname c) (client_public_key c) request response None None).
Proof using Type. intros H. unfold validate_response. by rewrite H. Qed.

Lemma verdict_measured {Addr} c (a : Accepted (Addr := Addr)) key frame t :
  client_validator c = new_with_key key ->
  client_verdict (client_protocol_version c) key a frame (Ok t) ->
  exists response, parse_and_validate c (acc_datagram a) frame = Ok response /\
    srep_midpoint (resp_srep response) = t.
Proof using CL.
  intros Hv Hver. pose proof (parse_and_validate_spec c (acc_datagram a) frame) as H.
  unfold parse_and_validate, client_verdict in *. destruct (client_protocol_version c).
  - destruct Hver as (r & cur & Hf & Hval).
    pose proof (from_frame_parses _ ResponseDraft08_parses [] frame) as Hp.
    change (new frame) with (at_cursor [] frame) in *. rewrite Hf in *.
    destruct Hp as (b & rest & -> & -> & len & msg & _ & _ & Hw & _). cbn [data at_cursor app] in *.
    rewrite Hv, Hval in *. cbn [map_err mbind res_bind] in *. eexists. split; [reflexivity|].
    destruct H as (r' & cur' & [= <- _] & _ & Hm). rewrite Hval in Hm. injection Hm as ->.
    by destruct (Response_from_wf r Hw) as (_ & _ & _ & -> & _).
  - destruct Hver as (r & cur & Hf & _ & Hval).
    pose proof (from_frame_parses _ Response_parses [] frame) as Hp.
    change (new frame) with (at_cursor [] frame) in *. rewrite Hf in *.
    destruct Hp as (b & rest & -> & -> & len & msg & _ & _ & Hw). cbn [data at_cursor app] in *.
    rewrite Hv, Hval in *. cbn [map_err mbind res_bind] in *. eexists. split; [reflexivity|].
    destruct H as (cur' & _ & Hm). try rewrite Hval in Hm. by injection Hm as ->.
Qed.

Lemma make_request_version c nonce : request_version (make_request c nonce) = client_protocol_version c.
Proof using Type. unfold make_request. by destruct (client_protocol_version c), (client_srv_commit c). Qed.

Lemma make_request_made_by {Addr} c nonce d (src : Addr) :
  made_by (client_protocol_version c) (mkAccepted d (make_request c nonce) src).
Proof using Type.
  split; [apply make_request_version|]. intros Hv. unfold make_request. cbn [acc_request]. rewrite Hv. by eexists.
Qed.

(** What the client makes of a verdict of its validator. *)
Lemma verdict_response {Addr} c (a : Accepted (Addr := Addr)) key frame request :
  client_validator c = new_with_key key ->
  (forall t, client_verdict (client_protocol_version c) key a frame (Ok t) ->
    exists m, validate_response c request (acc_datagram a) frame = Ok m /\ midpoint m = t) /\
  (forall e, client_verdict (client_protocol_version c) key a frame (Err e) ->
    validate_response c request (acc_datagram a) frame = Err (ValidationFailed e)).
Proof using CL.
  intros Hv. split.
  - intros t Hver. destruct (verdict_measured c a key frame t Hv Hver) as (response & Hp & Hm).
    eexists. split; [by apply validate_response_ok|exact Hm].
  - intros e. unfold validate_response, parse_and_validate, client_verdict. destruct (client_protocol_version c).
    + intros (r & cur & Hf & Hval). pose proof (from_frame_parses _ ResponseDraft08_parses [] frame) as Hp.
      change (new frame) with (at_cursor [] frame) in *. rewrite Hf in *.
      destruct Hp as (b & rest & -> & -> & _). cbn [data at_cursor app] in *. by rewrite Hv, Hval.
    + intros (r & cur & Hf & _ & Hval). pose proof (from_frame_parses _ Response_parses [] frame) as Hp.
      change (new frame) with (at_cursor [] frame) in *. rewrite Hf in *.
      destruct Hp as (b & rest & -> & -> & _). cbn [data at_cursor app] in *. by rewrite Hv, Hval.
Qed.

Lemma refused_response c request request_bytes frame : client_refuses (client_protocol_version c) frame ->
  exists e, validate_response c request request_bytes frame = Err (BadResponse e).
Proof using Type.
  unfold validate_response, parse_and_validate, client_refuses.
  destruct (client_protocol_version c); intros (e & cur & ->); by exists e.
Qed.

(** C4: A query that reaches the server measures its clock, if the two agree on the
    version and the server's online key is current.  When the request that a client
    with the server's long-term key makes, of either version, is in a batch, in
    either profile while the histogram has room, the server's reply to it, delivered
    to the client, is
    validated if the client is of the server's version and the server's clock, when
    it signs the batch, is within its online key's delegation, and the measurement's
    time is then that clock; it is refused for its midpoint if the clock is outside
    the delegation, and as a bad response if the versions differ. *)
Theorem query_measures_server_time {E B Addr} `{!SeedBackend B} `{!LawfulSeedBackend B} {profile : Profile}
    sk w (h : RequestHandler (B := B) (Addr := Addr)) batch i src c nonce :
  client_ok c -> client_public_key c = Some (identity_key sk) -> wf (A := FixedTag 32) nonce ->
  pending_inv sk (responder h) batch -> world_wf w -> metrics_room (responder h) ->
  let t := epoch_seconds w (ks_clock (rh_key_source (responder h))) in
  let cert := rh_cert (responder h) in
  let v := rh_version (responder h) in
  let request := make_request c nonce in
  let request_bytes := frame_bytes (encode request) in
  batch !! i = Some (mkAccepted request_bytes request src) ->
  exists h' frames frame, generate_responses (E := E) w h = Ok (h', frames) /\
    frames !! i = Some (src, frame) /\
    let out := validate_response c request request_bytes frame in
    (client_protocol_version c = v -> within cert t -> exists m, out = Ok m /\ midpoint m = t) /\
    (client_protocol_version c = v -> ~ within cert t -> out = Err (ValidationFailed InvalidMidpoint)) /\
    (client_protocol_version c <> v -> exists e, out = Err (BadResponse e)).
Proof using CL.
  intros Hc Hkey Hn Hinv Hw Hroom t cert v request request_bytes Hi.
  destruct (generate_responses_spec (E := E) sk w h batch Hinv Hw Hroom) as
    (h' & frames & Hg & _ & _ & _ & _ & Hrep).
  destruct (batch_verdict sk w (responder h) batch frames Hinv) with (i := i)
    (a := mkAccepted request_bytes request src) as (frame & Hf & [Hin Hout Hoth]); [|done|].
  { apply Hrep. intros ->. by rewrite lookup_nil in Hi. }
  pose proof (co_key _ Hc) as Hk. rewrite Hkey in Hk. destruct Hk as (_ & Hval & _).
  destruct (verdict_response c (mkAccepted request_bytes request src) _ frame request Hval) as [Hok Herr].
  destruct (make_request_made_by c nonce request_bytes src) as [Hq Hs].
  exists h', frames, frame. split; [done|]. split; [done|]. cbn [acc_request acc_datagram] in *. fold v cert t in Hin, Hout, Hoth.
  split_and!.
  - intros Hv Hwin. apply Hok. rewrite Hv in Hs |- *. by apply Hin.
  - intros Hv Hwin. apply Herr. rewrite Hv in Hs |- *. by apply Hout.
  - intros Hv. apply refused_response. fold request in Hq. rewrite Hq in Hoth. by apply Hoth.
Qed.

(** ** Sequences *)

(** A response that serializes, as chaining needs. *)
Definition serializable (r : Response) : Prop := exists bs, as_frame_bytes r = Ok bs.

Lemma parsed_serializable c request_bytes bs response :
  parse_and_validate c request_bytes bs = Ok response -> serializable response.
Proof using Type.
  intros H. pose proof (parse_and_validate_spec c request_bytes bs) as Hs. rewrite H in Hs.
  change (new bs) with (at_cursor [] bs) in Hs. destruct (client_protocol_version c).
  - destruct Hs as (r & cur & Hf & -> & _). pose proof (from_frame_parses _ ResponseDraft08_parses [] bs) as Hp.
    rewrite Hf in Hp. destruct Hp as (b & rest & _ & _ & len & msg & _ & _ & Hw & _).
    destruct (Response_from_wf r Hw) as (Hw' & _). eexists. by apply as_frame_bytes_encode.
  - destruct Hs as (cur & Hf & _). pose proof (from_frame_parses _ Response_parses [] bs) as Hp.
    rewrite Hf in Hp. destruct Hp as (b & rest & _ & _ & len & msg & _ & _ & Hw).
    eexists. by eapply as_frame_bytes_parsed.
Qed.

(** How a measurement continues the one before it. *)
Record chained (prior : option Response) (m : Measurement) : Prop := {
  ch_prior : meas_prior_response m = prior;
  ch_nonce : match prior with
             | None => meas_rand_value m = None
             | Some p => exists rand bs, meas_rand_value m = Some rand /\ length rand = 32 /\
                 as_frame_bytes p = Ok bs /\
                 req_nonc (meas_request m) = mkFixed (sha512_32 (bs ++ rand))
             end;
}.

(** The measurement was asked for at [w]: with the random bytes drawn there, as the
    nonce of a first request and as the recorded random value of a later one; over
    the client's transport, whose answer the client validated, and which left the
    world at [w']. *)
Record asked (c : Client) (w : W) (prior : option Response) (m : Measurement) (w' : W) : Prop := {
  as_drawn : match prior with
             | None => req_nonc (meas_request m) = mkFixed (random_bytes w).1
             | Some _ => meas_rand_value m = Some (random_bytes w).1
             end;
  as_exchange : exists request_bytes sent w1 count src buf,
    as_frame_bytes (meas_request m) = Ok request_bytes /\
    transport_send (client_transport c) request_bytes (client_server c) (random_bytes w).2 = (Ok sent, w1) /\
    transport_recv (client_transport c) (zeroes 1024) w1 = (Ok (count, src), buf, w') /\
    parse_and_validate c request_bytes (take count buf) = Ok (meas_response m);
}.

(** The measurement is [c]'s, from bytes that [c] validated as the answer to it. *)
Definition measured_by (c : Client) (m : Measurement) : Prop :=
  meas_server m = client_server c /\ meas_public_key m = client_public_key c /\
  exists request_bytes bs, as_frame_bytes (meas_request m) = Ok request_bytes /\
    parse_and_validate c request_bytes bs = Ok (meas_response m).

Lemma query_outcome_measured c m request_bytes response_bytes :
  client_ok c -> query_outcome c (Ok m) request_bytes response_bytes -> measured_by c m.
Proof using CL.
  intros Hc (nonce & Hn & -> & _ & _ & Hm & _). unfold validate_response in Hm.
  pose proof (make_request_wf c nonce Hc Hn) as [Hw _].
  destruct (parse_and_validate c _ response_bytes) as [response|e|] eqn:Hp; [|done|done]. cbn in Hm.
  injection Hm as ->. split; [done|]. split; [done|]. eexists _, response_bytes. split; [by apply as_frame_bytes_encode|exact Hp].
Qed.

Lemma chained_nonce_of_frame {E} p bs rand : as_frame_bytes p = Ok bs ->
  calculate_chained_nonce (E := E) p rand = Ok (mkFixed (sha512_32 (bs ++ rand))).
Proof using CL.
  intros H. unfold calculate_chained_nonce. rewrite H. cbn [expect mbind res_bind].
  apply Nonce_from_ok, length_sha512_32.
Qed.

Lemma generate_nonce_spec prior w : (forall p, prior = Some p -> serializable p) ->
  exists nonce rand, generate_nonce prior w = (Ok (nonce, rand), (random_bytes w).2) /\ wf (A := FixedTag 32) nonce /\
    match prior with
    | None => rand = None /\ nonce = mkFixed (random_bytes w).1
    | Some p => exists bs, rand = Some (random_bytes w).1 /\ as_frame_bytes p = Ok bs /\
        nonce = mkFixed (sha512_32 (bs ++ (random_bytes w).1))
    end.
Proof.
  intros Hs. unfold generate_nonce, draw, mbind, io_bind, lift, mret, io_ret.
  pose proof (random_length w) as Hr. destruct prior as [p|]; destruct (random_bytes w) as [r w1]; cbn [fst] in Hr.
  - destruct (Hs p eq_refl) as [bs Hbs]. rewrite (chained_nonce_of_frame p bs r Hbs).
    eexists _, _. split; [reflexivity|]. split; [apply length_sha512_32|]. by exists bs.
  - rewrite (Nonce_from_ok r Hr). by eexists _, _.
Qed.

Lemma sequence_query_spec c prior w :
  client_ok c -> client_public_key c <> None -> (forall p, prior = Some p -> serializable p) ->
  match sequence_query c prior w with
  | (Ok m, w') => asked c w prior m w' /\ chained prior m /\ measured_by c m /\ serializable (meas_response m)
  | (Err _, _) => True
  | (Panic, _) => False
  end.
Proof.
  intros Hc Hkey Hs. unfold sequence_query, mbind, io_bind, lift, mret, io_ret.
  destruct (generate_nonce_spec prior w Hs) as (nonce & rand & -> & Hn & Hrand). cbn [fst snd].
  pose proof (random_length w) as Hr.
  assert (req_nonc (make_request c nonce) = nonce) as Hq
    by (unfold make_request; by destruct (client_protocol_version c), (client_srv_commit c)).
  pose proof (make_request_wf c nonce Hc Hn) as [Hw _]. pose proof (co_key _ Hc) as Hk.
  destruct (client_public_key c) as [key|] eqn:Hpk; [|done]. destruct Hk as (_ & _ & Hsrv).
  assert (sequence_request c nonce = Ok (make_request c nonce)) as ->.
  { unfold sequence_request, make_request. rewrite Hsrv. by destruct (client_protocol_version c). }
  rewrite (as_frame_bytes_encode _ Hw). cbn [map_err].
  set (req := frame_bytes (encode (make_request c nonce))).
  pose proof (to_send _ (co_transport _ Hc) req (client_server c) (random_bytes w).2) as Hsend.
  destruct (transport_send (client_transport c) req (client_server c) _) as [[sent|e|] w2] eqn:Hsent; [|done|done].
  unfold receive_slice. pose proof (to_recv _ (co_transport _ Hc) (zeroes 1024) w2) as Hrv.
  destruct (transport_recv (client_transport c) (zeroes 1024) w2) as [[[[count src]|e|] buf] w3] eqn:Hrecv; [|done|done].
  destruct Hrv as [Hb Hcnt]. destruct (Nat.leb_spec count (length buf)); [|lia].
  pose proof (parse_and_validate_spec c req (take count buf)) as Hp.
  destruct (parse_and_validate c req (take count buf)) as [response|e|] eqn:Hpv; [|done|done].
  cbn [build_measurement]. split_and!; [| | |by eapply parsed_serializable].
  - split; cbn [meas_request meas_rand_value meas_response].
    + destruct prior as [p|]; [by destruct Hrand as (bs & -> & _)|]. cbn. by rewrite Hq, (proj2 Hrand).
    + exists req, sent, w2, count, src, buf. split_and!; [by apply as_frame_bytes_encode|done..].
  - split; [done|]. cbn. destruct prior as [p|]; [|apply Hrand].
    destruct Hrand as (bs & -> & Hbs & ->). exists (random_bytes w).1, bs. by split_and!.
  - split; [done|]. split; [done|]. exists req, (take count buf). split; [|done].
    by apply as_frame_bytes_encode.
Qed.

(** Successive measurements by [clients], the first one after [prior] and from [w],
    the last one leaving the world at [w']. *)
Fixpoint chain_from (w : W) (prior : option Response) (clients : list Client) (ms : list Measurement) (w' : W) : Prop :=
  match clients, ms with
  | [], [] => w' = w
  | c :: cs, m :: ms' => chained prior m /\ measured_by c m /\
      exists w1, asked c w prior m w1 /\ chain_from w1 (Some (meas_response m)) cs ms' w'
  | _, _ => False
  end.

Lemma chain_from_length clients : forall w prior ms w', chain_from w prior clients ms w' -> length ms = length clients.
Proof using Type.
  induction clients as [|c cs IH]; intros w prior [|m ms] w'; cbn; try done. intros (_ & _ & w1 & _ & Hch).
  by rewrite (IH _ _ _ _ Hch).
Qed.

Definition last_response (prior : option Response) (ms : list Measurement) : option Response :=
  match last ms with Some m => Some (meas_response m) | None => prior end.

Lemma last_response_cons prior m ms :
  last_response prior (m :: ms) = last_response (Some (meas_response m)) ms.
Proof using Type. unfold last_response. rewrite last_cons. by destruct (last ms). Qed.

Lemma chain_from_app cs1 : forall w prior ms1 w1 cs2 ms2 w2,
  chain_from w prior cs1 ms1 w1 -> chain_from w1 (last_response prior ms1) cs2 ms2 w2 ->
  chain_from w prior (cs1 ++ cs2) (ms1 ++ ms2) w2.
Proof using Type.
  induction cs1 as [|c cs1 IH]; intros w prior [|m ms1] w1 cs2 ms2 w2; cbn [chain_from app]; try done.
  { by intros ->. }
  intros (Hc & Hm & w3 & Ha & H1) H2. split; [exact Hc|]. split; [exact Hm|]. exists w3. split; [exact Ha|].
  eapply IH; [exact H1|]. by rewrite <-last_response_cons with (prior := prior).
Qed.

Definition usable (c : Client) : Prop := client_ok c /\ client_public_key c <> None.

Lemma run_clients_spec cs : forall prior acc w,
  Forall usable cs -> (forall p, prior = Some p -> serializable p) ->
  match run_clients cs prior acc w with
  | (Ok (prior', acc'), w') => exists ms, acc' = acc ++ ms /\ chain_from w prior cs ms w' /\
      prior' = last_response prior ms /\ (forall p, prior' = Some p -> serializable p)
  | (Err _, _) => True
  | (Panic, _) => False
  end.
Proof.
  induction cs as [|c cs IH]; intros prior acc w Hu Hs; cbn [run_clients].
  { exists []. by rewrite app_nil_r. }
  apply Forall_cons in Hu as [[Hc Hk] Hu]. unfold mbind, io_bind.
  pose proof (sequence_query_spec c prior w Hc Hk Hs) as Hq.
  destruct (sequence_query c prior w) as [[m|e|] w1]; [|done|done]. destruct Hq as (Hask & Hch & Hm & Hser).
  specialize (IH (Some (meas_response m)) (acc ++ [m]) w1 Hu ltac:(by intros ? [= <-])).
  destruct (run_clients cs (Some (meas_response m)) (acc ++ [m]) w1) as [[[prior' acc']|e|] w2]; [|done|done].
  destruct IH as (ms & -> & Hchain & -> & Hser'). exists (m :: ms). split; [by rewrite <-app_assoc|].
  split; [split; [done|]; split; [done|by exists w1]|]. split.
  - by rewrite last_response_cons.
  - done.
Qed.

Lemma run_rounds_spec cs : Forall usable cs -> forall rounds prior acc w,
  (forall p, prior = Some p -> serializable p) ->
  match run_rounds rounds cs prior acc w with
  | (Ok acc', w') => exists ms, acc' = acc ++ ms /\ chain_from w prior (concat (replicate rounds cs)) ms w'
  | (Err _, _) => True
  | (Panic, _) => False
  end.
Proof.
  intros Hu. induction rounds as [|rounds IH]; intros prior acc w Hs; cbn [run_rounds replicate concat].
  { exists []. by rewrite app_nil_r. }
  unfold mbind, io_bind. pose proof (run_clients_spec cs prior acc w Hu Hs) as Hr.
  destruct (run_clients cs prior acc w) as [[[prior' acc']|e|] w1]; [|done|done].
  destruct Hr as (ms1 & -> & Hc1 & -> & Hs1). cbn [fst snd].
  specialize (IH (last_response prior ms1) (acc ++ ms1) w1 Hs1).
  destruct (run_rounds rounds cs _ (acc ++ ms1) w1) as [[acc'|e|] w2]; [|done|done].
  destruct IH as (ms2 & -> & Hc2). exists (ms1 ++ ms2). split; [by rewrite app_assoc|].
  by eapply chain_from_app.
Qed.

(** C16: A measurement sequence is a chain.  With clients that hold their servers'
    keys, [run] never panics.  When it succeeds it has measured every server in
    order, once per round, one after the other: each measurement's request was sent,
    and the answer received and validated, by its own client; the nonce of the first
    is the bytes drawn from the random source just before it, and it has no prior
    response; and the nonce of every later request is the truncated hash of the frame
    of the previous measurement's response and the bytes drawn just before, which
    the measurement records: that request depends on the previous response. *)
Theorem sequence_run_chained (s : MeasurementSequence) (rounds : nat) (w : W) :
  Forall usable (ms_clients s) ->
  match sequence_run s rounds w with
  | (Ok ms, w') => chain_from w None (concat (replicate rounds (ms_clients s))) ms w'
  | (Err _, _) => True
  | (Panic, _) => False
  end.
Proof.
  intros Hu. unfold sequence_run. destruct (forallb _ (ms_clients s)); [|done].
  pose proof (run_rounds_spec (ms_clients s) Hu rounds None [] w ltac:(done)) as H.
  destruct (run_rounds rounds (ms_clients s) None [] w) as [[ms|e|] w']; [|done|done].
  by destruct H as (ms' & -> & Hc).
Qed.

(** A sequence needs three servers with keys.  [new] accepts exactly lists of
    at least [MIN_SERVERS] clients; [run] with a client that has no public key
    reports an invalid configuration and has not touched the network or the random
    source, whatever the number of rounds. *)
Theorem sequence_preconditions (clients : list Client) (rounds : nat) (w : W) :
  (MeasurementSequence_new clients = if decide (3 <= length clients)
    then Ok (mkSequence clients) else Err InvalidConfiguration) /\
  ((exists c, c ∈ clients /\ client_public_key c = None) ->
   sequence_run (mkSequence clients) rounds w = (Err InvalidConfiguration, w)).
Proof using Type.
  split.
  - unfold MeasurementSequence_new, MIN_SERVERS.
    destruct (Nat.ltb_spec (length clients) 3), (decide (3 <= length clients)); done || lia.
  - intros (c & Hc & Hk). unfold sequence_run. cbn [ms_clients].
    destruct (forallb _ clients) eqn:Hall; [|done]. rewrite forallb_forall in Hall.
    apply list_elem_of_In in Hc. specialize (Hall c Hc). by rewrite Hk in Hall.
Qed.

(** The chain does not hold a draft-08 server to its response.  The response
    that a measurement keeps for a draft-08 server is converted to draft-14; its
    frame, which the next nonce hashes and a malfeasance report submits, is never
    the frame the server sent, and the SREP in it is not the one the server
    signed. *)
Theorem draft08_response_reencoded (c : Client) (request_bytes bs : bytes) (response : Response) :
  client_protocol_version c = RfcDraft08 -> parse_and_validate c request_bytes bs = Ok response ->
  exists r cur frame, from_frame (A := ResponseDraft08) (new bs) = (Ok r, cur) /\ response = Response_from r /\
    as_frame_bytes response = Ok frame /\ frame <> bs /\
    length (encode (resp_srep response)) <> length (encode (resp08_srep r)).
Proof using CL.
  intros Hv Hpv. pose proof (parse_and_validate_spec c request_bytes bs) as Hspec. rewrite Hpv, Hv in Hspec.
  destruct Hspec as (r & cur & Hf & -> & _). exists r, cur.
  change (new bs) with (at_cursor [] bs) in Hf |- *.
  pose proof (from_frame_parses _ ResponseDraft08_parses [] bs) as Hp. rewrite Hf in Hp.
  destruct Hp as (b & rest & Hbs & _ & len & msg & _ & Hb & Hw & vb & _ & Hmsg).
  destruct (Response_from_wf r Hw) as (Hw' & _).
  exists (frame_bytes (encode (Response_from r))). split; [done|]. split; [done|]. split; [by apply as_frame_bytes_encode|]. split.
  - subst. intros He. apply (f_equal (fun l => take 4 (drop 12 l))) in He.
    unfold frame_bytes in He. cbn [encode Response_Encode] in He. rewrite <-!app_assoc in He.
    rewrite !frame_num_tags in He. done.
  - rewrite (length_encode_srep _ (rw_srep _ Hw')), (length_encode_srep08 _ (r8_srep _ Hw)). lia.
Qed.
End client.

(** ** Examples: a network that remembers the last request and answers with nothing *)

Definition sample_transport : ClientTransport (W := bytes) :=
  mkTransport (fun bs _ _ => (Ok (length bs), bs)) (fun buf w => (Ok (0, V4 0 2002), buf, w)).
Definition sample_random (w : bytes) : bytes * bytes := (zeroes 32, w).
Definition sample_client (v : ProtocolVersion) (key : option PublicKey) : Client (W := bytes) :=
  mkClient (V4 0 2002) "example"%string sample_transport
    (match key with Some k => new_with_key k | None => validator_new end) key
    (match key with Some k => Some (mkSrv (sha512_32 (HASH_PREFIX_SRV ++ fixed_bytes k))) | None => None end) v.

Lemma sample_client_ok v key : match key with Some k => length (fixed_bytes k) = 32 | None => True end ->
  client_ok (sample_client v key).
Proof.
  intros Hk. split; [split|].
  - done.
  - intros buf w. cbn. lia.
  - by destruct key.
Qed.

(** A network that carries each request to the sample server and its answer back; the
    random source counts. *)
Definition answering_transport : ClientTransport (W := nat * bytes) :=
  mkTransport (fun bs _ w => (Ok (length bs), (w.1, bs)))
    (fun buf w => let frame := take (length buf) (sample_answer 1700000000 RfcDraft14 w.2) in
       (Ok (length frame, V4 0 2002), frame ++ drop (length frame) buf, w)).
Definition counting_random (w : nat * bytes) : bytes * (nat * bytes) :=
  (replicate 32 (default Byte.x00 (Byte.of_nat w.1)), (w.1 + 1, w.2)).
Definition answered_client : Client (W := nat * bytes) :=
  mkClient (V4 0 2002) "example"%string answering_transport (new_with_key (identity_key sample_seed))
    (Some (identity_key sample_seed)) (Some (mkSrv (sha512_32 (HASH_PREFIX_SRV ++ fixed_bytes (identity_key sample_seed)))))
    RfcDraft14.

Lemma counting_random_length w : length (counting_random w).1 = 32.
Proof. apply length_replicate. Qed.

Lemma answered_client_ok : client_ok answered_client.
Proof.
  split; [split|]; [done| |by split_and!].
  intros buf w. unfold answered_client, answering_transport. cbn [transport_recv client_transport].
  set (frame := take _ _). assert (length frame <= length buf) by (unfold frame; rewrite length_take; lia).
  rewrite length_app, length_drop. lia.
Qed.

Lemma answered_query :
  match (query_raw counting_random answered_client (7, [])).1 with
  | Ok (Ok m, _, _) => midpoint m = 1700000000%Z
  | _ => False
  end.
Proof. vm_compute. reflexivity. Qed.

Lemma query_raw_total_witness :
  exists m request_bytes response_bytes w',
    query_raw counting_random answered_client (7, []) = (Ok (Ok m, request_bytes, response_bytes), w') /\
    request_bytes = frame_bytes (encode (make_request answered_client (mkFixed (replicate 32 Byte.x07)))) /\
    midpoint m = 1700000000%Z.
Proof.
  pose proof answered_query as Hgood.
  destruct (query_raw_total (CL := toy_crypto_laws) counting_random counting_random_length answered_client (7, []) answered_client_ok)
    as [_ H].
  destruct (transport_send _ _ _ _) as [[sent|e|] w1]; [|rewrite H in Hgood; destruct Hgood|destruct H].
  destruct (sent =? 1024); [|rewrite H in Hgood; destruct Hgood].
  destruct (transport_recv _ _ w1) as [[[[count src]|e|] buf] w2]; [|rewrite H in Hgood; destruct Hgood|destruct H].
  destruct H as (H & _). rewrite H in Hgood. cbn [fst] in Hgood.
  destruct (validate_response _ _ _ _) as [m|e|]; [|destruct Hgood|destruct Hgood].
  exists m, (frame_bytes (encode (make_request answered_client (mkFixed (replicate 32 Byte.x07))))), (take count buf), w2.
  split; [exact H|]. split; [reflexivity|exact Hgood].
Defined.

(** A client of either version of a draft-14 server. *)
Lemma query_measures_server_time_witness :
  let c v := sample_client v (Some (identity_key sample_seed)) in
  let request v := make_request (c v) (mkFixed (zeroes 32)) in
  let answer v frame := validate_response (c v) (request v) (frame_bytes (encode (request v))) frame in
  (exists m frame, answer RfcDraft14 frame = Ok m /\ midpoint m = 1700000000%Z) /\
  exists e frame, answer RfcDraft08 frame = Err (BadResponse e).
Proof.
  intros c request answer.
  assert (forall v, exists frame,
    (v = RfcDraft14 -> exists m, answer v frame = Ok m /\ midpoint m = 1700000000%Z) /\
    (v <> RfcDraft14 -> exists e, answer v frame = Err (BadResponse e))) as H.
  { intros v. assert (client_ok (c v)) as Hc by (by apply sample_client_ok).
    destruct (make_request_wf (CL := toy_crypto_laws) (c v) (mkFixed (zeroes 32)) Hc eq_refl) as [Hw Hsz].
    pose proof (own_request_accepted (request v) Hw Hsz) as Ha.
    destruct (sample_pending RfcDraft14 _ (request v) Ha) as (h & Hinv & Hv & Hww & Hroom & Ht & Hwin).
    destruct (query_measures_server_time (CL := toy_crypto_laws) (profile := false) (E := unit) sample_seed
      (sample_world 1700000000) h [mkAccepted (frame_bytes (encode (request v))) (request v) 7] 0 7 (c v) (mkFixed (zeroes 32))
      Hc eq_refl eq_refl Hinv Hww Hroom eq_refl) as (h' & frames & frame & _ & _ & Hok & _ & Hno).
    exists frame. rewrite Ht, Hv in *. split; [intros ->; exact (Hok eq_refl Hwin)|exact Hno]. }
  split.
  - destruct (H RfcDraft14) as (frame & Hok & _). destruct (Hok eq_refl) as (m & Hm). exists m, frame. exact Hm.
  - destruct (H RfcDraft08) as (frame & _ & Hno). destruct (Hno ltac:(discriminate)) as (e & He). exists e, frame. exact He.
Defined.

Lemma answered_sequence :
  match (sequence_run counting_random (mkSequence [answered_client; answered_client; answered_client]) 2 (7, [])).1 with
  | Ok ms => length ms = 6
  | _ => False
  end.
Proof. vm_compute. reflexivity. Qed.

(** The run succeeds, with six measurements. *)
Lemma sequence_run_chained_witness :
  exists ms w', let c := answered_client in
    sequence_run counting_random (mkSequence [c; c; c]) 2 (7, []) = (Ok ms, w') /\ length ms = 6 /\
    chain_from counting_random (7, []) None [c; c; c; c; c; c] ms w' /\
    exists m, head ms = Some m /\ req_nonc (meas_request m) = mkFixed (replicate 32 Byte.x07).
Proof.
  pose proof answered_sequence as Hl. set (c := answered_client) in *.
  assert (usable c) as Hu by (split; [exact answered_client_ok|discriminate]).
  pose proof (sequence_run_chained (CL := toy_crypto_laws) counting_random counting_random_length (mkSequence [c; c; c]) 2 (7, [])) as H.
  destruct (sequence_run counting_random (mkSequence [c; c; c]) 2 (7, [])) as [[ms|e|] w'] eqn:Hrun; [|destruct Hl|destruct Hl].
  exists ms, w'. split; [exact Hrun|]. split; [exact Hl|]. cbn [fst] in Hl.
  assert (chain_from counting_random (7, []) None [c; c; c; c; c; c] ms w') as Hch.
  { apply H. repeat (apply Forall_cons; split; [exact Hu|]). by apply Forall_nil. }
  split; [exact Hch|]. destruct ms as [|m ms]; [discriminate Hl|]. exists m. split; [reflexivity|].
  destruct Hch as (_ & _ & w1 & [Hd _] & _). exact Hd.
Defined.

Lemma draft08_response_reencoded_witness :
  let c := sample_client RfcDraft08 (Some (identity_key sample_seed)) in
  let bs := sample_answer 1700000000 RfcDraft08 (sample_datagram RfcDraft08) in
  exists response frame, parse_and_validate c (sample_datagram RfcDraft08) bs = Ok response /\
    as_frame_bytes response = Ok frame /\ frame <> bs.
Proof.
  intros c bs.
  assert (match parse_and_validate c (sample_datagram RfcDraft08) bs with Ok _ => True | _ => False end) as Hok by (vm_compute; exact I).
  destruct (parse_and_validate c (sample_datagram RfcDraft08) bs) as [response|e|] eqn:Hp; [|destruct Hok|destruct Hok].
  destruct (draft08_response_reencoded (CL := toy_crypto_laws) c (sample_datagram RfcDraft08) bs response eq_refl Hp)
    as (r & cur & frame & _ & _ & Hfr & Hne & _).
  exists response, frame. split; [reflexivity|]. split; [exact Hfr|exact Hne].
Defined.

Lemma sequence_preconditions_witness :
  MeasurementSequence_new [sample_client RfcDraft14 None] = Err InvalidConfiguration /\
  sequence_run sample_random (mkSequence [sample_client RfcDraft14 None]) 2 [] = (Err InvalidConfiguration, []).
Proof.
  destruct (sequence_preconditions sample_random [sample_client RfcDraft14 None] 2 []) as [H1 H2].
  split; [exact H1|]. apply H2. exists (sample_client RfcDraft14 None). split; [by left|done].
Defined.
