(* ===== verification/Transport.v ===== *)
(** * The UDP transport (crates/roughenough-client/src/transport.rs, and [Client::new]
    and [query] of client.rs)

    The sockets of [std::net] and the resolver are the class [Net]; the implementation
    of the trait [ClientTransport] by a socket is proved to keep to the contract that
    the client's theorems ask of a transport. *)
From stdpp Require Import pretty.
From S2P Require Import Prelude Errors Cursor FixedTags Versions Request Response Crypto Metrics Validation Measurement.
From S2P Require Import Encoding Client.

(** [std::io::ErrorKind], of which one kind is told apart. *)
Inductive ErrorKind : Type := WouldBlock | OtherKind.

Class Net (W : Type) := {
  (** the addresses of "host:port", or an error *)
  to_socket_addrs : string -> W -> option (list SocketAddr) * W;
  UdpSocket : Type;
  udp_bind : string -> W -> option UdpSocket * W;
  udp_set_read_timeout : UdpSocket -> option Duration -> W -> bool * W;
  udp_set_write_timeout : UdpSocket -> option Duration -> W -> bool * W;
  udp_send_to : UdpSocket -> bytes -> SocketAddr -> W -> option nat * W;
  udp_recv_from : UdpSocket -> bytes -> W -> (ErrorKind + nat * SocketAddr) * bytes * W;
  (** [tracing::enabled!(Level::TRACE)] *)
  trace_enabled : bool;
}.

(** What the documentation of [std::net::UdpSocket] says: a datagram is received into the
    buffer, and a timeout of zero is an error. *)
Class NetLaws {W : Type} (N : Net W) : Prop := {
  recv_from_ok : forall s buf w n addr buf' w',
    udp_recv_from s buf w = (inr (n, addr), buf', w') -> length buf' = length buf /\ n <= length buf;
  zero_read_timeout : forall s d w, duration_is_zero d = true -> (udp_set_read_timeout s (Some d) w).1 = false;
}.

Section transport.
Context {W : Type} {N : Net W}.

Abbreviation IO := (io W ClientError).

(** A call whose failure is an [io::Error]. *)
Definition or_io {A} (f : W -> option A * W) : IO A := fun w =>
  match f w with (Some a, w') => (Ok a, w') | (None, w') => (Err IoError, w') end.
Definition succeeds (f : W -> bool * W) : IO unit := fun w =>
  match f w with (true, w') => (Ok tt, w') | (false, w') => (Err IoError, w') end.

(** The text that is logged is not kept. *)
Definition trace_dump (bs : bytes) : res ClientError unit :=
  if trace_enabled then _ ← hexdump vec_write bs EmptyString; Ok tt else Ok tt.

Definition bind_addr (target : SocketAddr) : string :=
  match target with V4 _ _ => "0.0.0.0:0" | V6 _ _ _ _ => "[::]:0" end.

Definition UdpTransport_new (timeout : Duration) (target : SocketAddr) : IO UdpSocket :=
  socket ← or_io (udp_bind (bind_addr target));
  _ ← succeeds (udp_set_read_timeout socket (Some timeout));
  _ ← succeeds (udp_set_write_timeout socket (Some timeout));
  mret socket.

Definition UdpTransport_send (socket : UdpSocket) (bs : bytes) (addr : SocketAddr) : IO nat :=
  _ ← lift (trace_dump bs);
  or_io (udp_send_to socket bs addr).

Definition UdpTransport_recv (socket : UdpSocket) (buf : bytes) (w : W)
    : res ClientError (nat * SocketAddr) * bytes * W :=
  match udp_recv_from socket buf w with
  | (inr (nbytes, addr), buf', w') =>
      ((received ← sub_slice buf' 0 nbytes; _ ← trace_dump received; Ok (nbytes, addr)), buf', w')
  | (inl WouldBlock, buf', w') => (Err ServerTimeout, buf', w')
  | (inl OtherKind, buf', w') => (Err IoError, buf', w')
  end.

(** [impl ClientTransport for UdpTransport], and its boxing in [build]. *)
Definition UdpTransport_ClientTransport (socket : UdpSocket) : ClientTransport (W := W) :=
  mkTransport (UdpTransport_send socket) (UdpTransport_recv socket).
Definition open_udp (timeout : Duration) (target : SocketAddr) : IO (ClientTransport (W := W)) :=
  socket ← UdpTransport_new timeout target;
  mret (UdpTransport_ClientTransport socket).

Definition host_port (host : string) (port : Z) : string := host +:+ ":" +:+ pretty port.

Context {C : CryptoLib} {D : DataEncoding} (random_bytes : W -> bytes * W).

Definition Client_new (hostname : string) (port : Z) (pub_key : option string) : IO (Client (W := W)) :=
  addrs ← or_io (to_socket_addrs (host_port hostname port));
  sock_addr ← lift (ok_or (head addrs) DnsLookupFailed);
  let builder := cb_set_hostname hostname (ClientBuilder_new sock_addr) in
  builder ← match pub_key with
            | Some encoded_key =>
                pub_key ← lift (map_err (fun _ => BadPublicKey) (try_decode_key encoded_key));
                mret (cb_set_public_key pub_key builder)
            | None => mret builder
            end;
  client_build open_udp builder.

(** The function [query] at the top of client.rs. *)
Definition query_server (hostname : string) (port : Z) (key : option string) : IO Measurement :=
  client ← Client_new hostname port key;
  query random_bytes client.

(** ** The contract of a transport *)

Lemma dump_total {A} (m : string -> res ClientError string) (k : string -> res ClientError A) s :
  (exists t, m s = Ok t) -> (forall t, exists a, k t = Ok a) -> exists a, (m s ≫= k) = Ok a.
Proof. intros [t ->] Hk. apply Hk. Qed.

Lemma hexdump_total bs : forall s, exists t, hexdump (E := ClientError) vec_write bs s = Ok t.
Proof.
  assert (forall chunk i s, exists t, dump_hex (E := ClientError) vec_write i chunk s = Ok t) as Hhex.
  { induction chunk as [|b chunk IH]; intros i s; [by eexists|]. cbn. destruct (_ =? 1); cbn; apply IH. }
  assert (forall n i len s, exists t, dump_padding (E := ClientError) vec_write n i len s = Ok t) as Hpad.
  { induction n as [|n IH]; intros i len s; [by eexists|]. cbn. destruct (_ =? 1); cbn; apply IH. }
  assert (forall chunk s, exists t, dump_ascii (E := ClientError) vec_write chunk s = Ok t) as Hasc.
  { induction chunk as [|b chunk IH]; intros s; [by eexists|]. cbn. apply IH. }
  assert (forall offset chunk s, exists t, dump_line (E := ClientError) vec_write offset chunk s = Ok t) as Hline.
  { intros offset chunk s. unfold dump_line. cbn [vec_write mbind res_bind].
    apply dump_total; [apply Hhex|intros t1]. apply dump_total; [apply Hpad|intros t2].
    cbn [vec_write mbind res_bind]. apply dump_total; [apply Hasc|intros t3]. by eexists. }
  unfold hexdump. generalize (length bs) as fuel. generalize 0 as offset. intros offset fuel. revert offset bs.
  induction fuel as [|fuel IH]; intros offset bs s; [by eexists|].
  destruct bs as [|b bs]; [by eexists|]. cbn [dump_lines].
  apply dump_total; [apply Hline|intros t; apply IH].
Qed.

(** Tracing changes nothing. *)
Lemma trace_dump_ok bs : trace_dump bs = Ok tt.
Proof. unfold trace_dump. destruct trace_enabled; [|done]. by destruct (hexdump_total bs EmptyString) as [t ->]. Qed.

Context {NL : NetLaws N}.

(** A socket keeps to the contract of [ClientTransport]. *)
Lemma udp_transport_ok socket : transport_ok (UdpTransport_ClientTransport socket).
Proof using NL.
  split.
  - intros bs addr w. cbn. unfold UdpTransport_send, mbind, io_bind, lift, or_io. rewrite trace_dump_ok.
    by destruct (udp_send_to socket bs addr w) as [[n|] w'].
  - intros buf w. cbn. unfold UdpTransport_recv.
    destruct (udp_recv_from socket buf w) as [[[[]|[n addr]] buf'] w'] eqn:Hr; [done|done|].
    apply recv_from_ok in Hr as [Hl Hn]. unfold sub_slice.
    destruct (Nat.leb_spec n (length buf')); [|lia]. cbn [Nat.leb andb mbind res_bind]. by rewrite trace_dump_ok.
Qed.

Lemma open_udp_ok timeout addr w t w' : open_udp timeout addr w = (Ok t, w') -> transport_ok t.
Proof using NL.
  unfold open_udp, mbind, io_bind, mret, io_ret. destruct (UdpTransport_new timeout addr w) as [[s|e|] w1]; [|done|done].
  intros [= <- _]. apply udp_transport_ok.
Qed.

Lemma open_udp_zero timeout addr w : duration_is_zero timeout = true -> (open_udp timeout addr w).1 = Err IoError.
Proof using NL.
  intros Hz. unfold open_udp, UdpTransport_new, mbind, io_bind, mret, io_ret, or_io, succeeds.
  destruct (udp_bind _ w) as [[s|] w1]; [|done]. pose proof (zero_read_timeout s timeout w1 Hz) as Hf.
  destruct (udp_set_read_timeout s (Some timeout) w1) as [ok w2]. cbn in Hf. by subst ok.
Qed.

Context {CL : CryptoLaws C} (random_length : forall w, length (random_bytes w).1 = 32).

Lemma try_decode_key_length text key : try_decode_key text = Ok key -> length (fixed_bytes key) = 32.
Proof using Type.
  unfold try_decode_key. destruct (try_decode text) as [bs|e|]; [|done|done]. cbn.
  destruct (Nat.eqb_spec (length bs) 32) as [Hl|]; [|done]. cbn. rewrite (PublicKey_from_ok bs Hl). by intros [= <-].
Qed.

Lemma try_decode_key_total text : try_decode_key text <> Panic.
Proof using Type.
  unfold try_decode_key. destruct (try_decode text) as [bs|e|] eqn:Hd; [|done|].
  - cbn. destruct (Nat.eqb_spec (length bs) 32) as [Hl|]; [|done]. cbn. by rewrite (PublicKey_from_ok bs Hl).
  - revert Hd. unfold try_decode, of_sum. by destruct (or_else _ _).
Qed.

(** What a client made from a text key has: the key, if one was given. *)
Definition key_of (text : option string) (c : Client (W := W)) : Prop :=
  match text with
  | Some t => exists key, try_decode_key t = Ok key /\ client_public_key c = Some key
  | None => client_public_key c = None
  end.

(** A client that is built over UDP can be used; it panics only when no socket can be opened. *)
Lemma client_build_udp b w :
  cb_transport b = None ->
  match cb_public_key b with Some key => length (fixed_bytes key) = 32 | None => True end ->
  match client_build open_udp b w with
  | (Ok c, w') => client_ok c /\ client_public_key c = cb_public_key b /\
      client_protocol_version c = cb_protocol_version b /\ client_server c = cb_server b /\
      client_hostname c = cb_hostname b /\
      open_udp (default DEFAULT_TIMEOUT (cb_timeout b)) (cb_server b) w = (Ok (client_transport c), w')
  | (Err _, _) => False
  | (Panic, _) => forall t, (open_udp (default DEFAULT_TIMEOUT (cb_timeout b)) (cb_server b) w).1 <> Ok t
  end.
Proof using CL NL.
  intros Ht Hk. pose proof (client_build_spec open_udp b w open_udp_ok) as H. rewrite Ht in H.
  specialize (H I Hk). destruct (client_build open_udp b w) as [[c|e|] w']; [done|done|]. by destruct H.
Qed.

Lemma Client_new_spec hostname port pub_key w :
  match Client_new hostname port pub_key w with
  | (Ok c, _) => client_ok c /\ key_of pub_key c /\ client_protocol_version c = RfcDraft14
  | (Err _, _) => True
  | (Panic, _) => exists addr w1, forall t, (open_udp DEFAULT_TIMEOUT addr w1).1 <> Ok t
  end.
Proof using CL NL.
  unfold Client_new, mbind, io_bind, lift, mret, io_ret, or_io, ok_or.
  destruct (to_socket_addrs _ w) as [[[|addr addrs]|] w1]; [done| |done]. cbn [head].
  destruct pub_key as [text|].
  - destruct (try_decode_key text) as [key|e|] eqn:Hkey; cbn [map_err]; [|done|].
    2: { exfalso. revert Hkey. apply try_decode_key_total. }
    pose proof (client_build_udp (cb_set_public_key key (cb_set_hostname hostname (ClientBuilder_new addr))) w1 eq_refl
      (try_decode_key_length _ _ Hkey)) as H.
    destruct (client_build open_udp _ w1) as [[c|e|] w2]; [|done|by exists addr, w1].
    destruct H as (Hc & Hp & Hv & _). split; [done|]. split; [by exists key|done].
  - pose proof (client_build_udp (cb_set_hostname hostname (ClientBuilder_new addr)) w1 eq_refl I) as H.
    destruct (client_build open_udp _ w1) as [[c|e|] w2]; [|done|by exists addr, w1].
    destruct H as (Hc & Hp & Hv & _). by split.
Qed.

(** The library's [query]: what it returns was measured by a draft-14 client with the
    given key, and it panics only when no socket can be opened. *)
Theorem query_server_measured hostname port key w :
  match query_server hostname port key w with
  | (Ok m, _) => exists c, client_ok c /\ key_of key c /\ client_protocol_version c = RfcDraft14 /\ measured_by c m
  | (Err _, _) => True
  | (Panic, _) => exists addr w1, forall t, (open_udp DEFAULT_TIMEOUT addr w1).1 <> Ok t
  end.
Proof using CL NL random_length.
  unfold query_server, query, mbind, io_bind, lift. pose proof (Client_new_spec hostname port key w) as Hn.
  destruct (Client_new hostname port key w) as [[c|e|] w1]; [|done|done]. destruct Hn as (Hc & Hk & Hv).
  pose proof (query_raw_spec random_bytes random_length c w1 Hc) as Hq.
  destruct (query_raw random_bytes c w1) as [[[[out rq] rs]|e|] w2]; [|done|done]. cbn [fst].
  destruct out as [m|e|]; [|done|].
  - exists c. split_and!; try done. by eapply query_outcome_measured.
  - by destruct Hq as (nonce & _ & _ & _ & _ & _ & Hp).
Qed.
End transport.
