(* ===== verification/LoadGen.v ===== *)
(** * The load generator (crates/roughenough-integration/src/load_gen.rs)

    Threads that send the same request over and over and count what happens in
    shared atomic counters, and one that logs the counters every two seconds and
    resets them.  An atomic operation is one step, so that the interleavings of
    the threads are the runs of [load_step]; the order in which relaxed operations
    on different counters become visible is that of the program.  Sockets, the
    clock and the parser of addresses are the class [LoadHost]. *)
From stdpp Require Import strings relations sorting.
From S2P Require Import Prelude Text Errors Cursor Wire FixedTags Versions Request Crypto Encoding Floats Transport.

Inductive RecvError : Type := TimedOut | RecvWouldBlock | OtherRecvError.

Class LoadHost (W : Type) := {
  LoadSocket : Type;
  load_bind : string -> W -> option LoadSocket * W;
  load_set_read_timeout : LoadSocket -> Duration -> W -> bool * W;
  load_send_to : LoadSocket -> bytes -> SocketAddr -> W -> option nat * W;
  (** the outcome of [recv_from] with a buffer of the given length *)
  load_recv_from : LoadSocket -> nat -> W -> (RecvError + nat) * W;
  (** [aws_lc_rs::rand::fill] on 32 bytes *)
  load_random_bytes : W -> bytes * W;
  (** the milliseconds since the epoch *)
  load_millis : W -> Z * W;
  (** [str::parse::<SocketAddr>] *)
  parse_socket_addr : string -> option SocketAddr;
}.

Record LoadArgs := mkLoadArgs {
  la_hostname : string;
  la_port : Z;
  la_num_requests : nat;
  la_num_workers : nat;
  la_public_key : option string;
}.

(** ** The counters *)

Record Stats := mkStats {
  st_num_sent : nat;
  st_bytes_sent : nat;
  st_num_responses : nat;
  st_bytes_received : nat;
  st_num_timeouts : nat;
  st_num_errors : nat;
  st_last_update : Z;
}.
Definition Stats_default : Stats := mkStats 0 0 0 0 0 0 0.

Inductive Counter : Type := NumSent | BytesSent | NumResponses | BytesReceived | NumTimeouts | NumErrors.
#[export] Instance Counter_eq_dec : EqDecision Counter.
Proof. solve_decision. Defined.

Definition st_load (c : Counter) (s : Stats) : nat :=
  match c with
  | NumSent => st_num_sent s | BytesSent => st_bytes_sent s
  | NumResponses => st_num_responses s | BytesReceived => st_bytes_received s
  | NumTimeouts => st_num_timeouts s | NumErrors => st_num_errors s
  end.
Definition st_store (c : Counter) (n : nat) (s : Stats) : Stats :=
  let '(mkStats a b r d t e u) := s in
  match c with
  | NumSent => mkStats n b r d t e u | BytesSent => mkStats a n r d t e u
  | NumResponses => mkStats a b n d t e u | BytesReceived => mkStats a b r n t e u
  | NumTimeouts => mkStats a b r d n e u | NumErrors => mkStats a b r d t n u
  end.
Definition st_store_last_update (u : Z) (s : Stats) : Stats :=
  mkStats (st_num_sent s) (st_bytes_sent s) (st_num_responses s) (st_bytes_received s) (st_num_timeouts s)
    (st_num_errors s) u.
Definition fetch_add (c : Counter) (n : nat) (s : Stats) : Stats := st_store c (st_load c s + n) s.

Section load_gen.
Context {P : Profile} {D : DataEncoding} {W : Type} {LH : LoadHost W}.

(** ** Keys, decoded by copies of the functions in roughenough-common *)

Definition load_try_decode (encoded_value : string) : res DecodeError bytes :=
  let s := str_bytes encoded_value in
  of_sum (or_else (or_else (or_else (or_else (or_else
    (decode HEXLOWER s) (decode HEXUPPER s)) (decode BASE64 s)) (decode BASE64_NOPAD s))
    (decode BASE64URL s)) (decode BASE64URL_NOPAD s)).
Definition load_try_decode_key (encoded_key : string) : res DecodeError PublicKey :=
  key ← load_try_decode encoded_key;
  if negb (length key =? 32) then Err (mkDecodeError (length key) Length)
  else PublicKey_from key.

(** The copy tries base64 before base64url, and decodes the same. *)
Lemma load_try_decode_agrees {DL : DataEncodingLaws D} s x : load_try_decode s = Ok x <-> try_decode s = Ok x.
Proof using Type.
  rewrite try_decode_spec. apply (decode_order_spec [BASE64; BASE64_NOPAD; BASE64URL; BASE64URL_NOPAD]).
  intros d. unfold b64_decoders. rewrite !elem_of_cons. tauto.
Qed.

(** ** Workers *)

Record Task := mkTask {
  tk_source : LoadSocket;
  tk_request_bytes : bytes;
  tk_target_addr : SocketAddr;
}.

(** Where a thread is in [run_worker]: at the head of the loop, or with additions
    to make, after the send or (true) after the receive. *)
Inductive LoadWorker : Type :=
| NotStarted
| LoopHead (t : Task) (i : nat)
| Adding (t : Task) (i : nat) (adds : list (Counter * nat)) (received : bool)
| Finished
| Died (i : nat).

Definition some_or_die {A} (f : W -> option A * W) : io W unit A := fun w =>
  match f w with (Some a, w') => (Ok a, w') | (None, w') => (Panic, w') end.

(** [run_worker] up to its loop. *)
Definition worker_task_of (args : LoadArgs) : io W unit Task :=
  source ← some_or_die (load_bind "127.0.0.1:0");
  _ ← some_or_die (fun w => let (ok, w') := load_set_read_timeout source (mkDuration 0 50000000) w in
                            (if ok then Some tt else None, w'));
  random ← (fun w => let (r, w') := load_random_bytes w in (Ok r, w')) : io W unit bytes;
  nonce ← lift (Nonce_from random);
  request_bytes ← lift (expect (as_frame_bytes (new_draft14 nonce)));
  target_addr ← some_or_die (fun w => (parse_socket_addr (host_port (la_hostname args) (la_port args)), w));
  mret (mkTask source request_bytes target_addr).

Definition recv_adds (r : RecvError + nat) : list (Counter * nat) :=
  match r with
  | inr n => [(NumResponses, 1); (BytesReceived, n)]
  | inl TimedOut | inl RecvWouldBlock => [(NumTimeouts, 1)]
  | inl OtherRecvError => [(NumErrors, 1)]
  end.

(** A step of a worker, with the addition it makes; [None] when it has ended. *)
Definition run_worker (args : LoadArgs) (lw : LoadWorker) (s : Stats) (w : W)
    : option (LoadWorker * Stats * option (Counter * nat) * W) :=
  match lw with
  | NotStarted =>
      match worker_task_of args w with
      | (Ok t, w') => Some (LoopHead t 0, s, None, w')
      | (_, w') => Some (Died 0, s, None, w')
      end
  | LoopHead t i =>
      if i <? la_num_requests args then
        match load_send_to (tk_source t) (tk_request_bytes t) (tk_target_addr t) w with
        | (Some n, w') => Some (Adding t i [(NumSent, 1); (BytesSent, n)] false, s, None, w')
        | (None, w') => Some (Died i, s, None, w')
        end
      else Some (Finished, s, None, w)
  | Adding t i ((c, n) :: adds) received => Some (Adding t i adds received, fetch_add c n s, Some (c, n), w)
  | Adding t i [] false =>
      let (r, w') := load_recv_from (tk_source t) 1024 w in Some (Adding t i (recv_adds r) true, s, None, w')
  | Adding t i [] true => Some (LoopHead t (S i), s, None, w)
  | Finished | Died _ => None
  end.

(** ** The display loop *)

Record LoadReport := mkLoadReport {
  lr_counts : list (Counter * nat);
  lr_elapsed_secs : f64;
  lr_rates : list f64;
}.

(** Where the thread is in [display_loop]: loading the counters, resetting them
    (with the time that it loaded), or about to read the clock. *)
Inductive Display : Type :=
| Loading (todo : list Counter) (seen : list (Counter * nat))
| Resetting (todo : list Counter) (seen : list (Counter * nat)) (last_update : Z)
| Timing (seen : list (Counter * nat)) (last_update : Z)
| DisplayDied (seen : list (Counter * nat)).

Definition load_order : list Counter := [NumSent; BytesSent; NumResponses; BytesReceived; NumTimeouts; NumErrors].
(** [reset] *)
Definition reset_order : list Counter := [NumSent; BytesSent; NumResponses; BytesReceived; NumTimeouts].
Definition loop_top : Display := Loading load_order [].

Definition seen_count (c : Counter) (seen : list (Counter * nat)) : nat :=
  match List.find (fun x => bool_decide (x.1 = c)) seen with Some x => x.2 | None => 0 end.
Definition load_report (seen : list (Counter * nat)) (millis : Z) : LoadReport :=
  let elapsed_secs := f64_div (f64_of_Z millis) (f64_of_Z 1000) in
  let per_sec c := f64_div (f64_of_nat (seen_count c seen)) elapsed_secs in
  let mib x := f64_div (f64_div x (f64_of_Z 1024)) (f64_of_Z 1024) in
  mkLoadReport seen elapsed_secs
    [per_sec NumSent; mib (per_sec BytesSent); per_sec NumResponses; mib (per_sec BytesReceived);
     per_sec NumErrors; per_sec NumTimeouts].

(** What has happened: an addition of a worker's, with whether it came after the
    display loop loaded the counter and before it reset it; a load of the display
    loop's; and a report that it logged. *)
Inductive LoadEvent : Type :=
| Added (i : nat) (c : Counter) (n : nat) (late : bool)
| Loaded (c : Counter) (n : nat)
| Reported (r : LoadReport).

Definition display_loop (d : Display) (s : Stats) (w : W) : option (Display * Stats * list LoadEvent * W) :=
  match d with
  | Loading (c :: todo) seen => Some (Loading todo (seen ++ [(c, st_load c s)]), s, [Loaded c (st_load c s)], w)
  | Loading [] seen => Some (Resetting reset_order seen (st_last_update s), s, [], w)
  | Resetting (c :: todo) seen last_update => Some (Resetting todo seen last_update, st_store c 0 s, [], w)
  | Resetting [] seen last_update => Some (Timing seen last_update, st_store_last_update 0 s, [], w)
  | Timing seen last_update =>
      let (now, w') := load_millis w in
      let s := st_store_last_update now s in
      match u64_sub (E := unit) now last_update with
      | Ok millis => Some (loop_top, s, [Reported (load_report seen millis)], w')
      | _ => Some (DisplayDied seen, s, [], w')
      end
  | DisplayDied _ => None
  end.

(** ** [main] and its threads *)

(** [Joining k]: the threads before the [k]th have been joined; the display loop
    is the last.  [LoadDied] is the panic of [join().unwrap()]. *)
Inductive LoadMain : Type := Joining (k : nat) | LoadDied | LoadEnded.

(** With what has happened so far, in order. *)
Record LoadTest := mkLoadTest {
  lt_stats : Stats;
  lt_world : W;
  lt_workers : list LoadWorker;
  lt_display : Display;
  lt_main : LoadMain;
  lt_log : list LoadEvent;
}.

Definition load_main (args : LoadArgs) (w : W) : res unit LoadTest :=
  _ ← match la_public_key args with
      | Some public_key => _ ← expect (load_try_decode_key public_key); Ok tt
      | None => Ok tt
      end;
  Ok (mkLoadTest Stats_default w (replicate (la_num_workers args) NotStarted) loop_top (Joining 0) []).

Definition load_join (workers : list LoadWorker) (d : Display) (k : nat) : option LoadMain :=
  match workers !! k with
  | Some Finished => Some (Joining (S k))
  | Some (Died _) => Some LoadDied
  | Some _ => None
  | None =>
      if k =? length workers then match d with DisplayDied _ => Some LoadDied | _ => None end
      else Some LoadEnded
  end.

(** The display loop has loaded [c] and not yet reset it, though it will. *)
Definition in_window (c : Counter) (d : Display) : bool :=
  match d with
  | Loading _ seen => bool_decide (c ∈ seen.*1) && bool_decide (c ∈ reset_order)
  | Resetting todo _ _ => bool_decide (c ∈ todo)
  | Timing _ _ | DisplayDied _ => false
  end.

Inductive Tid : Type := WorkerThread (i : nat) | DisplayThread | MainThread.

(** A turn of a thread, while the program runs. *)
Definition load_turn (args : LoadArgs) (t : LoadTest) (tid : Tid) : option LoadTest :=
  let '(mkLoadTest s w workers d m log) := t in
  match m with
  | Joining k =>
      match tid with
      | WorkerThread i =>
          lw ← workers !! i;
          r ← run_worker args lw s w;
          let '(lw', s', add, w') := r in
          Some (mkLoadTest s' w' (<[i := lw']> workers) d m
                  (log ++ match add with Some (c, n) => [Added i c n (in_window c d)] | None => [] end))
      | DisplayThread =>
          r ← display_loop d s w;
          let '(d', s', new, w') := r in
          Some (mkLoadTest s' w' workers d' m (log ++ new))
      | MainThread => m' ← load_join workers d k; Some (mkLoadTest s w workers d m' log)
      end
  | _ => None
  end.
Definition load_step (args : LoadArgs) (t t' : LoadTest) : Prop := exists tid, load_turn args t tid = Some t'.
Fixpoint load_run (args : LoadArgs) (t : LoadTest) (schedule : list Tid) : option LoadTest :=
  match schedule with
  | [] => Some t
  | tid :: schedule' => t' ← load_turn args t tid; load_run args t' schedule'
  end.
Lemma load_run_steps args schedule : forall t t', load_run args t schedule = Some t' -> rtc (load_step args) t t'.
Proof using Type.
  induction schedule as [|tid schedule IH]; intros t t'; cbn; [intros [= ->]; apply rtc_refl|].
  destruct (load_turn args t tid) as [t1|] eqn:Ht; [|done]. cbn. intros Hr. eapply rtc_l; [by exists tid|by apply IH].
Qed.

(** ** What is reported of what is counted *)

(** The additions to [c], and those of worker [i]; those that fall between its load
    and its reset; and what the reports show of it. *)
Definition total (c : Counter) (log : list LoadEvent) : nat :=
  sum_list_with (fun e => match e with Added _ c' n _ => if bool_decide (c' = c) then n else 0 | _ => 0 end) log.
Definition total_by (i : nat) (c : Counter) (log : list LoadEvent) : nat :=
  sum_list_with (fun e => match e with
    | Added j c' n _ => if (j =? i) && bool_decide (c' = c) then n else 0 | _ => 0 end) log.
Definition lost (c : Counter) (log : list LoadEvent) : nat :=
  sum_list_with (fun e => match e with Added _ c' n true => if bool_decide (c' = c) then n else 0 | _ => 0 end) log.
Definition reported (c : Counter) (log : list LoadEvent) : nat :=
  sum_list_with (fun e => match e with Reported r => seen_count c (lr_counts r) | _ => 0 end) log.

Lemma total_app c l1 l2 : total c (l1 ++ l2) = total c l1 + total c l2.
Proof using Type. apply sum_list_with_app. Qed.
Lemma total_by_app i c l1 l2 : total_by i c (l1 ++ l2) = total_by i c l1 + total_by i c l2.
Proof using Type. apply sum_list_with_app. Qed.
Lemma lost_app c l1 l2 : lost c (l1 ++ l2) = lost c l1 + lost c l2.
Proof using Type. apply sum_list_with_app. Qed.
Lemma reported_app c l1 l2 : reported c (l1 ++ l2) = reported c l1 + reported c l2.
Proof using Type. apply sum_list_with_app. Qed.

Definition seen_of (d : Display) : list (Counter * nat) :=
  match d with Loading _ seen | Resetting _ seen _ | Timing seen _ | DisplayDied seen => seen end.
(** What has been counted and not been reported yet. *)
Definition held (c : Counter) (d : Display) (s : Stats) : nat :=
  if in_window c d then seen_count c (seen_of d)
  else (match d with Loading _ _ => 0 | _ => seen_count c (seen_of d) end) + st_load c s.

Definition display_ok (d : Display) : Prop :=
  match d with
  | Loading todo seen => seen.*1 ++ todo = load_order
  | Resetting todo seen _ => seen.*1 = load_order /\ exists done, done ++ todo = reset_order
  | Timing seen _ | DisplayDied seen => seen.*1 = load_order
  end.

Lemma st_load_store c c' n s : st_load c (st_store c' n s) = if bool_decide (c' = c) then n else st_load c s.
Proof using Type. by destruct s, c, c'. Qed.

Lemma st_load_last_update c u s : st_load c (st_store_last_update u s) = st_load c s.
Proof using Type. by destruct c. Qed.

Lemma seen_count_app c seen c' n :
  seen_count c (seen ++ [(c', n)]) =
  if bool_decide (c ∈ seen.*1) then seen_count c seen else if bool_decide (c' = c) then n else 0.
Proof using Type.
  induction seen as [|[c1 n1] seen IH]; unfold seen_count in *; cbn.
  - rewrite (bool_decide_eq_false_2 (c ∈ [])) by apply not_elem_of_nil. by destruct (bool_decide_reflect (c' = c)).
  - destruct (bool_decide_reflect (c1 = c)) as [->|Hne].
    + by rewrite (bool_decide_eq_true_2 (c ∈ _)) by left.
    + rewrite IH. destruct (bool_decide_reflect (c ∈ seen.*1)) as [Hin|Hin].
      * by rewrite (bool_decide_eq_true_2 (c ∈ c1 :: _)) by by right.
      * rewrite (bool_decide_eq_false_2 (c ∈ c1 :: _)); [done|]. intros [->|?]%elem_of_cons; done.
Qed.

Lemma load_order_nodup : NoDup load_order.
Proof using Type. by apply (bool_decide_eq_true_1 (NoDup load_order)). Qed.
Lemma reset_order_nodup : NoDup reset_order.
Proof using Type. by apply (bool_decide_eq_true_1 (NoDup reset_order)). Qed.
Lemma reset_order_loaded c : c ∈ reset_order -> c ∈ load_order.
Proof using Type. unfold reset_order, load_order. rewrite !elem_of_cons. tauto. Qed.

(** A step of the display loop reports what it takes out. *)
Lemma display_step_held d s w d' s' new w' c : display_ok d -> c ∈ reset_order ->
  display_loop d s w = Some (d', s', new, w') ->
  display_ok d' /\ held c d s = reported c new + held c d' s'.
Proof using Type.
  intros Hd Hc. destruct d as [[|c0 todo] seen|[|c0 todo] seen last|seen last|seen]; cbn [display_loop]; [..|done].
  - intros [= <- <- <- <-]. cbn in Hd. rewrite app_nil_r in Hd. split; [split; [done|by exists []]|].
    unfold held, in_window, seen_of. rewrite Hd, !bool_decide_eq_true_2 by (done || by apply reset_order_loaded). done.
  - intros [= <- <- <- <-]. cbn in Hd. split; [cbn; by rewrite fmap_app, <-app_assoc|].
    pose proof load_order_nodup as Hnd. rewrite <-Hd in Hnd. apply NoDup_app in Hnd as (_ & Hnd & _).
    specialize (Hnd c). unfold held, in_window, seen_of. cbn [reported sum_list_with]. rewrite fmap_app, seen_count_app. cbn [fmap list_fmap fst].
    rewrite (bool_decide_eq_true_2 (c ∈ reset_order)), !andb_true_r by done.
    destruct (bool_decide_reflect (c ∈ seen.*1)) as [Hin|Hin].
    + rewrite bool_decide_eq_true_2 by (apply elem_of_app; by left). done.
    + destruct (bool_decide_reflect (c0 = c)) as [->|Hne].
      * rewrite bool_decide_eq_true_2 by (apply elem_of_app; right; by left). done.
      * rewrite bool_decide_eq_false_2; [done|]. rewrite elem_of_app, list_elem_of_singleton. intros [?|?]; congruence.
  - intros [= <- <- <- <-]. destruct Hd as [Hd _]. split; [done|]. unfold held, in_window, seen_of.
    rewrite bool_decide_eq_false_2 by apply not_elem_of_nil. by rewrite st_load_last_update.
  - intros [= <- <- <- <-]. destruct Hd as [Hd [pre Hpre]].
    split; [split; [done|exists (pre ++ [c0]); by rewrite <-app_assoc]|].
    pose proof reset_order_nodup as Hnd. rewrite <-Hpre in Hnd. apply NoDup_app in Hnd as (_ & _ & [Hc0 _]%NoDup_cons).
    unfold held, in_window, seen_of. rewrite st_load_store. cbn [reported sum_list_with].
    destruct (bool_decide_reflect (c0 = c)) as [->|Hne].
    + rewrite bool_decide_eq_true_2 by left. rewrite bool_decide_eq_false_2 by done. cbn. lia.
    + destruct (bool_decide_reflect (c ∈ todo)) as [Hin|Hin].
      * by rewrite bool_decide_eq_true_2 by by right.
      * rewrite bool_decide_eq_false_2; [done|]. intros [?|?]%elem_of_cons; congruence.
  - destruct (load_millis w) as [now w1]. destruct (u64_sub now last) as [millis|e|]; intros [= <- <- <- <-]; (split; [done|]);
      unfold held, in_window, seen_of, reported, loop_top; cbn [sum_list_with lr_counts load_report fmap list_fmap];
      rewrite ?(bool_decide_eq_false_2 (c ∈ [])) by apply not_elem_of_nil; cbn [andb];
      rewrite st_load_last_update; lia.
Qed.

(** ** What the workers count *)

Definition amount (c : Counter) (x : Counter * nat) : nat := if bool_decide (x.1 = c) then x.2 else 0.
Definition to_add (c : Counter) (adds : list (Counter * nat)) : nat := sum_list_with (amount c) adds.
(** A receive ends with a response, a timeout or an error. *)
Definition outcomes (f : Counter -> nat) : nat := f NumResponses + f NumTimeouts + f NumErrors.

Lemma amount_eq c k : amount c (c, k) = k.
Proof using Type. unfold amount. by rewrite bool_decide_eq_true_2. Qed.
Lemma amount_ne c c' k : c' <> c -> amount c (c', k) = 0.
Proof using Type. intros H. unfold amount. by rewrite bool_decide_eq_false_2. Qed.
Ltac count :=
  unfold outcomes, to_add in *; cbn [sum_list_with from_option recv_adds] in *;
  rewrite ?amount_eq, ?amount_ne by done; split_and?; (done || lia).

(** The requests that a worker has counted as sent, and the outcomes it has counted. *)
Definition sent_by (n : nat) (lw : LoadWorker) : nat :=
  match lw with
  | NotStarted => 0
  | LoopHead _ i | Died i => i
  | Adding _ i adds _ => S i - to_add NumSent adds
  | Finished => n
  end.
Definition ended_by (n : nat) (lw : LoadWorker) : nat :=
  match lw with
  | NotStarted => 0
  | LoopHead _ i | Died i | Adding _ i _ false => i
  | Adding _ i adds true => S i - outcomes (fun c => to_add c adds)
  | Finished => n
  end.

(** The worker sends one request, of the length that servers ask for. *)
Definition task_ok (t : Task) : Prop :=
  exists nonce, wf (A := FixedTag 32) nonce /\ tk_request_bytes t = frame_bytes (encode (new_draft14 nonce)) /\
    length (tk_request_bytes t) = 1024.
Definition worker_ok (n : nat) (lw : LoadWorker) : Prop :=
  match lw with
  | NotStarted | Finished => True
  | LoopHead t i => task_ok t /\ i <= n
  | Died i => i <= n
  | Adding t i adds received => task_ok t /\ i < n /\
      if received then to_add NumSent adds = 0 /\ outcomes (fun c => to_add c adds) <= 1
      else to_add NumSent adds <= 1 /\ outcomes (fun c => to_add c adds) = 0
  end.

Lemma worker_task_ok args w t w' : worker_task_of args w = (Ok t, w') -> task_ok t.
Proof using Type.
  unfold worker_task_of, some_or_die, mbind, io_bind, lift, mret, io_ret.
  destruct (load_bind _ w) as [[source|] w1]; [|done]. destruct (load_set_read_timeout _ _ w1) as [[|] w2]; [|done].
  destruct (load_random_bytes w2) as [random w3]. unfold Nonce_from, copy_from_slice.
  destruct (Nat.eqb_spec (length random) 32) as [Hl|]; [|done].
  assert (wf (A := FixedTag 32) (mkFixed random)) as Hn by done.
  destruct (new_request_wf (mkFixed random) (mkSrv (zeroes 32)) Hn) as (_ & [Hw Hsz] & _); [done|].
  rewrite (as_frame_bytes_encode _ Hw). cbn [expect].
  assert (length (frame_bytes (encode (new_draft14 (mkFixed random)))) = 1024) as Hlen
    by by rewrite length_frame_bytes, (length_encode_Request _ Hw), Hsz.
  remember (frame_bytes (encode (new_draft14 (mkFixed random)))) as bs eqn:Hbs.
  destruct (parse_socket_addr _) as [target|]; [|done]. intros [= <- _]. by exists (mkFixed random).
Qed.

(** A step of a worker counts what it does. *)
Lemma run_worker_counts args lw s w lw' s' add w' :
  run_worker args lw s w = Some (lw', s', add, w') -> worker_ok (la_num_requests args) lw ->
  let n := la_num_requests args in
  worker_ok n lw' /\
  sent_by n lw' = sent_by n lw + from_option (amount NumSent) 0 add /\
  ended_by n lw' = ended_by n lw + outcomes (fun c => from_option (amount c) 0 add) /\
  s' = match add with Some (c, k) => fetch_add c k s | None => s end.
Proof using Type.
  intros Hrun Hok. cbv zeta. destruct lw as [|t i|t i [|[c k] adds] [|]| |]; cbn [run_worker] in Hrun; try done.
  - destruct (worker_task_of args w) as [[t|e|] w1] eqn:Ht; injection Hrun as <- <- <- <-; split_and!; cbn [worker_ok sent_by ended_by]; try count.
    split; [by eapply worker_task_ok|lia].
  - destruct Hok as [Ht Hi]. destruct (Nat.ltb_spec i (la_num_requests args)).
    + destruct (load_send_to _ _ _ w) as [[k|] w1]; injection Hrun as <- <- <- <-; split_and!; cbn [worker_ok sent_by ended_by]; count.
    + injection Hrun as <- <- <- <-. split_and!; cbn [worker_ok sent_by ended_by]; count.
  - destruct Hok as (Ht & Hi & _). injection Hrun as <- <- <- <-. split_and!; cbn [worker_ok sent_by ended_by]; count.
  - destruct Hok as (Ht & Hi & _). destruct (load_recv_from _ _ w) as [r w1]. injection Hrun as <- <- <- <-.
    destruct r as [[| |]|k]; split_and!; cbn [worker_ok sent_by ended_by]; count.
  - destruct Hok as (Ht & Hi & H1 & H2). injection Hrun as <- <- <- <-. split_and!; cbn [worker_ok sent_by ended_by]; count.
  - destruct Hok as (Ht & Hi & H1 & H2). injection Hrun as <- <- <- <-. split_and!; cbn [worker_ok sent_by ended_by]; count.
Qed.

(** ** The errors, which are not reset *)

Definition not_report (e : LoadEvent) : Prop := match e with Reported _ => False | _ => True end.
(** The display loop loaded the errors since its last report, and found [n], all
    that were added before. *)
Definition loaded_errors (log : list LoadEvent) (n : nat) : Prop :=
  exists before after, log = before ++ Loaded NumErrors n :: after /\ Forall not_report after /\ n = total NumErrors before.
(** Every report shows the errors that were loaded since the one before it. *)
Definition reports_errors (log : list LoadEvent) : Prop := forall before r after,
  log = before ++ Reported r :: after -> loaded_errors before (seen_count NumErrors (lr_counts r)).
(** What the display loop has loaded of the errors. *)
Definition errors_ok (d : Display) (log : list LoadEvent) : Prop :=
  reports_errors log /\ (NumErrors ∈ (seen_of d).*1 -> loaded_errors log (seen_count NumErrors (seen_of d))).

Lemma errors_not_reset : NumErrors ∉ reset_order.
Proof using Type. by apply (bool_decide_eq_true_1 (NumErrors ∉ reset_order)). Qed.
Lemma errors_loaded : NumErrors ∈ load_order.
Proof using Type. by apply (bool_decide_eq_true_1 (NumErrors ∈ load_order)). Qed.

Lemma reports_errors_snoc log e : reports_errors log ->
  match e with Reported r => loaded_errors log (seen_count NumErrors (lr_counts r)) | _ => True end ->
  reports_errors (log ++ [e]).
Proof using Type.
  intros Hl He before r after. destruct after as [|x after _] using rev_ind.
  - intros [-> [= ->]]%app_inj_tail. exact He.
  - change (before ++ Reported r :: after ++ [x]) with (before ++ (Reported r :: after) ++ [x]). rewrite app_assoc.
    intros [-> _]%app_inj_tail. by eapply Hl.
Qed.

Lemma loaded_errors_snoc log e n : not_report e -> loaded_errors log n -> loaded_errors (log ++ [e]) n.
Proof using Type.
  intros He (before & after & -> & Ha & Hn). exists before, (after ++ [e]). rewrite <-app_assoc. split; [done|].
  split; [|done]. apply Forall_app. split; [done|by apply Forall_singleton].
Qed.

Lemma errors_ok_snoc d log e : not_report e -> errors_ok d log -> errors_ok d (log ++ [e]).
Proof using Type.
  intros He [Hr Hd]. split; [apply reports_errors_snoc; [done|by destruct e]|].
  intros Hin. apply loaded_errors_snoc; [done|by apply Hd].
Qed.

Lemma display_step_errors d s w d' s' new w' log : display_ok d -> errors_ok d log ->
  st_load NumErrors s = total NumErrors log -> display_loop d s w = Some (d', s', new, w') ->
  st_load NumErrors s' = st_load NumErrors s /\ total NumErrors new = 0 /\ errors_ok d' (log ++ new).
Proof using Type.
  intros Hd He Hs. destruct d as [[|c0 todo] seen|[|c0 todo] seen last|seen last|seen]; cbn [display_loop]; [..|done].
  - intros [= <- <- <- <-]. by rewrite app_nil_r.
  - intros [= <- <- <- <-]. split; [done|]. split; [done|].
    pose proof (errors_ok_snoc _ _ (Loaded c0 (st_load c0 s)) I He) as [Hr Hl]. split; [done|].
    cbn [seen_of]. rewrite fmap_app, seen_count_app. cbn [fmap list_fmap fst].
    destruct (bool_decide_reflect (NumErrors ∈ seen.*1)) as [Hin|Hin]; [intros _; by apply Hl|].
    intros [?|Hc]%elem_of_app; [done|]. apply list_elem_of_singleton in Hc as <-. rewrite bool_decide_eq_true_2 by done.
    exists log, []. by split_and!.
  - intros [= <- <- <- <-]. rewrite app_nil_r. split; [apply st_load_last_update|]. by split.
  - intros [= <- <- <- <-]. destruct Hd as [_ [pre Hpre]]. rewrite app_nil_r. split; [|by split].
    rewrite st_load_store, bool_decide_eq_false_2; [done|]. intros ->. apply errors_not_reset. rewrite <-Hpre.
    apply elem_of_app. right. by left.
  - assert (NumErrors ∈ seen.*1) as Hin by (rewrite Hd; apply errors_loaded). destruct He as [Hr Hl].
    destruct (load_millis w) as [now w1]. destruct (u64_sub now last) as [millis|e|]; intros [= <- <- <- <-];
      (split; [apply st_load_last_update|]); (split; [done|]); [|rewrite app_nil_r; by split..].
    split; [apply reports_errors_snoc; [done|]; by apply Hl|]. intros Hnil. by apply not_elem_of_nil in Hnil.
Qed.

(** ** The program *)

(** Each worker has counted what its place in its loop says. *)
Definition counted_by (n : nat) (log : list LoadEvent) (i : nat) (lw : LoadWorker) : Prop :=
  total_by i NumSent log = sent_by n lw /\ outcomes (fun c => total_by i c log) = ended_by n lw.

Record load_inv (args : LoadArgs) (t : LoadTest) : Prop := {
  lv_display : display_ok (lt_display t);
  lv_workers : length (lt_workers t) = la_num_workers args /\ Forall (worker_ok (la_num_requests args)) (lt_workers t);
  lv_held : forall c, c ∈ reset_order ->
    total c (lt_log t) = reported c (lt_log t) + held c (lt_display t) (lt_stats t) + lost c (lt_log t);
  lv_errors : st_load NumErrors (lt_stats t) = total NumErrors (lt_log t) /\ errors_ok (lt_display t) (lt_log t);
  lv_counted : forall i lw, lt_workers t !! i = Some lw -> counted_by (la_num_requests args) (lt_log t) i lw;
  lv_main : match lt_main t with Joining k => k <= length (lt_workers t) | LoadDied => True | LoadEnded => False end;
}.

Lemma load_main_inv args w t : load_main args w = Ok t -> load_inv args t.
Proof using Type.
  unfold load_main. destruct (match la_public_key args with Some _ => _ | None => _ end) as [u|e|]; [|done|done].
  cbn [mbind res_bind]. intros [= <-]. split; cbn [lt_display lt_workers lt_log lt_stats lt_main].
  - done.
  - split; [apply length_replicate|]. by apply Forall_replicate.
  - intros c _. unfold held, loop_top, in_window. cbn. rewrite bool_decide_eq_false_2 by apply not_elem_of_nil. by destruct c.
  - split; [done|]. split; [|intros Hnil; by apply not_elem_of_nil in Hnil]. intros [|? ?] r after; discriminate.
  - by intros i lw [-> _]%lookup_replicate.
  - lia.
Qed.

(** An addition of a worker. *)
Lemma fetch_add_held c c' n d s :
  held c d (fetch_add c' n s) = held c d s + (if bool_decide (c' = c) && negb (in_window c d) then n else 0).
Proof using Type.
  unfold held, fetch_add. rewrite st_load_store. destruct (in_window c d); cbn; [by rewrite andb_false_r|].
  rewrite andb_true_r. destruct (bool_decide_reflect (c' = c)) as [->|]; lia.
Qed.
Lemma total_added c i c' n late : total c [Added i c' n late] = amount c (c', n).
Proof using Type. unfold total, amount. cbn. lia. Qed.
Lemma total_by_added c i j c' n late : total_by i c [Added j c' n late] = if j =? i then amount c (c', n) else 0.
Proof using Type. unfold total_by, amount. cbn. destruct (j =? i); cbn; lia. Qed.
Lemma lost_added c i c' n late : lost c [Added i c' n late] = if late then amount c (c', n) else 0.
Proof using Type. unfold lost, amount. cbn. destruct late; lia. Qed.

(** The step of a worker adds to what that worker has counted, and to no other. *)
Lemma worker_step_counted n log i lw lw' (add : option (Counter * nat)) late (workers : list LoadWorker) :
  workers !! i = Some lw ->
  sent_by n lw' = sent_by n lw + from_option (amount NumSent) 0 add ->
  ended_by n lw' = ended_by n lw + outcomes (fun c => from_option (amount c) 0 add) ->
  (forall j x, workers !! j = Some x -> counted_by n log j x) ->
  let log' := log ++ match add with Some (c, k) => [Added i c k (late c)] | None => [] end in
  forall j x, <[i := lw']> workers !! j = Some x -> counted_by n log' j x.
Proof using Type.
  intros Hi Hs He Hc log' j x. destruct (decide (j = i)) as [->|Hne].
  - rewrite list_lookup_insert_eq by by eapply lookup_lt_Some. intros [= <-]. destruct (Hc i lw Hi) as [H1 H2].
    unfold counted_by, outcomes, log' in *. rewrite !total_by_app.
    destruct add as [[c k]|]; cbn [from_option] in *; [rewrite !total_by_added, Nat.eqb_refl|change (total_by i _ []) with 0]; lia.
  - rewrite list_lookup_insert_ne by done. intros Hx. destruct (Hc j x Hx) as [H1 H2].
    unfold counted_by, outcomes, log' in *. rewrite !total_by_app.
    destruct add as [[c k]|]; [rewrite !total_by_added, (proj2 (Nat.eqb_neq i j)) by done|change (total_by j _ []) with 0]; lia.
Qed.

Lemma display_step_counts d s w d' s' new w' : display_loop d s w = Some (d', s', new, w') ->
  (forall c, total c new = 0) /\ (forall c, lost c new = 0) /\ forall i c, total_by i c new = 0.
Proof using Type.
  destruct d as [[|c0 todo] seen|[|c0 todo] seen last|seen last|seen]; cbn [display_loop]; try done; try by intros [= <- <- <- <-].
  destruct (load_millis w) as [now w1]. by destruct (u64_sub now last); intros [= <- <- <- <-].
Qed.

Lemma load_turn_inv args t tid t' : load_inv args t -> load_turn args t tid = Some t' -> load_inv args t'.
Proof using Type.
  destruct t as [s w workers d [k| |] log]; [|done..].
  intros [Hd [Hlen Hwk] Hheld [Herr He] Hcnt Hm].
  cbn [lt_display lt_workers lt_log lt_stats lt_main] in *. cbn [load_turn].
  destruct tid as [i| |].
  - destruct (workers !! i) as [lw|] eqn:Hi; [|done]. cbn.
    destruct (run_worker args lw s w) as [[[[lw' s'] add] w']|] eqn:Hrun; [|done]. intros [= <-].
    destruct (run_worker_counts _ _ _ _ _ _ _ _ Hrun (Forall_lookup_1 _ _ _ _ Hwk Hi)) as (Hok & Hs1 & He1 & ->).
    pose proof (worker_step_counted _ log i lw lw' add (fun c => in_window c d) workers Hi Hs1 He1 Hcnt) as Hcnt'.
    split; cbn [lt_display lt_workers lt_log lt_stats lt_main];
      [done|by rewrite length_insert; split; [|apply Forall_insert]| | |exact Hcnt'|by rewrite length_insert];
      (destruct add as [[c n]|]; [|by rewrite app_nil_r]).
    + intros c' Hc'. rewrite total_app, lost_app, reported_app, total_added, lost_added, fetch_add_held, (Hheld c' Hc').
      unfold amount. cbn [fst snd reported sum_list_with].
      destruct (bool_decide_reflect (c = c')) as [->|]; [destruct (in_window c' d)|destruct (in_window c d)]; cbn [andb negb]; lia.
    + rewrite total_app, total_added. split; [|by apply errors_ok_snoc]. unfold fetch_add, amount. rewrite st_load_store. cbn [fst snd].
      destruct (bool_decide_reflect (c = NumErrors)) as [->|]; cbn in *; lia.
  - destruct (display_loop d s w) as [[[[d' s'] new] w']|] eqn:Hdisp; [|done]. intros [= <-].
    destruct (display_step_errors _ _ _ _ _ _ _ log Hd He Herr Hdisp) as (Hs & Hn & He').
    destruct (display_step_counts _ _ _ _ _ _ _ Hdisp) as (Ht & Hl & Hb).
    split; cbn [lt_display lt_workers lt_log lt_stats lt_main]; try done.
    + by destruct (display_step_held _ _ _ _ _ _ _ NumSent Hd ltac:(by left) Hdisp).
    + intros c Hc. destruct (display_step_held _ _ _ _ _ _ _ c Hd Hc Hdisp) as [_ Hh].
      rewrite total_app, reported_app, lost_app, (Ht c), (Hl c), (Hheld c Hc), Hh. lia.
    + split; [rewrite total_app, Hn; lia|done].
    + intros i lw Hi. destruct (Hcnt i lw Hi) as [H1 H2]. unfold counted_by, outcomes in *. rewrite !total_by_app, !Hb. lia.
  - destruct (load_join workers d k) as [m'|] eqn:Hj; [|done]. intros [= <-].
    split; cbn [lt_display lt_workers lt_log lt_stats lt_main]; try done.
    unfold load_join in Hj. destruct (workers !! k) as [lw|] eqn:Hk.
    + apply lookup_lt_Some in Hk. destruct lw; try done; injection Hj as <-; [lia|done].
    + apply lookup_ge_None in Hk. destruct (Nat.eqb_spec k (length workers)); [|lia].
      destruct d; try done. by injection Hj as <-.
Qed.

Lemma sent_ended n lw : worker_ok n lw -> ended_by n lw <= sent_by n lw <= n.
Proof using Type.
  destruct lw as [|t i|t i adds [|]| |i]; cbn [worker_ok sent_by ended_by]; intros Hok; try lia;
    destruct Hok as (_ & Hi & H1 & H2); lia.
Qed.

(** C39: What the load test counts, under any interleaving of its threads.  Every worker
    has one request of 1024 bytes, counts at most [num_requests] sends of it and at most one
    outcome (a response, a timeout or an error) for each, and once it has finished
    exactly [num_requests] of both.  What is added to a counter is what the reports
    show of it, what is held for the next report, and what fell between the load and
    the reset of the counter, which is lost; but errors are never reset: each report
    shows all the errors that had been added since the start when the display loop
    loaded their counter for it, which was after the report before.  The program can
    only end by a panic: [main] waits for the display loop, which goes on unless its
    subtraction of times panics. *)
Theorem load_test_accounts args w t0 t : load_main args w = Ok t0 -> rtc (load_step args) t0 t ->
  let n := la_num_requests args in
  let log := lt_log t in
  length (lt_workers t) = la_num_workers args /\
  (forall i lw, lt_workers t !! i = Some lw ->
    match lw with LoopHead k _ | Adding k _ _ _ => task_ok k | _ => True end /\
    outcomes (fun c => total_by i c log) <= total_by i NumSent log <= n /\
    (lw = Finished -> outcomes (fun c => total_by i c log) = n /\ total_by i NumSent log = n)) /\
  (forall c, c ∈ reset_order ->
    total c log = reported c log + held c (lt_display t) (lt_stats t) + lost c log) /\
  (forall before r after, log = before ++ Reported r :: after ->
    exists before1 before2, before = before1 ++ Loaded NumErrors (seen_count NumErrors (lr_counts r)) :: before2 /\
      Forall not_report before2 /\ seen_count NumErrors (lr_counts r) = total NumErrors before1) /\
  lt_main t <> LoadEnded /\
  (forall k, lt_main t = Joining k ->
    (exists seen, lt_display t = DisplayDied seen) \/ exists t', load_turn args t DisplayThread = Some t').
Proof using Type.
  intros Hmain Hrun n log.
  assert (load_inv args t) as [Hd [Hlen Hwk] Hheld [Herr [Hs Hl]] Hcnt Hm].
  { apply load_main_inv in Hmain. induction Hrun as [t|t1 t2 t3 [tid Hstep] _ IH]; [done|]. by apply IH, (load_turn_inv _ t1 tid). }
  split_and!.
  - exact Hlen.
  - intros i lw Hi. destruct (Hcnt i lw Hi) as [H1 H2]. fold log in H1, H2. rewrite H1, H2. pose proof (Forall_lookup_1 _ _ _ _ Hwk Hi) as Hok.
    split; [destruct lw; cbn in *; tauto|]. split; [by apply sent_ended|by intros ->].
  - exact Hheld.
  - exact Hs.
  - intros Hm'. by rewrite Hm' in Hm.
  - intros k Hk. destruct t as [s w' workers d m log']. cbn in *. subst m.
    destruct d as [[|c todo] seen|[|c todo] seen last|seen last|seen]; cbn; try (right; by eexists); [|by left; eexists].
    right. destruct (load_millis w') as [now w'']. by destruct (u64_sub now last); eexists.
Qed.
End load_gen.

(** ** Example: two workers, and an addition between its load and its reset *)

(** A network that answers, and a clock that stands still. *)
#[local] Instance sample_load_host : LoadHost unit := {|
  LoadSocket := unit;
  load_bind _ w := (Some tt, w);
  load_set_read_timeout _ _ w := (true, w);
  load_send_to _ bs _ w := (Some 1024, w);
  load_recv_from _ _ w := (inr 404, w);
  load_random_bytes w := (zeroes 32, w);
  load_millis w := (2000%Z, w);
  parse_socket_addr _ := Some (V4 0 2002);
|}.
Definition sample_load_args : LoadArgs := mkLoadArgs "127.0.0.1" 2002 1 2 None.
(** Each worker takes eight turns; the second sends after the first load. *)
Definition sample_schedule : list Tid :=
  replicate 8 (WorkerThread 0) ++ [DisplayThread] ++ replicate 8 (WorkerThread 1) ++ replicate 13 DisplayThread ++
  [WorkerThread 0; MainThread; WorkerThread 1; MainThread].

Definition sample_load_test : LoadTest :=
  mkLoadTest Stats_default tt [NotStarted; NotStarted] loop_top (Joining 0) [].

Lemma load_test_accounts_witness :
  exists t, load_main (D := rfc4648) sample_load_args tt = Ok sample_load_test /\
    load_run (P := false) sample_load_args sample_load_test sample_schedule = Some t /\
    reported NumSent (lt_log t) = 1 /\ lost NumSent (lt_log t) = 1 /\ reported NumResponses (lt_log t) = 2 /\
    outcomes (fun c => total_by 0 c (lt_log t)) = 1 /\ outcomes (fun c => total_by 1 c (lt_log t)) = 1.
Proof.
  assert (load_main (D := rfc4648) sample_load_args tt = Ok sample_load_test) as Hmain by reflexivity.
  assert (match load_run (P := false) sample_load_args sample_load_test sample_schedule with
          | Some t => lt_workers t = [Finished; Finished] /\ reported NumSent (lt_log t) = 1 /\
              lost NumSent (lt_log t) = 1 /\ reported NumResponses (lt_log t) = 2
          | None => False end) as Hsample by (vm_compute; split_and!; reflexivity).
  destruct (load_run (P := false) sample_load_args sample_load_test sample_schedule) as [t|] eqn:Hrun; [|destruct Hsample].
  destruct Hsample as (Hw & H1 & H2 & H3). exists t. split; [exact Hmain|]. split; [reflexivity|].
  split; [exact H1|]. split; [exact H2|]. split; [exact H3|].
  destruct (load_test_accounts (P := false) sample_load_args tt sample_load_test t Hmain (load_run_steps _ _ _ _ Hrun)) as
    (_ & Hall & _). rewrite Hw in Hall. split.
  - apply (Hall 0 Finished eq_refl). reflexivity.
  - apply (Hall 1 Finished eq_refl). reflexivity.
Defined.
