(* ===== verification/ServerList.v ===== *)
(** * Server lists (crates/roughenough-client/src/server_list.rs)

    The records of a list, its validation and the accessors that rely on it: their
    [expect]s are panics here.  Reading the file, the JSON parser with serde's derived
    code, and fastrand's shuffle are the class [ListIo].  Errors carry the values of
    their messages. *)
From Stdlib Require Import Ascii.
From S2P Require Import Prelude Text Errors Cursor Wire Versions.

Local Open Scope string_scope.

Inductive Protocol : Type := Tcp | Udp.
Record Address := mkAddress { ad_protocol : Protocol; ad_address : string }.
Record Server := mkServer {
  sv_name : string;
  sv_version : string;
  sv_protocol_version : option string;
  sv_public_key_type : string;
  sv_public_key : string;
  sv_addresses : list Address;
}.
Record ServerList := mkServerList {
  sl_servers : list Server;
  sl_sources : option (list string);
  sl_reporting_url : option string;
}.

Inductive ListError : Type :=
| EmptyField (field : string)
| InvalidAddress (address : string)
| InvalidUrl (url : string)
| InvalidJson
| IoError
| ConfigError (requested available : nat)
| InvalidProtocolVersion (server value : string).

Class ListIo (W : Type) := {
  read_to_string : string -> W -> option string * W;
  json_from_str : string -> option ServerList;
  shuffle : list Server -> W -> list Server * W;
}.
(** A shuffle only reorders. *)
Class ListIoLaws {W : Type} (L : ListIo W) : Prop := {
  shuffle_perm servers w : (shuffle servers w).1 ≡ₚ servers;
}.

(** ** Validation *)

Abbreviation checks := (res ListError unit).

Definition non_empty (field : string) (s : string) : checks := if is_empty s then Err (EmptyField field) else Ok tt.
Fixpoint for_all {A} (check : A -> checks) (l : list A) : checks :=
  match l with
  | [] => Ok tt
  | x :: xs => _ ← check x; for_all check xs
  end.

Definition Address_validate (a : Address) : checks :=
  match splitn2 ":" (ad_address a) with
  | [_; port_str] => if parse_u16 port_str is Some _ then Ok tt else Err (InvalidAddress (ad_address a))
  | _ => Err (InvalidAddress (ad_address a))
  end.

Definition Server_validate (s : Server) : checks :=
  _ ← non_empty "name" (sv_name s);
  _ ← non_empty "version" (sv_version s);
  _ ← non_empty "publicKeyType" (sv_public_key_type s);
  _ ← non_empty "publicKey" (sv_public_key s);
  _ ← match sv_addresses s with [] => Err (EmptyField (sv_name s +:+ ".addresses")) | _ => Ok tt end;
  _ ← for_all Address_validate (sv_addresses s);
  match sv_protocol_version s with
  | Some version_str =>
      match version_from_str version_str with
      | Err _ => Err (InvalidProtocolVersion (sv_name s) version_str)
      | _ => Ok tt
      end
  | None => Ok tt
  end.

Definition https (url : string) : checks := if starts_with "https://" url then Ok tt else Err (InvalidUrl url).

Definition ServerList_validate (l : ServerList) : checks :=
  _ ← match sl_servers l with [] => Err (EmptyField "server list") | _ => Ok tt end;
  _ ← for_all Server_validate (sl_servers l);
  _ ← for_all https (default [] (sl_sources l));
  for_all https (option_list (sl_reporting_url l)).

(** ** Constructors *)

Definition Address_new (protocol : Protocol) (address : string) : res ListError Address :=
  let addr := mkAddress protocol address in
  _ ← Address_validate addr; Ok addr.
Definition Server_new (name version public_key_type public_key : string) (addresses : list Address) : res ListError Server :=
  let server := mkServer name version None public_key_type public_key addresses in
  _ ← Server_validate server; Ok server.
Definition ServerList_new (servers : list Server) (sources : option (list string)) (reports : option string)
    : res ListError ServerList :=
  let server_list := mkServerList servers sources reports in
  _ ← ServerList_validate server_list; Ok server_list.
Definition add_server (l : ServerList) (server : Server) : ServerList :=
  mkServerList (sl_servers l ++ [server]) (sl_sources l) (sl_reporting_url l).

(** ** Accessors *)

Definition first_address {E} (s : Server) : res E Address := index (sv_addresses s) 0.
Definition ad_host {E} (a : Address) : res E string :=
  match split_on ":" (ad_address a) with host :: _ => Ok host | [] => Panic end.
Definition ad_port {E} (a : Address) : res E Z :=
  match split_on ":" (ad_address a) !! 1 ≫= parse_u16 with Some port => Ok port | None => Panic end.
Definition sv_version_of {E} (s : Server) : res E ProtocolVersion :=
  match sv_protocol_version s with
  | Some v => expect (version_from_str v)
  | None => Ok RfcDraft14
  end.

Section io.
Context {W : Type} {L : ListIo W}.

Definition from_json (json : string) : res ListError ServerList :=
  match json_from_str json with
  | None => Err InvalidJson
  | Some server_list => _ ← ServerList_validate server_list; Ok server_list
  end.

Definition from_file (file_name : string) : io W ListError ServerList := fun w =>
  match read_to_string file_name w with
  | (Some json, w') => (from_json json, w')
  | (None, w') => (Err IoError, w')
  end.

Definition choose_random (l : ServerList) (n : nat) : io W ListError (list Server) := fun w =>
  if (length (sl_servers l) <? n)%nat then (Err (ConfigError n (length (sl_servers l))), w)
  else let (servers, w') := shuffle (sl_servers l) w in (Ok (take n servers), w').
End io.

(** ** Validated lists *)

Lemma for_all_ok {A} (check : A -> checks) l : for_all check l = Ok tt <-> Forall (fun x => check x = Ok tt) l.
Proof.
  induction l as [|x xs IH]; cbn; [split; [by constructor|done]|]. rewrite Forall_cons, <- IH.
  destruct (check x) as [[]|e|]; cbn; [tauto|split; [done|by intros []]..].
Qed.

Lemma digits_no_colon max s : forall acc n, parse_digits max acc s = Some n -> split_once ":" s = None.
Proof.
  induction s as [|c s IH]; intros acc n; cbn; [done|].
  destruct (Ascii.eqb_spec c ":") as [->|Hc]; [done|].
  destruct (digit_value c) as [d|]; [|done]. cbn. destruct (_ <=? _)%Z; [|done]. by intros ->%IH.
Qed.
Lemma port_no_colon s n : parse_u16 s = Some n -> split_once ":" s = None.
Proof.
  unfold parse_u16, parse_uint. destruct s as [|c s]; [done|]. intros H.
  destruct (Ascii.eqb_spec c "+") as [->|Hc].
  - destruct s as [|d s]; [done|].
    change (match split_once ":" (String d s) with Some (l, r) => Some (String "+" l, r) | None => None end = None).
    by rewrite (digits_no_colon 65535 (String d s) 0 n).
  - apply (digits_no_colon 65535 (String c s) 0 n). revert H. repeat case_match; try done; congruence.
Qed.

(** What an address that passes is made of. *)
Definition address_parts (a : Address) (host : string) (port : Z) : Prop :=
  exists port_str, ad_address a = host +:+ String ":" port_str /\ split_once ":" host = None /\ parse_u16 port_str = Some port.

Lemma split_once_host c s l r : split_once c s = Some (l, r) -> split_once c l = None.
Proof.
  revert l r. induction s as [|a s IH]; intros l r; cbn; [done|].
  destruct (Ascii.eqb a c) eqn:Ha; [by intros [= <- <-]|].
  destruct (split_once c s) as [[l' r']|]; [|done]. intros [= <- <-]. cbn. rewrite Ha. by rewrite (IH l' r').
Qed.
Lemma split_once_app c l r : split_once c l = None -> split_once c (l +:+ String c r) = Some (l, r).
Proof.
  induction l as [|a l IH].
  - intros _. change ("" +:+ String c r) with (String c r). cbn. by rewrite Ascii.eqb_refl.
  - rewrite append_cons. cbn. destruct (Ascii.eqb a c); [done|]. destruct (split_once c l) as [[]|]; [done|].
    intros _. by rewrite IH.
Qed.

Lemma address_validate_ok a : Address_validate a = Ok tt <-> exists host port, address_parts a host port.
Proof.
  unfold Address_validate, splitn2, address_parts. split.
  - destruct (split_once ":" (ad_address a)) as [[host port_str]|] eqn:Hs; [|done].
    destruct (parse_u16 port_str) as [port|] eqn:Hp; [|done]. intros _. exists host, port, port_str.
    split; [by apply split_once_eq|]. split; [by eapply split_once_host|done].
  - intros (host & port & port_str & -> & Hh & Hp). rewrite split_once_app by done. by rewrite Hp.
Qed.

(** The accessors return those parts. *)
Lemma address_parts_accessors {E} a host port : address_parts a host port ->
  ad_host (E := E) a = Ok host /\ ad_port (E := E) a = Ok port.
Proof.
  intros (port_str & Ha & Hh & Hp). unfold ad_host, ad_port. rewrite Ha, split_on_once, split_once_app by done.
  split; [done|]. cbn. rewrite split_on_once, (port_no_colon _ _ Hp). cbn. by rewrite Hp.
Qed.

(** What [clients_from_list] asks of a server succeeds. *)
Definition server_usable (s : Server) : Prop :=
  exists a host port version, first_address (E := ListError) s = Ok a /\ ad_host (E := ListError) a = Ok host /\ ad_port (E := ListError) a = Ok port /\
    ad_address a <> "" /\ (0 <= port < 65536)%Z /\ sv_version_of (E := ListError) s = Ok version.
Definition list_usable (l : ServerList) : Prop :=
  sl_servers l <> [] /\ Forall server_usable (sl_servers l) /\
  (forall url, sl_reporting_url l = Some url -> exists rest, url = "https://" +:+ rest).

Lemma non_empty_ok field s : non_empty field s = Ok tt -> s <> "".
Proof. unfold non_empty. by destruct s. Qed.

Lemma server_validate_usable s : Server_validate s = Ok tt -> server_usable s.
Proof.
  unfold Server_validate. intros H.
  destruct (non_empty "name" _) as [[]|e|]; [cbn in H|done..].
  destruct (non_empty "version" _) as [[]|e|]; [cbn in H|done..].
  destruct (non_empty "publicKeyType" _) as [[]|e|]; [cbn in H|done..].
  destruct (non_empty "publicKey" _) as [[]|e|]; [cbn in H|done..].
  destruct (sv_addresses s) as [|a rest] eqn:Haddrs; [done|]. cbn in H.
  destruct (for_all Address_validate rest) as [[]|e|] eqn:Hall; [|by destruct (Address_validate a) as [[]| |]..].
  destruct (Address_validate a) as [[]|e|] eqn:Ha; [cbn in H|done..].
  apply address_validate_ok in Ha as (host & port & Hparts).
  destruct (address_parts_accessors (E := ListError) a host port Hparts) as [Hhost Hport].
  assert (exists v, sv_version_of (E := ListError) s = Ok v) as [v Hv].
  { unfold sv_version_of. destruct (sv_protocol_version s) as [t|]; [|by eexists].
    unfold version_from_str in *. repeat case_bool_decide; [by eexists..|done]. }
  exists a, host, port, v. unfold first_address. rewrite Haddrs. split_and!; try done.
  - destruct Hparts as (p & -> & _). by destruct host.
  - destruct Hparts as (p & _ & _ & Hp). apply parse_u16_range in Hp. lia.
  - destruct Hparts as (p & _ & _ & Hp). apply parse_u16_range in Hp. lia.
Qed.

Lemma https_ok url : https url = Ok tt -> exists rest, url = "https://" +:+ rest.
Proof.
  unfold https, starts_with. destruct (strip_prefix "https://" url) as [rest|] eqn:Hp; [|done].
  intros _. exists rest. by apply strip_prefix_Some.
Qed.

Lemma list_validate_usable l : ServerList_validate l = Ok tt -> list_usable l.
Proof.
  unfold ServerList_validate, list_usable. intros H.
  destruct (sl_servers l) as [|s rest] eqn:Hs; [done|]. cbn [mbind res_bind] in H.
  destruct (for_all Server_validate (s :: rest)) as [[]|e|] eqn:Hall; [cbn in H|done..].
  destruct (for_all https (default [] (sl_sources l))) as [[]|e|]; [cbn in H|done..].
  split; [done|]. split.
  - apply for_all_ok in Hall. eapply Forall_impl; [exact Hall|]. exact server_validate_usable.
  - intros url Hurl. rewrite Hurl in H. cbn in H. apply https_ok. by destruct (https url) as [[]|e|].
Qed.

Section choice.
Context {W : Type} {L : ListIo W} {LL : ListIoLaws L}.

(** C29: A list that loads can be used.  Its accessors never panic ("validated during
    construction"): each server has an address with a host (which may be empty: the
    check does not look at it) and a port of 16 bits, and a protocol version; a
    reporting address is an https one.  [choose_random] gives as
    many servers as it is asked for, distinct entries of the list, or
    an error when there are too few. *)
Theorem server_list_choice (json : string) (l : ServerList) (n : nat) (w : W) :
  from_json json = Ok l ->
  list_usable l /\
  (if (length (sl_servers l) <? n)%nat then choose_random l n w = (Err (ConfigError n (length (sl_servers l))), w)
   else exists chosen rest w', choose_random l n w = (Ok chosen, w') /\ length chosen = n /\
     Forall server_usable chosen /\ chosen ++ rest ≡ₚ sl_servers l).
Proof using LL.
  unfold from_json. destruct (json_from_str json) as [l'|]; [|done].
  destruct (ServerList_validate l') as [[]|e|] eqn:Hv; [|done..]. intros [= ->].
  apply list_validate_usable in Hv as Hu. split; [done|].
  unfold choose_random. destruct (Nat.ltb_spec (length (sl_servers l)) n) as [Hn|Hn]; [done|].
  pose proof (shuffle_perm (sl_servers l) w) as Hp. destruct (shuffle (sl_servers l) w) as [servers w'].
  exists (take n servers), (drop n servers), w'. split; [done|]. cbn in Hp. split_and!.
  - rewrite length_take, Hp. lia.
  - apply Forall_take. rewrite Hp. apply Hu.
  - by rewrite take_drop.
Qed.
End choice.

(** A list of three servers, with a shuffle that reverses. *)
Definition sample_servers : list Server :=
  [ mkServer "int08h" "1" None "ed25519" "AAAA" [mkAddress Udp "roughtime.int08h.com:2002"];
    mkServer "time.txryan" "14" (Some "Draft-08") "ed25519" "BBBB" [mkAddress Udp "time.txryan.com:2002"; mkAddress Tcp "x:1"];
    mkServer "rt" "1" (Some "14") "ed25519" "CCCC" [mkAddress Udp "rt.example:+65535"] ].
Definition sample_list : ServerList := mkServerList sample_servers None (Some "https://reports.example/v1").
Definition sample_io : ListIo unit := {|
  read_to_string _ w := (Some "servers.json", w);
  json_from_str text := if String.eqb text "servers.json" then Some sample_list else None;
  shuffle servers w := (rev servers, w);
|}.
#[export] Instance sample_io_laws : ListIoLaws sample_io.
Proof. split. intros servers w. cbn. symmetry. apply Permutation_rev. Qed.

Lemma server_list_choice_witness :
  from_json (L := sample_io) "servers.json" = Ok sample_list /\ list_usable sample_list /\
  exists chosen rest w', choose_random (L := sample_io) sample_list 2 tt = (Ok chosen, w') /\ length chosen = 2 /\
    Forall server_usable chosen /\ chosen ++ rest ≡ₚ sample_servers.
Proof.
  split; [vm_compute; reflexivity|].
  exact (server_list_choice (L := sample_io) "servers.json" sample_list 2 tt ltac:(vm_compute; reflexivity)).
Defined.

Example ipv6_address_rejected : Address_validate (mkAddress Udp "[2001:db8::1]:2002") = Err (InvalidAddress "[2001:db8::1]:2002").
Proof. reflexivity. Qed.
