(* ===== verification/Reporting.v ===== *)
(** * Malfeasance reports (crates/roughenough-client/src/reporting.rs)

    A report is the text fields of two measurements; [submit] posts it with retries
    and exponential backoff.  The HTTP agent, which also turns the report into JSON,
    and [thread::sleep] are the class [ReportNet]. *)
From S2P Require Import Prelude Text Errors Cursor Wire FixedTags Versions Path Cert Srep Request Response.
From S2P Require Import Encoding Measurement.

Record ReportEntry := mkEntry {
  en_rand : option string;
  en_request : string;
  en_response : string;
  en_public_key : string;
}.
Record MalfeasanceReport := mkReport { rp_responses : list ReportEntry }.

(** [SerializationError] is never made. *)
Inductive ReportingError : Type := HttpError.

Class ReportNet (W : Type) := {
  post_json : string -> Z -> MalfeasanceReport -> W -> bool * W;
  sleep_secs : Z -> W -> W;
}.

Section entries.
Context {D : DataEncoding} {E : Type}.

Definition from_measurement (measurement : Measurement) : res E ReportEntry :=
  request_bytes ← expect (as_frame_bytes (meas_request measurement));
  response_bytes ← expect (as_frame_bytes (meas_response measurement));
  public_key ← match meas_public_key measurement with Some key => Ok key | None => Panic end;
  Ok (mkEntry (option_map (encode_str BASE64) (meas_rand_value measurement))
        (encode_str BASE64 request_bytes) (encode_str BASE64 response_bytes)
        (encode_str BASE64 (fixed_bytes public_key))).

Definition from_violation (violation : CausalityViolation) : res E MalfeasanceReport :=
  entry_i ← from_measurement (measurement_i violation);
  entry_j ← from_measurement (measurement_j violation);
  Ok (mkReport [entry_i; entry_j]).
End entries.

Section submit.
Context {P : Profile} {W : Type} {N : ReportNet W}.

Abbreviation IO := (io W ReportingError).

Definition MIN_BACKOFF_SECS : Z := 10.

Definition post (report : MalfeasanceReport) (url : string) (timeout_secs : Z) : IO bool := fun w =>
  let (ok, w') := post_json url timeout_secs report w in (Ok ok, w').
Definition thread_sleep (secs : Z) : IO unit := fun w => (Ok tt, sleep_secs secs w).

(** The loop; its fuel is one more than the retries, and running out is a panic. *)
Fixpoint submit_loop (fuel : nat) (report : MalfeasanceReport) (url : string) (timeout_secs retries attempts backoff_secs : Z)
    : IO unit :=
  match fuel with
  | O => lift Panic
  | S fuel' =>
      ok ← post report url timeout_secs;
      if (ok : bool) then mret tt
      else
        attempts ← lift (u32_plus attempts 1);
        if (retries <? attempts)%Z then throw HttpError
        else
          _ ← thread_sleep backoff_secs;
          backoff_secs ← lift (u64_mul backoff_secs 2);
          submit_loop fuel' report url timeout_secs retries attempts backoff_secs
  end.

(** [reporting] is the Cargo feature. *)
Definition submit (reporting : bool) (report : MalfeasanceReport) (url : string) (timeout_secs retries : Z) : IO unit :=
  if reporting then submit_loop (S (Z.to_nat retries)) report url timeout_secs retries 0 MIN_BACKOFF_SECS
  else throw HttpError.
End submit.

(** ** The schedule of a submission

    A network that answers from a list and records what it is asked. *)
Inductive NetEvent : Type := Posted (url : string) (report : MalfeasanceReport) | Slept (secs : Z).
Record Script := mkScript { sc_outcomes : list bool; sc_log : list NetEvent }.

#[export] Instance scripted_net : ReportNet Script := {|
  post_json url _ report w :=
    (default false (head (sc_outcomes w)), mkScript (tail (sc_outcomes w)) (sc_log w ++ [Posted url report]));
  sleep_secs secs w := mkScript (sc_outcomes w) (sc_log w ++ [Slept secs]);
|}.

(** [k] failed attempts with the sleeps after them, from a first sleep of [backoff]. *)
Fixpoint backoffs (url : string) (report : MalfeasanceReport) (backoff : Z) (k : nat) : list NetEvent :=
  match k with
  | O => []
  | S k' => Posted url report :: Slept backoff :: backoffs url report (backoff * 2) k'
  end.

Section schedule.
Context {P : Profile}.

#[local] Ltac unfold_loop := cbn [submit_loop]; unfold mbind, io_bind, mret, io_ret, lift, throw, post, thread_sleep; cbn.

Lemma submit_loop_schedule report url timeout retries (fails : list bool) last : forall attempts backoff log rest,
  Forall (fun b => b = false) fails ->
  (0 <= attempts)%Z -> (retries < 2 ^ 32 - 1)%Z -> (0 < backoff)%Z ->
  (backoff * 2 ^ Z.of_nat (length fails) <= u64_max)%Z ->
  (if last : bool then (attempts + Z.of_nat (length fails) <= retries)%Z
   else (attempts + Z.of_nat (length fails) = retries)%Z) ->
  forall fuel, length fails < fuel ->
  submit_loop fuel report url timeout retries attempts backoff (mkScript (fails ++ last :: rest) log) =
    (if last then Ok tt else Err HttpError,
     mkScript rest (log ++ backoffs url report backoff (length fails) ++ [Posted url report])).
Proof.
  induction fails as [|b fails IH]; intros attempts backoff log rest Hf Ha Hr Hb Hov Hl [|fuel] Hfuel; try (cbn in Hfuel; lia).
  - cbn [length] in *. destruct last; [done|]. unfold_loop. unfold u32_plus.
    destruct (Z.leb_spec (attempts + 1) (2 ^ 32 - 1)); [|lia].
    destruct (Z.ltb_spec retries (attempts + 1)); [done|lia].
  - apply Forall_cons in Hf as [-> Hf]. cbn [length] in Hov, Hl, Hfuel. rewrite Nat2Z.inj_succ in Hov, Hl.
    rewrite Z.pow_succ_r in Hov by lia. pose proof (Z.pow_pos_nonneg 2 (Z.of_nat (length fails)) ltac:(lia) ltac:(lia)).
    unfold_loop. unfold u32_plus, u64_mul.
    destruct (Z.leb_spec (attempts + 1) (2 ^ 32 - 1)); [|destruct last; lia].
    destruct (Z.ltb_spec retries (attempts + 1)); [destruct last; lia|]. cbn.
    destruct (Z.leb_spec (backoff * 2) u64_max); [|nia].
    rewrite (IH (attempts + 1)%Z (backoff * 2)%Z); [|done|lia|lia|lia|nia|destruct last; lia|lia].
    by rewrite <-!app_assoc.
Qed.

(** C32: A submission ends, after at most one attempt more than the retries.  With the
    feature, and at most 60 retries, a network that fails [k] times is asked [k] times,
    with sleeps of 10, 20, 40, ... seconds in between; if it then answers, while
    retries are left, the report is submitted, and if all the attempts fail the
    submission is an error, with no sleep after the last one.  The doubling never
    overflows. *)
Theorem submit_schedule (report : MalfeasanceReport) (url : string) (timeout : Z) (retries k : nat) (rest : list bool)
    (log : list NetEvent) :
  retries <= 60 -> k <= retries ->
  submit true report url timeout (Z.of_nat retries) (mkScript (replicate k false ++ true :: rest) log) =
    (Ok tt, mkScript rest (log ++ backoffs url report 10 k ++ [Posted url report])) /\
  submit true report url timeout (Z.of_nat retries) (mkScript (replicate (S retries) false ++ rest) log) =
    (Err HttpError, mkScript rest (log ++ backoffs url report 10 retries ++ [Posted url report])).
Proof.
  intros Hr Hk. unfold submit, MIN_BACKOFF_SECS.
  assert (forall n, n <= 60 -> (10 * 2 ^ Z.of_nat n <= u64_max)%Z) as Hpow.
  { intros n Hn. assert (2 ^ Z.of_nat n <= 2 ^ 60)%Z by (apply Z.pow_le_mono_r; lia). unfold u64_max. lia. }
  split.
  - rewrite (submit_loop_schedule report url timeout (Z.of_nat retries) (replicate k false) true);
      rewrite ?length_replicate; try done; try lia; [by apply Forall_replicate|apply Hpow; lia].
  - rewrite replicate_S_end, <-app_assoc. change ([false] ++ rest) with (false :: rest).
    rewrite (submit_loop_schedule report url timeout (Z.of_nat retries) (replicate retries false) false);
      rewrite ?length_replicate; try done; try lia; [by apply Forall_replicate|by apply Hpow].
Qed.
End schedule.

Lemma submit_schedule_witness :
  let report := mkReport [] in
  (submit (P := true) true report "https://r" 5 2 (mkScript [false; true] []) =
     (Ok tt, mkScript [] [Posted "https://r" report; Slept 10; Posted "https://r" report])) /\
  (submit (P := true) true report "https://r" 5 2 (mkScript [false; false; false] []) =
     (Err HttpError, mkScript [] [Posted "https://r" report; Slept 10; Posted "https://r" report; Slept 20; Posted "https://r" report])).
Proof.
  intros report. split.
  - exact (proj1 (submit_schedule (P := true) report "https://r" 5 2 1 [] [] ltac:(lia) ltac:(lia))).
  - exact (proj2 (submit_schedule (P := true) report "https://r" 5 2 1 [] [] ltac:(lia) ltac:(lia))).
Defined.
