(* ===== verification/ReportServer.v ===== *)
(** * The reporting server (crates/roughenough-reporting-server/src/validation.rs,
    storage.rs and the handlers of lib.rs)

    The checks of a report and the store behind the two handlers.  The check of a
    request and its response calls a method that the client library does not have;
    it is the argument [validate].  Identifiers (ulid), the time and the iteration
    order of a [HashMap] are parameters.  Routing and JSON are not modelled. *)
From stdpp Require Import gmap.
From S2P Require Import Prelude Text Errors Cursor Wire FixedTags Versions Path Cert Srep Request Response.
From S2P Require Import Crypto Keys Metrics Responses Requests Encoding Validation Measurement Client Reporting.

Inductive ReportError : Type :=
| NeedTwoEntries
| InvalidRequest (index : nat)
| InvalidResponse (index : nat)
| InvalidPublicKey (index : nat)
| PublicKeyLength (index len : nat)
| InvalidRand (index : nat)
| RandLength (index len : nat)
| EntryFailed (index : nat)
| FirstHasRand (index : nat)
| MissingRand (index : nat)
| NonceMismatch (index : nat).

Record DecodedEntry := mkDecoded {
  de_request_bytes : bytes;
  de_response_bytes : bytes;
  de_public_key_bytes : bytes;
  de_rand_bytes : option bytes;
}.

Section validation.
Context {C : CryptoLib} {D : DataEncoding}.
Context (validate : PublicKey -> bytes -> Response -> res ValidationError Z).

Abbreviation RES := (res ReportError).

Definition decode64 (e : ReportError) (text : string) : RES bytes := map_err (fun _ => e) (of_sum (decode BASE64 (str_bytes text))).

Definition decode_entry_base64 (entry : ReportEntry) (index : nat) : RES DecodedEntry :=
  request_bytes ← decode64 (InvalidRequest index) (en_request entry);
  response_bytes ← decode64 (InvalidResponse index) (en_response entry);
  public_key_bytes ← decode64 (InvalidPublicKey index) (en_public_key entry);
  if negb (length public_key_bytes =? 32) then Err (PublicKeyLength index (length public_key_bytes))
  else
    rand_bytes ← match en_rand entry with
                 | None => Ok None
                 | Some rand_str =>
                     rand ← decode64 (InvalidRand index) rand_str;
                     if negb (length rand =? 32) then Err (RandLength index (length rand)) else Ok (Some rand)
                 end;
    Ok (mkDecoded request_bytes response_bytes public_key_bytes rand_bytes).

Definition parse_interaction_pair (decoded : DecodedEntry) (index : nat) : RES (Request * Response) :=
  request ← map_err (fun _ => InvalidRequest index) (from_frame (A := Request) (new (de_request_bytes decoded))).1;
  response ← map_err (fun _ => InvalidResponse index) (from_frame (A := Response) (new (de_response_bytes decoded))).1;
  Ok (request, response).

Definition validate_entry (request_bytes : bytes) (response : Response) (public_key_bytes : bytes) (index : nat) : RES unit :=
  public_key ← PublicKey_from public_key_bytes;
  _ ← map_err (fun _ => EntryFailed index) (validate public_key request_bytes response);
  Ok tt.

Definition validate_chaining (request : Request) (decoded : DecodedEntry) (previous_response : option Response) (index : nat)
    : RES unit :=
  match previous_response with
  | None => match de_rand_bytes decoded with Some _ => Err (FirstHasRand index) | None => Ok tt end
  | Some prev_response =>
      rand_bytes ← ok_or (de_rand_bytes decoded) (MissingRand index);
      expected_nonce ← calculate_chained_nonce prev_response rand_bytes;
      if bool_decide (req_nonc request = expected_nonce) then Ok tt else Err (NonceMismatch index)
  end.

(** [for (i, entry) in report.responses().iter().enumerate()] *)
Fixpoint validate_entries (i : nat) (entries : list ReportEntry) (previous_response : option Response) : RES unit :=
  match entries with
  | [] => Ok tt
  | entry :: rest =>
      decoded ← decode_entry_base64 entry i;
      pair ← parse_interaction_pair decoded i;
      _ ← validate_entry (de_request_bytes decoded) pair.2 (de_public_key_bytes decoded) i;
      _ ← validate_chaining pair.1 decoded previous_response i;
      validate_entries (S i) rest (Some pair.2)
  end.

Definition validate_report (report : MalfeasanceReport) : RES unit :=
  if length (rp_responses report) <? 2 then Err NeedTwoEntries
  else validate_entries 0 (rp_responses report) None.
End validation.

(** ** Storage *)

Record StoredReport := mkStored {
  st_id : string;
  st_timestamp : Z;
  st_source_ip : string;
  st_report : MalfeasanceReport;
}.
Record InMemoryStorage := mkStorage { reports : gmap string StoredReport }.
Definition InMemoryStorage_new : InMemoryStorage := mkStorage ∅.

Inductive StatusCode : Type := CREATED | BAD_REQUEST | INTERNAL_SERVER_ERROR | NOT_FOUND.

(** A stable sort, the later timestamp first. *)
Fixpoint insert_by_time (r : StoredReport) (items : list StoredReport) : list StoredReport :=
  match items with
  | [] => [r]
  | r' :: rest => if (st_timestamp r' <=? st_timestamp r)%Z then r :: items else r' :: insert_by_time r rest
  end.
Definition sort_by_time (items : list StoredReport) : list StoredReport := foldr insert_by_time [] items.

Section storage.
Context {C : CryptoLib} {D : DataEncoding}.
Context (validate : PublicKey -> bytes -> Response -> res ValidationError Z).
Context (iteration : gmap string StoredReport -> list StoredReport).

(** [id] is [Ulid::new()] and [now] is [Timestamp::now()]. *)
Definition store (id : string) (now : Z) (report : MalfeasanceReport) (source_ip : string) (s : InMemoryStorage)
    : string * InMemoryStorage :=
  (id, mkStorage (<[id := mkStored id now source_ip report]> (reports s))).
Definition get (id : string) (s : InMemoryStorage) : option StoredReport := reports s !! id.
Definition list_reports (limit : nat) (s : InMemoryStorage) : list StoredReport :=
  take limit (sort_by_time (iteration (reports s))).

Definition handle_report (id : string) (now : Z) (ip : string) (report : MalfeasanceReport)
    : io InMemoryStorage (StatusCode * option ReportError) (StatusCode * string) := fun s =>
  match validate_report validate report with
  | Err e => (Err (BAD_REQUEST, Some e), s)
  | Panic => (Panic, s)
  | Ok _ => let (id, s') := store id now report ip s in (Ok (CREATED, id), s')
  end.
Definition get_report (id : string) (s : InMemoryStorage) : res StatusCode StoredReport :=
  match get id s with Some r => Ok r | None => Err NOT_FOUND end.
End storage.

(** ** The checks *)

Section checks.
Context {C : CryptoLib} {CL : CryptoLaws C} {D : DataEncoding} {DL : DataEncodingLaws D}.
Context (validate : PublicKey -> bytes -> Response -> res ValidationError Z).

Lemma decode64_encode e bs : decode64 e (encode_str BASE64 bs) = Ok bs.
Proof using DL.
  unfold decode64. rewrite (implements_encode _ _ BASE64_ok bs).
  by rewrite (proj2 (implements_decode _ _ BASE64_ok _ bs) eq_refl).
Qed.

(** A measurement that survives its report: [rq] and [rs] are its frames, which parse
    to [request] and [response]. *)
Record reportable (m : Measurement) (key rq rs : bytes) (request : Request) (response : Response) : Prop := {
  ra_key : meas_public_key m = Some (mkFixed key) /\ length key = 32;
  ra_rand : match meas_rand_value m with Some r => length r = 32 | None => True end;
  ra_request : as_frame_bytes (meas_request m) = Ok rq /\ (from_frame (A := Request) (new rq)).1 = Ok request;
  ra_response : as_frame_bytes (meas_response m) = Ok rs /\ (from_frame (A := Response) (new rs)).1 = Ok response;
  ra_nonce : req_nonc request = req_nonc (meas_request m);
  ra_frame : as_frame_bytes response = Ok rs;
}.

Lemma from_measurement_ok {E} m key rq rs request response : reportable m key rq rs request response ->
  from_measurement (E := E) m =
    Ok (mkEntry (option_map (encode_str BASE64) (meas_rand_value m)) (encode_str BASE64 rq) (encode_str BASE64 rs)
          (encode_str BASE64 key)).
Proof using Type.
  intros [[Hk _] _ [Hq _] [Hs _] _ _]. unfold from_measurement. by rewrite Hq, Hs, Hk.
Qed.

(** The entry decodes to what it was made of. *)
Lemma decode_reportable i m key rq rs request response : reportable m key rq rs request response ->
  decode_entry_base64 (mkEntry (option_map (encode_str BASE64) (meas_rand_value m)) (encode_str BASE64 rq)
    (encode_str BASE64 rs) (encode_str BASE64 key)) i = Ok (mkDecoded rq rs key (meas_rand_value m)).
Proof using DL.
  intros [[_ Hk] Hr _ _ _ _]. unfold decode_entry_base64. cbn [en_request en_response en_public_key en_rand].
  rewrite !decode64_encode. cbn [mbind res_bind]. rewrite Hk. cbn [Nat.eqb negb].
  destruct (meas_rand_value m) as [r|]; [|done]. cbn [option_map]. rewrite decode64_encode. cbn [mbind res_bind].
  by rewrite Hr.
Qed.
Lemma parse_reportable i m key rq rs request response rand : reportable m key rq rs request response ->
  parse_interaction_pair (mkDecoded rq rs key rand) i = Ok (request, response).
Proof using Type.
  intros [_ _ [_ Hq] [_ Hs] _ _]. unfold parse_interaction_pair. cbn [de_request_bytes de_response_bytes].
  by rewrite Hq, Hs.
Qed.

(** One step of the loop on such an entry that the validator accepts. *)
Lemma validate_entries_step i m key rq rs request response rest prev t :
  reportable m key rq rs request response -> validate (mkFixed key) rq response = Ok t ->
  validate_entries validate i
    (mkEntry (option_map (encode_str BASE64) (meas_rand_value m)) (encode_str BASE64 rq) (encode_str BASE64 rs)
       (encode_str BASE64 key) :: rest) prev =
    (_ ← validate_chaining request (mkDecoded rq rs key (meas_rand_value m)) prev i;
     validate_entries validate (S i) rest (Some response)).
Proof using DL.
  intros Hm Hv. cbn [validate_entries]. rewrite (decode_reportable i m key rq rs request response Hm).
  cbn [mbind res_bind]. rewrite (parse_reportable i m key rq rs request response _ Hm). cbn [mbind res_bind fst snd].
  unfold validate_entry. cbn [de_request_bytes de_public_key_bytes].
  rewrite (PublicKey_from_ok key (proj2 (ra_key _ _ _ _ _ _ Hm))). cbn [mbind res_bind]. by rewrite Hv.
Qed.

(** A report is accepted when it is a chain.  The report of a violation between
    two measurements whose answers the validator accepts is accepted exactly when the
    first has no random value and the nonce of the second is the hash of the first
    one's response and the second one's random value. *)
Theorem report_accepted_iff (v : CausalityViolation) (ki kj qi qj si sj : bytes) (ri rj : Request) (pi pj : Response) (ti tj : Z) :
  reportable (measurement_i v) ki qi si ri pi -> reportable (measurement_j v) kj qj sj rj pj ->
  validate (mkFixed ki) qi pi = Ok ti -> validate (mkFixed kj) qj pj = Ok tj ->
  exists report, from_violation (E := ReportingError) v = Ok report /\
    (validate_report validate report = Ok tt <->
     meas_rand_value (measurement_i v) = None /\
     exists rand, meas_rand_value (measurement_j v) = Some rand /\
       req_nonc (meas_request (measurement_j v)) = mkFixed (sha512_32 (si ++ rand))).
Proof using CL DL.
  intros Hi Hj Hvi Hvj. unfold from_violation.
  rewrite (from_measurement_ok _ _ _ _ _ _ Hi), (from_measurement_ok _ _ _ _ _ _ Hj). cbn [mbind res_bind].
  eexists. split; [reflexivity|]. unfold validate_report. cbn [rp_responses length Nat.ltb Nat.leb].
  rewrite (validate_entries_step 0 _ _ _ _ _ _ _ _ _ Hi Hvi). unfold validate_chaining at 1. cbn [de_rand_bytes].
  destruct (meas_rand_value (measurement_i v)) as [r|]; [cbn; split; [done|by intros [? _]]|]. cbn [mbind res_bind].
  rewrite (validate_entries_step 1 _ _ _ _ _ _ _ _ _ Hj Hvj). unfold validate_chaining. cbn [de_rand_bytes].
  destruct (meas_rand_value (measurement_j v)) as [r|]; [|split; [done|by intros (_ & ? & ? & _)]].
  cbn [ok_or mbind res_bind]. rewrite (chained_nonce_of_frame pi si r (ra_frame _ _ _ _ _ _ Hi)). cbn [mbind res_bind].
  rewrite (ra_nonce _ _ _ _ _ _ Hj). case_bool_decide as Hn; cbn; split; try done.
  - intros _. split; [done|]. by exists r.
  - intros (_ & ? & [= <-] & ?). done.
Qed.

(** Measurements in order, each chained to the one before: what a sequence makes. *)
Fixpoint linked (prior : option Response) (ms : list Measurement) : Prop :=
  match ms with
  | [] => True
  | m :: ms' => chained prior m /\ linked (Some (meas_response m)) ms'
  end.
Lemma sequence_linked {W} random_bytes (cs : list (Client (W := W))) : forall w prior ms w',
  chain_from random_bytes w prior cs ms w' -> linked prior ms.
Proof using Type.
  induction cs as [|c cs IH]; intros w prior [|m ms] w'; cbn; try done. intros (Hc & _ & w1 & _ & Hch).
  split; [done|by eapply IH].
Qed.
Lemma linked_step : forall ms prior k m, linked prior ms -> ms !! S k = Some m ->
  exists m', ms !! k = Some m' /\ chained (Some (meas_response m')) m.
Proof using Type.
  induction ms as [|m0 ms IH]; intros prior k m; [done|]. intros [_ Hch] Hm. change (ms !! k = Some m) in Hm.
  destruct k as [|k].
  - exists m0. split; [done|]. destruct ms as [|m1 ms]; [done|]. injection Hm as ->. apply Hch.
  - destruct (IH _ k m Hch Hm) as (m' & Hm' & Hc). by exists m'.
Qed.

(** C31: Only the first two measurements of a sequence can be reported.  Whatever two
    measurements of a sequence violate causality, their report is accepted only when
    they are the first and the second one, unless the response just before the later
    one has the very frame of the first, or collides with it under the hash of the
    nonce. *)
Theorem later_violation_rejected (ms : list Measurement) (v : CausalityViolation) (i j : nat)
    (ki kj qi qj si sj : bytes) (ri rj : Request) (pi pj : Response) (ti tj : Z) (report : MalfeasanceReport) :
  linked None ms -> ms !! i = Some (measurement_i v) -> ms !! j = Some (measurement_j v) -> i < j ->
  reportable (measurement_i v) ki qi si ri pi -> reportable (measurement_j v) kj qj sj rj pj ->
  validate (mkFixed ki) qi pi = Ok ti -> validate (mkFixed kj) qj pj = Ok tj ->
  from_violation (E := ReportingError) v = Ok report -> validate_report validate report = Ok tt ->
  i = 0 /\
  (j = 1 \/ exists m frame rand, ms !! (j - 1) = Some m /\ as_frame_bytes (meas_response m) = Ok frame /\
     meas_rand_value (measurement_j v) = Some rand /\
     (frame = si \/ collides sha512_32 (frame ++ rand) (si ++ rand))).
Proof using CL DL.
  intros Hch Hmi Hmj Hij Hi Hj Hvi Hvj Hrep Hacc.
  destruct (report_accepted_iff v _ _ _ _ _ _ _ _ _ _ _ _ Hi Hj Hvi Hvj) as (report' & Hrep' & Hiff).
  rewrite Hrep in Hrep'. injection Hrep' as <-. apply Hiff in Hacc as (Hri & rand & Hrj & Hnj).
  assert (i = 0) as ->.
  { destruct i as [|i]; [done|]. destruct (linked_step ms None i _ Hch Hmi) as (m' & _ & [_ (r & bs & Hr & _)]). congruence. }
  split; [done|]. destruct j as [|j]; [lia|]. destruct (linked_step ms None j _ Hch Hmj) as (m' & Hm' & [_ Hc]).
  destruct Hc as (r & bs & Hr & Hlen & Hbs & Hn). rewrite Hrj in Hr. injection Hr as <-.
  destruct j as [|j]; [by left|]. right. rewrite Hn in Hnj. injection Hnj as Heq.
  replace (S (S j) - 1) with (S j) by lia.
  exists m', bs, rand. split_and!; [done..|].
  destruct (decide (bs ++ rand = si ++ rand)) as [He|He]; [left; by eapply app_inv_tail|by right].
Qed.

(** What the server parses it can chain. *)
Lemma parse_pair_total decoded i :
  match parse_interaction_pair decoded i with
  | Ok (_, response) => exists bs, as_frame_bytes response = Ok bs
  | Err _ => True
  | Panic => False
  end.
Proof using Type.
  unfold parse_interaction_pair.
  pose proof (from_frame_parses _ Request_parses [] (de_request_bytes decoded)) as Hq.
  change (at_cursor [] (de_request_bytes decoded)) with (new (de_request_bytes decoded)) in Hq.
  destruct (from_frame (A := Request) (new (de_request_bytes decoded))) as [[rq|e|] c1]; [cbn|done|done].
  pose proof (from_frame_parses _ Response_parses [] (de_response_bytes decoded)) as Hs.
  change (at_cursor [] (de_response_bytes decoded)) with (new (de_response_bytes decoded)) in Hs.
  destruct (from_frame (A := Response) (new (de_response_bytes decoded))) as [[rs|e|] c2]; [cbn|done|done].
  destruct Hs as (b & rest & _ & _ & len & msg & _ & _ & Hw). eexists. by eapply as_frame_bytes_parsed.
Qed.

Lemma decode_entry_total entry i :
  match decode_entry_base64 entry i with
  | Ok decoded => length (de_public_key_bytes decoded) = 32
  | Err _ => True
  | Panic => False
  end.
Proof using Type.
  unfold decode_entry_base64, decode64.
  destruct (decode BASE64 (str_bytes (en_request entry))); [done|]. cbn.
  destruct (decode BASE64 (str_bytes (en_response entry))); [done|]. cbn.
  destruct (decode BASE64 (str_bytes (en_public_key entry))) as [|key]; [done|]. cbn.
  destruct (Nat.eqb_spec (length key) 32) as [Hk|]; [cbn|done].
  destruct (en_rand entry) as [t|]; [|done]. destruct (decode BASE64 (str_bytes t)) as [|r]; [done|]. cbn.
  by destruct (negb _).
Qed.

Lemma validate_entries_total : (forall k q r, validate k q r <> Panic) -> forall entries i prev,
  match prev with Some p => exists bs, as_frame_bytes p = Ok bs | None => True end ->
  validate_entries validate i entries prev <> Panic.
Proof using CL.
  intros Hv. induction entries as [|entry rest IH]; intros i prev Hp; cbn [validate_entries]; [done|].
  pose proof (decode_entry_total entry i) as Hd. destruct (decode_entry_base64 entry i) as [decoded|e|]; [cbn [mbind res_bind]|done|done].
  pose proof (parse_pair_total decoded i) as Hpp.
  destruct (parse_interaction_pair decoded i) as [[rq rs]|e|]; [cbn [mbind res_bind fst snd]|done|done].
  unfold validate_entry. rewrite (PublicKey_from_ok _ Hd). cbn [mbind res_bind].
  pose proof (Hv (mkFixed (de_public_key_bytes decoded)) (de_request_bytes decoded) rs) as Hval.
  destruct (validate _ _ _) as [t|e|]; [cbn [map_err mbind res_bind]|done|done].
  assert (validate_chaining rq decoded prev i <> Panic) as Hc.
  { unfold validate_chaining. destruct prev as [p|]; [|by destruct (de_rand_bytes decoded)].
    destruct (de_rand_bytes decoded) as [r|]; [|done]. destruct Hp as [bs Hbs]. cbn.
    rewrite (chained_nonce_of_frame p bs r Hbs). cbn. by case_bool_decide. }
  destruct (validate_chaining rq decoded prev i) as [[]|e|]; [cbn [mbind res_bind]|done|done]. by apply IH.
Qed.

(** ** The handlers *)

(** The store holds only reports that were accepted, by their identifiers. *)
Definition storage_ok (s : InMemoryStorage) : Prop :=
  map_Forall (fun id r => st_id r = id /\ validate_report validate (st_report r) = Ok tt) (reports s).

(** The report handler survives any report.  If the response check never panics,
    [handle_report] answers any report whatever: an invalid one gets [BAD_REQUEST] and
    leaves the store as it was; a valid one gets [CREATED] with an identifier under
    which [get_report] then returns it with its sender and time, the other identifiers
    keeping what they had.  The store only ever holds accepted reports. *)
Theorem handle_report_stores (id ip : string) (now : Z) (report : MalfeasanceReport) (s : InMemoryStorage) :
  (forall k q r, validate k q r <> Panic) -> storage_ok s ->
  match handle_report validate id now ip report s with
  | (Ok (status, id'), s') => status = CREATED /\ id' = id /\ storage_ok s' /\
      get_report id s' = Ok (mkStored id now ip report) /\
      (forall other, other <> id -> get_report other s' = get_report other s)
  | (Err (status, e), s') => status = BAD_REQUEST /\ s' = s /\ exists cause, e = Some cause /\ validate_report validate report = Err cause
  | (Panic, _) => False
  end.
Proof using CL.
  intros Hv Hs. unfold handle_report.
  assert (validate_report validate report <> Panic) as Hp.
  { unfold validate_report. destruct (_ <? _); [done|]. by apply validate_entries_total. }
  destruct (validate_report validate report) as [[]|e|] eqn:Hr; [|by split_and!; [| |exists e]|done].
  cbn. split_and!; [done|done| | |].
  - apply map_Forall_insert_2; [by split|done].
  - unfold get_report, get. cbn. by rewrite lookup_insert_eq.
  - intros other Ho. unfold get_report, get. cbn. by rewrite lookup_insert_ne.
Qed.
End checks.

(** A consistent response to a request of this library is reportable. *)
Lemma honest_reportable m key :
  meas_public_key m = Some (mkFixed key) -> length key = 32 ->
  match meas_rand_value m with Some r => length r = 32 | None => True end ->
  wf (meas_request m) -> wire_size (meas_request m) = 1012 ->
  resp_wf (meas_response m) -> consistent (meas_response m) ->
  reportable m key (frame_bytes (encode (meas_request m))) (frame_bytes (encode (meas_response m)))
    (meas_request m) (resp_normalize (meas_response m)).
Proof.
  intros Hk Hl Hr Hq Hqs Hw Hc. destruct (from_frame_Response _ Hw Hc) as [c Hf]. split; try done.
  - split; [by apply as_frame_bytes_encode|]. by rewrite from_frame_Request.
  - split; [by apply as_frame_bytes_encode|]. by rewrite Hf.
  - rewrite (as_frame_bytes_encode (resp_normalize _) (resp_normalize_wf _ Hw)). by rewrite encode_resp_normalize.
Qed.

(** ** Examples: a validator that accepts everything *)

Definition accept_all (key : PublicKey) (request_bytes : bytes) (response : Response) : res ValidationError Z := Ok 0%Z.
Definition report_response : Response := update_offsets (set_srep Response_default sample_srep).
Definition report_measurement (nonce : Nonce) (rand : option bytes) (prior : option Response) : Measurement :=
  mkMeasurement (V4 0 2002) "example" (Some (mkFixed (zeroes 32))) (new_draft14 nonce) report_response rand prior.
Definition report_nonce : Nonce := mkFixed (sha512_32 (frame_bytes (encode report_response) ++ zeroes 32)).
Definition first_measurement : Measurement := report_measurement (mkFixed (zeroes 32)) None None.
Definition second_measurement : Measurement := report_measurement report_nonce (Some (zeroes 32)) (Some report_response).
Definition sample_violation : CausalityViolation := mkViolation first_measurement second_measurement 2 1.

Lemma report_response_wf : resp_wf report_response /\ consistent report_response.
Proof. apply update_offsets_wf, Response_default_ready, sample_srep_wf. Qed.
Lemma sample_reportable nonce rand prior : wf (A := FixedTag 32) nonce -> match rand with Some r => length r = 32 | None => True end ->
  reportable (report_measurement nonce rand prior) (zeroes 32) (frame_bytes (encode (new_draft14 nonce)))
    (frame_bytes (encode report_response)) (new_draft14 nonce) (resp_normalize report_response).
Proof.
  intros Hn Hr. destruct (new_request_wf nonce (mkSrv (zeroes 32)) Hn eq_refl) as (_ & [Hw Hsz] & _).
  destruct report_response_wf as [Hrw Hrc].
  by apply (honest_reportable (report_measurement nonce rand prior) (zeroes 32)).
Qed.
Lemma first_reportable : reportable first_measurement (zeroes 32) (frame_bytes (encode (new_draft14 (mkFixed (zeroes 32)))))
  (frame_bytes (encode report_response)) (new_draft14 (mkFixed (zeroes 32))) (resp_normalize report_response).
Proof. by apply sample_reportable. Qed.
Lemma second_reportable : reportable second_measurement (zeroes 32) (frame_bytes (encode (new_draft14 report_nonce)))
  (frame_bytes (encode report_response)) (new_draft14 report_nonce) (resp_normalize report_response).
Proof. apply sample_reportable; [|done]. apply (length_sha512_32 (CL := toy_crypto_laws)). Qed.

Lemma report_accepted_iff_witness :
  exists report, from_violation (D := rfc4648) (E := ReportingError) sample_violation = Ok report /\
    validate_report (D := rfc4648) accept_all report = Ok tt.
Proof.
  destruct (report_accepted_iff (CL := toy_crypto_laws) (D := rfc4648) accept_all sample_violation _ _ _ _ _ _ _ _ _ _ 0 0
    first_reportable second_reportable eq_refl eq_refl) as (report & Hr & Hiff).
  exists report. split; [exact Hr|]. apply Hiff. split; [reflexivity|]. exists (zeroes 32). split; reflexivity.
Defined.

Lemma later_violation_rejected_witness :
  let v := mkViolation second_measurement second_measurement 2 1 in
  exists report, from_violation (D := rfc4648) (E := ReportingError) v = Ok report /\
    ~ validate_report (D := rfc4648) accept_all report = Ok tt.
Proof.
  intros v. destruct (report_accepted_iff (CL := toy_crypto_laws) (D := rfc4648) accept_all v _ _ _ _ _ _ _ _ _ _ 0 0
    second_reportable second_reportable eq_refl eq_refl) as (report & Hr & _).
  exists report. split; [exact Hr|]. intros Ha.
  set (ms := [first_measurement; second_measurement; second_measurement]).
  assert (linked None ms) as Hl.
  { destruct report_response_wf as [Hrw Hrc]. split; [split; reflexivity|].
    assert (chained (Some report_response) second_measurement) as Hc; [|split; [exact Hc|split; [exact Hc|exact I]]].
    split; [reflexivity|]. exists (zeroes 32), (frame_bytes (encode report_response)).
    split; [reflexivity|]. split; [reflexivity|]. split; [by apply as_frame_bytes_encode|reflexivity]. }
  destruct (later_violation_rejected (CL := toy_crypto_laws) (D := rfc4648) accept_all ms v
    1 2 _ _ _ _ _ _ _ _ _ _ 0 0 report Hl eq_refl eq_refl ltac:(lia) second_reportable second_reportable eq_refl eq_refl Hr Ha) as [H _].
  discriminate H.
Defined.

Lemma handle_report_stores_witness :
  exists s, handle_report (D := rfc4648) accept_all "01ARZ3" 5 "192.0.2.1" (mkReport []) InMemoryStorage_new = (Err (BAD_REQUEST, Some NeedTwoEntries), s) /\
    s = InMemoryStorage_new.
Proof.
  pose proof (handle_report_stores (CL := toy_crypto_laws) (D := rfc4648) accept_all "01ARZ3" "192.0.2.1" 5 (mkReport []) InMemoryStorage_new
    ltac:(done) (map_Forall_empty _)) as H.
  destruct (handle_report accept_all "01ARZ3" 5 "192.0.2.1" (mkReport []) InMemoryStorage_new) as [[[st id]|[st e]|] s] eqn:Hh; [discriminate Hh| |destruct H].
  destruct H as (-> & -> & cause & -> & Hc). exists InMemoryStorage_new. injection Hc as <-. split; reflexivity.
Defined.
