(* ===== verification/ReportApp.v ===== *)
(** * The reporting server as its clients see it (crates/roughenough-reporting-server/src/lib.rs)

    The routes of [create_app], on the store that [main] makes.  A handler touches
    the store once, behind its lock, so that whatever runs at the same time, the
    calls take effect one after the other.  The specification is the history of the
    reports that were accepted, the latest first. *)
From stdpp Require Import gmap.
From S2P Require Import Prelude Text Errors Cursor Wire FixedTags Versions Path Cert Srep Request Response.
From S2P Require Import Crypto Keys Encoding Validation Measurement Reporting ReportServer.

(** A request that axum has routed, with the identifier and the time that the
    handler draws. *)
Inductive Call : Type :=
| PostReport (id : string) (now : Z) (ip : string) (report : MalfeasanceReport)
| GetReport (id : string)
| GetHealth.

Inductive Reply : Type :=
| Created (status : StatusCode) (id : string)
| Refused (status : StatusCode) (e : option ReportError)
| Found (report : StoredReport)
| Missing (status : StatusCode)
| Text (body : string)
| Dropped.

Section app.
Context {C : CryptoLib} {D : DataEncoding}.
Context (validate : PublicKey -> bytes -> Response -> res ValidationError Z).

Definition health_check : string := "OK".

(** A handler that panics drops the connection. *)
Definition app_call (c : Call) (s : InMemoryStorage) : Reply * InMemoryStorage :=
  match c with
  | PostReport id now ip report =>
      match handle_report validate id now ip report s with
      | (Ok (status, id), s') => (Created status id, s')
      | (Err (status, e), s') => (Refused status e, s')
      | (Panic, s') => (Dropped, s')
      end
  | GetReport id =>
      (match get_report id s with Ok r => Found r | Err status => Missing status | Panic => Dropped end, s)
  | GetHealth => (Text health_check, s)
  end.

(** A run of the server, from its store on. *)
Fixpoint app_run (calls : list Call) (s : InMemoryStorage) : list Reply * InMemoryStorage :=
  match calls with
  | [] => ([], s)
  | c :: rest => let (reply, s') := app_call c s in let (replies, s'') := app_run rest s' in (reply :: replies, s'')
  end.
Definition reporting_main (calls : list Call) : list Reply := (app_run calls InMemoryStorage_new).1.

(** ** Specification *)

Abbreviation History := (list StoredReport).

Definition lookup_report (id : string) (h : History) : option StoredReport := head (filter (fun r => st_id r = id) h).

Definition spec_call (c : Call) (h : History) : Reply * History :=
  match c with
  | PostReport id now ip report =>
      match validate_report validate report with
      | Ok _ => (Created CREATED id, mkStored id now ip report :: h)
      | Err e => (Refused BAD_REQUEST (Some e), h)
      | Panic => (Dropped, h)
      end
  | GetReport id => (match lookup_report id h with Some r => Found r | None => Missing NOT_FOUND end, h)
  | GetHealth => (Text "OK", h)
  end.
Fixpoint spec_run (calls : list Call) (h : History) : list Reply * History :=
  match calls with
  | [] => ([], h)
  | c :: rest => let (reply, h') := spec_call c h in let (replies, h'') := spec_run rest h' in (reply :: replies, h'')
  end.

(** ** Refinement *)

Definition represents (s : InMemoryStorage) (h : History) : Prop := forall id, get id s = lookup_report id h.

Lemma lookup_report_cons id r h : lookup_report id (r :: h) = if decide (st_id r = id) then Some r else lookup_report id h.
Proof. unfold lookup_report. rewrite filter_cons. by destruct (decide _). Qed.

Lemma app_call_refines c s h : represents s h ->
  (app_call c s).1 = (spec_call c h).1 /\ represents (app_call c s).2 (spec_call c h).2.
Proof.
  intros Hr. destruct c as [id now ip report|id|]; cbn [app_call spec_call]; [|by unfold get_report; rewrite Hr; destruct (lookup_report id h)|done].
  unfold handle_report. destruct (validate_report validate report) as [[]|e|]; [|done|done].
  cbn. split; [done|]. intros id'. unfold get. cbn. rewrite lookup_report_cons. cbn [st_id].
  destruct (decide (id = id')) as [<-|Hne]; [by rewrite lookup_insert_eq|]. rewrite lookup_insert_ne by done. apply Hr.
Qed.

Lemma app_run_refines calls : forall s h, represents s h ->
  (app_run calls s).1 = (spec_run calls h).1 /\ represents (app_run calls s).2 (spec_run calls h).2.
Proof.
  induction calls as [|c calls IH]; intros s h Hr; [done|]. cbn [app_run spec_run].
  destruct (app_call_refines c s h Hr) as [Hc Hr']. destruct (app_call c s) as [reply s1], (spec_call c h) as [reply' h1].
  cbn in Hc, Hr'. subst reply'. destruct (IH s1 h1 Hr') as [Hc' Hr'']. destruct (app_run calls s1), (spec_run calls h1).
  cbn in *. by subst.
Qed.

(** ** What the history says *)

(** The report that a call leaves in the history. *)
Definition accepted (c : Call) : option StoredReport :=
  match c with
  | PostReport id now ip report =>
      match validate_report validate report with Ok _ => Some (mkStored id now ip report) | _ => None end
  | _ => None
  end.
Definition posted (calls : list Call) : list string :=
  omap (fun c => match c with PostReport id _ _ _ => Some id | _ => None end) calls.

Lemma spec_history calls : forall h, (spec_run calls h).2 = reverse (omap accepted calls) ++ h.
Proof.
  induction calls as [|c calls IH]; intros h; [done|]. cbn [spec_run].
  destruct (spec_call c h) as [reply h1] eqn:Hc. specialize (IH h1). destruct (spec_run calls h1) as [replies h2].
  cbn [snd] in *. rewrite IH. change (omap accepted (c :: calls)) with
    (match accepted c with Some r => r :: omap accepted calls | None => omap accepted calls end).
  destruct c as [id now ip report|id|]; cbn [spec_call accepted] in *; [|by injection Hc as <- <-..].
  destruct (validate_report validate report) as [[]|e|]; injection Hc as <- <-; [|done..].
  by rewrite reverse_cons, <- app_assoc.
Qed.

Lemma spec_reply calls : forall h j c, calls !! j = Some c ->
  (spec_run calls h).1 !! j = Some (spec_call c (spec_run (take j calls) h).2).1.
Proof.
  induction calls as [|c0 calls IH]; intros h j c Hj; [done|]. cbn [spec_run]. destruct j as [|j].
  - injection Hj as ->. cbn [take spec_run snd]. destruct (spec_call c h) as [reply h1]. by destruct (spec_run calls h1).
  - cbn [take spec_run]. destruct (spec_call c0 h) as [reply h1]. specialize (IH h1 j c Hj).
    destruct (spec_run calls h1) as [replies h2], (spec_run (take j calls) h1) as [replies' h2'] eqn:Ht. exact IH.
Qed.

Lemma lookup_report_unique r h : r ∈ h -> NoDup (map st_id h) -> lookup_report (st_id r) h = Some r.
Proof.
  induction h as [|r' h IH]; [by intros ?%elem_of_nil|]. rewrite lookup_report_cons. cbn [map].
  intros [-> |Hr]%elem_of_cons [Hn Hd]%NoDup_cons; [by rewrite decide_True|].
  rewrite decide_False; [by apply IH|]. intros He. apply Hn. rewrite He. by apply list_elem_of_fmap_2.
Qed.

Lemma accepted_ids calls : map st_id (omap accepted calls) `sublist_of` posted calls.
Proof.
  induction calls as [|c calls IH]; [done|]. unfold posted in *. cbn. destruct c as [id now ip report|id|]; cbn [accepted]; [|done..].
  destruct (validate_report validate report) as [[]|e|]; cbn; by constructor.
Qed.

Context {CL : CryptoLaws C}.

Lemma validate_report_total report : (forall k q r, validate k q r <> Panic) -> validate_report validate report <> Panic.
Proof using CL. intros Hv. unfold validate_report. destruct (_ <? _); [done|]. by apply validate_entries_total. Qed.

Lemma spec_run_total calls : (forall k q r, validate k q r <> Panic) -> forall h, Dropped ∉ (spec_run calls h).1.
Proof using CL.
  intros Hv. induction calls as [|c calls IH]; intros h; [by apply not_elem_of_nil|]. cbn [spec_run].
  destruct (spec_call c h) as [reply h1] eqn:Hc. specialize (IH h1). destruct (spec_run calls h1) as [replies h2].
  apply not_elem_of_cons. split; [|exact IH]. intros <-.
  destruct c as [id now ip report|id|]; cbn [spec_call] in Hc; [|by destruct (lookup_report id h)|done].
  pose proof (validate_report_total report Hv). by destruct (validate_report validate report).
Qed.

(** C30: What was accepted is kept.  If the response check never panics, the
    reporting server, from its start and whatever requests it gets, answers as a
    history of accepted reports would: it never drops a request, accepts exactly
    the valid reports, and finds under an identifier the last report accepted with
    it.  As the identifiers are unique, a report that was accepted is returned, with
    its sender and time, to every later request for it. *)
Theorem reports_kept (calls : list Call) :
  (forall k q r, validate k q r <> Panic) ->
  reporting_main calls = (spec_run calls []).1 /\ (Dropped ∉ reporting_main calls) /\
  (NoDup (posted calls) -> forall i j id now ip report, i < j ->
    calls !! i = Some (PostReport id now ip report) -> calls !! j = Some (GetReport id) ->
    validate_report validate report = Ok tt ->
    reporting_main calls !! i = Some (Created CREATED id) /\
    reporting_main calls !! j = Some (Found (mkStored id now ip report))).
Proof using CL.
  intros Hv. destruct (app_run_refines calls InMemoryStorage_new []) as [Hrun _]; [done|].
  unfold reporting_main. rewrite Hrun. split; [done|]. split; [by apply spec_run_total|].
  intros Hnd i j id now ip report Hij Hi Hj Hok. rewrite (spec_reply _ _ _ _ Hi), (spec_reply _ _ _ _ Hj).
  cbn [spec_call]. rewrite Hok. split; [done|]. cbn [fst]. rewrite spec_history, app_nil_r.
  rewrite (lookup_report_unique (mkStored id now ip report)); [done| |].
  - apply elem_of_reverse, list_elem_of_omap. exists (PostReport id now ip report). split; [|by cbn; rewrite Hok].
    apply (list_elem_of_lookup_2 _ i). by rewrite lookup_take_lt.
  - change (NoDup (st_id <$> reverse (omap accepted (take j calls)))). rewrite reverse_Permutation.
    eapply sublist_NoDup; [|apply accepted_ids]. rewrite <- (take_drop j calls) in Hnd. unfold posted in *.
    rewrite omap_app in Hnd. by apply NoDup_app in Hnd as [Hnd _].
Qed.
End app.

(** ** Example: a report is posted, and asked for twice *)
Lemma reports_kept_witness :
  exists report, reporting_main (D := rfc4648) accept_all [PostReport "01ARZ3" 5 "192.0.2.1" report; GetHealth; GetReport "01ARZ3"] !! 2 =
    Some (Found (mkStored "01ARZ3" 5 "192.0.2.1" report)).
Proof.
  destruct (report_accepted_iff (CL := toy_crypto_laws) (D := rfc4648) accept_all sample_violation _ _ _ _ _ _ _ _ _ _ 0 0
    first_reportable second_reportable eq_refl eq_refl) as (report & _ & Hiff).
  assert (validate_report (D := rfc4648) accept_all report = Ok tt) as Hok.
  { apply Hiff. split; [reflexivity|]. exists (zeroes 32). split; reflexivity. }
  exists report.
  destruct (reports_kept (CL := toy_crypto_laws) (D := rfc4648) accept_all
    [PostReport "01ARZ3" 5 "192.0.2.1" report; GetHealth; GetReport "01ARZ3"] ltac:(intros; discriminate)) as (_ & _ & Hkept).
  apply (Hkept ltac:(apply NoDup_singleton) 0 2 "01ARZ3" 5%Z "192.0.2.1" report); [lia|reflexivity|reflexivity|exact Hok].
Defined.
