(* ===== verification/RawFrame.v ===== *)
(** * Frames for the console dump (crates/roughenough-client/src/main.rs [RawFrameInfo])

    A second, tolerant reader of the frame and message headers, by positions in the
    bytes: every [bytes[i]] panics out of range.  It is compared with [Header], the
    reader of the library. *)
From stdpp Require Import list.
From S2P Require Import Prelude Text Errors Cursor Wire Tags Header.

Record RawFrameInfo := mkRawFrame {
  rf_magic : bytes;
  rf_frame_length : Z;
  rf_num_tags : Z;
  rf_offsets : list Z;
  rf_tags : list (Z * string);
  rf_values_start : nat;
}.
Definition MAX_TAGS : Z := 20.

(** [[bytes[i], bytes[i + 1], bytes[i + 2], bytes[i + 3]]] *)
Definition bytes4 {E} (bs : bytes) (i : nat) : res E bytes :=
  a ← index bs i; b ← index bs (i + 1); c ← index bs (i + 2); d ← index bs (i + 3);
  Ok [a; b; c; d].
(** The two loops: [n] words from a position on. *)
Fixpoint words_from {E} (n i start : nat) (bs : bytes) : res E (list bytes) :=
  match n with
  | O => Ok []
  | S n' => w ← bytes4 bs (start + i * 4); ws ← words_from n' (S i) start bs; Ok (w :: ws)
  end.

(** [s.trim_end_matches('\0')] *)
Fixpoint trim_end_nul (s : string) : string :=
  match s with
  | EmptyString => EmptyString
  | String c s' =>
      match trim_end_nul s' with
      | EmptyString => if Ascii.eqb c Ascii.zero then EmptyString else String c EmptyString
      | s'' => String c s''
      end
  end.
Definition raw_tag (tag_bytes : bytes) : Z * string :=
  (from_be_bytes tag_bytes, trim_end_nul (from_utf8_lossy tag_bytes)).

(** [parse]; its error is [None]. *)
Definition raw_parse (bs : bytes) : res unit RawFrameInfo :=
  if length bs <? 16 then Err tt
  else
    let magic := take 8 bs in
    frame_length ← bytes4 bs 8;
    let msg_start := 12 in
    num_tags ← bytes4 bs msg_start;
    let num_tags := from_le_bytes num_tags in
    if (num_tags =? 0)%Z || (MAX_TAGS <? num_tags)%Z then Err tt
    else
      let num_offsets := Z.to_nat (num_tags - 1) in
      let offsets_start := msg_start + 4 in
      let offsets_end := offsets_start + num_offsets * 4 in
      if length bs <? offsets_end then Err tt
      else
        offsets ← words_from num_offsets 0 offsets_start bs;
        let tags_start := offsets_end in
        let tags_end := tags_start + Z.to_nat num_tags * 4 in
        if length bs <? tags_end then Err tt
        else
          tags ← words_from (Z.to_nat num_tags) 0 tags_start bs;
          Ok (mkRawFrame magic (from_le_bytes frame_length) num_tags (map from_le_bytes offsets) (map raw_tag tags) tags_end).

(** [dump_raw_frame]; the text it prints is not kept. *)
Definition dump_raw_frame {E} (bs : bytes) : res E unit :=
  match raw_parse bs with Panic => Panic | _ => Ok tt end.

(** ** Reading by slices *)

Fixpoint words (n : nat) (bs : bytes) : list bytes :=
  match n with O => [] | S n' => take 4 bs :: words n' (drop 4 bs) end.

Lemma bytes4_ok {E} bs i : i + 4 <= length bs -> bytes4 (E := E) bs i = Ok (take 4 (drop i bs)).
Proof.
  intros Hi. pose proof (length_drop bs i) as Hl. unfold bytes4, index.
  replace (bs !! i) with (drop i bs !! 0) by (rewrite lookup_drop; f_equal; lia).
  rewrite <-!lookup_drop. destruct (drop i bs) as [|a [|b [|c [|d r]]]]; cbn in Hl; try lia. done.
Qed.
Lemma words_from_ok {E} start bs n : forall i, start + (i + n) * 4 <= length bs ->
  words_from (E := E) n i start bs = Ok (words n (drop (start + i * 4) bs)).
Proof.
  induction n as [|n IH]; intros i Hl; cbn [words_from words]; [done|].
  rewrite bytes4_ok by lia. cbn [mbind res_bind]. rewrite IH by lia. cbn [mbind res_bind].
  rewrite drop_drop. do 4 f_equal. lia.
Qed.

Lemma words_app {A} (f : A -> bytes) xs rest : (forall x, length (f x) = 4) ->
  words (length xs) (concat (map f xs) ++ rest) = map f xs.
Proof.
  intros Hf. induction xs as [|x xs IH]; cbn [length words map concat]; [done|].
  rewrite <-app_assoc, take_app_length', drop_app_length' by done. by rewrite IH.
Qed.

Lemma offsets_u32 os : forall prior, offsets_okb prior os = true -> Forall is_u32 os.
Proof.
  induction os as [|o os IH]; intros prior; cbn; [done|]. rewrite !andb_true_iff. intros ((((? & ?) & _) & _) & Hos%IH).
  apply Forall_cons. unfold is_u32. split; [lia|done].
Qed.

(** What the reader sees of a frame that starts with the header [h]. *)
Definition frame_info {N} (h : Header N) (len : Z) : RawFrameInfo :=
  mkRawFrame (to_be_bytes 8 FRAME_MAGIC) len (num_tags h) (offsets h)
    (map (fun t => raw_tag (Tag.wire_value t)) (tags h)) (12 + size_of_Header N).

Lemma raw_parse_header {N} (h : Header N) len rest : header_wf h -> N <= 20 -> is_u32 len ->
  raw_parse (to_be_bytes 8 FRAME_MAGIC ++ to_le_bytes 4 len ++ encode h ++ rest) = Ok (frame_info h len).
Proof.
  intros Hh HN Hlen. pose proof (length_encode_header h Hh) as Hle.
  destruct Hh as [[H1 _] Hnum Hol Htl Hok Htok]. unfold raw_parse.
  set (bs := to_be_bytes 8 FRAME_MAGIC ++ _).
  assert (length bs = 12 + length (encode h) + length rest) as Hl.
  { unfold bs. rewrite !length_app, length_to_be_bytes, length_to_le_bytes. lia. }
  assert (size_of_Header N = 4 + (N - 1) * 4 + N * 4) as Hsize.
  { rewrite <-Hle. cbn [encode Header_Encode].
    rewrite !length_app, length_to_le_bytes, length_encode_offsets, length_encode_tags. lia. }
  assert (drop 12 bs = encode h ++ rest) as Hd12.
  { unfold bs. rewrite app_assoc, drop_app_length'; [done|]. by rewrite length_app, length_to_be_bytes, length_to_le_bytes. }
  assert (drop 16 bs = encode_offsets (offsets h) ++ encode_tags (tags h) ++ rest) as Hd16.
  { change 16 with (12 + 4). rewrite <-drop_drop, Hd12. cbn [encode Header_Encode]. rewrite <-!app_assoc.
    apply drop_app_length'. by rewrite length_to_le_bytes. }
  destruct (Nat.ltb_spec (length bs) 16); [lia|].
  rewrite !bytes4_ok by lia. cbn [mbind res_bind].
  replace (take 4 (drop 12 bs)) with (to_le_bytes 4 (Z.of_nat N)).
  2: { rewrite Hd12. cbn [encode Header_Encode]. rewrite <-!app_assoc. symmetry. apply take_app_length'.
       by rewrite length_to_le_bytes. }
  rewrite (from_to_le_bytes_u32 (Z.of_nat N)) by (unfold is_u32; lia).
  destruct (Z.eqb_spec (Z.of_nat N) 0); [lia|]. unfold MAX_TAGS. destruct (Z.ltb_spec 20 (Z.of_nat N)); [lia|]. cbn [orb].
  replace (Z.to_nat (Z.of_nat N - 1)) with (length (offsets h)) by lia. rewrite Nat2Z.id.
  destruct (Nat.ltb_spec (length bs) (12 + 4 + length (offsets h) * 4)); [lia|].
  rewrite words_from_ok by lia. cbn [mbind res_bind].
  destruct (Nat.ltb_spec (length bs) (12 + 4 + length (offsets h) * 4 + N * 4)); [lia|].
  rewrite words_from_ok by lia. cbn [mbind res_bind]. unfold frame_info. f_equal.
  change (12 + 4 + 0 * 4) with 16. rewrite Hd16.
  replace (drop (12 + 4 + length (offsets h) * 4 + 0 * 4) bs) with (encode_tags (tags h) ++ rest).
  2: { replace (12 + 4 + length (offsets h) * 4 + 0 * 4) with (16 + length (offsets h) * 4) by lia.
       rewrite <-drop_drop, Hd16. symmetry. apply drop_app_length'. rewrite length_encode_offsets. lia. }
  pose proof (words_app (to_le_bytes 4) (offsets h) (encode_tags (tags h) ++ rest) (length_to_le_bytes 4)) as Ho.
  pose proof (words_app Tag.wire_value (tags h) rest ltac:(intros; apply length_to_be_bytes)) as Ht. rewrite Htl in Ht.
  unfold encode_offsets. rewrite Ho. unfold encode_tags. rewrite Ht, !map_map. f_equal.
  - replace (drop 8 bs) with (to_le_bytes 4 len ++ encode h ++ rest).
    2: { unfold bs. symmetry. apply drop_app_length'. by rewrite length_to_be_bytes. }
    rewrite take_app_length' by (by rewrite length_to_le_bytes). by apply from_to_le_bytes_u32.
  - done.
  - rewrite <-(map_id (offsets h)) at 2. apply map_ext_in. intros o Hin.
    apply from_to_le_bytes_u32. pose proof (offsets_u32 _ _ Hok) as Hu. rewrite Forall_forall in Hu. apply Hu. by apply list_elem_of_In in Hin.
  - lia.
Qed.

(** The dump reader is total: it never indexes out of the bytes. *)
Lemma raw_parse_total bs : raw_parse bs <> Panic.
Proof.
  unfold raw_parse. destruct (Nat.ltb_spec (length bs) 16); [done|].
  rewrite !bytes4_ok by lia. cbn [mbind res_bind]. destruct (_ || _); [done|].
  set (nt := Z.to_nat (from_le_bytes (take 4 (drop 12 bs)))). set (no := Z.to_nat (from_le_bytes (take 4 (drop 12 bs)) - 1)).
  destruct (Nat.ltb_spec (length bs) (12 + 4 + no * 4)); [done|].
  rewrite (words_from_ok _ _ no) by lia. cbn [mbind res_bind].
  destruct (Nat.ltb_spec (length bs) (12 + 4 + no * 4 + nt * 4)); [done|]. by rewrite words_from_ok by lia.
Qed.

(** The dump agrees with the parser.  [RawFrameInfo::parse] indexes no byte out of
    range, whatever it is given; of a frame with a well-formed header of at most 20
    tags it reads the header's tags and offsets, and the values start where the
    library's header ends. *)
Theorem raw_frame_agrees {N} (h : Header N) (len : Z) (rest : bytes) :
  (forall bs, raw_parse bs <> Panic) /\
  (header_wf h -> N <= 20 -> is_u32 len ->
   raw_parse (to_be_bytes 8 FRAME_MAGIC ++ to_le_bytes 4 len ++ encode h ++ rest) = Ok (frame_info h len)).
Proof. split; [exact raw_parse_total|apply raw_parse_header]. Qed.

Lemma raw_frame_agrees_witness :
  let h := @mkHeader 2 2 [4%Z] [Tag.SIG; Tag.NONC] in
  raw_parse (to_be_bytes 8 FRAME_MAGIC ++ to_le_bytes 4 24 ++ encode h ++ zeroes 8) =
    Ok (mkRawFrame (b_lit "ROUGHTIM") 24 2 [4%Z] [(1397311232%Z, "SIG"); (1313820227%Z, "NONC")] 28).
Proof.
  intros h. rewrite (proj2 (raw_frame_agrees h 24 (zeroes 8))); [reflexivity| |lia|unfold is_u32; lia].
  split; try reflexivity. cbn. lia.
Defined.
