(* ===== verification/Cli.v ===== *)
(** * The client's command line (crates/roughenough-client/src/main.rs, args.rs)

    Queries of one server, and of several with retries, reports and the setting of
    the clock.  [process::exit] is the error [Exit]; log lines and the text of the
    console dump are not modelled, but what computing them can do is.  The random
    source, files, jiff's timestamps and [clock_settime] are the class [CliWorld]; the
    network is [Transport.Net]. *)
From Stdlib Require Import Ascii.
From S2P Require Import Prelude Text Errors Cursor Wire Tags Header FixedTags Versions Path Cert Srep Request Response.
From S2P Require Import Crypto Keys Metrics Responses Requests Encoding Validation EndToEnd Measurement Client Transport ServerList.
From S2P Require Import Reporting RawFrame.

Inductive CliProtocol : Type := CV08 | CV14.

Record CliArgs := mkCliArgs {
  ca_hostname : option string;
  ca_port : option Z;
  ca_epoch : bool;
  ca_time_format : string;
  ca_pub_key : option string;
  ca_num_requests : nat;
  ca_protocol : CliProtocol;
  ca_server_list : option string;
  ca_num_unique_servers : nat;
  ca_num_measurement_rounds : nat;
  ca_causality_violation_retries : Z;
  ca_allow_untrusted_time : bool;
  ca_quiet : bool;
  ca_send_report : bool;
  ca_report_timeout : Z;
  ca_report_retries : Z;
  ca_set_clock : bool;
  ca_timeout : Z;
  ca_verbose : Z;
  ca_zulu : bool;
  ca_dump_console : bool;
  ca_dump_dir : option string;
}.
Definition ca_protocol_version (a : CliArgs) : ProtocolVersion :=
  match ca_protocol a with CV08 => RfcDraft08 | CV14 => RfcDraft14 end.

Inductive Exit : Type := ExitCode (code : Z).

Inductive CliError : Type :=
| CliIo
| CliClient (e : ClientError)
| CliServerList (e : ListError)
| CliDecode (e : DecodeError).

Class CliWorld (W : Type) := {
  cw_random_bytes : W -> bytes * W;
  cw_create_dir_all : string -> W -> bool * W;
  cw_write_dump : string -> string -> bytes -> W -> bool * W;
  (** [Timestamp::from_second] *)
  cw_timestamp : Z -> bool;
  (** whether [strftime] has a text for the format; in UTC, or in the system's zone *)
  cw_strftime : bool -> string -> Z -> bool;
  cw_clock_settime : Z -> W -> W;
}.

Section cli.
Context {P : Profile} {C : CryptoLib} {D : DataEncoding} {W : Type} {N : Net W} {CW : CliWorld W} {LI : ListIo W} {RN : ReportNet W}.
Context (reporting : bool).

Abbreviation IO := (io W Exit).

(** An error that is logged before [exit(-1)]. *)
Definition or_exit {E A} (m : io W E A) : IO A := fun w =>
  match m w with
  | (Ok a, w') => (Ok a, w')
  | (Err _, w') => (Err (ExitCode (-1)), w')
  | (Panic, w') => (Panic, w')
  end.
(** An error that is only logged. *)
Definition logged {E A} (m : io W E A) : IO unit := fun w =>
  match m w with (Panic, w') => (Panic, w') | (_, w') => (Ok tt, w') end.
Definition env {A} (f : W -> A * W) : IO A := fun w => let (a, w') := f w in (Ok a, w').
Definition require {A} (x : option A) : IO A := or_exit (lift (ok_or x tt)).
Definition require_ok (ok : bool) : IO unit := or_exit (lift (if ok then Ok tt else Err tt)).

(** [x as i64] on a [u64] *)
Definition as_i64 (z : Z) : Z := if (z <? 2 ^ 63)%Z then z else (z - 2 ^ 64)%Z.
(** [Timestamp::from_second(x as i64).unwrap()] *)
Definition timestamp {E} (x : Z) : res E Z := if cw_timestamp (as_i64 x) then Ok (as_i64 x) else Panic.

(** [format!] panics on a format that [strftime] refuses. *)
Definition display_measurement {E} (args : CliArgs) (measurement : Measurement) : res E unit :=
  seconds ← timestamp (midpoint measurement);
  if ca_epoch args then Ok tt
  else if cw_strftime (ca_zulu args) (ca_time_format args) seconds then Ok tt else Panic.

Definition display_violation {E} (violation : CausalityViolation) : res E unit :=
  let m1 := measurement_i violation in
  let m2 := measurement_j violation in
  m1_lower ← u64_sub (midpoint m1) (radius m1);
  m2_upper ← u64_add (midpoint m2) (radius m2);
  _ ← timestamp m1_lower;
  _ ← timestamp (midpoint m1);
  _ ← timestamp m2_upper;
  _ ← timestamp (midpoint m2);
  Ok tt.

(** ** One server *)

Definition write_bytes_to_file (dir suffix : string) (bs : bytes) : IO unit :=
  ok ← env (cw_write_dump dir suffix bs); require_ok ok.

(** The body of the loop over [num_requests]. *)
Definition single_request (args : CliArgs) (client : Client (W := W)) : IO Z :=
  r ← or_exit (query_raw cw_random_bytes client);
  _ ← match ca_dump_dir args with
      | Some dir => _ ← write_bytes_to_file dir "request.bin" r.1.2; write_bytes_to_file dir "response.bin" r.2
      | None => mret tt
      end;
  _ ← (if ca_dump_console args then _ ← lift (dump_raw_frame r.1.2); lift (dump_raw_frame r.2) else mret tt);
  measurement ← or_exit (lift r.1.1);
  _ ← lift (display_measurement args measurement);
  mret (midpoint measurement).
Fixpoint single_requests (n : nat) (args : CliArgs) (client : Client (W := W)) (last : Z) : IO Z :=
  match n with
  | O => mret last
  | S n' => t ← single_request args client; single_requests n' args client t
  end.

Definition single_client (args : CliArgs) (hostname : string) (sock_addr : SocketAddr) : IO (Client (W := W)) :=
  let b := ClientBuilder_new sock_addr in
  let b := cb_set_hostname hostname b in
  let b := cb_set_timeout (from_secs (ca_timeout args)) b in
  let b := cb_set_protocol_version (ca_protocol_version args) b in
  b ← match ca_pub_key args with
      | Some encoded_key => pub_key ← or_exit (lift (try_decode_key encoded_key)); mret (cb_set_public_key pub_key b)
      | None => mret b
      end;
  expect_io (client_build open_udp b).

Definition query_single_server (args : CliArgs) (hostname : string) : IO Z :=
  port ← lift (match ca_port args with Some p => Ok p | None => Panic end);
  addrs ← env (to_socket_addrs (host_port hostname port));
  addrs ← require addrs;
  sock_addr ← require (head addrs);
  client ← single_client args hostname sock_addr;
  _ ← match ca_dump_dir args with
      | Some dir => ok ← env (cw_create_dir_all dir); require_ok ok
      | None => mret tt
      end;
  single_requests (ca_num_requests args) args client 0.

(** ** Several servers *)

Definition resolve_first (addr_str host : string) : io W CliError SocketAddr := fun w =>
  match to_socket_addrs addr_str w with
  | (None, w') => (Err CliIo, w')
  | (Some [], w') => (Err (CliClient DnsLookupFailed), w')
  | (Some (addr :: _), w') => (Ok addr, w')
  end.

Definition client_of_server (args : CliArgs) (server : Server) : io W CliError (Client (W := W)) :=
  address ← lift (first_address server);
  host ← lift (ad_host address);
  port ← lift (ad_port address);
  sock_addr ← resolve_first (host_port host port) host;
  public_key ← lift (map_err CliDecode (try_decode_key (sv_public_key server)));
  version ← lift (sv_version_of server);
  let b := ClientBuilder_new sock_addr in
  let b := cb_set_hostname (sv_name server) b in
  let b := cb_set_timeout (from_secs (ca_timeout args)) b in
  let b := cb_set_public_key public_key b in
  let b := cb_set_protocol_version version b in
  expect_io (client_build open_udp b).

Fixpoint clients_of_servers (args : CliArgs) (servers : list Server) : io W CliError (list (Client (W := W))) :=
  match servers with
  | [] => mret []
  | server :: rest =>
      client ← client_of_server args server;
      clients ← clients_of_servers args rest;
      mret (client :: clients)
  end.

(** The error of [choose_random] in the error of the command line. *)
Definition chosen (server_list : ServerList) (n : nat) : io W CliError (list Server) := fun w =>
  let (r, w') := choose_random server_list n w in (map_err CliServerList r, w').
Definition clients_from_list (server_list : ServerList) (args : CliArgs) : io W CliError (list (Client (W := W))) :=
  target_servers ← chosen server_list (ca_num_unique_servers args);
  clients_of_servers args target_servers.

Fixpoint display_violations (violations : list CausalityViolation) : IO unit :=
  match violations with
  | [] => mret tt
  | v :: vs => _ ← lift (display_violation v); display_violations vs
  end.

Fixpoint send_reports (args : CliArgs) (report_url : string) (violations : list CausalityViolation) : IO unit :=
  match violations with
  | [] => mret tt
  | v :: vs =>
      report ← lift (from_violation v);
      _ ← logged (submit reporting report report_url (ca_report_timeout args) (ca_report_retries args));
      send_reports args report_url vs
  end.

(** One attempt: the last midpoint, and whether there were violations. *)
Definition attempt_sequence (args : CliArgs) (server_list : ServerList) : IO (Z * list CausalityViolation) :=
  clients ← or_exit (clients_from_list server_list args);
  sequence ← or_exit (lift (MeasurementSequence_new clients));
  measurements ← or_exit (sequence_run cw_random_bytes sequence (ca_num_measurement_rounds args));
  last_measurement ← lift (match last measurements with Some m => Ok m | None => Panic end);
  violations ← lift (validate_causality measurements);
  mret (midpoint last_measurement, violations).

Fixpoint attempts (n : nat) (args : CliArgs) (server_list : ServerList) (last_midpoint : Z) : IO Z :=
  match n with
  | O => if ca_allow_untrusted_time args then mret last_midpoint else throw (ExitCode 1)
  | S n' =>
      r ← attempt_sequence args server_list;
      match r.2 with
      | [] => mret r.1
      | violations =>
          _ ← display_violations violations;
          _ ← match (if ca_send_report args then sl_reporting_url server_list else None) with
              | Some report_url => send_reports args report_url violations
              | None => mret tt
              end;
          attempts n' args server_list r.1
      end
  end.

(** [1 + args.causality_violation_retries] is a [u8]. *)
Definition query_multiple_servers (args : CliArgs) (list_file : string) : IO Z :=
  server_list ← or_exit (from_file list_file);
  max_attempts ← lift (u8_add 1 (ca_causality_violation_retries args));
  attempts (Z.to_nat max_attempts) args server_list 0.

(** ** [main] *)

Definition set_system_clock (midpoint : Z) : IO unit :=
  if (1500000000 <? midpoint)%Z then env (fun w => (tt, cw_clock_settime (as_i64 midpoint) w)) else lift Panic.

Definition cli_main (args : CliArgs) : IO unit :=
  midpoint ← match ca_hostname args, ca_server_list args with
             | Some hostname, None => query_single_server args hostname
             | None, Some list_file => query_multiple_servers args list_file
             | _, _ => throw (ExitCode (-1))
             end;
  if ca_set_clock args then set_system_clock midpoint else mret tt.

(** ** The time of several servers *)

Context {CL : CryptoLaws C} {LL : ListIoLaws LI}.
Context {NL : NetLaws N}.
(** What the client's own environment keeps to. *)
Class CliLaws : Prop := { cl_random_length : forall w, length (cw_random_bytes w).1 = 32 }.
Context {CWL : CliLaws}.

Lemma single_client_spec args hostname addr w :
  match single_client args hostname addr w with
  | (Ok c, _) => ca_timeout args <> 0%Z /\ client_ok c /\ key_of (ca_pub_key args) c /\
      client_protocol_version c = ca_protocol_version args
  | _ => True
  end.
Proof using CL NL.
  unfold single_client. set (b := cb_set_protocol_version _ _).
  assert (forall b', cb_transport b' = None -> cb_timeout b' = Some (from_secs (ca_timeout args)) ->
    match cb_public_key b' with Some key => length (fixed_bytes key) = 32 | None => True end ->
    match expect_io (F := Exit) (client_build open_udp b') w with
    | (Ok c, _) => ca_timeout args <> 0%Z /\ client_ok c /\ client_public_key c = cb_public_key b' /\
        client_protocol_version c = cb_protocol_version b'
    | _ => True
    end) as Hbuild.
  { intros b' Ht Htime Hk. unfold expect_io. destruct (client_build open_udp b' w) as [[c|e|] w2] eqn:Hb; cbn; [|done|done].
    pose proof (client_build_udp b' w Ht Hk) as Hs. rewrite Hb in Hs. destruct Hs as (Hc & Hp & Hv & _).
    split; [|done]. intros Hz. pose proof (open_udp_zero (from_secs (ca_timeout args)) (cb_server b') w) as Hu.
    rewrite Hz in Hu at 1. specialize (Hu eq_refl). revert Hb. unfold client_build, expect_io, mbind at 1, io_bind at 1.
    rewrite Ht, Htime. cbn [default].
    by destruct (open_udp _ _ w) as [[u|e|] w3]; cbn in Hu |- *. }
  unfold mbind, io_bind, lift, mret, io_ret, or_exit. destruct (ca_pub_key args) as [text|]; cbn [key_of].
  - destruct (try_decode_key text) as [key|e|] eqn:Hkey; cbn; [|done|done].
    specialize (Hbuild (cb_set_public_key key b) eq_refl eq_refl (try_decode_key_length _ _ Hkey)).
    destruct (expect_io _ w) as [[c|e|] w2]; [|done|done]. destruct Hbuild as (Hz & Hc & Hp & Hv).
    split_and!; [done|done|by exists key|done].
  - specialize (Hbuild b eq_refl eq_refl I).
    destruct (expect_io _ w) as [[c|e|] w2]; [|done|done]. exact Hbuild.
Qed.

Lemma single_request_spec args c w t w' : client_ok c -> single_request args c w = (Ok t, w') ->
  exists m, measured_by c m /\ midpoint m = t.
Proof using CL CWL.
  intros Hc. unfold single_request, mbind at 1, io_bind at 1, or_exit at 1.
  pose proof (query_raw_spec cw_random_bytes cl_random_length c w Hc) as Hq.
  destruct (query_raw cw_random_bytes c w) as [[[[out rq] rs]|e|] w1]; [|done|done]. cbn [fst snd].
  unfold mbind, io_bind. match goal with |- context [match ?x w1 with _ => _ end] => destruct (x w1) as [[u|e|] w2] end; [|done|done].
  match goal with |- context [match ?x w2 with _ => _ end] => destruct (x w2) as [[u2|e|] w3] end; [|done|done].
  destruct out as [m|e|]; [|done|done]. cbn. destruct (display_measurement args m) as [[]|e|]; [|done|done].
  intros [= <- <-]. exists m. split; [|done]. by eapply query_outcome_measured.
Qed.

Lemma single_requests_spec args c : client_ok c -> forall n last w t w',
  single_requests n args c last w = (Ok t, w') ->
  n = 0 /\ t = last \/ exists m, measured_by c m /\ midpoint m = t.
Proof using CL CWL.
  intros Hc. induction n as [|n IH]; intros last w t w'; cbn [single_requests].
  { intros [= <- <-]. by left. }
  unfold mbind, io_bind. destruct (single_request args c w) as [[t1|e|] w1] eqn:Hr; [|done|done].
  intros [[-> ->]|?]%IH; right; [|done]. by eapply single_request_spec.
Qed.

(** The client of a server of the list: at an address to which the server's host and
    port resolve, over a socket with the timeout asked for, and with the server's
    name, protocol version and public key, under which it validates. *)
Record from_server (args : CliArgs) (server : Server) (c : Client (W := W)) : Prop := {
  fs_usable : usable c;
  fs_name : client_hostname c = sv_name server;
  fs_version : sv_version_of (E := CliError) server = Ok (client_protocol_version c);
  fs_key : exists key, try_decode_key (sv_public_key server) = Ok key /\ client_public_key c = Some key /\
    client_validator c = new_with_key key;
  fs_address : exists a host port, first_address (E := CliError) server = Ok a /\ ad_host (E := CliError) a = Ok host /\
    ad_port (E := CliError) a = Ok port /\
    exists addrs w w', to_socket_addrs (host_port host port) w = (Some (client_server c :: addrs), w');
  fs_transport : exists w w', open_udp (from_secs (ca_timeout args)) (client_server c) w = (Ok (client_transport c), w');
}.

Lemma client_of_server_from args server w client w' :
  client_of_server args server w = (Ok client, w') -> from_server args server client.
Proof using CL NL.
  unfold client_of_server, resolve_first, mbind, io_bind, lift, mret, io_ret.
  destruct (first_address server) as [a|e|] eqn:Ha; [|done|done].
  destruct (ad_host a) as [host|e|] eqn:Hhost; [|done|done]. destruct (ad_port a) as [port|e|] eqn:Hport; [|done|done].
  destruct (to_socket_addrs (host_port host port) w) as [[[|sock_addr addrs]|] w1] eqn:Hr; [done| |done].
  destruct (try_decode_key (sv_public_key server)) as [key|e|] eqn:Hkey; [|done|done]. cbn [map_err].
  destruct (sv_version_of server) as [version|e|] eqn:Hv; [|done|done].
  set (b := cb_set_protocol_version _ _). unfold expect_io.
  pose proof (client_build_udp b w1 eq_refl (try_decode_key_length _ _ Hkey)) as Hb.
  destruct (client_build open_udp b w1) as [[c|e|] w2]; [|done|done]. cbn [expect].
  intros [= <- <-]. destruct Hb as (Hc & Hk & Hver & Hs & Hn & Ht). cbn in Hk, Hver, Hs, Hn, Ht.
  split; [split; [done|by rewrite Hk]|done|by rewrite Hver| | |by rewrite Hs; eauto].
  - exists key. split; [done|]. split; [done|]. pose proof (co_key _ Hc) as Hck. rewrite Hk in Hck. apply Hck.
  - exists a, host, port. split_and!; [done..|]. rewrite Hs. eauto.
Qed.

Lemma clients_of_servers_from args servers : forall w clients w',
  clients_of_servers args servers w = (Ok clients, w') -> Forall2 (from_server args) servers clients.
Proof using CL NL.
  induction servers as [|server rest IH]; intros w clients w'; cbn [clients_of_servers]; unfold mbind, io_bind, mret, io_ret.
  { intros [= <- <-]. by apply Forall2_nil. }
  destruct (client_of_server args server w) as [[c|e|] w1] eqn:Hc; [|done|done].
  destruct (clients_of_servers args rest w1) as [[cs|e|] w2] eqn:Hcs; [|done|done].
  intros [= <- <-]. apply Forall2_cons. split; [by eapply client_of_server_from|by eapply IH].
Qed.

(** C19: The time of one server.  When a query of one server returns a time, the timeout
    was not zero, and either no request was asked for and the time is zero, or the
    time is the midpoint of a measurement that a client of the protocol version
    asked for made and validated, with the public key if one was given. *)
Theorem single_server_time (args : CliArgs) (hostname : string) (w : W) (t : Z) (w' : W) :
  query_single_server args hostname w = (Ok t, w') ->
  ca_timeout args <> 0%Z /\
  (ca_num_requests args = 0 /\ t = 0%Z \/
   exists (c : Client (W := W)) m, client_ok c /\ key_of (ca_pub_key args) c /\ client_protocol_version c = ca_protocol_version args /\
     measured_by c m /\ midpoint m = t).
Proof using CL CWL NL.
  unfold query_single_server, mbind, io_bind, lift, env, require. intros H.
  destruct (ca_port args) as [port|]; [|done].
  destruct (to_socket_addrs _ w) as [[addrs|] w1]; [|done]. cbn in H.
  destruct addrs as [|addr addrs]; [done|]. cbn in H.
  pose proof (single_client_spec args hostname addr w1) as Hb.
  destruct (single_client args hostname addr w1) as [[c|e|] w2]; [|done|done]. destruct Hb as (Hz & Hc & Hk & Hv).
  split; [done|]. match type of H with context [match ?m w2 with _ => _ end] => destruct (m w2) as [[[]|e|] w3] end; [|done|done].
  destruct (single_requests_spec args c Hc (ca_num_requests args) 0 w3 t w' H) as [[-> ->]|(m & Hm & Ht)]; [by left|].
  right. by exists c, m.
Qed.

(** What an attempt that ends at [w'] has measured, from [w] on: a chain of validated
    measurements of as many servers of the list as were asked for, each by its own
    client and once per round. *)
Record attempted (args : CliArgs) (server_list : ServerList) (w : W) (t : Z) (violations : list CausalityViolation)
    (servers : list Server) (clients : list (Client (W := W))) (ms : list Measurement) (w' : W) : Prop := {
  at_servers : exists rest, servers ++ rest ≡ₚ sl_servers server_list;
  at_number : length servers = ca_num_unique_servers args /\ MIN_SERVERS <= length servers;
  at_clients : Forall2 (from_server args) servers clients;
  at_chain : chain_from cw_random_bytes w None (concat (replicate (ca_num_measurement_rounds args) clients)) ms w';
  at_causal : validate_causality (E := Exit) ms = Ok violations;
  at_last : exists m, last ms = Some m /\ midpoint m = t;
}.

Lemma clients_from_list_spec args server_list w clients w' :
  clients_from_list server_list args w = (Ok clients, w') ->
  exists servers, Forall2 (from_server args) servers clients /\ length servers = ca_num_unique_servers args /\
    exists rest, servers ++ rest ≡ₚ sl_servers server_list.
Proof using CL LL NL.
  unfold clients_from_list, mbind, io_bind, chosen, choose_random.
  destruct (Nat.ltb_spec (length (sl_servers server_list)) (ca_num_unique_servers args)) as [|Hn]; [done|].
  pose proof (shuffle_perm (sl_servers server_list) w) as Hp.
  destruct (shuffle (sl_servers server_list) w) as [servers w1]. cbn in Hp |- *.
  intros Hf%clients_of_servers_from. exists (take (ca_num_unique_servers args) servers). split; [done|].
  split; [rewrite length_take, Hp; lia|]. exists (drop (ca_num_unique_servers args) servers). by rewrite take_drop.
Qed.

Lemma attempt_sequence_spec args server_list w t violations w' :
  attempt_sequence args server_list w = (Ok (t, violations), w') ->
  exists servers clients ms w1, attempted args server_list w1 t violations servers clients ms w'.
Proof using CL CWL LL NL.
  unfold attempt_sequence, mbind, io_bind, or_exit, lift, mret, io_ret.
  destruct (clients_from_list server_list args w) as [[clients|e|] w1] eqn:Hc; [|done|done].
  destruct (clients_from_list_spec _ _ _ _ _ Hc) as (servers & Hf & Hl & Hp).
  pose proof (Forall2_length _ _ _ Hf) as Hlen.
  assert (Forall usable clients) as Hu by (clear -Hf; induction Hf as [|? ? ? ? [] _ IH]; by constructor).
  unfold MeasurementSequence_new. destruct (Nat.ltb_spec (length clients) MIN_SERVERS) as [|Hmin]; [done|].
  unfold sequence_run. destruct (forallb _ _); [|done]. cbn [ms_clients].
  pose proof (run_rounds_spec cw_random_bytes cl_random_length clients Hu (ca_num_measurement_rounds args) None [] w1 ltac:(done)) as Hr.
  destruct (run_rounds cw_random_bytes (ca_num_measurement_rounds args) clients None [] w1) as [[ms|e|] w2]; [|done|done].
  destruct Hr as (ms' & -> & Hch). cbn [app].
  destruct (last ms') as [m|] eqn:Hlast; [|done].
  destruct (validate_causality ms') as [vs|e|] eqn:Hv; [|done|done].
  intros [= <- <- <-]. exists servers, clients, ms', w1. split; try done; [split; [done|by rewrite Hlen]|by exists m].
Qed.

(** C18: The time of several servers is causal.  Without [--allow-untrusted-time], when
    the query of a server list returns a time, an attempt, the last thing the
    query did, chose the number of servers asked for, at least three, from the list
    in the file; for each it made a client at the server's address, of the server's
    protocol version, that validates under the server's public key from the list; and
    with these clients, one after the other and once per round, it made a chain of
    measurements over the network, each validated by its own client, in which no
    pair violates causality.  The time is the last one's midpoint. *)
Theorem multiple_servers_time (args : CliArgs) (list_file : string) (w : W) (t : Z) (w' : W) :
  ca_allow_untrusted_time args = false -> query_multiple_servers args list_file w = (Ok t, w') ->
  exists server_list w0, from_file list_file w = (Ok server_list, w0) /\
  exists servers clients ms w1, attempted args server_list w1 t [] servers clients ms w'.
Proof using CL CWL LL NL.
  intros Hun. unfold query_multiple_servers, or_exit, mbind, io_bind at 1.
  destruct (from_file list_file w) as [[server_list|e|] w1]; [|done|done]. intros Hq. exists server_list, w1. split; [done|].
  revert Hq. unfold io_bind, lift. destruct (u8_add 1 (ca_causality_violation_retries args)) as [n|e|]; [|done|done].
  generalize (Z.to_nat n) as k. intros k. generalize 0%Z as t0. clear n. revert w1.
  induction k as [|k IH]; intros w1 t0; cbn [attempts]; [by rewrite Hun|].
  unfold mbind, io_bind at 1. destruct (attempt_sequence args server_list w1) as [[[t1 vs]|e|] w2] eqn:Ha; [|done|done].
  cbn [snd fst]. destruct vs as [|v vs].
  - intros [= <- <-]. by eapply attempt_sequence_spec.
  - unfold io_bind. destruct (display_violations (v :: vs) w2) as [[[]|e|] w3]; [|done|done].
    match goal with |- context [match ?m w3 with _ => _ end] => destruct (m w3) as [[[]|e|] w4] end; [|done|done].
    apply IH.
Qed.

(** A computation that cannot fail but by a panic, before one that does. *)
Definition no_err {E A} (m : res E A) : Prop := match m with Err _ => False | _ => True end.
Lemma bind_panics {E A B} (m : res E A) (k : A -> res E B) : no_err m -> (forall a, k a = Panic) -> (m ≫= k) = Panic.
Proof using Type. destruct m as [a|e|]; [intros _ Hk; apply Hk|done|done]. Qed.
Lemma u64_sub_no_err {E} a b : no_err (u64_sub (E := E) a b).
Proof using Type. unfold u64_sub. destruct (_ <=? _)%Z; [done|]. by destruct debug_build. Qed.
Lemma u64_add_no_err {E} a b : no_err (u64_add (E := E) a b).
Proof using Type. unfold u64_add. destruct (_ <=? _)%Z; [done|]. by destruct debug_build. Qed.
Lemma timestamp_no_err {E} x : no_err (timestamp (E := E) x).
Proof using Type. unfold timestamp. by destruct (cw_timestamp _). Qed.

(** A server can silence its report.  When a violation involves a measurement whose
    midpoint is not a time that can be displayed (jiff's timestamps end with the year
    9999), the client panics while it displays the violation: no report is
    sent, no further attempt is made, and [--allow-untrusted-time] is of no use. *)
Theorem liar_silences_report (args : CliArgs) (server_list : ServerList) (n : nat) (t0 t : Z) (v : CausalityViolation)
    (vs : list CausalityViolation) (w w' : W) :
  (forall s, cw_timestamp s = true -> (s <= 253402207200)%Z) ->
  attempt_sequence args server_list w = (Ok (t, v :: vs), w') ->
  (253402207200 < midpoint (measurement_j v) < 2 ^ 63 \/ 253402207200 < midpoint (measurement_i v) < 2 ^ 63)%Z ->
  attempts (S n) args server_list t0 w = (Panic, w').
Proof using Type.
  intros Hts Ha Hm. cbn [attempts]. unfold mbind at 1, io_bind at 1. rewrite Ha. cbn [snd fst].
  assert (forall E x, (253402207200 < x < 2 ^ 63)%Z -> timestamp (E := E) x = Panic) as Hp.
  { intros E x Hx. unfold timestamp, as_i64. destruct (Z.ltb_spec x (2 ^ 63)); [|lia].
    destruct (cw_timestamp x) eqn:Hc; [|done]. apply Hts in Hc. lia. }
  assert (display_violation (E := Exit) v = Panic) as Hd.
  { unfold display_violation. apply bind_panics; [apply u64_sub_no_err|intros m1_lower].
    apply bind_panics; [apply u64_add_no_err|intros m2_upper]. apply bind_panics; [apply timestamp_no_err|intros _].
    destruct Hm as [Hm|Hm]; [|by rewrite (Hp _ _ Hm)].
    do 2 (apply bind_panics; [apply timestamp_no_err|intros _]). by rewrite (Hp _ _ Hm). }
  unfold display_violations, mbind, io_bind, lift. by rewrite Hd.
Qed.

(** 255 retries are none.  The number of attempts is a [u8]: with 255 retries the
    client panics in a build with overflow checks, and in a release build it queries
    no server, and gives up or, with [--allow-untrusted-time], returns a
    time of zero. *)
Theorem retries_255 (args : CliArgs) (list_file : string) (server_list : ServerList) (w w' : W) :
  ca_causality_violation_retries args = 255%Z -> from_file list_file w = (Ok server_list, w') ->
  query_multiple_servers args list_file w =
    ((if debug_build then Panic else if ca_allow_untrusted_time args then Ok 0%Z else Err (ExitCode 1)), w').
Proof using Type.
  intros Hr Hl. unfold query_multiple_servers, mbind, io_bind, or_exit. rewrite Hl, Hr. unfold lift.
  change (u8_add 1 255) with (if debug_build then Panic (E := Exit) (A := Z) else Ok 0%Z).
  destruct debug_build; [done|]. change (Z.to_nat 0) with 0. cbn [attempts]. by destruct (ca_allow_untrusted_time args).
Qed.
End cli.

(** ** Examples: an internet of servers whose clocks stand still *)

(** The state is the last datagram sent, with its destination. *)
Abbreviation Sim := (SocketAddr * bytes)%type.
Definition nowhere : Sim := (V4 0 0, []).
Definition may_wait (timeout : option Duration) : bool :=
  match timeout with Some d => negb (duration_is_zero d) | None => true end.
Definition internet (clocks : SocketAddr -> Z) (v : ProtocolVersion) : Net Sim := {|
  to_socket_addrs name w := (Some [V4 0 (if String.eqb name "a:2002" then 1 else 2)], w);
  UdpSocket := unit;
  udp_bind _ w := (Some tt, w);
  udp_set_read_timeout _ timeout w := (may_wait timeout, w);
  udp_set_write_timeout _ timeout w := (may_wait timeout, w);
  udp_send_to _ bs addr w := (Some (length bs), (addr, bs));
  udp_recv_from _ buf w := let frame := sample_answer (clocks w.1) v w.2 in
    let count := Nat.min (length frame) (length buf) in
    (inr (count, w.1), take count frame ++ drop count buf, w);
  trace_enabled := true;
|}.
Definition sample_cli : CliWorld Sim := {|
  cw_random_bytes w := (zeroes 32, w);
  cw_create_dir_all _ w := (true, w);
  cw_write_dump _ _ _ w := (true, w);
  cw_timestamp s := (s <=? 253402207200)%Z;
  cw_strftime _ _ _ := true;
  cw_clock_settime _ w := w;
|}.
(** The first server's clock is in the year 33658. *)
Definition honest (addr : SocketAddr) : Z := 1700000000.
Definition one_liar (addr : SocketAddr) : Z := match addr with V4 _ 1 => 1000000000000 | _ => 1700000000 end.
Definition sample_server (name : string) : Server :=
  mkServer name "1" None "ed25519" "0000000000000000000000000000000000000000000000000000000000000000" [mkAddress Udp (name +:+ ":2002")].
Definition three_servers : ServerList := mkServerList [sample_server "a"; sample_server "b"; sample_server "c"] None None.
Definition sample_files : ListIo Sim := {|
  read_to_string _ w := (Some "servers.json", w);
  json_from_str _ := Some three_servers;
  shuffle servers w := (servers, w);
|}.
Definition sample_reports : ReportNet Sim := {| post_json _ _ _ w := (true, w); sleep_secs _ w := w |}.
Definition sample_cli_args (retries : Z) : CliArgs :=
  mkCliArgs None None false "" None 1 CV14 (Some "servers.json") 3 2 retries false false true 5 0 true 2 0 false false None.

Lemma sample_cli_laws : CliLaws (CW := sample_cli).
Proof. by split. Qed.
Lemma internet_laws clocks v : NetLaws (internet clocks v).
Proof.
  split.
  - intros s buf w n addr buf' w' H. cbn in H. injection H as <- _ <- _. rewrite length_app, length_take, length_drop. lia.
  - intros s d w Hd. cbn. by rewrite Hd.
Qed.
Lemma sample_files_laws : ListIoLaws sample_files.
Proof. by split. Qed.

(** Three servers, two rounds. *)
Abbreviation sample_query retries := (
  query_multiple_servers (P := false) (D := rfc4648) (N := internet honest RfcDraft14) (CW := sample_cli) (LI := sample_files) (RN := sample_reports) true
    (sample_cli_args retries) "servers.json" nowhere).

Lemma multiple_servers_time_witness :
  exists w', sample_query 1 = (Ok 1700000000%Z, w') /\
  exists servers clients ms w1,
    attempted (P := false) (D := rfc4648) (N := internet honest RfcDraft14) (CW := sample_cli) (sample_cli_args 1) three_servers w1
      1700000000 [] servers clients ms w' /\ length ms = 6.
Proof.
  destruct (sample_query 1) as [r w'] eqn:Hq. exists w'.
  assert (r = Ok 1700000000%Z) as ->.
  { change r with (r, w').1. rewrite <-Hq. vm_compute. reflexivity. }
  split; [reflexivity|].
  destruct (multiple_servers_time (P := false) (D := rfc4648) (RN := sample_reports) (CL := toy_crypto_laws) (LL := sample_files_laws) (CWL := sample_cli_laws) (NL := internet_laws honest RfcDraft14)
    true (sample_cli_args 1) "servers.json" nowhere 1700000000 w' eq_refl Hq) as (l & w0 & Hl & servers & clients & ms & w1 & Ha).
  assert (l = three_servers) as -> by (assert (from_file (L := sample_files) "servers.json" nowhere = (Ok three_servers, nowhere)) as Hf
    by (vm_compute; reflexivity); rewrite Hf in Hl; by injection Hl).
  exists servers, clients, ms, w1. split; [exact Ha|].
  destruct Ha as [_ [Hn _] Hf Hch _ _]. apply Forall2_length in Hf. apply chain_from_length in Hch.
  rewrite Hch. cbn [replicate concat ca_num_measurement_rounds sample_cli_args] in *. cbn in Hn. rewrite !length_app. cbn. lia.
Defined.

Abbreviation sample_single timeout := (
  query_single_server (D := rfc4648) (N := internet honest RfcDraft14) (CW := sample_cli)
    (mkCliArgs (Some "a") (Some 2002%Z) false "" (Some "0000000000000000000000000000000000000000000000000000000000000000") 2 CV14 None 3 2 0 false
       false false 5 0 true timeout 0 false true None) "a" nowhere).
Lemma single_server_time_witness :
  (sample_single 0).1 = Panic /\
  exists w', sample_single 2 = (Ok 1700000000%Z, w') /\
  exists (c : Client (W := Sim)) m, client_protocol_version c = RfcDraft14 /\ measured_by c m /\ midpoint m = 1700000000%Z.
Proof.
  split; [vm_compute; reflexivity|].
  destruct (sample_single 2) as [r w'] eqn:Hq. exists w'.
  assert (r = Ok 1700000000%Z) as ->.
  { change r with (r, w').1. rewrite <-Hq. vm_compute. reflexivity. }
  split; [reflexivity|].
  destruct (single_server_time (D := rfc4648) (CL := toy_crypto_laws) (CWL := sample_cli_laws) (NL := internet_laws honest RfcDraft14)
    _ _ _ _ _ Hq) as [_ [[H _]|(c & m & _ & _ & Hv & Hm & Ht)]]; [discriminate H|].
  exists c, m. split; [exact Hv|]. split; [exact Hm|exact Ht].
Defined.

Lemma retries_255_witness : sample_query 255 = (Err (ExitCode 1), nowhere).
Proof.
  exact (retries_255 (P := false) (D := rfc4648) (N := internet honest RfcDraft14) (CW := sample_cli) (LI := sample_files) (RN := sample_reports) true
    (sample_cli_args 255) "servers.json" three_servers nowhere nowhere eq_refl ltac:(vm_compute; reflexivity)).
Defined.

Abbreviation liar_attempt := (
  attempt_sequence (P := false) (D := rfc4648) (N := internet one_liar RfcDraft14) (CW := sample_cli) (LI := sample_files) (sample_cli_args 1) three_servers nowhere).
Lemma liar_silences_report_witness :
  exists t v vs w', liar_attempt = (Ok (t, v :: vs), w') /\
    attempts (P := false) (D := rfc4648) (N := internet one_liar RfcDraft14) (CW := sample_cli) (LI := sample_files) (RN := sample_reports) true
      2 (sample_cli_args 1) three_servers 0 nowhere = (Panic, w').
Proof.
  assert (match liar_attempt.1 with Ok (_, v :: _) => midpoint (measurement_i v) = 1000000000000%Z | _ => False end) as Hv
    by (vm_compute; reflexivity).
  destruct liar_attempt as [[[t [|v vs]]|e|] w'] eqn:Ha; [destruct Hv| |destruct Hv|destruct Hv]. cbn in Hv.
  exists t, v, vs, w'. split; [reflexivity|].
  apply (liar_silences_report (P := false) (D := rfc4648) (N := internet one_liar RfcDraft14) (CW := sample_cli) (LI := sample_files) (RN := sample_reports)
    true (sample_cli_args 1) three_servers 1 0 t v vs nowhere w').
  - intros s. cbn. lia.
  - exact Ha.
  - right. rewrite Hv. lia.
Defined.
