(* ===== verification/Integration.v ===== *)
(** * The end-to-end tests (crates/roughenough-integration/src/main.rs)

    A program that starts servers, runs the client's program or the client library
    against them, and exits with 1 at the first test that fails.  A [ServerGuard]
    is a child process, killed and waited for when its scope ends, however it ends.
    What the operating system answers is the class [Host], and [Rig] logs what it is
    asked about processes; the library part of the tests runs on the client of
    [Client].  The time that waiting takes and printing are not modelled. *)
From Stdlib Require Import Ascii.
From stdpp Require Import pretty.
From S2P Require Import Prelude Text Errors Cursor FixedTags Versions Request Response Crypto Keys Metrics Responses Requests.
From S2P Require Import Encoding Validation EndToEnd Files Measurement Client Transport ServerList Cli.

Inductive WaitStatus : Type := Running | Exited | WaitError.
Record Output := mkOutput { out_success : bool; out_stdout : bytes }.

Class Host (W : Type) := {
  (** [Command::new(path).args(args).spawn()]: whether it succeeds *)
  spawn : string -> list string -> W -> bool * W;
  try_wait : nat -> W -> WaitStatus * W;
  (** whether they succeed *)
  kill : nat -> W -> bool * W;
  wait : nat -> W -> bool * W;
  (** [Command::new(path).args(args).output()] *)
  command_output : string -> list string -> W -> option Output * W;
  process_id : nat;
  create_file : string -> W -> bool * W;
  write_all : string -> bytes -> W -> bool * W;
  remove_file : string -> W -> W;
  remove_dir_all : string -> W -> W;
  (** the names of the entries that can be read *)
  read_dir : string -> W -> option (list string) * W;
  read_file : string -> W -> option bytes * W;
}.

(** What the program has asked the operating system to do with processes, and the
    answers; [Measured] is a measurement sequence of the client library. *)
Inductive HostEvent : Type :=
| Spawned (p : nat) (program : string) (args : list string)
| Polled (p : nat) (status : WaitStatus)
| Ran (program : string) (args : list string)
| Measured
| Killed (p : nat) (ok : bool)
| Waited (p : nat) (ok : bool).

Section integration.
Context {P : Profile} {C : CryptoLib} {D : DataEncoding} {W : Type} {N : Net W} {CW : CliWorld W} {H : Host W}.

(** [rg_next] is the next child's number; [rg_log] is what was done, in order. *)
Record Rig := mkRig {
  rg_world : W;
  rg_next : nat;
  rg_log : list HostEvent;
}.

Abbreviation IO := (io Rig Exit).

Definition on_world {A} (f : W -> A * W) : IO A := fun r =>
  let (a, w) := f (rg_world r) in (Ok a, mkRig w (rg_next r) (rg_log r)).
(** A call of the client library. *)
Definition library {E A} (m : io W E A) : io Rig E A := fun r =>
  let (a, w) := m (rg_world r) in (a, mkRig w (rg_next r) (rg_log r)).
(** A call about processes. *)
Definition on_host {A} (f : W -> A * W) (event : A -> HostEvent) : IO A := fun r =>
  let (a, w) := f (rg_world r) in (Ok a, mkRig w (rg_next r) (rg_log r ++ [event a])).
(** A call whose error the caller looks at. *)
Definition try_io {E A} (m : io Rig E A) : IO (option A) := fun r =>
  match m r with
  | (Ok a, r') => (Ok (Some a), r')
  | (Err _, r') => (Ok None, r')
  | (Panic, r') => (Panic, r')
  end.

(** ** Server processes *)

Record ServerGuard := mkGuard { sg_process : nat }.

Definition ServerGuard_new (process : nat) : ServerGuard := mkGuard process.

Definition check_running (g : ServerGuard) : IO bool :=
  status ← on_host (try_wait (sg_process g)) (Polled (sg_process g));
  mret (match status with Running => true | Exited | WaitError => false end).

(** [drop]: [kill] and [wait], their results ignored. *)
Definition drop_guard (r : Rig) (g : ServerGuard) : Rig :=
  let p := sg_process g in
  let (killed, w) := kill p (rg_world r) in
  let (waited, w) := wait p w in
  mkRig w (rg_next r) (rg_log r ++ [Killed p killed; Waited p waited]).

(** The end of the scope of guards, after [body] or what it panics with; the profiles
    of the tests unwind. *)
Definition scope {A} (guards : list ServerGuard) (body : IO A) : IO A := fun r =>
  let (a, r') := body r in (a, foldl drop_guard r' guards).

Definition start_server_with_offset (server_path : string) (port : Z) (protocol : string) (time_offset : Z)
    : IO (option ServerGuard) :=
  let args := ["-p"; pretty port; "-P"; protocol; "-j"; "1"; "-q"]%string in
  let args := if (time_offset =? 0)%Z then args else args ++ ["--fixed-offset=" +:+ pretty time_offset]%string in
  fun r =>
    let (started, w) := spawn server_path args (rg_world r) in
    if started
    then (Ok (Some (ServerGuard_new (rg_next r))),
          mkRig w (S (rg_next r)) (rg_log r ++ [Spawned (rg_next r) server_path args]))
    else (Ok None, mkRig w (rg_next r) (rg_log r)).

Definition start_server (server_path : string) (port : Z) (protocol : string) : IO (option ServerGuard) :=
  start_server_with_offset server_path port protocol 0.

(** [let mut server = match start_server(..) { Some(s) => s, None => return false }; body] *)
Definition with_server (server_path : string) (port : Z) (protocol : string) (body : ServerGuard -> IO bool) : IO bool :=
  s ← start_server server_path port protocol;
  (match s with
   | Some server => scope [server] (body server)
   | None => mret false
   end : IO bool).

(** The loop that starts servers, and whether it started all of them. *)
Fixpoint start_servers (server_path : string) (configs : list (Z * string * Z)) (servers : list ServerGuard)
    : IO (bool * list ServerGuard) :=
  match configs with
  | [] => mret (true, servers)
  | (port, protocol, offset) :: configs' =>
      s ← start_server_with_offset server_path port protocol offset;
      match s : option ServerGuard with
      | Some server => start_servers server_path configs' (servers ++ [server])
      | None => mret (false, servers)
      end
  end.
Fixpoint check_all_running (servers : list ServerGuard) : IO bool :=
  match servers with
  | [] => mret true
  | server :: servers' =>
      running ← check_running server;
      if running : bool then check_all_running servers' else mret false
  end.
(** What the tests of several servers do with them: [body] runs if all are up. *)
Definition with_servers (server_path : string) (configs : list (Z * string * Z)) (body : IO bool) : IO bool :=
  s ← start_servers server_path configs [];
  scope s.2 (if (s : bool * list ServerGuard).1 then running ← check_all_running s.2; if running : bool then body else mret false else mret false).

Definition binary (build_mode name : string) : string := "target/" +:+ build_mode +:+ "/" +:+ name.
Definition server_binary (build_mode : string) : string := binary build_mode "roughenough_server".
Definition client_binary (build_mode : string) : string := binary build_mode "roughenough_client".

(** The client's program. *)
Definition run_client (path : string) (args : list string) : IO (option Output) :=
  on_host (command_output path args) (fun _ => Ran path args).

Definition TEST_PUBLIC_KEY : string := "3b6a27bcceb6a42d62a3a8d02a6f0d73653215771de243a63ac048a18b59da29".
Definition WRONG_PUBLIC_KEY : string := "0000000000000000000000000000000000000000000000000000000000000000".

(** ** Tests of one server *)

Definition test_wrong_public_key_rejected_protocol (build_mode protocol : string) : IO bool :=
  with_server (server_binary build_mode) 2003 protocol (fun server =>
    running ← check_running server;
    if negb (running : bool) then mret false else
    client_result ← run_client (client_binary build_mode)
      ["127.0.0.1"; "2003"; "-n"; "1"; "-k"; WRONG_PUBLIC_KEY; "-P"; protocol]%string;
    mret (match client_result with Some output => negb (out_success output) | None => false end)).

Definition test_wrong_public_key_rejected (build_mode : string) : IO bool :=
  first ← test_wrong_public_key_rejected_protocol build_mode "14";
  if negb (first : bool) then mret false else
  second ← test_wrong_public_key_rejected_protocol build_mode "8";
  if negb (second : bool) then mret false else mret true.

Definition test_single_server_with_protocol (build_mode protocol : string) : IO bool :=
  with_server (server_binary build_mode) 2003 protocol (fun server =>
    running ← check_running server;
    if negb (running : bool) then mret false else
    client_result ← run_client (client_binary build_mode)
      ["127.0.0.1"; "2003"; "-n"; "50"; "-k"; TEST_PUBLIC_KEY; "-P"; protocol]%string;
    mret (match client_result with Some output => out_success output | None => false end)).

(** ** Measurement sequences *)

Inductive ExpectedViolations : Type := ExpectNone | ExpectSome.

(** [sequence.run(rounds)] *)
Definition measure (sequence : MeasurementSequence (W := W)) (rounds : nat) : io Rig ClientError (list Measurement) := fun r =>
  let (a, w) := sequence_run cw_random_bytes sequence rounds (rg_world r) in
  (a, mkRig w (rg_next r) (rg_log r ++ [Measured])).

Definition run_and_validate (sequence : MeasurementSequence (W := W)) (rounds : nat) (expected : ExpectedViolations)
    : IO bool :=
  m ← try_io (measure sequence rounds);
  match m with
  | None => mret false
  | Some measurements =>
      violations ← lift (validate_causality measurements);
      mret (match expected, violations with
            | ExpectNone, [] => true
            | ExpectNone, _ => false
            | ExpectSome, [] => false
            | ExpectSome, _ => true
            end)
  end.

(** The body of the loops over the ports, which differ in the name they give. *)
Definition loopback_client (public_key : PublicKey) (port : Z) (hostname : string) (protocol : ProtocolVersion)
    : IO (Client (W := W)) :=
  addrs ← on_world (to_socket_addrs ("127.0.0.1:" +:+ pretty port));
  addr ← lift (match addrs with Some (addr :: _) => Ok addr | _ => Panic end);
  let b := ClientBuilder_new addr in
  let b := cb_set_hostname hostname b in
  let b := cb_set_timeout (from_secs 5) b in
  let b := cb_set_public_key public_key b in
  let b := cb_set_protocol_version protocol b in
  expect_io (library (client_build open_udp b)).

Fixpoint loopback_clients (public_key : PublicKey) (servers : list (Z * string * ProtocolVersion))
    : IO (list (Client (W := W))) :=
  match servers with
  | [] => mret []
  | (port, hostname, protocol) :: servers' =>
      client ← loopback_client public_key port hostname protocol;
      clients ← loopback_clients public_key servers';
      mret (client :: clients)
  end.

(** What the three functions below share. *)
Definition run_sequence (servers : list (Z * string * ProtocolVersion)) (rounds : nat) (expected : ExpectedViolations)
    : IO bool :=
  public_key ← lift (expect (try_decode_key TEST_PUBLIC_KEY));
  clients ← loopback_clients public_key servers;
  sequence ← lift (expect (MeasurementSequence_new clients));
  run_and_validate sequence rounds expected.

Definition version_of (protocol : string) : ProtocolVersion :=
  if String.eqb protocol "8" then RfcDraft08 else RfcDraft14.

Definition run_measurement_sequence (ports : list Z) (protocol : ProtocolVersion) (rounds : nat) : IO bool :=
  run_sequence (map (fun port => (port, "localhost-" +:+ pretty port, protocol)) ports) rounds ExpectNone.

Definition run_mixed_protocol_sequence (configs : list (Z * string)) (rounds : nat) : IO bool :=
  run_sequence (map (fun c : Z * string =>
    (c.1, "localhost-" +:+ pretty c.1 +:+ "(draft-" +:+ c.2 +:+ ")", version_of c.2)) configs) rounds ExpectNone.

Definition run_causality_violation_sequence (configs : list (Z * string * Z)) (rounds : nat) : IO bool :=
  run_sequence (map (fun c : Z * string * Z =>
    (c.1.1, "localhost-" +:+ pretty c.1.1 +:+ "(offset=" +:+ pretty c.2 +:+ "s)", version_of c.1.2)) configs)
    rounds ExpectSome.

Definition test_multi_server_sequence (build_mode : string) : IO bool :=
  let ports := [2001; 2002; 2003]%Z in
  with_servers (server_binary build_mode) (map (fun port => (port, "14"%string, 0%Z)) ports)
    (run_measurement_sequence ports RfcDraft14 2).

Definition test_draft08_server_sequence (build_mode : string) : IO bool :=
  let ports := [2001; 2002; 2003]%Z in
  with_servers (server_binary build_mode) (map (fun port => (port, "8"%string, 0%Z)) ports)
    (run_measurement_sequence ports RfcDraft08 2).

Definition test_mixed_protocol_sequence (build_mode : string) : IO bool :=
  let configs := [(2001, "8"); (2002, "14"); (2003, "8")]%Z in
  with_servers (server_binary build_mode) (map (fun c : Z * string => (c.1, c.2, 0%Z)) configs)
    (run_mixed_protocol_sequence configs 2).

Definition test_causality_violation_detection (build_mode : string) : IO bool :=
  let configs := [(2001, "14", 0); (2002, "14", -60); (2003, "14", 0)]%Z in
  with_servers (server_binary build_mode) configs (run_causality_violation_sequence configs 2).

(** ** Tests of the client's program on a list of servers *)

Definition dquote : string := String "034"%char EmptyString.
Definition newline : string := String "010"%char EmptyString.
(** A line of the raw string, which is indented. *)
Definition json_line (text : string) : string := newline +:+ "                    " +:+ text.
Definition quoted (text : string) : string := dquote +:+ text +:+ dquote.
Definition server_json (port : Z) : string :=
  "{" +:+ json_line (quoted "name" +:+ ": " +:+ quoted ("test-server-" +:+ pretty port) +:+ ",") +:+
  json_line (quoted "version" +:+ ": " +:+ quoted "IETF-Roughtime" +:+ ",") +:+
  json_line (quoted "publicKeyType" +:+ ": " +:+ quoted "ed25519" +:+ ",") +:+
  json_line (quoted "publicKey" +:+ ": " +:+ quoted TEST_PUBLIC_KEY +:+ ",") +:+
  json_line (quoted "addresses" +:+ ": [{ " +:+ quoted "protocol" +:+ ": " +:+ quoted "udp" +:+ ", " +:+
    quoted "address" +:+ ": " +:+ quoted ("127.0.0.1:" +:+ pretty port) +:+ " }]") +:+
  newline +:+ "                }".

(** [None] is the [io::Error]. *)
Definition create_temp_server_list (ports : list Z) : IO (option string) :=
  let json := "{ " +:+ quoted "servers" +:+ ": [" +:+ String.concat "," (map server_json ports) +:+ "] }" in
  let path := "/tmp/roughenough-test-servers-" +:+ pretty process_id +:+ ".json" in
  created ← on_world (create_file path);
  if negb (created : bool) then mret None else
  written ← on_world (write_all path (str_bytes json));
  if (written : bool) then mret (Some path) else mret None.

(** The client's program on the list of the servers of [configs]. *)
Definition run_client_on_list (build_mode : string) (configs : list (Z * string * Z)) (flags : list string)
    (passed : Output -> bool) : IO bool :=
  with_servers (server_binary build_mode) configs (
    list_path ← create_temp_server_list (map (fun c : Z * string * Z => c.1.1) configs);
    match list_path : option string with
    | None => mret false
    | Some server_list_path =>
        result ← run_client (client_binary build_mode) (["-l"; server_list_path; "-u"; "3"]%string ++ flags);
        _ ← on_world (fun w => (tt, remove_file server_list_path w));
        mret (match result with Some output => passed output | None => false end)
    end).

Definition test_cli_allow_untrusted_time (build_mode : string) : IO bool :=
  run_client_on_list build_mode [(2011, "14", 0); (2012, "14", -60); (2013, "14", 0)]%Z
    ["--allow-untrusted-time"]%string out_success.

Definition test_cli_causality_violation_exits_with_error (build_mode : string) : IO bool :=
  run_client_on_list build_mode [(2021, "14", 0); (2022, "14", -60); (2023, "14", 0)]%Z []
    (fun output => negb (out_success output)).

(** ** Tests of the client's dumps *)

(** [haystack.contains(needle)] *)
Definition contains (needle haystack : string) : bool :=
  match String.index 0 needle haystack with Some _ => true | None => false end.
(** [name.ends_with(suffix)] *)
Definition ends_with (suffix name : string) : bool :=
  let n := String.length name in
  let k := String.length suffix in
  (k <=? n) && String.eqb (String.substring (n - k) k name) suffix.

Definition test_cli_dump_flag (build_mode protocol : string) : IO bool :=
  with_server (server_binary build_mode) 2031 protocol (fun server =>
    running ← check_running server;
    if negb (running : bool) then mret false else
    result ← run_client (client_binary build_mode)
      ["127.0.0.1"; "2031"; "-k"; TEST_PUBLIC_KEY; "-P"; protocol; "--dump-console"]%string;
    mret (match result with
          | None => false
          | Some output =>
              let stdout := from_utf8_lossy (out_stdout output) in
              out_success output &&
              (contains "=== Request dump ===" stdout && contains "====================" stdout &&
               contains "=== Response dump ===" stdout && contains "ROUGHTIM" stdout &&
               contains "Tags (" stdout && contains "=====================" stdout)
          end)).

Definition test_cli_dump_validation_failure (build_mode : string) : IO bool :=
  with_server (server_binary build_mode) 2032 "14" (fun server =>
    running ← check_running server;
    if negb (running : bool) then mret false else
    result ← run_client (client_binary build_mode)
      ["127.0.0.1"; "2032"; "-k"; WRONG_PUBLIC_KEY; "-P"; "14"; "--dump-console"]%string;
    mret (match result with
          | None => false
          | Some output =>
              let stdout := from_utf8_lossy (out_stdout output) in
              negb (out_success output) &&
              (contains "=== Request dump ===" stdout && contains "=== Response dump ===" stdout &&
               contains "ROUGHTIM" stdout && contains "Tags (" stdout &&
               contains "validation of the server's response failed" stdout)
          end)).

(** The two files the client has dumped; [None] where the test returns at once. *)
Definition dumped_files_valid (dump_dir : string) : IO (option bool) :=
  entries ← on_world (read_dir dump_dir);
  match entries : option (list string) with
  | None => mret None
  | Some entries =>
      match List.find (ends_with "-request.bin") entries, List.find (ends_with "-response.bin") entries with
      | Some req, Some resp =>
          request ← on_world (read_file (path_join dump_dir req));
          match request : option bytes with
          | None => mret None
          | Some request_bytes =>
              response ← on_world (read_file (path_join dump_dir resp));
              match response : option bytes with
              | None => mret None
              | Some response_bytes =>
                  let request_ok := length request_bytes =? 1024 in
                  let response_ok := (12 <=? length response_bytes) &&
                    bool_decide (take 8 response_bytes = str_bytes "ROUGHTIM") in
                  mret (Some (request_ok && response_ok))
              end
          end
      | _, _ => mret (Some false)
      end
  end.

Definition test_cli_dump_to_file (build_mode : string) : IO bool :=
  with_server (server_binary build_mode) 2033 "14" (fun server =>
    running ← check_running server;
    if negb (running : bool) then mret false else
    let dump_dir := "/tmp/roughenough-dump-test-" +:+ pretty process_id in
    result ← run_client (client_binary build_mode)
      ["127.0.0.1"; "2033"; "-k"; TEST_PUBLIC_KEY; "--dump-dir"; dump_dir]%string;
    success ← match result : option Output with
              | Some output => if out_success output then dumped_files_valid dump_dir else mret (Some false)
              | None => mret (Some false)
              end;
    match success : option bool with
    | None => mret false
    | Some success =>
        _ ← on_world (fun w => (tt, remove_dir_all dump_dir w));
        mret success
    end).

(** ** [main] *)

(** A test that does not pass ends the program. *)
Definition require_pass (test : IO bool) : IO unit :=
  passed ← test;
  if (passed : bool) then mret tt else throw (ExitCode 1).

Fixpoint for_each {A} (xs : list A) (body : A -> IO unit) : IO unit :=
  match xs with
  | [] => mret tt
  | x :: xs' => _ ← body x; for_each xs' body
  end.

Definition build_modes : list string := ["debug"; "release"]%string.
Definition in_both_modes (test : string -> IO bool) : IO unit :=
  for_each build_modes (fun build_mode => require_pass (test build_mode)).

Definition integration_main : IO unit :=
  _ ← for_each ["14"; "8"]%string (fun protocol =>
        in_both_modes (fun build_mode => test_single_server_with_protocol build_mode protocol));
  _ ← in_both_modes test_wrong_public_key_rejected;
  _ ← in_both_modes test_multi_server_sequence;
  _ ← in_both_modes test_draft08_server_sequence;
  _ ← in_both_modes test_mixed_protocol_sequence;
  _ ← in_both_modes test_causality_violation_detection;
  _ ← in_both_modes test_cli_allow_untrusted_time;
  _ ← in_both_modes test_cli_causality_violation_exits_with_error;
  _ ← in_both_modes (fun build_mode => test_cli_dump_flag build_mode "14");
  _ ← in_both_modes (fun build_mode => test_cli_dump_flag build_mode "8");
  _ ← in_both_modes test_cli_dump_validation_failure;
  in_both_modes test_cli_dump_to_file.

(** ** No server outlives its test *)

(** What the log says of a server: it was started, it was found running or not when
    last asked for, or it has been killed and not yet waited for. *)
Inductive Life : Type := Fresh | Up | Down | Dying.
#[export] Instance Life_eq_dec : EqDecision Life.
Proof. solve_decision. Defined.
Definition Servers : Type := list (nat * Life).

(** A run on a server list, [-l], wants three servers, any other one. *)
Definition servers_wanted (args : list string) : nat :=
  match args with
  | flag :: _ => if String.eqb flag "-l" then 3 else 1
  | [] => 1
  end.

(** A server that has not been killed. *)
Fixpoint set_life (p : nat) (life : Life) (ss : Servers) : option Servers :=
  match ss with
  | [] => None
  | (q, l) :: ss' =>
      if p =? q then if decide (l = Dying) then None else Some ((q, life) :: ss')
      else cons (q, l) <$> set_life p life ss'
  end.
(** A server that has been killed. *)
Fixpoint reap (p : nat) (ss : Servers) : option Servers :=
  match ss with
  | [] => None
  | (q, l) :: ss' =>
      if p =? q then if decide (l = Dying) then Some ss' else None
      else cons (q, l) <$> reap p ss'
  end.

(** The servers there are after an event; [None] if it should not have happened.  A
    server is started once, killed once and then waited for once; when the client's
    program runs there are the servers it wants, and three for a measurement sequence,
    and no others, and each was running when it was last asked for. *)
Definition up (s : nat * Life) : bool := bool_decide (s.2 = Up).
Definition observe (ss : Servers) (e : HostEvent) : option Servers :=
  match e with
  | Spawned p _ _ => if existsb (fun s => p =? s.1) ss then None else Some (ss ++ [(p, Fresh)])
  | Polled p status => set_life p (match status with Running => Up | Exited | WaitError => Down end) ss
  | Ran _ args => if (length ss =? servers_wanted args) && forallb up ss then Some ss else None
  | Measured => if (length ss =? 3) && forallb up ss then Some ss else None
  | Killed p _ => set_life p Dying ss
  | Waited p _ => reap p ss
  end.
Fixpoint replay (ss : Servers) (log : list HostEvent) : option Servers :=
  match log with
  | [] => Some ss
  | e :: log' => ss' ← observe ss e; replay ss' log'
  end.

Lemma replay_app ss l1 l2 : replay ss (l1 ++ l2) = (ss' ← replay ss l1; replay ss' l2).
Proof using Type. revert ss. induction l1 as [|e l1 IH]; intros ss; cbn; [done|]. by destruct (observe ss e); cbn. Qed.

Lemma set_life_at p life l a b : p ∉ a.*1 -> l <> Dying ->
  set_life p life (a ++ (p, l) :: b) = Some (a ++ (p, life) :: b).
Proof using Type.
  intros Hp Hl. induction a as [|[q l'] a IH]; cbn [app set_life].
  - rewrite Nat.eqb_refl. by destruct (decide (l = Dying)).
  - cbn in Hp. apply not_elem_of_cons in Hp as [Hq Hp]. destruct (Nat.eqb_spec p q) as [|_]; [done|]. by rewrite IH.
Qed.

(** The log of the rig is as it should be, and leaves the servers [ss]. *)
Record log_at (r : Rig) (ss : Servers) : Prop := {
  lg_replay : replay [] (rg_log r) = Some ss;
  lg_known : Forall (fun s => s.1 < rg_next r) ss;
  lg_distinct : NoDup ss.*1;
}.

Definition alive (ss : Servers) : Prop := Forall (fun s => s.2 <> Dying) ss.
Definition all_up (ss : Servers) : Prop := Forall (fun s => s.2 = Up) ss.

Lemma all_up_alive ss : all_up ss -> alive ss.
Proof using Type. intros Hu. eapply Forall_impl; [exact Hu|]. by intros s ->. Qed.

Lemma log_at_event r ss e ss' w : log_at r ss -> observe ss e = Some ss' -> ss'.*1 = ss.*1 ->
  log_at (mkRig w (rg_next r) (rg_log r ++ [e])) ss'.
Proof using Type.
  intros [Hr Hk Hd] He Hp. split; cbn [rg_log rg_next].
  - rewrite replay_app, Hr. cbn. by rewrite He.
  - rewrite <-(Forall_fmap fst (fun p => p < rg_next r)) in Hk |- *. by rewrite Hp.
  - by rewrite Hp.
Qed.

(** From [n] servers that are all up the computation ends with the same ones, and
    its log is as it should be. *)
Definition tidy {E A} (n : nat) (m : io Rig E A) : Prop := forall r ss,
  log_at r ss -> length ss = n -> all_up ss -> log_at (m r).2 ss.

Lemma tidy_ret {E A} n (a : A) : tidy n (mret a : io Rig E A).
Proof using Type. by intros r ss. Qed.
Lemma tidy_lift {E A} n (m : res E A) : tidy n (lift m : io Rig E A).
Proof using Type. by intros r ss. Qed.
Lemma tidy_throw {E A} n (e : E) : tidy n (throw e : io Rig E A).
Proof using Type. by intros r ss. Qed.

Lemma tidy_bind {E A B} n (m : io Rig E A) (k : A -> io Rig E B) :
  tidy n m -> (forall a, tidy n (k a)) -> tidy n (a ← m; k a).
Proof using Type.
  intros Hm Hk r ss Hr Hn Hu. specialize (Hm r ss Hr Hn Hu). unfold mbind, io_bind.
  destruct (m r) as [[a|e|] r1]; cbn [fst snd] in *; [|done|done]. by apply Hk.
Qed.

Lemma tidy_on_world {A} n (f : W -> A * W) : tidy n (on_world f).
Proof using Type. intros r ss [] _ _. unfold on_world. by destruct (f (rg_world r)). Qed.
Lemma tidy_library {E A} n (m : io W E A) : tidy n (library m).
Proof using Type. intros r ss [] _ _. unfold library. by destruct (m (rg_world r)). Qed.
Lemma tidy_try_io {E A} n (m : io Rig E A) : tidy n m -> tidy n (try_io m).
Proof using Type.
  intros Hm r ss Hr Hn Hu. specialize (Hm r ss Hr Hn Hu). unfold try_io. by destruct (m r) as [[a|e|] r1].
Qed.
Lemma tidy_expect_io {E F A} n (m : io Rig E A) : tidy n m -> tidy n (expect_io (F := F) m).
Proof using Type.
  intros Hm r ss Hr Hn Hu. specialize (Hm r ss Hr Hn Hu). unfold expect_io. by destruct (m r) as [a r1].
Qed.

Lemma all_up_up ss : all_up ss -> forallb up ss = true.
Proof using Type.
  intros Hu. apply forallb_forall. intros s Hs. apply bool_decide_eq_true. by apply (proj1 (Forall_forall _ _) Hu), list_elem_of_In.
Qed.

Lemma tidy_measure sequence rounds : tidy 3 (measure sequence rounds).
Proof using Type.
  intros r ss Hr Hn Hu. unfold measure. destruct (sequence_run cw_random_bytes sequence rounds (rg_world r)) as [a w].
  apply (log_at_event r ss); [done| |done]. cbn. by rewrite Hn, (all_up_up ss Hu).
Qed.

Lemma tidy_run_client path args : tidy (servers_wanted args) (run_client path args).
Proof using Type.
  intros r ss Hr Hn Hu. unfold run_client, on_host. destruct (command_output path args (rg_world r)) as [out w].
  apply (log_at_event r ss); [done| |done]. cbn. rewrite Hn, Nat.eqb_refl. cbn.
  by rewrite (all_up_up ss Hu).
Qed.

(** Asking for a server tells whether it is up. *)
Lemma check_running_spec r a p l b : log_at r (a ++ (p, l) :: b) -> l <> Dying ->
  exists up r' l', check_running (mkGuard p) r = (Ok up, r') /\ log_at r' (a ++ (p, l') :: b) /\ l' <> Dying /\
    (up = true -> l' = Up).
Proof using Type.
  intros Hr Hl. unfold check_running, on_host, mbind, io_bind. cbn [sg_process].
  destruct (try_wait p (rg_world r)) as [status w].
  assert (p ∉ a.*1) as Hp.
  { pose proof (lg_distinct _ _ Hr) as Hd. rewrite fmap_app, NoDup_app in Hd. destruct Hd as (_ & Hd & _).
    intros Hin. apply (Hd p Hin). cbn. by left. }
  exists (match status with Running => true | Exited | WaitError => false end), (mkRig w (rg_next r) (rg_log r ++ [Polled p status])),
    (match status with Running => Up | Exited | WaitError => Down end).
  split; [done|]. split; [|by destruct status].
  apply (log_at_event r (a ++ (p, l) :: b)); [done| |by rewrite !fmap_app]. by apply set_life_at.
Qed.

Lemma check_all_spec b : forall r a, log_at r (a ++ b) -> all_up a -> alive b ->
  exists up r' ss, check_all_running (map mkGuard b.*1) r = (Ok up, r') /\ log_at r' ss /\ ss.*1 = (a ++ b).*1 /\
    alive ss /\ (up = true -> all_up ss).
Proof using Type.
  induction b as [|[p l] b IH]; intros r a Hr Ha Hb; cbn [map fmap list_fmap check_all_running fst].
  { exists true, r, (a ++ []). rewrite app_nil_r in *. split_and!; [done..|by apply all_up_alive|done]. }
  apply Forall_cons in Hb as [Hl Hb]. cbn in Hl.
  destruct (check_running_spec r a p l b Hr Hl) as (up & r1 & l' & Hc & Hr1 & Hl' & Hup). unfold mbind, io_bind. rewrite Hc.
  destruct up.
  - rewrite (Hup eq_refl) in Hr1. destruct (IH r1 (a ++ [(p, Up)])) as (up & r2 & ss & Hs & H1 & H2 & H3 & H4).
    { by rewrite <-app_assoc. }
    { apply Forall_app. split; [done|by apply Forall_singleton]. }
    { done. }
    exists up, r2, ss. split_and!; [exact Hs|done| |done..]. by rewrite H2, <-app_assoc, !fmap_app.
  - exists false, r1, (a ++ (p, l') :: b). split_and!; [done|done|by rewrite !fmap_app| |done].
    apply Forall_app. split; [by apply all_up_alive|by apply Forall_cons].
Qed.

(** Dropping the guards of all the servers there are. *)
Lemma drop_guards_spec ss : forall r, log_at r ss -> alive ss ->
  log_at (foldl drop_guard r (map mkGuard ss.*1)) [].
Proof using Type.
  induction ss as [|[p l] ss IH]; intros r Hr Ha; cbn [map fmap list_fmap foldl fst]; [done|].
  apply Forall_cons in Ha as [Hl Ha]. cbn in Hl. apply IH; [|done].
  unfold drop_guard. cbn [sg_process fst]. destruct (kill p (rg_world r)) as [killed w1]. destruct (wait p w1) as [waited w2].
  destruct Hr as [Hr Hk Hd]. split; cbn [rg_log rg_next].
  - rewrite replay_app, Hr. cbn. rewrite Nat.eqb_refl. destruct (decide (l = Dying)) as [|_]; [done|]. cbn.
    rewrite Nat.eqb_refl. by destruct (decide (Dying = Dying)).
  - by apply Forall_cons in Hk as [_ Hk].
  - cbn in Hd. by apply NoDup_cons in Hd as [_ Hd].
Qed.

Lemma scope_spec {A} (ss : Servers) r (body : IO A) :
  (exists ss' : Servers, log_at (body r).2 ss' /\ ss'.*1 = ss.*1 /\ alive ss') ->
  log_at (scope (map mkGuard ss.*1) body r).2 [].
Proof using Type.
  intros (ss' & Hr & Hp & Ha). unfold scope. destruct (body r) as [a r']. cbn [snd] in *. rewrite <-Hp.
  by apply drop_guards_spec.
Qed.

(** Starting a server adds it to those there are, or none. *)
Lemma start_server_spec server_path port protocol offset r ss : log_at r ss ->
  exists r', log_at r' (ss ++ [(rg_next r, Fresh)]) /\
      start_server_with_offset server_path port protocol offset r = (Ok (Some (mkGuard (rg_next r))), r') \/
    log_at r' ss /\ start_server_with_offset server_path port protocol offset r = (Ok None, r').
Proof using Type.
  intros [Hr Hk Hd]. unfold start_server_with_offset. set (args := if (offset =? 0)%Z then _ else _).
  destruct (spawn server_path args (rg_world r)) as [[|] w]; eexists; [left|right]; (split; [|reflexivity]); [|by split].
  split; cbn [rg_log rg_next].
  - rewrite replay_app, Hr. cbn. destruct (existsb _ ss) eqn:He; [|done]. exfalso.
    apply existsb_exists in He as ([q l] & Hin & Hq%Nat.eqb_eq). cbn in Hq. subst q.
    apply list_elem_of_In in Hin. pose proof (proj1 (Forall_forall _ _) Hk _ Hin). cbn in *. lia.
  - apply Forall_app. split; [eapply Forall_impl; [exact Hk|]; cbn; lia|apply Forall_singleton; cbn; lia].
  - rewrite fmap_app. apply NoDup_app. split; [done|]. split; [|by apply NoDup_singleton].
    intros p Hin Hin'. cbn in Hin'. apply list_elem_of_singleton in Hin' as ->.
    rewrite <-(Forall_fmap fst (fun p => p < rg_next r)) in Hk. apply (Nat.lt_irrefl (rg_next r)). exact (proj1 (Forall_forall _ _) Hk _ Hin).
Qed.

Lemma no_servers (ss : Servers) : length ss = 0 -> ss = [].
Proof using Type. by destruct ss. Qed.

(** A test of one server that first asks whether it runs. *)
Lemma tidy_with_server server_path port protocol body :
  (forall server, tidy 1 (body server)) ->
  tidy 0 (with_server server_path port protocol (fun server =>
    running ← check_running server;
    if negb (running : bool) then mret false else body server)).
Proof using Type.
  intros Hbody r ss Hr ->%no_servers _. unfold with_server, start_server, mbind at 1, io_bind at 1.
  destruct (start_server_spec server_path port protocol 0 r [] Hr) as (r1 & [[Hr1 ->]|[Hr1 ->]]); [|done].
  apply (scope_spec [(rg_next r, Fresh)]). unfold mbind, io_bind.
  destruct (check_running_spec r1 [] (rg_next r) Fresh [] Hr1) as (up & r2 & l & -> & Hr2 & Hl & Hup); [done|].
  destruct up; cbn [negb].
  - rewrite (Hup eq_refl) in Hr2. exists [(rg_next r, Up)]. split; [|split; [done|by apply Forall_singleton]].
    apply Hbody; [done|done|by apply Forall_singleton].
  - exists [(rg_next r, l)]. split; [done|]. split; [done|by apply Forall_singleton].
Qed.

(** The guards are those of the servers there are, in order. *)
Lemma start_servers_spec server_path configs : forall r ss, log_at r ss -> alive ss ->
  exists ok ss' r', start_servers server_path configs (map mkGuard ss.*1) r = (Ok (ok, map mkGuard ss'.*1), r') /\
    log_at r' ss' /\ alive ss' /\ (ok = true -> length ss' = length ss + length configs).
Proof using Type.
  induction configs as [|[[port protocol] offset] configs IH]; intros r ss Hr Ha; cbn [start_servers].
  { exists true, ss, r. split_and!; [done..|]. cbn. lia. }
  unfold mbind, io_bind.
  destruct (start_server_spec server_path port protocol offset r ss Hr) as (r1 & [[Hr1 ->]|[Hr1 ->]]).
  - destruct (IH r1 (ss ++ [(rg_next r, Fresh)]) Hr1) as (ok & ss' & r' & Hs & H1 & H2 & H3).
    { apply Forall_app. split; [done|by apply Forall_singleton]. }
    exists ok, ss', r'. rewrite fmap_app, map_app in Hs. split_and!; [exact Hs|done..|].
    intros Hok. rewrite (H3 Hok), length_app. cbn. lia.
  - exists false, ss, r1. by split_and!.
Qed.

Lemma tidy_with_servers server_path configs body :
  tidy (length configs) body -> tidy 0 (with_servers server_path configs body).
Proof using Type.
  intros Hbody r ss Hr ->%no_servers _. unfold with_servers, mbind at 1, io_bind at 1.
  destruct (start_servers_spec server_path configs r [] Hr) as (ok & ss & r1 & Hs & Hr1 & Ha & Hl); [by apply Forall_nil|].
  cbn [map fmap list_fmap] in Hs. rewrite Hs. cbn [fst snd]. apply scope_spec.
  destruct ok; [|by exists ss]. unfold mbind, io_bind.
  destruct (check_all_spec ss r1 [] Hr1) as (up & r2 & ss' & Hc & Hr2 & Hp & Ha' & Hup); [by apply Forall_nil|done|].
  rewrite Hc. destruct up; [|by exists ss'].
  exists ss'. split; [|done]. apply Hbody; [done| |by apply Hup].
  pose proof (f_equal length Hp) as Hlen. rewrite !length_fmap in Hlen. cbn in Hlen. rewrite Hlen. by apply Hl.
Qed.

(** The parts of a test that start no server. *)
Ltac tidy_step :=
  match goal with
  | |- tidy _ (if ?b then _ else _) => destruct b
  | |- tidy _ (match ?x with _ => _ end) => destruct x
  | |- tidy _ (mret _) => apply tidy_ret
  | |- tidy _ (lift _) => apply tidy_lift
  | |- tidy _ (throw _) => apply tidy_throw
  | |- tidy _ (on_world _) => apply tidy_on_world
  | |- tidy _ (library _) => apply tidy_library
  | |- tidy _ (try_io _) => apply tidy_try_io
  | |- tidy _ (expect_io _) => apply tidy_expect_io
  | |- tidy _ (measure _ _) => apply tidy_measure
  | |- tidy ?n (run_client ?path ?args) => apply (tidy_run_client path args)
  | |- tidy _ (mbind _ _) => apply tidy_bind; [|intros ?]
  end.
Ltac tidy_auto := cbv zeta; repeat tidy_step.

Lemma tidy_loopback_clients n key servers : tidy n (loopback_clients key servers).
Proof using Type.
  induction servers as [|[[port hostname] protocol] servers IH]; cbn [loopback_clients]; [apply tidy_ret|].
  unfold loopback_client. tidy_auto; apply IH.
Qed.

Lemma tidy_run_sequence servers rounds expected : tidy 3 (run_sequence servers rounds expected).
Proof using Type. unfold run_sequence, run_and_validate. tidy_auto. apply tidy_loopback_clients. Qed.

Lemma tidy_single_server_test build_mode protocol : tidy 0 (test_single_server_with_protocol build_mode protocol).
Proof using Type. apply tidy_with_server. intros server. tidy_auto. Qed.

Lemma tidy_wrong_key_test build_mode : tidy 0 (test_wrong_public_key_rejected build_mode).
Proof using Type.
  unfold test_wrong_public_key_rejected, test_wrong_public_key_rejected_protocol.
  tidy_auto; apply tidy_with_server; intros server; tidy_auto.
Qed.

Lemma tidy_sequence_test build_mode configs servers rounds expected : length configs = 3 ->
  tidy 0 (with_servers (server_binary build_mode) configs (run_sequence servers rounds expected)).
Proof using Type. intros Hc. apply tidy_with_servers. rewrite Hc. apply tidy_run_sequence. Qed.

Lemma tidy_list_test build_mode configs flags passed : length configs = 3 ->
  tidy 0 (run_client_on_list build_mode configs flags passed).
Proof using Type.
  intros Hc. apply tidy_with_servers. rewrite Hc. unfold create_temp_server_list. tidy_auto.
Qed.

Lemma tidy_dump_flag_test build_mode protocol : tidy 0 (test_cli_dump_flag build_mode protocol).
Proof using Type. apply tidy_with_server. intros server. tidy_auto. Qed.

Lemma tidy_dump_failure_test build_mode : tidy 0 (test_cli_dump_validation_failure build_mode).
Proof using Type. apply tidy_with_server. intros server. tidy_auto. Qed.

Lemma tidy_dump_file_test build_mode : tidy 0 (test_cli_dump_to_file build_mode).
Proof using Type. apply tidy_with_server. intros server. unfold dumped_files_valid. tidy_auto. Qed.

Lemma tidy_in_both_modes test : (forall build_mode, tidy 0 (test build_mode)) -> tidy 0 (in_both_modes test).
Proof using Type. intros Ht. unfold in_both_modes, require_pass. cbn [for_each build_modes]. tidy_auto; apply Ht. Qed.

(** C38: No server outlives its test.  Whatever the operating system answers (servers
    that cannot be started or that die, [kill] and [wait] that fail, clients that
    fail or do not run, files that cannot be written), and whether the program passes,
    exits at a failed test or panics, the log of what it did is as [observe] wants:
    every server process it started was sent a kill once, and then waited for once,
    before the end; and each time the client's program or a measurement sequence ran,
    there were the servers of its test and no others, one if the client's program was
    given a single server and three otherwise, each of which [try_wait] had reported
    running when it was last asked, after its start. *)
Theorem servers_cleaned_up (w : W) (next : nat) :
  replay [] (rg_log (integration_main (mkRig w next [])).2) = Some [].
Proof using Type.
  assert (tidy 0 integration_main) as Ht.
  { unfold integration_main. cbn [for_each].
    repeat match goal with |- tidy _ (mbind _ _) => apply tidy_bind; [|intros []] end;
      try apply tidy_ret; apply tidy_in_both_modes; intros build_mode;
      first [apply tidy_single_server_test|apply tidy_wrong_key_test|by apply tidy_sequence_test|by apply tidy_list_test
            |apply tidy_dump_flag_test|apply tidy_dump_failure_test|apply tidy_dump_file_test]. }
  apply (Ht (mkRig w next []) []); [|done|by apply Forall_nil]. split; [done|by apply Forall_nil|by apply NoDup_nil].
Qed.

(** ** The causality test finds its liar *)

(** Measurements by servers in turn, whose clocks are [offsets] from one that reads
    [ts] and does not run backwards, with the radius that servers claim. *)
Record clocked (offsets : list Z) (ms : list Measurement) (ts : list Z) : Prop := {
  ck_length : length ts = length ms;
  ck_forwards : forall i j ti tj, i <= j -> ts !! i = Some ti -> ts !! j = Some tj -> (ti <= tj)%Z;
  ck_midpoint : forall i m t, ms !! i = Some m -> ts !! i = Some t ->
    exists offset, offsets !! (i mod length offsets) = Some offset /\ midpoint m = (t + offset)%Z;
  ck_radius : Forall (fun m => radius m = 5%Z) ms;
}.

Lemma clocked_at offsets ms ts i m : clocked offsets ms ts -> ms !! i = Some m ->
  exists t offset, ts !! i = Some t /\ offsets !! (i mod length offsets) = Some offset /\
    midpoint m = (t + offset)%Z /\ radius m = 5%Z.
Proof using Type.
  intros [Hl _ Hm Hr] Hi. destruct (lookup_lt_is_Some_2 ts i) as [t Ht].
  { rewrite Hl. by eapply lookup_lt_Some. }
  destruct (Hm i m t Hi Ht) as (offset & Ho & Hmid). exists t, offset. split_and!; try done.
  exact (Forall_lookup_1 _ _ _ _ Hr Hi).
Qed.

Lemma equal_clocks_agree ms ts : clocked [0; 0; 0]%Z ms ts -> violations_of ms = [].
Proof using Type.
  intros Hck. destruct (violations_of ms) as [|v vs] eqn:Hv; [done|exfalso].
  destruct (proj1 (violations_of_pairs ms v)) as (i & j & mi & mj & Hij & Hi & Hj & Hpair); [rewrite Hv; by left|].
  destruct (clocked_at _ _ _ _ _ Hck Hi) as (ti & oi & Hti & Hoi & Hmi & Hri).
  destruct (clocked_at _ _ _ _ _ Hck Hj) as (tj & oj & Htj & Hoj & Hmj & Hrj).
  assert (forall k o, [0; 0; 0]%Z !! k = Some o -> o = 0%Z) as H0 by (intros [|[|[|k]]] o; cbn; [congruence..|by destruct k]).
  apply H0 in Hoi as ->, Hoj as ->. pose proof (ck_forwards _ _ _ Hck i j ti tj ltac:(lia) Hti Htj).
  unfold pair_violation in Hpair. rewrite Hmi, Hmj, Hri, Hrj in Hpair.
  destruct (Z.ltb_spec (tj + 0 + 5) (ti + 0 - 5)); [lia|done].
Qed.

Lemma late_server_found ms ts t0 t1 : clocked [0; -60; 0]%Z ms ts ->
  ts !! 0 = Some t0 -> ts !! 1 = Some t1 -> (t1 < t0 + 50)%Z -> violations_of ms <> [].
Proof using Type.
  intros Hck H0 H1 Hlt.
  destruct (lookup_lt_is_Some_2 ms 0) as [m0 Hm0]; [rewrite <-(ck_length _ _ _ Hck); by eapply lookup_lt_Some|].
  destruct (lookup_lt_is_Some_2 ms 1) as [m1 Hm1]; [rewrite <-(ck_length _ _ _ Hck); by eapply lookup_lt_Some|].
  destruct (clocked_at _ _ _ _ _ Hck Hm0) as (t & o & Ht & [= <-] & Hmid0 & Hr0). rewrite H0 in Ht. injection Ht as <-.
  destruct (clocked_at _ _ _ _ _ Hck Hm1) as (t & o & Ht & [= <-] & Hmid1 & Hr1). rewrite H1 in Ht. injection Ht as <-.
  assert (exists v, pair_violation m0 m1 = Some v) as [v Hv].
  { unfold pair_violation. rewrite Hmid0, Hmid1, Hr0, Hr1.
    destruct (Z.ltb_spec (t1 + -60 + 5) (t0 + 0 - 5)); [by eexists|lia]. }
  intros Hnil. apply (not_elem_of_nil v). rewrite <-Hnil. apply violations_of_pairs.
  exists 0, 1, m0, m1. split_and!; [lia|done..].
Qed.

(** The causality tests decide.  When a sequence of three servers ends with
    measurements in range, the tests of well-behaved servers pass if the servers
    share a clock that does not run backwards, and the test of the liar passes, so
    finds a violation, if the middle server is 60 seconds behind and its first
    answer comes within 50 seconds of the one before: the offset less the two
    radii. *)
Theorem causality_tests_decide sequence rounds r ms r' ts :
  measure sequence rounds r = (Ok ms, r') -> Forall in_range ms ->
  (clocked [0; 0; 0]%Z ms ts ->
    run_and_validate sequence rounds ExpectNone r = (Ok true, r') /\
    run_and_validate sequence rounds ExpectSome r = (Ok false, r')) /\
  (forall t0 t1, clocked [0; -60; 0]%Z ms ts -> ts !! 0 = Some t0 -> ts !! 1 = Some t1 -> (t1 < t0 + 50)%Z ->
    run_and_validate sequence rounds ExpectSome r = (Ok true, r') /\
    run_and_validate sequence rounds ExpectNone r = (Ok false, r')).
Proof using Type.
  intros Hrun Hr. unfold run_and_validate, try_io, mbind, io_bind. rewrite Hrun.
  unfold lift. rewrite (validate_causality_violations ms Hr). split.
  - intros Hck. by rewrite (equal_clocks_agree ms ts Hck).
  - intros t0 t1 Hck H0 H1 Hlt. pose proof (late_server_found ms ts t0 t1 Hck H0 H1 Hlt) as Hv.
    by destruct (violations_of ms).
Qed.

End integration.

(** ** Examples: three simulated servers *)

(** The address of "127.0.0.1:p" is the port's last digit. *)
Definition loopback (clocks : SocketAddr -> Z) : Net Sim := {|
  to_socket_addrs name w := (Some [V4 0 (if ends_with "1" name then 1 else if ends_with "2" name then 2 else 3)], w);
  UdpSocket := unit;
  udp_bind _ w := (Some tt, w);
  udp_set_read_timeout _ timeout w := (may_wait timeout, w);
  udp_set_write_timeout _ timeout w := (may_wait timeout, w);
  udp_send_to _ bs addr w := (Some (length bs), (addr, bs));
  udp_recv_from _ buf w := let frame := sample_answer (clocks w.1) RfcDraft14 w.2 in
    let count := Nat.min (length frame) (length buf) in
    (inr (count, w.1), take count frame ++ drop count buf, w);
  trace_enabled := false;
|}.
Definition late_middle (addr : SocketAddr) : Z := match addr with V4 _ 2 => 1699999940 | _ => 1700000000 end.
(** Servers start and run, though killing them fails; the client's program fails. *)
Definition sample_host : Host Sim := {|
  spawn _ _ w := (true, w);
  try_wait _ w := (Running, w);
  kill _ w := (false, w);
  wait _ w := (true, w);
  command_output _ _ w := (Some (mkOutput false []), w);
  process_id := 7;
  create_file _ w := (true, w);
  write_all _ _ w := (true, w);
  remove_file _ w := w;
  remove_dir_all _ w := w;
  read_dir _ w := (None, w);
  read_file _ w := (None, w);
|}.
Definition sample_rig : Rig (W := Sim) := mkRig nowhere 0 [].

(** The first test's client fails, and the program exits. *)
Example failing_client :
  let out := integration_main (P := false) (D := rfc4648) (N := loopback late_middle) (CW := sample_cli) (H := sample_host) sample_rig in
  out.1 = Err (ExitCode 1) /\ exists program program' args args',
    rg_log out.2 = [Spawned 0 program args; Polled 0 Running; Ran program' args'; Killed 0 false; Waited 0 true].
Proof. split; [vm_compute; reflexivity|]. do 4 eexists. vm_compute. reflexivity. Qed.

Definition loopback_sequence : MeasurementSequence (W := Sim) :=
  let key := mkFixed (ed_public sample_seed) in
  mkSequence (map (fun p => mkClient (V4 0 p) "localhost" (UdpTransport_ClientTransport (N := loopback late_middle) tt)
    (new_with_key key) (Some key) (Some (mkSrv (sha512_32 (HASH_PREFIX_SRV ++ fixed_bytes key)))) RfcDraft14) [1; 2; 3]%Z).

Lemma causality_tests_decide_witness :
  exists r', run_and_validate (P := false) (CW := sample_cli) loopback_sequence 2 ExpectSome
    sample_rig = (Ok true, r').
Proof.
  destruct (measure (CW := sample_cli) loopback_sequence 2 sample_rig) as [out r'] eqn:Hrun.
  exists r'.
  assert (match out with Ok ms => map midpoint ms = [1700000000; 1699999940; 1700000000; 1700000000; 1699999940; 1700000000]%Z /\
    map radius ms = [5; 5; 5; 5; 5; 5]%Z | _ => False end) as Hms.
  { change out with (out, r').1. rewrite <-Hrun. vm_compute. split; reflexivity. }
  destruct out as [ms|e|]; [|destruct Hms..]. destruct Hms as [Hmid Hrad].
  destruct ms as [|m0 [|m1 [|m2 [|m3 [|m4 [|m5 [|? ?]]]]]]]; try discriminate Hmid.
  injection Hmid as M0 M1 M2 M3 M4 M5. injection Hrad as R0 R1 R2 R3 R4 R5.
  assert (Forall in_range [m0; m1; m2; m3; m4; m5]) as Hr.
  { clear Hrun. repeat (apply Forall_cons; split); [..|by apply Forall_nil]; unfold in_range, u64_max; lia. }
  assert (clocked [0; -60; 0]%Z [m0; m1; m2; m3; m4; m5] (replicate 6 1700000000%Z)) as Hck.
  { clear Hrun. split; [done| | |].
    - intros i j ti tj _ [-> _]%lookup_replicate [-> _]%lookup_replicate. done.
    - intros i m t Hi [-> _]%lookup_replicate.
      do 6 (destruct i as [|i]; [injection Hi as <-; cbn; eexists; split; [reflexivity|lia]|]). done.
    - repeat (apply Forall_cons; split); [..|by apply Forall_nil]; done. }
  destruct (causality_tests_decide (P := false) (CW := sample_cli) loopback_sequence 2 sample_rig _ r'
    (replicate 6 1700000000%Z) Hrun Hr) as [_ Hlate].
  exact (proj1 (Hlate 1700000000%Z 1700000000%Z Hck eq_refl eq_refl eq_refl)).
Defined.
